(* ===== verification/_CoqProject ===== *)
-Q . S2P
Prelude.v
Params.v
Ring.v
Machine.v
Spinlock.v
Strings.v
Kalloc.v
Uart.v
Printk.v
Sched.v
Race.v
Vm.v
Sleeplock.v
Blockdev.v
Virtio.v
Bio.v
Bcache.v
Log.v
Crash.v
Fs.v
Inode.v
Balloc.v
Bmap.v
Dir.v
Console.v
Pipe.v
File.v
Grow.v
Trunc.v
Proc.v
Exitwait.v
Exec.v
Sysargs.v
Sysfile.v
Sysproc.v
Syscall.v
Trap.v
Boot.v
Ulib.v
Umalloc.v
Uprintf.v
Racetest.v
Uprog.v
Utils.v
Uinit.v
Uls.v
Utests.v
Ufiles.v
Uprocs.v
Udrive.v
Grind.v
Grep.v
Sh.v
Shprint.v
Shrun.v
Mkfs.v
Mkblocks.v
Mkimage.v
