(* ===== verification/Prelude.v ===== *)
(** * xv6-riscv with system call tracing: a verification library

    The repository is the xv6 teaching kernel for RISC-V (src/kernel), with
    two additions: system call tracing (a word in every process, the trace
    system call, a line printed by syscall() and sys_exit(), inheritance by
    fork) and a shared counter that several processes increment with or
    without a lock (kernel/race.c, user/racetest.c).  This library translates
    the C code of the kernel, of the user library and programs and of the
    image builder mkfs into executable Rocq functions and proves what makes
    its components correct.  This file is the root: the shared prelude
    (integers, bytes, memory, automation) follows the overview.

    ** How the code is represented

    - Integers are [Z] with the wrap-around of their C type written out
      ([u8], [u16], [u32], [u64], [s16], [s32], [s64]).
    - Physical memory is a function from addresses to bytes ([mem]); page
      tables, free pages, trapframes and C locals whose address is taken live
      in it.  Statically allocated tables (processes, files, inodes, buffers)
      are lists of records, a pointer into one is an index, a null pointer is
      [None] or 0.  A struct pipe is found by the address of its page.
    - [Machine.kst] is the whole state as one hart sees it: its control
      registers and [struct cpu], all locks, memory, every table, the UART,
      console, log, disk, virtio queue and interrupt controller.
    - A kernel function is a function of type [K A := kst -> res A].  The
      result is [Done] (it returns), [Panic] (it calls panic()), [Stuck]
      (control never leaves it: a spin on a lock held elsewhere, a halted
      machine, or a loop bound of the model), or [Yield s k] (it called
      swtch() in state [s]; [k] continues from whatever state the scheduler
      resumes it in, so everything other processes and harts may do in
      between is left open).  Binding is written as in the source's order of
      statements; guards and early returns are the source's.
    - Loops run with fuel.  Where the source bounds the loop the fuel is that
      bound plus one (the length of the list, table, string or address range;
      stated at each definition), and the theorems about such functions prove
      that they return.  A loop that waits in sleep() has no bound of its
      own; it may go back to sleep [SLEEP_FUEL] times.
    - Locks are named ([lockid]); a free lock is taken, one held by the same
      hart panics, one held by another hart spins.
    - User code: a [char *] that only moves forward through a string is the
      list of the characters left; a buffer is a list; a program that makes
      system calls is a tree of the calls it makes, so that a theorem speaks
      of the calls and not of one kernel's answers.  For programs that end on
      their own the tree is inductive ([Shrun.prog], [Racetest]'s programs);
      the others are interaction trees over [Uprog.sysE], run against a list
      of answers.  The fuel of [Uprog.run] counts steps: a theorem about what
      may be seen holds for every fuel and every list of answers, that is at
      every moment of every run, and a theorem that a program ends gives the
      fuel that is enough.
    - mkfs passes on the image as a list of sectors ([Mkfs.mkst]) and stops
      with [None] at a failed check; the loop of iappend() gets one more than
      the number of its bytes as fuel, as each round writes at least one.

    ** Files, in dependency order

    - Prelude: integers, little-endian bytes, structures in byte blocks,
      memory, sums.  Params: the constants and macros of the headers, and the
      class [Symbols] of the values the linker provides.  Ring: circular
      buffers with free-running 32-bit indices, shared by pipes and console.
    - Machine: the records of proc.h, spinlock.h, sleeplock.h, file.h, buf.h,
      fs.h, log.c, pipe.c, console.c, race.c, virtio.h; [kst]; the monad; the
      [keeps] calculus for framing.
    - Spinlock (spinlock.c, interrupt helpers of riscv.h, cpuid, mycpu,
      myproc), Strings (string.c), Kalloc (kalloc.c), Uart (uart.c, polled
      side, consputc), Printk (printk.c), Sched (sched, yield, sleep, wakeup,
      kill and scheduler of proc.c), Race (race.c, and module Smp: several
      harts running race_increment()).
    - Vm (vm.c and the copying helpers of proc.c), Sleeplock (sleeplock.c).
    - Blockdev: the interface [BlockDev] between the buffer cache and the disk
      driver.  Virtio (virtio_disk.c, plic.c) implements it; Bio (bio.c), Log
      (log.c), Fs (fs.c) and everything above are defined for any instance.
      Bcache states what Bio promises (class [BlockCache]) and proves it;
      Crash uses only that class to prove commit() and recovery, Inode to
      prove readi() and writei() on blocks that are there, Balloc and Bmap to
      prove balloc(), bfree() and bmap(), Dir to prove dirlookup() and
      dirlink(), Grow and Trunc (after File) to prove writei() on files that
      grow and itrunc().
    - Console (console.c, the interrupt side of uart.c, procdump), Pipe
      (pipe.c), File (file.c, pipealloc), Proc (process life cycle of proc.c),
      Exitwait (how kexit() and kwait() of proc.c meet), Exec (exec.c),
      Sysargs (argument fetching of syscall.c), Sysfile (sysfile.c), Sysproc
      (sysproc.c), Syscall (dispatch and tracing of syscall.c), Trap (trap.c
      and forkret), Boot (start.c, main.c and virtio_disk_init()).
    - User side: Ulib (user/ulib.c), Umalloc (user/umalloc.c), Uprintf
      (user/printf.c), Racetest (user/racetest.c, with the kernel it runs on
      as a step relation), Uprog (system calls, running a program, the
      program logic [wlp]), Utils (user/cat.c, user/wc.c), Uinit (user/init.c,
      user/trace.c and the programs of one or two calls), Uls (user/ls.c,
      stat() of user/ulib.c), Utests (user/forktest.c, stressfs.c, logstress.c,
      forphan.c, dorphan.c; start() and sbrk() of user/ulib.c), Ufiles and
      Uprocs (the tests of user/usertests.c about files and about processes
      and arguments), Udrive (its driver and tables of tests), Grind
      (user/grind.c), Grep (user/grep.c), Sh (the parser of user/sh.c),
      Shprint (a printer of commands and its round trip), Shrun (runcmd() of
      user/sh.c).
    - Image builder: Mkfs (the operations of mkfs/mkfs.c on the image),
      Mkblocks (what iappend() builds), Mkimage (main(), and the image as the
      kernel's readers see it).

    ** What is proved

    - Tracing: [syscall_traces] and [syscall_unknown] give the exact effect
      of syscall() for every handler table; [sys_trace_selects] says which
      calls a tracing word selects; [kfork_inherits_tracing] that the child
      of a fork has its parent's word.
    - The shared counter: [locked_no_lost_update], [locked_can_finish] and
      [unlocked_loses_updates] are about all interleavings,
      [race_increment_locked] about the kernel function itself, and
      [racetest_truthful] about what the experiment prints.
    - Locks and scheduling: [spinlock_protocol], [wakeup_exact],
      [sleep_no_lost_wakeup], [scheduler_picks_runnable].
    - Processes: [exit_wakes_parent] and [wait_collects_child] are the two
      sides of the hand-over of an exited child, under one lock, so that
      neither can miss the other.
    - Memory: [kinit_pages] and [kalloc_kfree_pages] on the free list;
      [copyout_copyin] on user memory through the page table.
    - Output and input: [printk_output], [consoleintr_edits] (refinement of
      line editing).
    - Pipes: [pipewrite_appends] and [piperead_takes] (a first-in first-out
      queue of bytes, from and to user memory).
    - Disk and file system: [virtio_moves_block] (the driver does what the
      buffer cache relies on, for every device that follows the virtio
      specification), [bcache_refines] (every sequence of operations on the
      cache behaves as one on an array of blocks), [commit_crash_safe] (a
      crash at any point of commit() followed by recovery leaves all or none
      of the transaction), [commit_full_log_panics] (a transaction that fills
      the log leaves no buffer for its commit), [log_space_reserved] (all
      interleavings of transactions), [writei_readi] (a file as a sequence of
      bytes, through its direct and indirect blocks), [bmap_grows] and
      [writei_grows] (a file that grows, with its blocks taken from the
      bitmap, and the log space this needs), [itrunc_frees] (the way back),
      [dirlink_dirlookup] (a directory as a table of names); lemmas
      [balloc_bfree] and [balloc_full] (the block allocator, also when it is
      out of blocks), [virtio_init_handshake] (the initialisation of the
      disk), [log_write_absorbs], [dinode_roundtrip], [bitmap_alloc_free],
      [path_elements].
    - User side: [ulib_agrees] and [vprintf_agrees_printk] (the user library
      agrees with the kernel's routines), [atoi_printf_roundtrip];
      [match_correct] and [grep_prints_matching] against a declarative
      semantics of patterns; [parsecmd_terminates], [parsecmd_wf] and
      [parsecmd_show] (printing then parsing) for the shell's grammar;
      [runcmd_wiring] for the descriptors a pipeline is given;
      [malloc_free_safe] for malloc() and free() under every client.
    - User programs, whatever the kernel answers: [wc_counts],
      [init_keeps_one_shell], [trace_runs_command] and [usertests_honest]
      (when the driver of the tests may exit 0); lemmas [cat_copies], [echo_ok],
      [ls_lists], [forktest_honest], [logstress_reports],
      [grind_keeps_nothing] (descriptors and children in its endless run) and
      [do_rand_minstd] (its random numbers).
    - Image builder: [mkfs_builds_image], the kernel's readers find in the
      image every file with its contents, the root directory and the bitmap.

    ** What is assumed and what is left out

    - The values of linker symbols are a parameter ([Symbols], instantiated
      by [built_kernel]); the disk device is a parameter constrained by
      [virtio_blk], instantiated by [device_step].
    - The hardware page-table walk and its caching are not modelled: user
      code does not run in the model, sfence.vma has no effect, and memory
      fences are no-ops because a hart sees its own accesses in order.
    - The kernel's answer to sbrk() is a parameter of Umalloc, the values of
      the disk's registers one of Boot ([virtio_mmio], instantiated by
      [qemu_disk]).
    - Of user/usertests.c, thirteen tests (copyinstr3, mem, sbrkbasic,
      sbrkmuch, kernmem, MAXVAplus, stacktest, nowrite, sbrklast, sbrk8000,
      lazy_alloc, lazy_unmap, lazy_sbrk) are a parameter of the table of tests: their outcome depends on loads
      and stores of user code that fault, or that touch memory which sbrk()
      moves, and user code does not run in the model.
    - Not modelled: the assembly files (swtch() appears as [Yield]).

    ** What would come next

    Path lookup on top of [dirlink_dirlookup], the trap paths, exec. *)

From stdpp Require Export base tactics option list gmap numbers strings.
From Stdlib Require Export ZArith Lia.

Global Set Default Goal Selector "1".

Declare Scope xv6_scope.
Delimit Scope xv6_scope with xv6.
Global Open Scope Z_scope.

Create HintDb xv6.
Create Rewrite HintDb xv6.

(** ** Machine integers

    A C object of an unsigned type of [w] bits is a [Z] in [0, 2^w); of a
    signed type a [Z] in [-2^(w-1), 2^(w-1)).  Arithmetic is done in [Z] and
    brought back into range with the wrap-around below wherever the C
    expression is stored or converted. *)
Definition wrap_u (w x : Z) : Z := x mod 2 ^ w.
Definition wrap_s (w x : Z) : Z := (x + 2 ^ (w - 1)) mod 2 ^ w - 2 ^ (w - 1).

(** The typedefs of kernel/types.h. *)
Definition u8 (x : Z) : Z := wrap_u 8 x.
Definition u16 (x : Z) : Z := wrap_u 16 x.
Definition u32 (x : Z) : Z := wrap_u 32 x.
Definition u64 (x : Z) : Z := wrap_u 64 x.
Definition s16 (x : Z) : Z := wrap_s 16 x.
Definition s32 (x : Z) : Z := wrap_s 32 x.
Definition s64 (x : Z) : Z := wrap_s 64 x.

#[global] Arguments Z.testbit : simpl never.
#[global] Arguments Z.land : simpl never.
#[global] Arguments Z.lor : simpl never.
#[global] Arguments Z.ldiff : simpl never.
#[global] Arguments Z.shiftl : simpl never.
#[global] Arguments Z.shiftr : simpl never.
#[global] Arguments Z.modulo : simpl never.
#[global] Arguments Z.div : simpl never.
#[global] Arguments Z.pow : simpl never.
#[global] Arguments Z.mul : simpl never.
#[global] Arguments Z.add : simpl never.
#[global] Arguments Z.sub : simpl never.
#[global] Arguments Z.eqb : simpl never.
#[global] Arguments Z.ltb : simpl never.
#[global] Arguments Z.leb : simpl never.
Arguments wrap_u : simpl never.
Arguments wrap_s : simpl never.
Arguments u8 : simpl never.
Arguments u16 : simpl never.
Arguments u32 : simpl never.
Arguments u64 : simpl never.
Arguments s16 : simpl never.
Arguments s32 : simpl never.
Arguments s64 : simpl never.

(** Truth value of a C scalar in a condition. *)
Definition truthy (x : Z) : bool := negb (x =? 0).
Definition b2z (b : bool) : Z := if b then 1 else 0.

Arguments truthy : simpl never.

Section wraps.
  Implicit Types w x y : Z.

Lemma wrap_u_range w x : 0 <= w -> 0 <= wrap_u w x < 2 ^ w.
Proof. intros. apply Z.mod_pos_bound. lia. Qed.

Lemma wrap_u_small w x : 0 <= x < 2 ^ w -> wrap_u w x = x.
Proof. apply Z.mod_small. Qed.

Lemma wrap_u_idemp w x : 0 <= w -> wrap_u w (wrap_u w x) = wrap_u w x.
Proof. intros. apply wrap_u_small, wrap_u_range. done. Qed.

Lemma wrap_u_add_l w x y : 0 <= w -> wrap_u w (wrap_u w x + y) = wrap_u w (x + y).
Proof. intros. unfold wrap_u. apply Z.add_mod_idemp_l. lia. Qed.

Lemma wrap_u_add_r w x y : 0 <= w -> wrap_u w (x + wrap_u w y) = wrap_u w (x + y).
Proof. intros. unfold wrap_u. apply Z.add_mod_idemp_r. lia. Qed.

Lemma wrap_s_range w x : 1 <= w -> - 2 ^ (w - 1) <= wrap_s w x < 2 ^ (w - 1).
Proof.
  intros Hw. unfold wrap_s.
  pose proof (Z.mod_pos_bound (x + 2 ^ (w - 1)) (2 ^ w)) as Hb.
  assert (2 ^ w = 2 * 2 ^ (w - 1)) as ->.
  { replace w with (Z.succ (w - 1)) at 1 by lia. rewrite Z.pow_succ_r; lia. }
  assert (0 < 2 ^ (w - 1)) by lia.
  pose proof (Z.mod_pos_bound (x + 2 ^ (w - 1)) (2 * 2 ^ (w - 1))). lia.
Qed.

Lemma wrap_s_small w x : 1 <= w -> - 2 ^ (w - 1) <= x < 2 ^ (w - 1) -> wrap_s w x = x.
Proof.
  intros Hw Hx. unfold wrap_s.
  assert (2 ^ w = 2 * 2 ^ (w - 1)).
  { replace w with (Z.succ (w - 1)) at 1 by lia. rewrite Z.pow_succ_r; lia. }
  rewrite Z.mod_small; lia.
Qed.

Lemma wrap_s_add_l w x y : 1 <= w -> wrap_s w (wrap_s w x + y) = wrap_s w (x + y).
Proof.
  intros Hw. unfold wrap_s. f_equal.
  replace ((x + 2 ^ (w - 1)) mod 2 ^ w - 2 ^ (w - 1) + y + 2 ^ (w - 1))
    with ((x + 2 ^ (w - 1)) mod 2 ^ w + y) by lia.
  rewrite Z.add_mod_idemp_l by lia. f_equal. lia.
Qed.

(** Converting a signed result back to the same unsigned width keeps the bits. *)
Lemma wrap_u_wrap_s w x : 1 <= w -> wrap_u w (wrap_s w x) = wrap_u w x.
Proof.
  intros Hw. unfold wrap_u, wrap_s.
  rewrite Zminus_mod_idemp_l. f_equal. lia.
Qed.

End wraps.

Lemma u8_range x : 0 <= u8 x < 256.
Proof. apply (wrap_u_range 8 x). lia. Qed.
Lemma u16_range x : 0 <= u16 x < 65536.
Proof. apply (wrap_u_range 16 x). lia. Qed.
Lemma u32_range x : 0 <= u32 x < 4294967296.
Proof. apply (wrap_u_range 32 x). lia. Qed.
Lemma u64_range x : 0 <= u64 x < 18446744073709551616.
Proof. apply (wrap_u_range 64 x). lia. Qed.
Lemma s32_range x : -2147483648 <= s32 x < 2147483648.
Proof. apply (wrap_s_range 32 x). lia. Qed.

Lemma u8_small x : 0 <= x < 256 -> u8 x = x.
Proof. apply (wrap_u_small 8 x). Qed.
Lemma u16_small x : 0 <= x < 65536 -> u16 x = x.
Proof. apply (wrap_u_small 16 x). Qed.
Lemma u32_small x : 0 <= x < 4294967296 -> u32 x = x.
Proof. apply (wrap_u_small 32 x). Qed.
Lemma u64_small x : 0 <= x < 18446744073709551616 -> u64 x = x.
Proof. apply (wrap_u_small 64 x). Qed.
Lemma s32_small x : -2147483648 <= x < 2147483648 -> s32 x = x.
Proof. apply (wrap_s_small 32 x). lia. Qed.
Lemma s64_small x : -9223372036854775808 <= x < 9223372036854775808 -> s64 x = x.
Proof. apply (wrap_s_small 64 x). lia. Qed.

Lemma truthy_true x : truthy x = true <-> x <> 0.
Proof. unfold truthy. destruct (Z.eqb_spec x 0); naive_solver. Qed.
Lemma truthy_false x : truthy x = false <-> x = 0.
Proof. unfold truthy. destruct (Z.eqb_spec x 0); naive_solver. Qed.
Lemma truthy_b2z b : truthy (b2z b) = b.
Proof. by destruct b. Qed.

#[export] Hint Rewrite truthy_b2z : xv6.
(** Wrapping once at the end is enough. *)
Lemma u32_idem x : u32 (u32 x) = u32 x.
Proof. by apply (wrap_u_idemp 32). Qed.
Lemma u32_add_l x y : u32 (u32 x + y) = u32 (x + y).
Proof. unfold u32, wrap_u. apply Zplus_mod_idemp_l. Qed.
Lemma u32_sub_l x y : u32 (u32 x - y) = u32 (x - y).
Proof. unfold u32, wrap_u. apply Zminus_mod_idemp_l. Qed.

#[export] Hint Resolve u8_range u16_range u32_range u64_range s32_range : xv6.

(** Case analysis on every boolean integer comparison in the goal or in a
    hypothesis, leaving the comparison as an arithmetic fact for [lia]. *)
Ltac zcase_bool b :=
  lazymatch b with
  | (?x =? ?y)%Z => destruct (Z.eqb_spec x y)
  | (?x <? ?y)%Z => destruct (Z.ltb_spec x y)
  | (?x <=? ?y)%Z => destruct (Z.leb_spec x y)
  | (?x >? ?y)%Z => rewrite (Z.gtb_ltb x y) in *; destruct (Z.ltb_spec y x)
  | (?x >=? ?y)%Z => rewrite (Z.geb_leb x y) in *; destruct (Z.leb_spec y x)
  end.

Ltac zcase_step :=
  match goal with
  | |- context [(?x =? ?y)%Z] => zcase_bool (x =? y)%Z
  | |- context [(?x <? ?y)%Z] => zcase_bool (x <? y)%Z
  | |- context [(?x <=? ?y)%Z] => zcase_bool (x <=? y)%Z
  | |- context [(?x >? ?y)%Z] => zcase_bool (x >? y)%Z
  | |- context [(?x >=? ?y)%Z] => zcase_bool (x >=? y)%Z
  | H : context [(?x =? ?y)%Z] |- _ => zcase_bool (x =? y)%Z
  | H : context [(?x <? ?y)%Z] |- _ => zcase_bool (x <? y)%Z
  | H : context [(?x <=? ?y)%Z] |- _ => zcase_bool (x <=? y)%Z
  end.

Ltac zcases := repeat (zcase_step; simpl in *; try lia).

(** ** Little-endian byte strings *)
Fixpoint le_bytes (n : nat) (v : Z) : list Z :=
  match n with
  | O => []
  | S k => v mod 256 :: le_bytes k (v / 256)
  end.

Fixpoint le_val (bs : list Z) : Z :=
  match bs with
  | [] => 0
  | b :: r => b + 256 * le_val r
  end.

Definition is_byte (b : Z) : Prop := 0 <= b < 256.

Lemma le_bytes_length n v : length (le_bytes n v) = n.
Proof. revert v. induction n; intros; simpl; auto. Qed.

Lemma le_bytes_byte n v : Forall is_byte (le_bytes n v).
Proof.
  revert v. induction n; intros; simpl; constructor; auto.
  apply Z.mod_pos_bound. lia.
Qed.

Lemma le_val_le_bytes n v : le_val (le_bytes n v) = v mod 2 ^ (8 * Z.of_nat n).
Proof.
  revert v. induction n as [|n IH]; intros v.
  - by rewrite Z.mod_1_r.
  - cbn [le_bytes le_val]. rewrite IH.
    replace (8 * Z.of_nat (S n)) with (8 + 8 * Z.of_nat n) by lia.
    rewrite Z.pow_add_r by lia. change (2 ^ 8) with 256.
    rewrite Z.rem_mul_r by lia. lia.
Qed.

Lemma le_val_range bs :
  Forall is_byte bs -> 0 <= le_val bs < 2 ^ (8 * Z.of_nat (length bs)).
Proof.
  induction 1 as [|b bs Hb _ IH]; cbn [le_val length]; [lia|].
  replace (8 * Z.of_nat (S (length bs))) with (8 + 8 * Z.of_nat (length bs)) by lia.
  rewrite Z.pow_add_r by lia. change (2 ^ 8) with 256. unfold is_byte in Hb. lia.
Qed.

Lemma le_bytes_le_val bs : Forall is_byte bs -> le_bytes (length bs) (le_val bs) = bs.
Proof.
  induction 1 as [|b bs Hb _ IH]; cbn [le_val le_bytes length]; [done|].
  unfold is_byte in Hb. f_equal.
  - rewrite Z.mul_comm, Z_mod_plus_full. apply Z.mod_small. lia.
  - rewrite Z.mul_comm, Z_div_plus_full by lia. rewrite Z.div_small by lia. done.
Qed.

(** *** Single bits *)
Lemma truthy_land_bit x k : 0 <= k -> truthy (Z.land x (Z.shiftl 1 k)) = Z.testbit x k.
Proof.
  intros Hk. assert (Z.land x (Z.shiftl 1 k) = if Z.testbit x k then Z.shiftl 1 k else 0) as ->.
  { apply Z.bits_inj'. intros i Hi. rewrite Z.land_spec, Z.shiftl_1_l, Z.pow2_bits_eqb by done.
    destruct (Z.eqb_spec k i) as [<-|Hne].
    - destruct (Z.testbit x k); [|by rewrite Z.testbit_0_l].
      by rewrite Z.pow2_bits_true.
    - rewrite andb_false_r. destruct (Z.testbit x k); [|by rewrite Z.testbit_0_l].
      by rewrite Z.pow2_bits_false. }
  destruct (Z.testbit x k); [|done]. rewrite Z.shiftl_1_l. unfold truthy.
  destruct (Z.eqb_spec (2 ^ k) 0); [|done]. pose proof (Z.pow_pos_nonneg 2 k). lia.
Qed.

(** *** Structures laid out in a block of bytes *)
Definition bytes_at (data : list Z) (off n : nat) : list Z := take n (drop off data).
Definition put_bytes (data : list Z) (off : nat) (bs : list Z) : list Z :=
  take off data ++ bs ++ drop (off + length bs) data.

Section layout.
Context (data : list Z) (off : nat) (bs : list Z) (fits : (off + length bs <= length data)%nat).

Lemma length_put_bytes : length (put_bytes data off bs) = length data.
Proof using fits. unfold put_bytes. rewrite !length_app, length_take, length_drop. lia. Qed.

(** What is stored is read back, in whole or in part. *)
Lemma bytes_at_put k n :
  (k + n <= length bs)%nat -> bytes_at (put_bytes data off bs) (off + k) n = bytes_at bs k n.
Proof using fits.
  intros Hk. unfold bytes_at, put_bytes. rewrite <- drop_drop.
  rewrite drop_app_length' by (rewrite length_take; lia).
  rewrite drop_app_le by lia. apply take_app_le. rewrite length_drop. lia.
Qed.

(** What lies outside is unchanged. *)
Lemma bytes_at_put_ne off' n :
  (off' + n <= off \/ off + length bs <= off')%nat ->
  bytes_at (put_bytes data off bs) off' n = bytes_at data off' n.
Proof using fits.
  intros Ho. unfold bytes_at. apply list_eq. intros i.
  destruct (decide (i < n)%nat); [|by rewrite !lookup_take_ge by lia].
  rewrite !lookup_take_lt, !lookup_drop by done. unfold put_bytes. destruct Ho as [Ho|Ho].
  - rewrite lookup_app_l by (rewrite length_take; lia). apply lookup_take_lt. lia.
  - rewrite lookup_app_r by (rewrite length_take; lia).
    rewrite lookup_app_r by (rewrite length_take; lia).
    rewrite lookup_drop, length_take. f_equal. lia.
Qed.
End layout.

(** An array of little-endian integers. *)
Lemma bytes_at_array w (l : list Z) i v :
  l !! i = Some v -> bytes_at (mjoin (le_bytes w <$> l)) (w * i) w = le_bytes w v.
Proof.
  revert i. induction l as [|x l IH]; intros [|i] Hi; try done; cbn [fmap list_fmap mjoin list_join].
  - injection Hi as ->. rewrite Nat.mul_0_r. unfold bytes_at. rewrite drop_0.
    apply take_app_length'. by rewrite le_bytes_length.
  - unfold bytes_at. replace (w * S i)%nat with (w + w * i)%nat by lia. rewrite <- drop_drop.
    rewrite drop_app_length' by by rewrite le_bytes_length. by apply IH.
Qed.

Lemma length_array w (l : list Z) : length (mjoin (le_bytes w <$> l)) = (w * length l)%nat.
Proof.
  induction l as [|x l IH]; [cbn; lia|]. rewrite fmap_cons. cbn [length].
  change (mjoin (?h :: ?t)) with (h ++ mjoin t). rewrite length_app, le_bytes_length, IH. lia.
Qed.

(** ** Byte-addressed memory, as the kernel sees it through its direct map *)
Definition mem := Z -> Z.

Definition mem_load (m : mem) (a : Z) (n : nat) : list Z :=
  (fun i => m (a + Z.of_nat i)) <$> seq 0 n.

Definition mem_store (m : mem) (a : Z) (bs : list Z) : mem := fun x =>
  if (a <=? x) && (x <? a + Z.of_nat (length bs))
  then bs !!! Z.to_nat (x - a) else m x.

Definition ld8 (m : mem) (a : Z) : Z := m a.
Definition st8 (m : mem) (a v : Z) : mem := mem_store m a [u8 v].
Definition ld32 (m : mem) (a : Z) : Z := le_val (mem_load m a 4).
Definition st32 (m : mem) (a v : Z) : mem := mem_store m a (le_bytes 4 v).
Definition ld64 (m : mem) (a : Z) : Z := le_val (mem_load m a 8).
Definition st64 (m : mem) (a v : Z) : mem := mem_store m a (le_bytes 8 v).

Arguments mem_load : simpl never.
Arguments mem_store : simpl never.
Arguments ld32 : simpl never.
Arguments st32 : simpl never.
Arguments ld64 : simpl never.
Arguments st64 : simpl never.

Section memory.
  Implicit Types m : mem.

Lemma mem_load_length m a n : length (mem_load m a n) = n.
Proof. unfold mem_load. by rewrite length_fmap, length_seq. Qed.

Lemma mem_load_lookup m a n i :
  (i < n)%nat -> mem_load m a n !! i = Some (m (a + Z.of_nat i)).
Proof. intros. unfold mem_load. by rewrite list_lookup_fmap, lookup_seq_lt. Qed.

Lemma mem_store_in m a bs x :
  a <= x < a + Z.of_nat (length bs) -> mem_store m a bs x = bs !!! Z.to_nat (x - a).
Proof. intros. unfold mem_store. zcases; done. Qed.

Lemma mem_store_out m a bs x :
  ~ (a <= x < a + Z.of_nat (length bs)) -> mem_store m a bs x = m x.
Proof. intros. unfold mem_store. zcases; try done. Qed.

Lemma mem_load_ext m m' a n :
  (forall x, a <= x < a + Z.of_nat n -> m x = m' x) -> mem_load m a n = mem_load m' a n.
Proof.
  intros H. apply list_eq. intros i. destruct (decide (i < n)%nat).
  - rewrite !mem_load_lookup by done. f_equal. apply H. lia.
  - rewrite !lookup_ge_None_2; rewrite ?mem_load_length; try done; lia.
Qed.

Lemma mem_load_store_same m a bs : mem_load (mem_store m a bs) a (length bs) = bs.
Proof.
  apply list_eq. intros i. destruct (decide (i < length bs)%nat).
  - rewrite mem_load_lookup, mem_store_in by lia.
    replace (Z.to_nat (a + Z.of_nat i - a)) with i by lia.
    symmetry. by apply list_lookup_lookup_total_lt.
  - rewrite !lookup_ge_None_2; rewrite ?mem_load_length; try done; lia.
Qed.

Lemma mem_load_store_other m a bs b n :
  b + Z.of_nat n <= a \/ a + Z.of_nat (length bs) <= b ->
  mem_load (mem_store m a bs) b n = mem_load m b n.
Proof. intros. apply mem_load_ext. intros. apply mem_store_out. lia. Qed.

Lemma ld64_st64_same m a v : ld64 (st64 m a v) a = u64 v.
Proof.
  unfold ld64, st64.
  pose proof (mem_load_store_same m a (le_bytes 8 v)) as H.
  rewrite le_bytes_length in H. rewrite H. apply le_val_le_bytes.
Qed.

Lemma ld64_st64_other m a b v : b + 8 <= a \/ a + 8 <= b -> ld64 (st64 m a v) b = ld64 m b.
Proof.
  intros. unfold ld64, st64. rewrite mem_load_store_other; [done|].
  rewrite le_bytes_length. lia.
Qed.

Lemma ld64_ext m m' a :
  (forall x, a <= x < a + 8 -> m x = m' x) -> ld64 m a = ld64 m' a.
Proof. intros. unfold ld64. by rewrite (mem_load_ext m m'). Qed.

Lemma ld32_st32_same m a v : ld32 (st32 m a v) a = u32 v.
Proof.
  unfold ld32, st32.
  pose proof (mem_load_store_same m a (le_bytes 4 v)) as H.
  rewrite le_bytes_length in H. rewrite H. apply le_val_le_bytes.
Qed.

Lemma ld32_ext m m' a :
  (forall x, a <= x < a + 4 -> m x = m' x) -> ld32 m a = ld32 m' a.
Proof. intros. unfold ld32. by rewrite (mem_load_ext m m'). Qed.

End memory.

(** ** String literals as bytes *)
Definition str (s : string) : list Z :=
  (fun c => Z.of_N (Ascii.N_of_ascii c)) <$> String.list_ascii_of_string s.
Definition chr (s : string) : Z := default 0 (head (str s)).

(** ** Sums over a table *)
Fixpoint zsum {A} (f : A -> Z) (l : list A) : Z :=
  match l with
  | [] => 0
  | x :: r => f x + zsum f r
  end.

Lemma zsum_insert {A} (f : A -> Z) (l : list A) i x y :
  l !! i = Some x -> zsum f (<[i := y]> l) = zsum f l - f x + f y.
Proof.
  revert i. induction l as [|z l IH]; intros [|i] H; simplify_eq/=; [lia|].
  rewrite (IH i) by done. lia.
Qed.

Lemma zsum_ext {A} (f g : A -> Z) (l : list A) :
  (forall x, x ∈ l -> f x = g x) -> zsum f l = zsum g l.
Proof.
  induction l as [|x l IH]; intros H; [done|]. cbn.
  rewrite H, IH; [done| |by left]. intros y Hy. apply H. by right.
Qed.

Lemma zsum_const {A} (f : A -> Z) (c : Z) (l : list A) :
  (forall x, x ∈ l -> f x = c) -> zsum f l = c * Z.of_nat (length l).
Proof.
  induction l as [|x l IH]; intros H; cbn [zsum length]; [lia|].
  rewrite H by by left. rewrite IH; [lia|]. intros y Hy. apply H. by right.
Qed.

Lemma zsum_nonneg {A} (f : A -> Z) (l : list A) :
  (forall x, x ∈ l -> 0 <= f x) -> 0 <= zsum f l.
Proof.
  induction l as [|x l IH]; intros H; cbn; [lia|].
  assert (0 <= f x) by (apply H; by left).
  assert (0 <= zsum f l) by (apply IH; intros y Hy; apply H; by right). lia.
Qed.

Lemma zsum_le {A} (f : A -> Z) (k : Z) (l : list A) :
  (forall x, x ∈ l -> f x <= k) -> zsum f l <= Z.of_nat (length l) * k.
Proof.
  induction l as [|x l IH]; intros H; cbn [zsum length]; [lia|].
  assert (f x <= k) by (apply H; by left).
  assert (zsum f l <= Z.of_nat (length l) * k) by (apply IH; intros ? ?; apply H; by right).
  lia.
Qed.

(** One entry below the bound keeps the sum as far below its own bound. *)
Lemma zsum_le_at {A} (f : A -> Z) (k : Z) (l : list A) i y :
  (forall x, x ∈ l -> f x <= k) -> l !! i = Some y ->
  zsum f l <= Z.of_nat (length l) * k - (k - f y).
Proof.
  intros Hle. revert i. induction l as [|x l IH]; intros [|i] H; simplify_eq/=.
  - assert (zsum f l <= Z.of_nat (length l) * k)
      by (apply zsum_le; intros ? ?; apply Hle; by right). lia.
  - assert (f x <= k) by (apply Hle; by left).
    assert (zsum f l <= Z.of_nat (length l) * k - (k - f y)); [|lia].
    apply (IH (fun z Hz => Hle z (list_elem_of_further _ _ _ Hz)) _ H).
Qed.

(** The number of distinct elements of a list. *)
Lemma size_list_to_set_le (l : list Z) : (size (list_to_set l : gset Z) <= length l)%nat.
Proof.
  induction l as [|x l IH]; [done|]. rewrite list_to_set_cons, size_union_alt, size_singleton. cbn [length].
  pose proof (subseteq_size ((list_to_set l : gset Z) ∖ {[x]}) (list_to_set l) ltac:(set_solver)). lia.
Qed.
