(* ===== verification/Params.v ===== *)
(** * Params: constants and address arithmetic

    kernel/param.h, memlayout.h, fs.h, fcntl.h, stat.h, vm.h, syscall.h and the
    page-table macros of riscv.h. *)

From S2P Require Import Prelude.

(** ** kernel/param.h *)
Definition NPROC : nat := 64.
Definition NCPU : Z := 8.
Definition NOFILE : nat := 16.
Definition NFILE : nat := 100.
Definition NINODE : nat := 50.
Definition NDEV : Z := 10.
Definition ROOTDEV : Z := 1.
Definition MAXARG : nat := 32.
Definition MAXOPBLOCKS : Z := 10.
Definition LOGBLOCKS : Z := MAXOPBLOCKS * 3.
Definition NBUF : nat := 30.
Definition FSSIZE : Z := 2000.
Definition MAXPATH : Z := 128.
Definition USERSTACK : Z := 1.

(** ** kernel/riscv.h: pages, page-table entries, virtual addresses *)
Definition PGSIZE : Z := 4096.
Definition PGSHIFT : Z := 12.

(** [(sz + PGSIZE - 1) & ~(PGSIZE - 1)] on uint64. *)
Definition PGROUNDUP (sz : Z) : Z := Z.land (u64 (sz + PGSIZE - 1)) (u64 (Z.lnot (PGSIZE - 1))).
Definition PGROUNDDOWN (a : Z) : Z := Z.land a (u64 (Z.lnot (PGSIZE - 1))).

Definition PTE_V : Z := Z.shiftl 1 0.
Definition PTE_R : Z := Z.shiftl 1 1.
Definition PTE_W : Z := Z.shiftl 1 2.
Definition PTE_X : Z := Z.shiftl 1 3.
Definition PTE_U : Z := Z.shiftl 1 4.

Definition PA2PTE (pa : Z) : Z := u64 (Z.shiftl (Z.shiftr pa 12) 10).
Definition PTE2PA (pte : Z) : Z := u64 (Z.shiftl (Z.shiftr pte 10) 12).
Definition PTE_FLAGS (pte : Z) : Z := Z.land pte 0x3FF.

Definition PXMASK : Z := 0x1FF.
Definition PXSHIFT (level : Z) : Z := PGSHIFT + 9 * level.
Definition PX (level va : Z) : Z := Z.land (Z.shiftr va (PXSHIFT level)) PXMASK.

Definition MAXVA : Z := Z.shiftl 1 (9 + 9 + 9 + 12 - 1).

Definition SATP_SV39 : Z := Z.shiftl 8 60.
Definition MAKE_SATP (pagetable : Z) : Z := Z.lor SATP_SV39 (Z.shiftr pagetable 12).

Definition SSTATUS_SPP : Z := Z.shiftl 1 8.
Definition SSTATUS_SPIE : Z := Z.shiftl 1 5.
Definition SSTATUS_SIE : Z := Z.shiftl 1 1.

(** ** kernel/memlayout.h *)
Definition UART0 : Z := 0x10000000.
Definition UART0_IRQ : Z := 10.
Definition VIRTIO0 : Z := 0x10001000.
Definition VIRTIO0_IRQ : Z := 1.
Definition PLIC : Z := 0x0c000000.
Definition KERNBASE : Z := 0x80000000.
Definition PHYSTOP : Z := KERNBASE + 128 * 1024 * 1024.
Definition TRAMPOLINE : Z := MAXVA - PGSIZE.
Definition KSTACK (p : Z) : Z := TRAMPOLINE - (p + 1) * 2 * PGSIZE.
Definition TRAPFRAME : Z := TRAMPOLINE - PGSIZE.

(** ** kernel/fs.h *)
Definition ROOTINO : Z := 1.
Definition BSIZE : Z := 1024.
Definition FSMAGIC : Z := 0x10203040.
Definition NDIRECT : Z := 12.
Definition NINDIRECT : Z := BSIZE / 4.
Definition MAXFILE : Z := NDIRECT + NINDIRECT.
(** [sizeof(struct dinode)]: four shorts, a uint and [NDIRECT + 1] uints. *)
Definition DINODE_SIZE : Z := 64.
Definition IPB : Z := BSIZE / DINODE_SIZE.
Definition BPB : Z := BSIZE * 8.
Definition DIRSIZ : Z := 14.
(** [sizeof(struct dirent)]: a ushort and [DIRSIZ] chars. *)
Definition DIRENT_SIZE : Z := 16.

(** ** kernel/stat.h, kernel/fcntl.h, kernel/vm.h *)
Definition T_DIR : Z := 1.
Definition T_FILE : Z := 2.
Definition T_DEVICE : Z := 3.
Definition O_RDONLY : Z := 0x000.
Definition O_WRONLY : Z := 0x001.
Definition O_RDWR : Z := 0x002.
Definition O_CREATE : Z := 0x200.
Definition O_TRUNC : Z := 0x400.
Definition SBRK_EAGER : Z := 1.
Definition SBRK_LAZY : Z := 2.
Definition CONSOLE : Z := 1.

(** ** kernel/syscall.h *)
Definition SYS_fork : Z := 1.
Definition SYS_exit : Z := 2.
Definition SYS_wait : Z := 3.
Definition SYS_pipe : Z := 4.
Definition SYS_read : Z := 5.
Definition SYS_kill : Z := 6.
Definition SYS_exec : Z := 7.
Definition SYS_fstat : Z := 8.
Definition SYS_chdir : Z := 9.
Definition SYS_dup : Z := 10.
Definition SYS_getpid : Z := 11.
Definition SYS_sbrk : Z := 12.
Definition SYS_pause : Z := 13.
Definition SYS_uptime : Z := 14.
Definition SYS_open : Z := 15.
Definition SYS_write : Z := 16.
Definition SYS_mknod : Z := 17.
Definition SYS_unlink : Z := 18.
Definition SYS_link : Z := 19.
Definition SYS_mkdir : Z := 20.
Definition SYS_close : Z := 21.
Definition SYS_sync : Z := 22.
Definition SYS_trace : Z := 23.
Definition SYS_race_inc : Z := 24.
Definition SYS_race_get : Z := 25.
Definition SYS_race_reset : Z := 26.

(** ** Offsets of [struct trapframe] (kernel/proc.h), as its comments give them *)
Definition TF_kernel_satp : Z := 0.
Definition TF_kernel_sp : Z := 8.
Definition TF_kernel_trap : Z := 16.
Definition TF_epc : Z := 24.
Definition TF_kernel_hartid : Z := 32.
Definition TF_sp : Z := 48.
Definition TF_a0 : Z := 112.
Definition TF_a1 : Z := 120.
Definition TF_a2 : Z := 128.
Definition TF_a3 : Z := 136.
Definition TF_a4 : Z := 144.
Definition TF_a5 : Z := 152.
Definition TF_a7 : Z := 168.
Definition TF_SIZE : nat := 288.

(** ** Symbols the linker and the assembler define

    Their values come from the build (kernel.ld, trampoline.S), so they are
    parameters of the model.  The kernel's memory starts at KERNBASE, ends
    at [sym_end], and the trampoline code is one page-aligned page of it. *)
Class Symbols := {
  sym_end : Z;
  sym_etext : Z;
  sym_trampoline : Z;
  sym_uservec : Z;
  sym_userret : Z;
  sym_usertrap : Z;
  sym_kernelvec : Z;
  sym_forkret : Z;
  sym_end_range : KERNBASE < sym_end <= PHYSTOP;
  sym_trampoline_aligned : sym_trampoline mod PGSIZE = 0;
  sym_trampoline_range : KERNBASE <= sym_trampoline /\ sym_trampoline + PGSIZE <= sym_end
}.

(** The values of kernel/kernel.sym, for running the model. *)
Definition built_kernel : Symbols.
Proof.
  refine {| sym_end := 0x80020f88; sym_etext := 0x80007000;
            sym_trampoline := 0x80006000; sym_uservec := 0x80006000;
            sym_userret := 0x8000609c; sym_usertrap := 0x80002546;
            sym_kernelvec := 0x80005450; sym_forkret := 0x80001910 |};
    unfold KERNBASE, PHYSTOP, PGSIZE; first [lia | done].
Defined.

Arguments PGSIZE : simpl never.
Arguments PGROUNDUP : simpl never.
Arguments PGROUNDDOWN : simpl never.
Arguments SSTATUS_SIE : simpl never.
Arguments MAXVA : simpl never.
Arguments PHYSTOP : simpl never.
Arguments KERNBASE : simpl never.
Arguments TRAMPOLINE : simpl never.
Arguments TRAPFRAME : simpl never.
Arguments KSTACK : simpl never.
Arguments PA2PTE : simpl never.
Arguments PTE2PA : simpl never.
Arguments PX : simpl never.
Arguments NPROC : simpl never.
Arguments NOFILE : simpl never.
Arguments NFILE : simpl never.
Arguments NINODE : simpl never.

(** ** Rounding to pages *)
Lemma land_pgmask a : 0 <= a < 2 ^ 64 -> Z.land a (u64 (Z.lnot (PGSIZE - 1))) = a - a mod PGSIZE.
Proof.
  intros Ha.
  assert (a - a mod PGSIZE = Z.ldiff a (Z.ones 12)) as ->.
  { rewrite Z.ldiff_ones_r by lia. rewrite Z.shiftr_div_pow2, Z.shiftl_mul_pow2 by lia.
    unfold PGSIZE. change (2 ^ 12) with 4096. pose proof (Z.div_mod a 4096). lia. }
  unfold u64, wrap_u. change (PGSIZE - 1) with (Z.ones 12).
  rewrite <- Z.land_ones by lia.
  rewrite (Z.land_comm (Z.lnot _)), Z.land_assoc, Z.land_ones by lia.
  rewrite Z.mod_small by lia. symmetry. apply Z.ldiff_land.
Qed.

Lemma PGROUNDDOWN_eq a : 0 <= a < 2 ^ 64 -> PGROUNDDOWN a = a - a mod PGSIZE.
Proof. apply land_pgmask. Qed.

Lemma PGROUNDUP_eq a :
  0 <= a <= 2 ^ 64 - PGSIZE -> PGROUNDUP a = (a + PGSIZE - 1) - (a + PGSIZE - 1) mod PGSIZE.
Proof.
  intros Ha. unfold PGROUNDUP. unfold PGSIZE in *.
  rewrite u64_small by lia. apply land_pgmask. unfold PGSIZE. lia.
Qed.

Lemma PGROUNDUP_ge a : 0 <= a <= 2 ^ 64 - PGSIZE -> a <= PGROUNDUP a < a + PGSIZE.
Proof.
  intros. rewrite PGROUNDUP_eq by done. unfold PGSIZE in *.
  pose proof (Z.mod_pos_bound (a + 4096 - 1) 4096). lia.
Qed.

Lemma PGROUNDUP_aligned a : 0 <= a <= 2 ^ 64 - PGSIZE -> PGROUNDUP a mod PGSIZE = 0.
Proof.
  intros. rewrite PGROUNDUP_eq by done. unfold PGSIZE.
  rewrite Zminus_mod_idemp_r, Z.sub_diag. done.
Qed.

Lemma PGROUNDUP_aligned_id a :
  0 <= a <= 2 ^ 64 - PGSIZE -> a mod PGSIZE = 0 -> PGROUNDUP a = a.
Proof.
  intros Ha Hm. rewrite PGROUNDUP_eq by done. unfold PGSIZE in *.
  replace (a + 4096 - 1) with (4095 + a) by lia.
  rewrite Zplus_mod, Hm. change ((4095 mod 4096 + 0) mod 4096) with 4095. lia.
Qed.
