(* ===== verification/Ring.v ===== *)
(** * Ring: circular buffers with free-running 32-bit indices

    pipe.c and console.c keep bytes in an array of [N] slots and two [uint]
    indices that are only reduced modulo [N] when the array is accessed.
    [ring N buf r e q] says that the slots from index [r] up to index [e]
    hold the queue [q]; the indices may wrap around, which is harmless
    because [N] divides 2^32. *)

From S2P Require Import Prelude.

(** Array slot of a free-running index. *)
Definition slot (N i : Z) : nat := Z.to_nat (i mod N).

Record ring (N : Z) (buf : list Z) (r e : Z) (q : list Z) : Prop := {
  ring_r : 0 <= r < 2 ^ 32;
  ring_len : Z.of_nat (length buf) = N;
  ring_cap : Z.of_nat (length q) <= N;
  ring_e : e = u32 (r + Z.of_nat (length q));
  ring_nth i c : q !! i = Some c -> buf !!! slot N (r + Z.of_nat i) = c
}.

Section ring.
Context (N : Z) (N_pos : 0 < N < 2 ^ 32) (N_div : (N | 2 ^ 32)).

Lemma slot_u32 i : slot N (u32 i) = slot N i.
Proof.
  unfold slot. unfold u32, wrap_u. f_equal. destruct N_div as [k Hk].
  rewrite Hk, Z.mul_comm. rewrite Z.rem_mul_r by lia.
  rewrite Z.mul_comm, Z_mod_plus_full. apply Z.mod_mod. lia.
Qed.

Lemma slot_lt i : (slot N i < Z.to_nat N)%nat.
Proof. unfold slot. pose proof (Z.mod_pos_bound i N). lia. Qed.

(** Fewer than [N] slots apart, different indices are different slots. *)
Lemma slot_inj i j : 0 <= j - i < N -> slot N i = slot N j -> i = j.
Proof.
  unfold slot. intros Hd Heq.
  pose proof (Z.mod_pos_bound i N). pose proof (Z.mod_pos_bound j N).
  assert (i mod N = j mod N) as Hm by lia.
  assert ((j - i) mod N = 0) as Hz by (rewrite Zminus_mod, Hm, Z.sub_diag; apply Zmod_0_l).
  rewrite Z.mod_small in Hz by lia. lia.
Qed.

Lemma ring_nil buf r : 0 <= r < 2 ^ 32 -> Z.of_nat (length buf) = N -> ring N buf r r [].
Proof. intros Hr Hl. split; [done|done|cbn; lia| |done]. cbn. rewrite Z.add_0_r. symmetry. by apply u32_small. Qed.

Lemma ring_push buf r e q c :
  ring N buf r e q -> Z.of_nat (length q) < N ->
  ring N (<[slot N e := c]> buf) r (u32 (e + 1)) (q ++ [c]).
Proof.
  intros [Hr Hl Hc -> Hn] Hlt. split; [done|by rewrite length_insert|rewrite length_app; cbn; lia| |].
  - rewrite length_app, u32_add_l. f_equal. cbn. lia.
  - intros i d Hi. rewrite slot_u32. apply lookup_app_Some in Hi as [Hi|[Hi1 Hi2]].
    + pose proof (lookup_lt_Some _ _ _ Hi). rewrite list_lookup_total_insert_ne; [by apply Hn|].
      intros Heq. symmetry in Heq. apply slot_inj in Heq; lia.
    + apply list_lookup_singleton_Some in Hi2 as [Hi2 <-].
      replace i with (length q) by lia. apply list_lookup_total_insert_eq.
      pose proof (slot_lt (r + Z.of_nat (length q))). lia.
Qed.

Lemma ring_pop buf r e c q :
  ring N buf r e (c :: q) -> buf !!! slot N r = c /\ ring N buf (u32 (r + 1)) e q.
Proof.
  intros [Hr Hl Hc -> Hn]. split.
  - rewrite <- (Hn 0%nat c eq_refl). do 2 f_equal. lia.
  - split; [apply u32_range|done|cbn in Hc; lia| |].
    + rewrite u32_add_l. f_equal. cbn. lia.
    + intros i d Hi. rewrite <- (Hn (S i) d Hi). unfold slot at 1.
      fold (slot N (u32 (r + 1) + Z.of_nat i)). rewrite <- slot_u32, u32_add_l, slot_u32.
      do 2 f_equal. lia.
Qed.

Lemma ring_drop buf r e q c :
  ring N buf r e (q ++ [c]) -> buf !!! slot N (u32 (e - 1)) = c /\ ring N buf r (u32 (e - 1)) q.
Proof.
  intros [Hr Hl Hc -> Hn]. rewrite length_app in *. cbn in *.
  replace (u32 (u32 (r + Z.of_nat (length q + 1)) - 1)) with (u32 (r + Z.of_nat (length q))).
  2:{ rewrite u32_sub_l. f_equal. lia. }
  split.
  - rewrite slot_u32. apply Hn. by apply list_lookup_middle.
  - split; [done|done|lia|done|]. intros i d Hi. apply Hn. by apply lookup_app_l_Some.
Qed.

(** What the code's tests on the indices decide. *)
Lemma ring_count buf r e q : ring N buf r e q -> u32 (e - r) = Z.of_nat (length q).
Proof.
  intros [Hr Hl Hc -> Hn]. rewrite u32_sub_l. rewrite u32_small; lia.
Qed.

Lemma ring_empty buf r e q : ring N buf r e q -> (r =? e) = bool_decide (q = []).
Proof.
  intros H. pose proof (ring_count _ _ _ _ H) as Hk. pose proof (ring_r _ _ _ _ _ H).
  pose proof (ring_e _ _ _ _ _ H) as He.
  case_bool_decide as Hq; [subst q|].
  - apply Z.eqb_eq. rewrite He. cbn. rewrite Z.add_0_r. symmetry. by apply u32_small.
  - apply Z.eqb_neq. intros <-. rewrite Z.sub_diag in Hk. by destruct q.
Qed.

Lemma ring_full buf r e q : ring N buf r e q -> (e =? u32 (r + N)) = (Z.of_nat (length q) =? N).
Proof.
  intros H. pose proof (ring_count _ _ _ _ H) as Hk. pose proof (ring_e _ _ _ _ _ H) as He.
  pose proof (ring_r _ _ _ _ _ H).
  destruct (Z.eqb_spec (Z.of_nat (length q)) N) as [E|E].
  - apply Z.eqb_eq. by rewrite He, E.
  - apply Z.eqb_neq. intros ->. rewrite u32_sub_l in Hk.
    replace (r + N - r) with N in Hk by lia. rewrite u32_small in Hk; lia.
Qed.
End ring.
