(* ===== verification/Machine.v ===== *)
(** * Machine: the kernel's state and the monad its functions run in

    The data declarations of kernel/proc.h, file.h, buf.h, fs.h, spinlock.h,
    sleeplock.h and of the static objects of the .c files, collected in one
    record [kst], and the resumption monad [K] in which every kernel function
    is written. *)

From Stdlib Require Import FunctionalExtensionality.
From S2P Require Import Prelude Params.

(** ** Identities of statically allocated objects

    The kernel passes pointers to locks and uses object addresses as sleep
    channels.  A sleep-lock lives in an inode-table entry or in a buffer; a
    spin-lock is one of the kernel's globals, a field of a process, of a pipe
    or of a sleep-lock. *)
Inductive slid := SL_inode (i : nat) | SL_buf (i : nat).

Inductive lockid :=
| LK_kmem | LK_pid | LK_wait | LK_ticks | LK_itable | LK_ftable | LK_log
| LK_bcache | LK_cons | LK_pr | LK_tx | LK_vdisk | LK_race
| LK_proc (i : nat) | LK_pipe (a : Z) | LK_sleep (l : slid).

Inductive chan_id :=
| CH_ticks | CH_log | CH_cons_r | CH_tx | CH_disk_free
| CH_proc (i : nat) | CH_buf (i : nat) | CH_sleeplock (l : slid)
| CH_pipe_nread (a : Z) | CH_pipe_nwrite (a : Z).

#[global] Instance slid_eq_dec : EqDecision slid.
Proof. solve_decision. Defined.
#[global] Instance lockid_eq_dec : EqDecision lockid.
Proof. solve_decision. Defined.
#[global] Instance chan_id_eq_dec : EqDecision chan_id.
Proof. solve_decision. Defined.

#[global] Instance slid_countable : Countable slid.
Proof.
  refine (inj_countable'
    (fun l => match l with SL_inode i => inl i | SL_buf i => inr i end)
    (fun x => match x with inl i => SL_inode i | inr i => SL_buf i end) _).
  by intros [].
Defined.

Definition lockid_enc (l : lockid) : nat + (nat + (Z + slid)) :=
  match l with
  | LK_kmem => inl 0%nat | LK_pid => inl 1%nat | LK_wait => inl 2%nat
  | LK_ticks => inl 3%nat | LK_itable => inl 4%nat | LK_ftable => inl 5%nat
  | LK_log => inl 6%nat | LK_bcache => inl 7%nat | LK_cons => inl 8%nat
  | LK_pr => inl 9%nat | LK_tx => inl 10%nat | LK_vdisk => inl 11%nat
  | LK_race => inl 12%nat
  | LK_proc i => inr (inl i) | LK_pipe a => inr (inr (inl a))
  | LK_sleep l => inr (inr (inr l))
  end.

Definition lockid_dec (x : nat + (nat + (Z + slid))) : lockid :=
  match x with
  | inl 0%nat => LK_kmem | inl 1%nat => LK_pid | inl 2%nat => LK_wait
  | inl 3%nat => LK_ticks | inl 4%nat => LK_itable | inl 5%nat => LK_ftable
  | inl 6%nat => LK_log | inl 7%nat => LK_bcache | inl 8%nat => LK_cons
  | inl 9%nat => LK_pr | inl 10%nat => LK_tx | inl 11%nat => LK_vdisk
  | inl _ => LK_race
  | inr (inl i) => LK_proc i | inr (inr (inl a)) => LK_pipe a
  | inr (inr (inr l)) => LK_sleep l
  end.

#[global] Instance lockid_countable : Countable lockid.
Proof. refine (inj_countable' lockid_enc lockid_dec _). by intros []. Defined.

(** ** Structures *)

(** kernel/spinlock.h [struct spinlock]; [lk_cpu] is the hart holding it. *)
Record spinlock := mkSpinlock {
  lk_locked : Z;
  lk_name : string;
  lk_cpu : option Z
}.

Definition set_lk_locked (v : Z) (r : spinlock) : spinlock :=
  mkSpinlock v (lk_name r) (lk_cpu r).
Definition set_lk_name (v : string) (r : spinlock) : spinlock :=
  mkSpinlock (lk_locked r) v (lk_cpu r).
Definition set_lk_cpu (v : option Z) (r : spinlock) : spinlock :=
  mkSpinlock (lk_locked r) (lk_name r) v.

(** kernel/sleeplock.h [struct sleeplock], less its spin-lock, which is [LK_sleep]. *)
Record sleeplock := mkSleeplock {
  sl_locked : Z;
  sl_name : string;
  sl_pid : Z
}.

Definition set_sl_locked (v : Z) (r : sleeplock) : sleeplock :=
  mkSleeplock v (sl_name r) (sl_pid r).
Definition set_sl_name (v : string) (r : sleeplock) : sleeplock :=
  mkSleeplock (sl_locked r) v (sl_pid r).
Definition set_sl_pid (v : Z) (r : sleeplock) : sleeplock :=
  mkSleeplock (sl_locked r) (sl_name r) v.

(** kernel/proc.h [struct context]: [ctx_s] holds s0..s11. *)
Record context := mkContext { ctx_ra : Z; ctx_sp : Z; ctx_s : list Z }.

(** kernel/proc.h [struct cpu], the entry of [cpus] of the executing hart. *)
Record cpu := mkCpu {
  c_proc : option nat;
  c_noff : Z;
  c_intena : Z
}.

Definition set_c_proc (v : option nat) (r : cpu) : cpu :=
  mkCpu v (c_noff r) (c_intena r).
Definition set_c_noff (v : Z) (r : cpu) : cpu :=
  mkCpu (c_proc r) v (c_intena r).
Definition set_c_intena (v : Z) (r : cpu) : cpu :=
  mkCpu (c_proc r) (c_noff r) v.

(** The control and status registers of the executing hart (kernel/riscv.h). *)
Record csrs := mkCsrs {
  r_sstatus : Z;
  r_scause : Z;
  r_sepc : Z;
  r_stval : Z;
  r_stvec : Z;
  r_satp : Z;
  r_stimecmp : Z;
  r_time : Z
}.

Definition set_r_sstatus (v : Z) (r : csrs) : csrs :=
  mkCsrs v (r_scause r) (r_sepc r) (r_stval r) (r_stvec r) (r_satp r) (r_stimecmp r) (r_time r).
Definition set_r_scause (v : Z) (r : csrs) : csrs :=
  mkCsrs (r_sstatus r) v (r_sepc r) (r_stval r) (r_stvec r) (r_satp r) (r_stimecmp r) (r_time r).
Definition set_r_sepc (v : Z) (r : csrs) : csrs :=
  mkCsrs (r_sstatus r) (r_scause r) v (r_stval r) (r_stvec r) (r_satp r) (r_stimecmp r) (r_time r).
Definition set_r_stval (v : Z) (r : csrs) : csrs :=
  mkCsrs (r_sstatus r) (r_scause r) (r_sepc r) v (r_stvec r) (r_satp r) (r_stimecmp r) (r_time r).
Definition set_r_stvec (v : Z) (r : csrs) : csrs :=
  mkCsrs (r_sstatus r) (r_scause r) (r_sepc r) (r_stval r) v (r_satp r) (r_stimecmp r) (r_time r).
Definition set_r_satp (v : Z) (r : csrs) : csrs :=
  mkCsrs (r_sstatus r) (r_scause r) (r_sepc r) (r_stval r) (r_stvec r) v (r_stimecmp r) (r_time r).
Definition set_r_stimecmp (v : Z) (r : csrs) : csrs :=
  mkCsrs (r_sstatus r) (r_scause r) (r_sepc r) (r_stval r) (r_stvec r) (r_satp r) v (r_time r).
Definition set_r_time (v : Z) (r : csrs) : csrs :=
  mkCsrs (r_sstatus r) (r_scause r) (r_sepc r) (r_stval r) (r_stvec r) (r_satp r) (r_stimecmp r) v.

(** kernel/proc.h [enum procstate]. *)
Inductive procstate := UNUSED | USED | SLEEPING | RUNNABLE | RUNNING | ZOMBIE.

#[global] Instance procstate_eq_dec : EqDecision procstate.
Proof. solve_decision. Defined.

(** kernel/proc.h [struct proc].  Pointers to processes, files and inodes are
    indices into the tables that hold them; [p_trapframe] and [p_pagetable] are
    addresses of pages in [k_mem]. *)
Record proc := mkProc {
  p_state : procstate;
  p_chan : option chan_id;
  p_killed : Z;
  p_xstate : Z;
  p_pid : Z;
  p_parent : option nat;
  p_kstack : Z;
  p_sz : Z;
  p_pagetable : Z;
  p_trapframe : Z;
  p_context : context;
  p_ofile : list (option nat);
  p_cwd : option nat;
  p_name : list Z;
  p_tracing : Z
}.

Definition set_p_state (v : procstate) (r : proc) : proc :=
  mkProc v (p_chan r) (p_killed r) (p_xstate r) (p_pid r) (p_parent r) (p_kstack r) (p_sz r) (p_pagetable r) (p_trapframe r) (p_context r) (p_ofile r) (p_cwd r) (p_name r) (p_tracing r).
Definition set_p_chan (v : option chan_id) (r : proc) : proc :=
  mkProc (p_state r) v (p_killed r) (p_xstate r) (p_pid r) (p_parent r) (p_kstack r) (p_sz r) (p_pagetable r) (p_trapframe r) (p_context r) (p_ofile r) (p_cwd r) (p_name r) (p_tracing r).
Definition set_p_killed (v : Z) (r : proc) : proc :=
  mkProc (p_state r) (p_chan r) v (p_xstate r) (p_pid r) (p_parent r) (p_kstack r) (p_sz r) (p_pagetable r) (p_trapframe r) (p_context r) (p_ofile r) (p_cwd r) (p_name r) (p_tracing r).
Definition set_p_xstate (v : Z) (r : proc) : proc :=
  mkProc (p_state r) (p_chan r) (p_killed r) v (p_pid r) (p_parent r) (p_kstack r) (p_sz r) (p_pagetable r) (p_trapframe r) (p_context r) (p_ofile r) (p_cwd r) (p_name r) (p_tracing r).
Definition set_p_pid (v : Z) (r : proc) : proc :=
  mkProc (p_state r) (p_chan r) (p_killed r) (p_xstate r) v (p_parent r) (p_kstack r) (p_sz r) (p_pagetable r) (p_trapframe r) (p_context r) (p_ofile r) (p_cwd r) (p_name r) (p_tracing r).
Definition set_p_parent (v : option nat) (r : proc) : proc :=
  mkProc (p_state r) (p_chan r) (p_killed r) (p_xstate r) (p_pid r) v (p_kstack r) (p_sz r) (p_pagetable r) (p_trapframe r) (p_context r) (p_ofile r) (p_cwd r) (p_name r) (p_tracing r).
Definition set_p_kstack (v : Z) (r : proc) : proc :=
  mkProc (p_state r) (p_chan r) (p_killed r) (p_xstate r) (p_pid r) (p_parent r) v (p_sz r) (p_pagetable r) (p_trapframe r) (p_context r) (p_ofile r) (p_cwd r) (p_name r) (p_tracing r).
Definition set_p_sz (v : Z) (r : proc) : proc :=
  mkProc (p_state r) (p_chan r) (p_killed r) (p_xstate r) (p_pid r) (p_parent r) (p_kstack r) v (p_pagetable r) (p_trapframe r) (p_context r) (p_ofile r) (p_cwd r) (p_name r) (p_tracing r).
Definition set_p_pagetable (v : Z) (r : proc) : proc :=
  mkProc (p_state r) (p_chan r) (p_killed r) (p_xstate r) (p_pid r) (p_parent r) (p_kstack r) (p_sz r) v (p_trapframe r) (p_context r) (p_ofile r) (p_cwd r) (p_name r) (p_tracing r).
Definition set_p_trapframe (v : Z) (r : proc) : proc :=
  mkProc (p_state r) (p_chan r) (p_killed r) (p_xstate r) (p_pid r) (p_parent r) (p_kstack r) (p_sz r) (p_pagetable r) v (p_context r) (p_ofile r) (p_cwd r) (p_name r) (p_tracing r).
Definition set_p_context (v : context) (r : proc) : proc :=
  mkProc (p_state r) (p_chan r) (p_killed r) (p_xstate r) (p_pid r) (p_parent r) (p_kstack r) (p_sz r) (p_pagetable r) (p_trapframe r) v (p_ofile r) (p_cwd r) (p_name r) (p_tracing r).
Definition set_p_ofile (v : list (option nat)) (r : proc) : proc :=
  mkProc (p_state r) (p_chan r) (p_killed r) (p_xstate r) (p_pid r) (p_parent r) (p_kstack r) (p_sz r) (p_pagetable r) (p_trapframe r) (p_context r) v (p_cwd r) (p_name r) (p_tracing r).
Definition set_p_cwd (v : option nat) (r : proc) : proc :=
  mkProc (p_state r) (p_chan r) (p_killed r) (p_xstate r) (p_pid r) (p_parent r) (p_kstack r) (p_sz r) (p_pagetable r) (p_trapframe r) (p_context r) (p_ofile r) v (p_name r) (p_tracing r).
Definition set_p_name (v : list Z) (r : proc) : proc :=
  mkProc (p_state r) (p_chan r) (p_killed r) (p_xstate r) (p_pid r) (p_parent r) (p_kstack r) (p_sz r) (p_pagetable r) (p_trapframe r) (p_context r) (p_ofile r) (p_cwd r) v (p_tracing r).
Definition set_p_tracing (v : Z) (r : proc) : proc :=
  mkProc (p_state r) (p_chan r) (p_killed r) (p_xstate r) (p_pid r) (p_parent r) (p_kstack r) (p_sz r) (p_pagetable r) (p_trapframe r) (p_context r) (p_ofile r) (p_cwd r) (p_name r) v.

(** kernel/file.h [struct file] and its [type] enum. *)
Inductive fdtype := FD_NONE | FD_PIPE | FD_INODE | FD_DEVICE.

#[global] Instance fdtype_eq_dec : EqDecision fdtype.
Proof. solve_decision. Defined.

Record file := mkFile {
  f_type : fdtype;
  f_ref : Z;
  f_readable : Z;
  f_writable : Z;
  f_pipe : Z;
  f_ip : option nat;
  f_off : Z;
  f_major : Z
}.

Definition set_f_type (v : fdtype) (r : file) : file :=
  mkFile v (f_ref r) (f_readable r) (f_writable r) (f_pipe r) (f_ip r) (f_off r) (f_major r).
Definition set_f_ref (v : Z) (r : file) : file :=
  mkFile (f_type r) v (f_readable r) (f_writable r) (f_pipe r) (f_ip r) (f_off r) (f_major r).
Definition set_f_readable (v : Z) (r : file) : file :=
  mkFile (f_type r) (f_ref r) v (f_writable r) (f_pipe r) (f_ip r) (f_off r) (f_major r).
Definition set_f_writable (v : Z) (r : file) : file :=
  mkFile (f_type r) (f_ref r) (f_readable r) v (f_pipe r) (f_ip r) (f_off r) (f_major r).
Definition set_f_pipe (v : Z) (r : file) : file :=
  mkFile (f_type r) (f_ref r) (f_readable r) (f_writable r) v (f_ip r) (f_off r) (f_major r).
Definition set_f_ip (v : option nat) (r : file) : file :=
  mkFile (f_type r) (f_ref r) (f_readable r) (f_writable r) (f_pipe r) v (f_off r) (f_major r).
Definition set_f_off (v : Z) (r : file) : file :=
  mkFile (f_type r) (f_ref r) (f_readable r) (f_writable r) (f_pipe r) (f_ip r) v (f_major r).
Definition set_f_major (v : Z) (r : file) : file :=
  mkFile (f_type r) (f_ref r) (f_readable r) (f_writable r) (f_pipe r) (f_ip r) (f_off r) v.

(** kernel/file.h [struct inode]; its sleep-lock is [SL_inode]. *)
Record inode := mkInode {
  i_dev : Z;
  i_inum : Z;
  i_ref : Z;
  i_valid : Z;
  i_type : Z;
  i_major : Z;
  i_minor : Z;
  i_nlink : Z;
  i_size : Z;
  i_addrs : list Z
}.

Definition set_i_dev (v : Z) (r : inode) : inode :=
  mkInode v (i_inum r) (i_ref r) (i_valid r) (i_type r) (i_major r) (i_minor r) (i_nlink r) (i_size r) (i_addrs r).
Definition set_i_inum (v : Z) (r : inode) : inode :=
  mkInode (i_dev r) v (i_ref r) (i_valid r) (i_type r) (i_major r) (i_minor r) (i_nlink r) (i_size r) (i_addrs r).
Definition set_i_ref (v : Z) (r : inode) : inode :=
  mkInode (i_dev r) (i_inum r) v (i_valid r) (i_type r) (i_major r) (i_minor r) (i_nlink r) (i_size r) (i_addrs r).
Definition set_i_valid (v : Z) (r : inode) : inode :=
  mkInode (i_dev r) (i_inum r) (i_ref r) v (i_type r) (i_major r) (i_minor r) (i_nlink r) (i_size r) (i_addrs r).
Definition set_i_type (v : Z) (r : inode) : inode :=
  mkInode (i_dev r) (i_inum r) (i_ref r) (i_valid r) v (i_major r) (i_minor r) (i_nlink r) (i_size r) (i_addrs r).
Definition set_i_major (v : Z) (r : inode) : inode :=
  mkInode (i_dev r) (i_inum r) (i_ref r) (i_valid r) (i_type r) v (i_minor r) (i_nlink r) (i_size r) (i_addrs r).
Definition set_i_minor (v : Z) (r : inode) : inode :=
  mkInode (i_dev r) (i_inum r) (i_ref r) (i_valid r) (i_type r) (i_major r) v (i_nlink r) (i_size r) (i_addrs r).
Definition set_i_nlink (v : Z) (r : inode) : inode :=
  mkInode (i_dev r) (i_inum r) (i_ref r) (i_valid r) (i_type r) (i_major r) (i_minor r) v (i_size r) (i_addrs r).
Definition set_i_size (v : Z) (r : inode) : inode :=
  mkInode (i_dev r) (i_inum r) (i_ref r) (i_valid r) (i_type r) (i_major r) (i_minor r) (i_nlink r) v (i_addrs r).
Definition set_i_addrs (v : list Z) (r : inode) : inode :=
  mkInode (i_dev r) (i_inum r) (i_ref r) (i_valid r) (i_type r) (i_major r) (i_minor r) (i_nlink r) (i_size r) v.

(** kernel/buf.h [struct buf]; its sleep-lock is [SL_buf].  [b_prev] and [b_next]
    are indices into [bcache.buf], with index [NBUF] for [bcache.head]. *)
Record buf := mkBuf {
  b_valid : Z;
  b_disk : Z;
  b_dev : Z;
  b_blockno : Z;
  b_refcnt : Z;
  b_prev : nat;
  b_next : nat;
  b_data : list Z
}.

Definition set_b_valid (v : Z) (r : buf) : buf :=
  mkBuf v (b_disk r) (b_dev r) (b_blockno r) (b_refcnt r) (b_prev r) (b_next r) (b_data r).
Definition set_b_disk (v : Z) (r : buf) : buf :=
  mkBuf (b_valid r) v (b_dev r) (b_blockno r) (b_refcnt r) (b_prev r) (b_next r) (b_data r).
Definition set_b_dev (v : Z) (r : buf) : buf :=
  mkBuf (b_valid r) (b_disk r) v (b_blockno r) (b_refcnt r) (b_prev r) (b_next r) (b_data r).
Definition set_b_blockno (v : Z) (r : buf) : buf :=
  mkBuf (b_valid r) (b_disk r) (b_dev r) v (b_refcnt r) (b_prev r) (b_next r) (b_data r).
Definition set_b_refcnt (v : Z) (r : buf) : buf :=
  mkBuf (b_valid r) (b_disk r) (b_dev r) (b_blockno r) v (b_prev r) (b_next r) (b_data r).
Definition set_b_prev (v : nat) (r : buf) : buf :=
  mkBuf (b_valid r) (b_disk r) (b_dev r) (b_blockno r) (b_refcnt r) v (b_next r) (b_data r).
Definition set_b_next (v : nat) (r : buf) : buf :=
  mkBuf (b_valid r) (b_disk r) (b_dev r) (b_blockno r) (b_refcnt r) (b_prev r) v (b_data r).
Definition set_b_data (v : list Z) (r : buf) : buf :=
  mkBuf (b_valid r) (b_disk r) (b_dev r) (b_blockno r) (b_refcnt r) (b_prev r) (b_next r) v.

(** kernel/fs.h [struct superblock]. *)
Record superblock := mkSb {
  sb_magic : Z; sb_size : Z; sb_nblocks : Z; sb_ninodes : Z;
  sb_nlog : Z; sb_logstart : Z; sb_inodestart : Z; sb_bmapstart : Z
}.

(** kernel/log.c [struct log] and [struct logheader]. *)
Record log := mkLog {
  l_start : Z;
  l_outstanding : Z;
  l_committing : Z;
  l_dev : Z;
  l_ncommit : Z;
  lh_n : Z;
  lh_block : list Z
}.

Definition set_l_start (v : Z) (r : log) : log :=
  mkLog v (l_outstanding r) (l_committing r) (l_dev r) (l_ncommit r) (lh_n r) (lh_block r).
Definition set_l_outstanding (v : Z) (r : log) : log :=
  mkLog (l_start r) v (l_committing r) (l_dev r) (l_ncommit r) (lh_n r) (lh_block r).
Definition set_l_committing (v : Z) (r : log) : log :=
  mkLog (l_start r) (l_outstanding r) v (l_dev r) (l_ncommit r) (lh_n r) (lh_block r).
Definition set_l_dev (v : Z) (r : log) : log :=
  mkLog (l_start r) (l_outstanding r) (l_committing r) v (l_ncommit r) (lh_n r) (lh_block r).
Definition set_l_ncommit (v : Z) (r : log) : log :=
  mkLog (l_start r) (l_outstanding r) (l_committing r) (l_dev r) v (lh_n r) (lh_block r).
Definition set_lh_n (v : Z) (r : log) : log :=
  mkLog (l_start r) (l_outstanding r) (l_committing r) (l_dev r) (l_ncommit r) v (lh_block r).
Definition set_lh_block (v : list Z) (r : log) : log :=
  mkLog (l_start r) (l_outstanding r) (l_committing r) (l_dev r) (l_ncommit r) (lh_n r) v.

(** kernel/pipe.c [struct pipe]; its lock is [LK_pipe]. *)
Record pipe := mkPipe {
  pi_data : list Z;
  pi_nread : Z;
  pi_nwrite : Z;
  pi_readopen : Z;
  pi_writeopen : Z
}.

Definition set_pi_data (v : list Z) (r : pipe) : pipe :=
  mkPipe v (pi_nread r) (pi_nwrite r) (pi_readopen r) (pi_writeopen r).
Definition set_pi_nread (v : Z) (r : pipe) : pipe :=
  mkPipe (pi_data r) v (pi_nwrite r) (pi_readopen r) (pi_writeopen r).
Definition set_pi_nwrite (v : Z) (r : pipe) : pipe :=
  mkPipe (pi_data r) (pi_nread r) v (pi_readopen r) (pi_writeopen r).
Definition set_pi_readopen (v : Z) (r : pipe) : pipe :=
  mkPipe (pi_data r) (pi_nread r) (pi_nwrite r) v (pi_writeopen r).
Definition set_pi_writeopen (v : Z) (r : pipe) : pipe :=
  mkPipe (pi_data r) (pi_nread r) (pi_nwrite r) (pi_readopen r) v.

(** kernel/console.c [cons]; its lock is [LK_cons]. *)
Record cons := mkCons {
  cons_buf : list Z;
  cons_r : Z;
  cons_w : Z;
  cons_e : Z
}.

Definition set_cons_buf (v : list Z) (r : cons) : cons :=
  mkCons v (cons_r r) (cons_w r) (cons_e r).
Definition set_cons_r (v : Z) (r : cons) : cons :=
  mkCons (cons_buf r) v (cons_w r) (cons_e r).
Definition set_cons_w (v : Z) (r : cons) : cons :=
  mkCons (cons_buf r) (cons_r r) v (cons_e r).
Definition set_cons_e (v : Z) (r : cons) : cons :=
  mkCons (cons_buf r) (cons_r r) (cons_w r) v.

(** The 16550a UART and kernel/uart.c's [tx_busy].  [u_out] is what has been
    written to THR; [u_rx] the received bytes not yet read from RHR;
    [u_idle] what the next reads of LSR report for TX_IDLE (idle once the
    list is used up); [u_ctl] the writes to the control registers. *)
Record uart := mkUart {
  u_out : list Z;
  u_rx : list Z;
  u_idle : list bool;
  u_ctl : list (Z * Z);
  u_tx_busy : Z
}.

Definition set_u_out (v : list Z) (r : uart) : uart :=
  mkUart v (u_rx r) (u_idle r) (u_ctl r) (u_tx_busy r).
Definition set_u_rx (v : list Z) (r : uart) : uart :=
  mkUart (u_out r) v (u_idle r) (u_ctl r) (u_tx_busy r).
Definition set_u_idle (v : list bool) (r : uart) : uart :=
  mkUart (u_out r) (u_rx r) v (u_ctl r) (u_tx_busy r).
Definition set_u_ctl (v : list (Z * Z)) (r : uart) : uart :=
  mkUart (u_out r) (u_rx r) (u_idle r) v (u_tx_busy r).
Definition set_u_tx_busy (v : Z) (r : uart) : uart :=
  mkUart (u_out r) (u_rx r) (u_idle r) (u_ctl r) v.

(** kernel/race.c [struct shared_resource]; its lock is [LK_race]. *)
Record shared_resource := mkShared {
  counter : Z;
  total_ops : Z
}.

Definition set_counter (v : Z) (r : shared_resource) : shared_resource :=
  mkShared v (total_ops r).
Definition set_total_ops (v : Z) (r : shared_resource) : shared_resource :=
  mkShared (counter r) v.

(** kernel/virtio.h: where a descriptor points, the descriptors, and the
    driver's [struct disk] with the rings it shares with the device. *)
Inductive dma := DMA_null | DMA_op (i : nat) | DMA_data (b : nat) | DMA_status (i : nat).

Record virtq_desc := mkDesc {
  d_addr : dma;
  d_len : Z;
  d_flags : Z;
  d_next : Z
}.

Definition set_d_addr (v : dma) (r : virtq_desc) : virtq_desc :=
  mkDesc v (d_len r) (d_flags r) (d_next r).
Definition set_d_len (v : Z) (r : virtq_desc) : virtq_desc :=
  mkDesc (d_addr r) v (d_flags r) (d_next r).
Definition set_d_flags (v : Z) (r : virtq_desc) : virtq_desc :=
  mkDesc (d_addr r) (d_len r) v (d_next r).
Definition set_d_next (v : Z) (r : virtq_desc) : virtq_desc :=
  mkDesc (d_addr r) (d_len r) (d_flags r) v.

Record virtio_blk_req := mkReq {
  req_type : Z;
  req_reserved : Z;
  req_sector : Z
}.

Definition set_req_type (v : Z) (r : virtio_blk_req) : virtio_blk_req :=
  mkReq v (req_reserved r) (req_sector r).
Definition set_req_reserved (v : Z) (r : virtio_blk_req) : virtio_blk_req :=
  mkReq (req_type r) v (req_sector r).
Definition set_req_sector (v : Z) (r : virtio_blk_req) : virtio_blk_req :=
  mkReq (req_type r) (req_reserved r) v.

Record vdisk := mkVdisk {
  vd_desc : list virtq_desc;
  vd_avail_idx : Z;
  vd_avail_ring : list Z;
  vd_dev_idx : Z;
  vd_used_ring : list Z;
  vd_free : list Z;
  vd_used_idx : Z;
  vd_info_b : list (option nat);
  vd_info_status : list Z;
  vd_ops : list virtio_blk_req
}.

Definition set_vd_desc (v : list virtq_desc) (r : vdisk) : vdisk :=
  mkVdisk v (vd_avail_idx r) (vd_avail_ring r) (vd_dev_idx r) (vd_used_ring r) (vd_free r) (vd_used_idx r) (vd_info_b r) (vd_info_status r) (vd_ops r).
Definition set_vd_avail_idx (v : Z) (r : vdisk) : vdisk :=
  mkVdisk (vd_desc r) v (vd_avail_ring r) (vd_dev_idx r) (vd_used_ring r) (vd_free r) (vd_used_idx r) (vd_info_b r) (vd_info_status r) (vd_ops r).
Definition set_vd_avail_ring (v : list Z) (r : vdisk) : vdisk :=
  mkVdisk (vd_desc r) (vd_avail_idx r) v (vd_dev_idx r) (vd_used_ring r) (vd_free r) (vd_used_idx r) (vd_info_b r) (vd_info_status r) (vd_ops r).
Definition set_vd_dev_idx (v : Z) (r : vdisk) : vdisk :=
  mkVdisk (vd_desc r) (vd_avail_idx r) (vd_avail_ring r) v (vd_used_ring r) (vd_free r) (vd_used_idx r) (vd_info_b r) (vd_info_status r) (vd_ops r).
Definition set_vd_used_ring (v : list Z) (r : vdisk) : vdisk :=
  mkVdisk (vd_desc r) (vd_avail_idx r) (vd_avail_ring r) (vd_dev_idx r) v (vd_free r) (vd_used_idx r) (vd_info_b r) (vd_info_status r) (vd_ops r).
Definition set_vd_free (v : list Z) (r : vdisk) : vdisk :=
  mkVdisk (vd_desc r) (vd_avail_idx r) (vd_avail_ring r) (vd_dev_idx r) (vd_used_ring r) v (vd_used_idx r) (vd_info_b r) (vd_info_status r) (vd_ops r).
Definition set_vd_used_idx (v : Z) (r : vdisk) : vdisk :=
  mkVdisk (vd_desc r) (vd_avail_idx r) (vd_avail_ring r) (vd_dev_idx r) (vd_used_ring r) (vd_free r) v (vd_info_b r) (vd_info_status r) (vd_ops r).
Definition set_vd_info_b (v : list (option nat)) (r : vdisk) : vdisk :=
  mkVdisk (vd_desc r) (vd_avail_idx r) (vd_avail_ring r) (vd_dev_idx r) (vd_used_ring r) (vd_free r) (vd_used_idx r) v (vd_info_status r) (vd_ops r).
Definition set_vd_info_status (v : list Z) (r : vdisk) : vdisk :=
  mkVdisk (vd_desc r) (vd_avail_idx r) (vd_avail_ring r) (vd_dev_idx r) (vd_used_ring r) (vd_free r) (vd_used_idx r) (vd_info_b r) v (vd_ops r).
Definition set_vd_ops (v : list virtio_blk_req) (r : vdisk) : vdisk :=
  mkVdisk (vd_desc r) (vd_avail_idx r) (vd_avail_ring r) (vd_dev_idx r) (vd_used_ring r) (vd_free r) (vd_used_idx r) (vd_info_b r) (vd_info_status r) v.

(** kernel/file.h [struct devsw]: the only driver that fills in an entry. *)
Inductive devfn := DEV_console.

(** ** The kernel's state, as the executing hart sees it

    [k_disk] is the block device, [k_dwrites] the blocks written to it so far,
    oldest first; [k_plic] the interrupts the PLIC has pending, [k_mmio] the
    writes to the PLIC's and the disk's registers, [vd_dev_idx] is the used
    ring's [idx], which only the device writes. *)
Record kst := mkKst {
  k_hart : Z;
  k_cpu : cpu;
  k_csr : csrs;
  k_locks : gmap lockid spinlock;
  k_slocks : gmap slid sleeplock;
  k_mem : mem;
  k_freelist : Z;
  k_procs : list proc;
  k_nextpid : Z;
  k_initproc : option nat;
  k_first : Z;
  k_ticks : Z;
  k_uart : uart;
  k_cons : cons;
  k_panicking : Z;
  k_panicked : Z;
  k_race : shared_resource;
  k_pipes : gmap Z pipe;
  k_files : list file;
  k_inodes : list inode;
  k_sb : superblock;
  k_log : log;
  k_bufs : list buf;
  k_disk : Z -> list Z;
  k_dwrites : list (Z * list Z);
  k_devsw : list (option devfn);
  k_kpgtbl : Z;
  k_vdisk : vdisk;
  k_plic : list Z;
  k_mmio : list (Z * Z)
}.

Definition set_k_hart (v : Z) (r : kst) : kst :=
  mkKst v (k_cpu r) (k_csr r) (k_locks r) (k_slocks r) (k_mem r) (k_freelist r) (k_procs r) (k_nextpid r) (k_initproc r) (k_first r) (k_ticks r) (k_uart r) (k_cons r) (k_panicking r) (k_panicked r) (k_race r) (k_pipes r) (k_files r) (k_inodes r) (k_sb r) (k_log r) (k_bufs r) (k_disk r) (k_dwrites r) (k_devsw r) (k_kpgtbl r) (k_vdisk r) (k_plic r) (k_mmio r).
Definition set_k_cpu (v : cpu) (r : kst) : kst :=
  mkKst (k_hart r) v (k_csr r) (k_locks r) (k_slocks r) (k_mem r) (k_freelist r) (k_procs r) (k_nextpid r) (k_initproc r) (k_first r) (k_ticks r) (k_uart r) (k_cons r) (k_panicking r) (k_panicked r) (k_race r) (k_pipes r) (k_files r) (k_inodes r) (k_sb r) (k_log r) (k_bufs r) (k_disk r) (k_dwrites r) (k_devsw r) (k_kpgtbl r) (k_vdisk r) (k_plic r) (k_mmio r).
Definition set_k_csr (v : csrs) (r : kst) : kst :=
  mkKst (k_hart r) (k_cpu r) v (k_locks r) (k_slocks r) (k_mem r) (k_freelist r) (k_procs r) (k_nextpid r) (k_initproc r) (k_first r) (k_ticks r) (k_uart r) (k_cons r) (k_panicking r) (k_panicked r) (k_race r) (k_pipes r) (k_files r) (k_inodes r) (k_sb r) (k_log r) (k_bufs r) (k_disk r) (k_dwrites r) (k_devsw r) (k_kpgtbl r) (k_vdisk r) (k_plic r) (k_mmio r).
Definition set_k_locks (v : gmap lockid spinlock) (r : kst) : kst :=
  mkKst (k_hart r) (k_cpu r) (k_csr r) v (k_slocks r) (k_mem r) (k_freelist r) (k_procs r) (k_nextpid r) (k_initproc r) (k_first r) (k_ticks r) (k_uart r) (k_cons r) (k_panicking r) (k_panicked r) (k_race r) (k_pipes r) (k_files r) (k_inodes r) (k_sb r) (k_log r) (k_bufs r) (k_disk r) (k_dwrites r) (k_devsw r) (k_kpgtbl r) (k_vdisk r) (k_plic r) (k_mmio r).
Definition set_k_slocks (v : gmap slid sleeplock) (r : kst) : kst :=
  mkKst (k_hart r) (k_cpu r) (k_csr r) (k_locks r) v (k_mem r) (k_freelist r) (k_procs r) (k_nextpid r) (k_initproc r) (k_first r) (k_ticks r) (k_uart r) (k_cons r) (k_panicking r) (k_panicked r) (k_race r) (k_pipes r) (k_files r) (k_inodes r) (k_sb r) (k_log r) (k_bufs r) (k_disk r) (k_dwrites r) (k_devsw r) (k_kpgtbl r) (k_vdisk r) (k_plic r) (k_mmio r).
Definition set_k_mem (v : mem) (r : kst) : kst :=
  mkKst (k_hart r) (k_cpu r) (k_csr r) (k_locks r) (k_slocks r) v (k_freelist r) (k_procs r) (k_nextpid r) (k_initproc r) (k_first r) (k_ticks r) (k_uart r) (k_cons r) (k_panicking r) (k_panicked r) (k_race r) (k_pipes r) (k_files r) (k_inodes r) (k_sb r) (k_log r) (k_bufs r) (k_disk r) (k_dwrites r) (k_devsw r) (k_kpgtbl r) (k_vdisk r) (k_plic r) (k_mmio r).
Definition set_k_freelist (v : Z) (r : kst) : kst :=
  mkKst (k_hart r) (k_cpu r) (k_csr r) (k_locks r) (k_slocks r) (k_mem r) v (k_procs r) (k_nextpid r) (k_initproc r) (k_first r) (k_ticks r) (k_uart r) (k_cons r) (k_panicking r) (k_panicked r) (k_race r) (k_pipes r) (k_files r) (k_inodes r) (k_sb r) (k_log r) (k_bufs r) (k_disk r) (k_dwrites r) (k_devsw r) (k_kpgtbl r) (k_vdisk r) (k_plic r) (k_mmio r).
Definition set_k_procs (v : list proc) (r : kst) : kst :=
  mkKst (k_hart r) (k_cpu r) (k_csr r) (k_locks r) (k_slocks r) (k_mem r) (k_freelist r) v (k_nextpid r) (k_initproc r) (k_first r) (k_ticks r) (k_uart r) (k_cons r) (k_panicking r) (k_panicked r) (k_race r) (k_pipes r) (k_files r) (k_inodes r) (k_sb r) (k_log r) (k_bufs r) (k_disk r) (k_dwrites r) (k_devsw r) (k_kpgtbl r) (k_vdisk r) (k_plic r) (k_mmio r).
Definition set_k_nextpid (v : Z) (r : kst) : kst :=
  mkKst (k_hart r) (k_cpu r) (k_csr r) (k_locks r) (k_slocks r) (k_mem r) (k_freelist r) (k_procs r) v (k_initproc r) (k_first r) (k_ticks r) (k_uart r) (k_cons r) (k_panicking r) (k_panicked r) (k_race r) (k_pipes r) (k_files r) (k_inodes r) (k_sb r) (k_log r) (k_bufs r) (k_disk r) (k_dwrites r) (k_devsw r) (k_kpgtbl r) (k_vdisk r) (k_plic r) (k_mmio r).
Definition set_k_initproc (v : option nat) (r : kst) : kst :=
  mkKst (k_hart r) (k_cpu r) (k_csr r) (k_locks r) (k_slocks r) (k_mem r) (k_freelist r) (k_procs r) (k_nextpid r) v (k_first r) (k_ticks r) (k_uart r) (k_cons r) (k_panicking r) (k_panicked r) (k_race r) (k_pipes r) (k_files r) (k_inodes r) (k_sb r) (k_log r) (k_bufs r) (k_disk r) (k_dwrites r) (k_devsw r) (k_kpgtbl r) (k_vdisk r) (k_plic r) (k_mmio r).
Definition set_k_first (v : Z) (r : kst) : kst :=
  mkKst (k_hart r) (k_cpu r) (k_csr r) (k_locks r) (k_slocks r) (k_mem r) (k_freelist r) (k_procs r) (k_nextpid r) (k_initproc r) v (k_ticks r) (k_uart r) (k_cons r) (k_panicking r) (k_panicked r) (k_race r) (k_pipes r) (k_files r) (k_inodes r) (k_sb r) (k_log r) (k_bufs r) (k_disk r) (k_dwrites r) (k_devsw r) (k_kpgtbl r) (k_vdisk r) (k_plic r) (k_mmio r).
Definition set_k_ticks (v : Z) (r : kst) : kst :=
  mkKst (k_hart r) (k_cpu r) (k_csr r) (k_locks r) (k_slocks r) (k_mem r) (k_freelist r) (k_procs r) (k_nextpid r) (k_initproc r) (k_first r) v (k_uart r) (k_cons r) (k_panicking r) (k_panicked r) (k_race r) (k_pipes r) (k_files r) (k_inodes r) (k_sb r) (k_log r) (k_bufs r) (k_disk r) (k_dwrites r) (k_devsw r) (k_kpgtbl r) (k_vdisk r) (k_plic r) (k_mmio r).
Definition set_k_uart (v : uart) (r : kst) : kst :=
  mkKst (k_hart r) (k_cpu r) (k_csr r) (k_locks r) (k_slocks r) (k_mem r) (k_freelist r) (k_procs r) (k_nextpid r) (k_initproc r) (k_first r) (k_ticks r) v (k_cons r) (k_panicking r) (k_panicked r) (k_race r) (k_pipes r) (k_files r) (k_inodes r) (k_sb r) (k_log r) (k_bufs r) (k_disk r) (k_dwrites r) (k_devsw r) (k_kpgtbl r) (k_vdisk r) (k_plic r) (k_mmio r).
Definition set_k_cons (v : cons) (r : kst) : kst :=
  mkKst (k_hart r) (k_cpu r) (k_csr r) (k_locks r) (k_slocks r) (k_mem r) (k_freelist r) (k_procs r) (k_nextpid r) (k_initproc r) (k_first r) (k_ticks r) (k_uart r) v (k_panicking r) (k_panicked r) (k_race r) (k_pipes r) (k_files r) (k_inodes r) (k_sb r) (k_log r) (k_bufs r) (k_disk r) (k_dwrites r) (k_devsw r) (k_kpgtbl r) (k_vdisk r) (k_plic r) (k_mmio r).
Definition set_k_panicking (v : Z) (r : kst) : kst :=
  mkKst (k_hart r) (k_cpu r) (k_csr r) (k_locks r) (k_slocks r) (k_mem r) (k_freelist r) (k_procs r) (k_nextpid r) (k_initproc r) (k_first r) (k_ticks r) (k_uart r) (k_cons r) v (k_panicked r) (k_race r) (k_pipes r) (k_files r) (k_inodes r) (k_sb r) (k_log r) (k_bufs r) (k_disk r) (k_dwrites r) (k_devsw r) (k_kpgtbl r) (k_vdisk r) (k_plic r) (k_mmio r).
Definition set_k_panicked (v : Z) (r : kst) : kst :=
  mkKst (k_hart r) (k_cpu r) (k_csr r) (k_locks r) (k_slocks r) (k_mem r) (k_freelist r) (k_procs r) (k_nextpid r) (k_initproc r) (k_first r) (k_ticks r) (k_uart r) (k_cons r) (k_panicking r) v (k_race r) (k_pipes r) (k_files r) (k_inodes r) (k_sb r) (k_log r) (k_bufs r) (k_disk r) (k_dwrites r) (k_devsw r) (k_kpgtbl r) (k_vdisk r) (k_plic r) (k_mmio r).
Definition set_k_race (v : shared_resource) (r : kst) : kst :=
  mkKst (k_hart r) (k_cpu r) (k_csr r) (k_locks r) (k_slocks r) (k_mem r) (k_freelist r) (k_procs r) (k_nextpid r) (k_initproc r) (k_first r) (k_ticks r) (k_uart r) (k_cons r) (k_panicking r) (k_panicked r) v (k_pipes r) (k_files r) (k_inodes r) (k_sb r) (k_log r) (k_bufs r) (k_disk r) (k_dwrites r) (k_devsw r) (k_kpgtbl r) (k_vdisk r) (k_plic r) (k_mmio r).
Definition set_k_pipes (v : gmap Z pipe) (r : kst) : kst :=
  mkKst (k_hart r) (k_cpu r) (k_csr r) (k_locks r) (k_slocks r) (k_mem r) (k_freelist r) (k_procs r) (k_nextpid r) (k_initproc r) (k_first r) (k_ticks r) (k_uart r) (k_cons r) (k_panicking r) (k_panicked r) (k_race r) v (k_files r) (k_inodes r) (k_sb r) (k_log r) (k_bufs r) (k_disk r) (k_dwrites r) (k_devsw r) (k_kpgtbl r) (k_vdisk r) (k_plic r) (k_mmio r).
Definition set_k_files (v : list file) (r : kst) : kst :=
  mkKst (k_hart r) (k_cpu r) (k_csr r) (k_locks r) (k_slocks r) (k_mem r) (k_freelist r) (k_procs r) (k_nextpid r) (k_initproc r) (k_first r) (k_ticks r) (k_uart r) (k_cons r) (k_panicking r) (k_panicked r) (k_race r) (k_pipes r) v (k_inodes r) (k_sb r) (k_log r) (k_bufs r) (k_disk r) (k_dwrites r) (k_devsw r) (k_kpgtbl r) (k_vdisk r) (k_plic r) (k_mmio r).
Definition set_k_inodes (v : list inode) (r : kst) : kst :=
  mkKst (k_hart r) (k_cpu r) (k_csr r) (k_locks r) (k_slocks r) (k_mem r) (k_freelist r) (k_procs r) (k_nextpid r) (k_initproc r) (k_first r) (k_ticks r) (k_uart r) (k_cons r) (k_panicking r) (k_panicked r) (k_race r) (k_pipes r) (k_files r) v (k_sb r) (k_log r) (k_bufs r) (k_disk r) (k_dwrites r) (k_devsw r) (k_kpgtbl r) (k_vdisk r) (k_plic r) (k_mmio r).
Definition set_k_sb (v : superblock) (r : kst) : kst :=
  mkKst (k_hart r) (k_cpu r) (k_csr r) (k_locks r) (k_slocks r) (k_mem r) (k_freelist r) (k_procs r) (k_nextpid r) (k_initproc r) (k_first r) (k_ticks r) (k_uart r) (k_cons r) (k_panicking r) (k_panicked r) (k_race r) (k_pipes r) (k_files r) (k_inodes r) v (k_log r) (k_bufs r) (k_disk r) (k_dwrites r) (k_devsw r) (k_kpgtbl r) (k_vdisk r) (k_plic r) (k_mmio r).
Definition set_k_log (v : log) (r : kst) : kst :=
  mkKst (k_hart r) (k_cpu r) (k_csr r) (k_locks r) (k_slocks r) (k_mem r) (k_freelist r) (k_procs r) (k_nextpid r) (k_initproc r) (k_first r) (k_ticks r) (k_uart r) (k_cons r) (k_panicking r) (k_panicked r) (k_race r) (k_pipes r) (k_files r) (k_inodes r) (k_sb r) v (k_bufs r) (k_disk r) (k_dwrites r) (k_devsw r) (k_kpgtbl r) (k_vdisk r) (k_plic r) (k_mmio r).
Definition set_k_bufs (v : list buf) (r : kst) : kst :=
  mkKst (k_hart r) (k_cpu r) (k_csr r) (k_locks r) (k_slocks r) (k_mem r) (k_freelist r) (k_procs r) (k_nextpid r) (k_initproc r) (k_first r) (k_ticks r) (k_uart r) (k_cons r) (k_panicking r) (k_panicked r) (k_race r) (k_pipes r) (k_files r) (k_inodes r) (k_sb r) (k_log r) v (k_disk r) (k_dwrites r) (k_devsw r) (k_kpgtbl r) (k_vdisk r) (k_plic r) (k_mmio r).
Definition set_k_disk (v : Z -> list Z) (r : kst) : kst :=
  mkKst (k_hart r) (k_cpu r) (k_csr r) (k_locks r) (k_slocks r) (k_mem r) (k_freelist r) (k_procs r) (k_nextpid r) (k_initproc r) (k_first r) (k_ticks r) (k_uart r) (k_cons r) (k_panicking r) (k_panicked r) (k_race r) (k_pipes r) (k_files r) (k_inodes r) (k_sb r) (k_log r) (k_bufs r) v (k_dwrites r) (k_devsw r) (k_kpgtbl r) (k_vdisk r) (k_plic r) (k_mmio r).
Definition set_k_dwrites (v : list (Z * list Z)) (r : kst) : kst :=
  mkKst (k_hart r) (k_cpu r) (k_csr r) (k_locks r) (k_slocks r) (k_mem r) (k_freelist r) (k_procs r) (k_nextpid r) (k_initproc r) (k_first r) (k_ticks r) (k_uart r) (k_cons r) (k_panicking r) (k_panicked r) (k_race r) (k_pipes r) (k_files r) (k_inodes r) (k_sb r) (k_log r) (k_bufs r) (k_disk r) v (k_devsw r) (k_kpgtbl r) (k_vdisk r) (k_plic r) (k_mmio r).
Definition set_k_devsw (v : list (option devfn)) (r : kst) : kst :=
  mkKst (k_hart r) (k_cpu r) (k_csr r) (k_locks r) (k_slocks r) (k_mem r) (k_freelist r) (k_procs r) (k_nextpid r) (k_initproc r) (k_first r) (k_ticks r) (k_uart r) (k_cons r) (k_panicking r) (k_panicked r) (k_race r) (k_pipes r) (k_files r) (k_inodes r) (k_sb r) (k_log r) (k_bufs r) (k_disk r) (k_dwrites r) v (k_kpgtbl r) (k_vdisk r) (k_plic r) (k_mmio r).
Definition set_k_kpgtbl (v : Z) (r : kst) : kst :=
  mkKst (k_hart r) (k_cpu r) (k_csr r) (k_locks r) (k_slocks r) (k_mem r) (k_freelist r) (k_procs r) (k_nextpid r) (k_initproc r) (k_first r) (k_ticks r) (k_uart r) (k_cons r) (k_panicking r) (k_panicked r) (k_race r) (k_pipes r) (k_files r) (k_inodes r) (k_sb r) (k_log r) (k_bufs r) (k_disk r) (k_dwrites r) (k_devsw r) v (k_vdisk r) (k_plic r) (k_mmio r).
Definition set_k_vdisk (v : vdisk) (r : kst) : kst :=
  mkKst (k_hart r) (k_cpu r) (k_csr r) (k_locks r) (k_slocks r) (k_mem r) (k_freelist r) (k_procs r) (k_nextpid r) (k_initproc r) (k_first r) (k_ticks r) (k_uart r) (k_cons r) (k_panicking r) (k_panicked r) (k_race r) (k_pipes r) (k_files r) (k_inodes r) (k_sb r) (k_log r) (k_bufs r) (k_disk r) (k_dwrites r) (k_devsw r) (k_kpgtbl r) v (k_plic r) (k_mmio r).
Definition set_k_plic (v : list Z) (r : kst) : kst :=
  mkKst (k_hart r) (k_cpu r) (k_csr r) (k_locks r) (k_slocks r) (k_mem r) (k_freelist r) (k_procs r) (k_nextpid r) (k_initproc r) (k_first r) (k_ticks r) (k_uart r) (k_cons r) (k_panicking r) (k_panicked r) (k_race r) (k_pipes r) (k_files r) (k_inodes r) (k_sb r) (k_log r) (k_bufs r) (k_disk r) (k_dwrites r) (k_devsw r) (k_kpgtbl r) (k_vdisk r) v (k_mmio r).
Definition set_k_mmio (v : list (Z * Z)) (r : kst) : kst :=
  mkKst (k_hart r) (k_cpu r) (k_csr r) (k_locks r) (k_slocks r) (k_mem r) (k_freelist r) (k_procs r) (k_nextpid r) (k_initproc r) (k_first r) (k_ticks r) (k_uart r) (k_cons r) (k_panicking r) (k_panicked r) (k_race r) (k_pipes r) (k_files r) (k_inodes r) (k_sb r) (k_log r) (k_bufs r) (k_disk r) (k_dwrites r) (k_devsw r) (k_kpgtbl r) (k_vdisk r) (k_plic r) v.

(** ** Zero-filled static data *)
Definition context_zero : context := mkContext 0 0 (replicate 12 0).
Definition proc_zero : proc :=
  mkProc UNUSED None 0 0 0 None 0 0 0 0 context_zero
    (replicate NOFILE None) None (replicate 16 0) 0.
Definition file_zero : file := mkFile FD_NONE 0 0 0 0 None 0 0.
Definition inode_zero : inode := mkInode 0 0 0 0 0 0 0 0 0 (replicate 13 0).
Definition buf_zero : buf := mkBuf 0 0 0 0 0 0 0 (replicate 1024 0).
#[global] Instance proc_inhabited : Inhabited proc := populate proc_zero.
#[global] Instance file_inhabited : Inhabited file := populate file_zero.
#[global] Instance inode_inhabited : Inhabited inode := populate inode_zero.
#[global] Instance buf_inhabited : Inhabited buf := populate buf_zero.

Definition desc_zero : virtq_desc := mkDesc DMA_null 0 0 0.
Definition vdisk_zero : vdisk :=
  mkVdisk (replicate 8 desc_zero) 0 (replicate 8 0) 0 (replicate 8 0) (replicate 8 0) 0
    (replicate 8 None) (replicate 8 0) (replicate 8 (mkReq 0 0 0)).
#[global] Instance desc_inhabited : Inhabited virtq_desc := populate desc_zero.
#[global] Instance req_inhabited : Inhabited virtio_blk_req := populate (mkReq 0 0 0).

(** The state before any of the kernel's C code has run: the .bss is zero,
    the .data initialisers of kernel/proc.c hold. *)
Definition kst_zero : kst :=
  mkKst 0 (mkCpu None 0 0) (mkCsrs 0 0 0 0 0 0 0 0) ∅ ∅ (fun _ => 0) 0
    (replicate NPROC proc_zero) 1 None 1 0 (mkUart [] [] [] [] 0)
    (mkCons (replicate 128 0) 0 0 0) 0 0 (mkShared 0 0) ∅
    (replicate NFILE file_zero) (replicate NINODE inode_zero)
    (mkSb 0 0 0 0 0 0 0 0) (mkLog 0 0 0 0 0 0 (replicate 30 0))
    (replicate (S NBUF) buf_zero) (fun _ => replicate 1024 0) []
    (replicate 10 None) 0 vdisk_zero [] [].

(** A state for examples: every static lock free, process 0 running on hart 0
    with interrupts on. *)
Definition static_locks : list lockid :=
  [LK_kmem; LK_pid; LK_wait; LK_ticks; LK_itable; LK_ftable; LK_log; LK_bcache; LK_cons;
   LK_pr; LK_tx; LK_vdisk; LK_race]
  ++ (LK_proc <$> seq 0 NPROC) ++ ((fun i => LK_sleep (SL_inode i)) <$> seq 0 NINODE)
  ++ ((fun i => LK_sleep (SL_buf i)) <$> seq 0 NBUF).

Definition idle_kst : kst :=
  let s := kst_zero in
  let p := set_p_kstack (KSTACK 0) (set_p_pid 1 (set_p_state RUNNING proc_zero)) in
  set_k_locks (list_to_map ((fun l => (l, mkSpinlock 0 "" None)) <$> static_locks))
    (set_k_csr (set_r_sstatus SSTATUS_SIE (k_csr s))
       (set_k_cpu (mkCpu (Some 0%nat) 0 0)
          (set_k_procs (<[0%nat := p]> (k_procs s)) s))).

(** ** The monad

    Running a kernel function from a state gives [Done] when it returns,
    [Panic] when it calls panic(), [Stuck] when control stays in it (a lock
    that nobody on this hart will release, an endless loop, or a loop bound
    used up), and [Yield s k] when it gives up the CPU with swtch(): [s] is
    the state it leaves to the rest of the system and [k] continues from
    whatever state the scheduler resumes it in. *)
Inductive stuck := Spinning (l : lockid) | Halted | OutOfFuel.

Inductive res (A : Type) :=
| Done (a : A) (s : kst)
| Panic (msg : string) (s : kst)
| Stuck (w : stuck) (s : kst)
| Yield (s : kst) (k : kst -> res A).
Arguments Done {A} a s.
Arguments Panic {A} msg s.
Arguments Stuck {A} w s.
Arguments Yield {A} s k.

Definition K (A : Type) : Type := kst -> res A.

Fixpoint res_bind {A B} (f : A -> K B) (r : res A) : res B :=
  match r with
  | Done a s => f a s
  | Panic m s => Panic m s
  | Stuck w s => Stuck w s
  | Yield s k => Yield s (fun s' => res_bind f (k s'))
  end.

#[global] Instance K_ret : MRet K := fun A a s => Done a s.
#[global] Instance K_bind : MBind K := fun A B f m s => res_bind f (m s).

Definition panic {A} (msg : string) : K A := fun s => Panic msg s.
Definition stuck_at {A} (w : stuck) : K A := fun s => Stuck w s.
Definition gets {A} (f : kst -> A) : K A := fun s => Done (f s) s.
Definition modify (f : kst -> kst) : K unit := fun s => Done tt (f s).
Definition when (b : bool) (m : K unit) : K unit := if b then m else mret tt.

(** swtch(): hand the CPU over and wait to be resumed. *)
Definition swtch : K unit := fun s => Yield s (fun s' => Done tt s').

(** [for] over a table, leaving early when the body returns [Some]. *)
Fixpoint foreach {A B} (l : list A) (body : A -> K (option B)) : K (option B) :=
  match l with
  | [] => mret None
  | x :: l' =>
      r ← body x;
      match r with
      | Some b => mret (Some b)
      | None => foreach l' body
      end
  end.

(** [for] over a table with no early exit. *)
Fixpoint foreach_ {A} (l : list A) (body : A -> K unit) : K unit :=
  match l with
  | [] => mret tt
  | x :: l' => body x ;; foreach_ l' body
  end.

(** [while]: the body returns [inl] of the next loop state or [inr] of the
    result; [fuel] bounds the iterations. *)
Fixpoint loop {A B} (fuel : nat) (body : A -> K (A + B)) (a : A) : K B :=
  match fuel with
  | O => stuck_at OutOfFuel
  | S n =>
      r ← body a;
      match r with
      | inl a' => loop n body a'
      | inr b => mret b
      end
  end.

(** How often a process goes back to sleep in one [while (cond) sleep(...)]
    before a run of the model gives up: the number of wakeups a process sees
    has no bound of its own. *)
Definition SLEEP_FUEL : nat := 1000.
Arguments SLEEP_FUEL : simpl never.

(** Unfolds the monad's plumbing, leaving the state transformations. *)
Ltac krun :=
  cbv [mbind K_bind mret K_ret gets modify panic stuck_at when swtch]; cbn [res_bind].

Lemma bind_Done {A B} (m : K A) (f : A -> K B) s a s1 :
  m s = Done a s1 -> (m ≫= f) s = f a s1.
Proof. intros H. unfold mbind, K_bind. by rewrite H. Qed.

Lemma bind_Panic {A B} (m : K A) (f : A -> K B) s msg s1 :
  m s = Panic msg s1 -> (m ≫= f) s = Panic msg s1.
Proof. intros H. unfold mbind, K_bind. by rewrite H. Qed.

Lemma bind_Yield {A B} (m : K A) (f : A -> K B) s s1 k :
  m s = Yield s1 k -> (m ≫= f) s = Yield s1 (fun s' => res_bind f (k s')).
Proof. intros H. unfold mbind, K_bind. by rewrite H. Qed.

(** A bind that returns without giving up the CPU in its first half. *)
Lemma bind_inv {A B} (m : K A) (f : A -> K B) s b s' :
  (m ≫= f) s = Done b s' -> exists a s1, m s = Done a s1 /\ f a s1 = Done b s'.
Proof. unfold mbind, K_bind. destruct (m s) eqn:E; simpl; naive_solver. Qed.

Lemma bind_gets {A B} (g : kst -> A) (f : A -> K B) s : (gets g ≫= f) s = f (g s) s.
Proof. done. Qed.

Lemma bind_modify {B} (g : kst -> kst) (f : unit -> K B) s : (modify g ≫= f) s = f tt (g s).
Proof. done. Qed.

Lemma bind_ret {A B} (a : A) (f : A -> K B) s : (mret a ≫= f) s = f a s.
Proof. done. Qed.

Lemma bind_assoc {A B C} (m : K A) (f : A -> K B) (g : B -> K C) s a s1 :
  m s = Done a s1 -> ((m ≫= f) ≫= g) s = (f a ≫= g) s1.
Proof. intros H. unfold mbind, K_bind. by rewrite H. Qed.

(** The monad's laws on results; two continuations of a [Yield] are equal
    when they agree on every state. *)
Lemma res_bind_ret {A} (r : res A) : res_bind (fun a => mret a) r = r.
Proof. induction r as [| | |s k IH]; cbn; [done..|]. f_equal. apply functional_extensionality, IH. Qed.
Lemma res_bind_bind {A B C} (f : A -> K B) (g : B -> K C) (r : res A) :
  res_bind g (res_bind f r) = res_bind (fun a s => res_bind g (f a s)) r.
Proof. induction r as [| | |s k IH]; cbn; [done..|]. f_equal. apply functional_extensionality, IH. Qed.
Lemma bind_as_res {A B} (m : K A) (f : A -> K B) s : (m ≫= f) s = res_bind f (m s).
Proof. done. Qed.

(** One more round of a [while]. *)
Lemma loop_done {A B} n (body : A -> K (A + B)) a b s s' :
  (0 < n)%nat -> body a s = Done (inr b) s' -> loop n body a s = Done b s'.
Proof. intros Hn H. destruct n; [lia|]. cbn [loop]. by erewrite bind_Done by exact H. Qed.

Lemma loop_next {A B} n (body : A -> K (A + B)) a a' s s' :
  body a s = Done (inl a') s' -> loop (S n) body a s = loop n body a' s'.
Proof. intros H. cbn [loop]. by erewrite bind_Done by exact H. Qed.

(** ** Framing

    [keeps R m]: whenever [m] returns, [R] relates the states before and
    after it. *)
Definition keeps {A} (R : kst -> kst -> Prop) (m : K A) : Prop :=
  forall s a s', m s = Done a s' -> R s s'.

Section keeps.
  Context (R : kst -> kst -> Prop) `{!PreOrder R}.

Lemma keeps_ret {A} (a : A) : keeps R (mret a).
Proof. intros s b s' [= _ <-]. reflexivity. Qed.

Lemma keeps_gets {A} (f : kst -> A) : keeps R (gets f).
Proof. intros s b s' [= _ <-]. reflexivity. Qed.

Lemma keeps_panic {A} msg : keeps R (panic (A := A) msg).
Proof. by intros s b s'. Qed.

Lemma keeps_stuck {A} w : keeps R (stuck_at (A := A) w).
Proof. by intros s b s'. Qed.

Lemma keeps_swtch : keeps R swtch.
Proof. by intros s b s'. Qed.

Lemma keeps_modify f : (forall s, R s (f s)) -> keeps R (modify f).
Proof. intros H s b s' [= _ <-]. apply H. Qed.

Lemma keeps_bind {A B} (m : K A) (f : A -> K B) :
  keeps R m -> (forall a, keeps R (f a)) -> keeps R (m ≫= f).
Proof.
  intros Hm Hf s b s' (a & s1 & H1 & H2)%bind_inv.
  etransitivity; [by eapply Hm|by eapply Hf].
Qed.

Lemma keeps_foreach_ {A} (l : list A) (body : A -> K unit) :
  (forall x, keeps R (body x)) -> keeps R (foreach_ l body).
Proof.
  intros Hb. induction l as [|x l IH]; cbn [foreach_]; [apply keeps_ret|].
  apply keeps_bind; [done|]. intros _. exact IH.
Qed.

Lemma keeps_foreach {A B} (l : list A) (body : A -> K (option B)) :
  (forall x, keeps R (body x)) -> keeps R (foreach l body).
Proof.
  intros Hb. induction l as [|x l IH]; cbn [foreach]; [apply keeps_ret|].
  apply keeps_bind; [done|]. intros [b|]; [apply keeps_ret|exact IH].
Qed.

Lemma keeps_loop {A B} n (body : A -> K (A + B)) a :
  (forall x, keeps R (body x)) -> keeps R (loop n body a).
Proof.
  intros Hb. revert a. induction n as [|n IH]; intros a; cbn [loop]; [apply keeps_stuck|].
  apply keeps_bind; [done|]. intros [a'|b]; [apply IH|apply keeps_ret].
Qed.

End keeps.

Create HintDb keeps.
#[export] Hint Resolve keeps_panic keeps_stuck keeps_swtch : keeps.

(** Follows the structure of a function body; the calls it meets are resolved
    from the hint database. *)
Ltac keeps_step :=
  lazymatch goal with
  | |- keeps _ (mbind _ _) => apply keeps_bind; [apply _| |intros ?]
  | |- keeps _ (mret _) => apply keeps_ret; apply _
  | |- keeps _ (gets _) => apply keeps_gets; apply _
  | |- keeps _ (when _ _) => unfold when
  | |- keeps _ (loop _ _ _) => apply keeps_loop; [apply _|intros ?]
  | |- keeps _ (foreach_ _ _) => apply keeps_foreach_; [apply _|intros ?]
  | |- keeps _ (foreach _ _) => apply keeps_foreach; [apply _|intros ?]
  | |- keeps _ (modify _) => apply keeps_modify; intros ?; first [reflexivity|done|eauto with keeps]
  | |- keeps _ (let _ := _ in _) => cbv zeta
  | |- keeps _ (match ?x with _ => _ end) => destruct x
  end.
Ltac keeps_auto := repeat first [solve [eauto 2 with keeps] | progress cbv beta | keeps_step].

(** A search that found something found it in one of its rounds. *)
Lemma foreach_Some {A B} (R : kst -> kst -> Prop) `{!PreOrder R} (l : list A)
    (body : A -> K (option B)) b s s' :
  (forall x, keeps R (body x)) -> foreach l body s = Done (Some b) s' ->
  exists x s1, x ∈ l /\ R s s1 /\ body x s1 = Done (Some b) s'.
Proof.
  intros Hb. revert s. induction l as [|x l IH]; intros s; cbn [foreach]; [done|].
  intros ([b'|] & s1 & H1 & H2)%bind_inv.
  - injection H2 as -> ->. exists x, s. split; [by left|]. split; [reflexivity|done].
  - destruct (IH s1 H2) as (y & s2 & Hy & HR & H). exists y, s2. split; [by right|].
    split; [|done]. etransitivity; [by eapply Hb|done].
Qed.

(** A counting loop, by an invariant on the counter. *)
Lemma foreach_seq (body : nat -> K unit) (P : nat -> kst -> Prop) a n s :
  (forall k s, (a <= k < a + n)%nat -> P k s -> exists s', body k s = Done tt s' /\ P (S k) s') ->
  P a s -> exists s', foreach_ (seq a n) body s = Done tt s' /\ P (a + n)%nat s'.
Proof.
  revert a s. induction n as [|n IH]; intros a s Hb HP; cbn [seq foreach_].
  - exists s. by rewrite Nat.add_0_r.
  - destruct (Hb a s) as (s1 & H1 & HP1); [lia|done|].
    destruct (IH (S a) s1) as (s2 & H2 & HP2); [intros k s' Hk; apply Hb; lia|done|].
    exists s2. rewrite <- Nat.add_succ_comm. split; [|done]. by erewrite bind_Done by exact H1.
Qed.
