(* ===== verification/Spinlock.v ===== *)
(** * Spinlock: interrupts, the current CPU and mutual-exclusion locks

    kernel/spinlock.c, the interrupt helpers of kernel/riscv.h and
    cpuid/mycpu/myproc of kernel/proc.c.  The model runs one hart: a lock that
    another hart holds makes acquire() spin, which is [Stuck (Spinning l)];
    interleavings of several harts on one lock word are in Race. *)

From S2P Require Import Prelude Params Machine.

(** ** kernel/riscv.h: interrupt enable bit of sstatus *)
Definition get_sstatus : K Z := gets (fun s => r_sstatus (k_csr s)).
Definition put_sstatus (x : Z) : K unit :=
  modify (fun s => set_k_csr (set_r_sstatus x (k_csr s)) s).

Definition s_sstatus (x : Z) : K unit := v ← get_sstatus; put_sstatus (Z.lor v x).
Definition c_sstatus (x : Z) : K unit := v ← get_sstatus; put_sstatus (Z.ldiff v x).
Definition rc_sstatus (x : Z) : K Z := v ← get_sstatus; put_sstatus (Z.ldiff v x) ;; mret v.

Definition intr_on : K unit := s_sstatus SSTATUS_SIE.
Definition intr_off : K unit := c_sstatus SSTATUS_SIE.
Definition intr_get : K bool := x ← get_sstatus; mret (truthy (Z.land x SSTATUS_SIE)).

(** ** kernel/proc.c: cpuid, mycpu *)
Definition cpuid : K Z := gets (fun s => s32 (k_hart s)).
Definition mycpu : K cpu := gets k_cpu.
Definition upd_mycpu (f : cpu -> cpu) : K unit := modify (fun s => set_k_cpu (f (k_cpu s)) s).

(** ** push_off and pop_off *)
Definition push_off : K unit :=
  flags ← rc_sstatus SSTATUS_SIE;
  let old := b2z (truthy (Z.land flags SSTATUS_SIE)) in
  c ← mycpu;
  when (c_noff c =? 0) (upd_mycpu (set_c_intena old)) ;;
  upd_mycpu (fun c => set_c_noff (s32 (c_noff c + 1)) c).

Definition pop_off : K unit :=
  c ← mycpu;
  on ← intr_get;
  if on : bool then panic "pop_off - interruptible" else
  if c_noff c <? 1 then panic "pop_off" else
  upd_mycpu (fun c => set_c_noff (s32 (c_noff c - 1)) c) ;;
  c ← mycpu;
  when ((c_noff c =? 0) && truthy (c_intena c)) intr_on.

(** Return the current process, or none. *)
Definition myproc : K (option nat) :=
  push_off ;;
  c ← mycpu;
  let p := c_proc c in
  pop_off ;;
  mret p.

(** ** Locks *)
Definition lock_zero : spinlock := mkSpinlock 0 "" None.
Definition get_lock (s : kst) (l : lockid) : spinlock := default lock_zero (k_locks s !! l).
Definition upd_lock (l : lockid) (f : spinlock -> spinlock) : K unit :=
  modify (fun s => set_k_locks (<[l := f (get_lock s l)]> (k_locks s)) s).

Definition initlock (l : lockid) (name : string) : K unit :=
  upd_lock l (set_lk_name name) ;;
  upd_lock l (set_lk_locked 0) ;;
  upd_lock l (set_lk_cpu None).

(** Is this hart holding the lock?  Interrupts must be off. *)
Definition holding (l : lockid) : K bool :=
  lk ← gets (fun s => get_lock s l);
  id ← gets k_hart;
  mret (truthy (lk_locked lk) && bool_decide (lk_cpu lk = Some id)).

(** [__atomic_exchange_n(&lk->locked, 1)]: returns the old word. *)
Definition exchange_locked (l : lockid) : K Z :=
  lk ← gets (fun s => get_lock s l);
  upd_lock l (set_lk_locked 1) ;;
  mret (lk_locked lk).

Definition acquire (l : lockid) : K unit :=
  push_off ;;
  h ← holding l;
  if h : bool then panic "acquire" else
  old ← exchange_locked l;
  if truthy old then stuck_at (Spinning l) else
  id ← gets k_hart;
  upd_lock l (set_lk_cpu (Some id)).

Definition release (l : lockid) : K unit :=
  h ← holding l;
  if negb h then panic "release" else
  upd_lock l (set_lk_cpu None) ;;
  upd_lock l (set_lk_locked 0) ;;
  pop_off.

(** ** What they do, as state functions *)
Definition SIE (s : kst) : bool := truthy (Z.land (r_sstatus (k_csr s)) SSTATUS_SIE).

(** Push/pop nesting is a small non-negative int, and interrupts are off
    while it is positive. *)
Definition cpu_ok (s : kst) : Prop :=
  0 <= c_noff (k_cpu s) < 2 ^ 30 /\ (0 < c_noff (k_cpu s) -> SIE s = false).

Definition pushed (s : kst) : kst :=
  let c := k_cpu s in
  set_k_cpu
    (mkCpu (c_proc c) (c_noff c + 1)
       (if c_noff c =? 0 then b2z (SIE s) else c_intena c))
    (set_k_csr (set_r_sstatus (Z.ldiff (r_sstatus (k_csr s)) SSTATUS_SIE) (k_csr s)) s).

Definition popped (s : kst) : kst :=
  let c := k_cpu s in
  let s1 := set_k_cpu (set_c_noff (c_noff c - 1) c) s in
  if (c_noff c =? 1) && truthy (c_intena c)
  then set_k_csr (set_r_sstatus (Z.lor (r_sstatus (k_csr s)) SSTATUS_SIE) (k_csr s)) s1
  else s1.

(** The only trace a matched push/pop leaves: [intena] of the outermost one. *)
Definition touch_cpu (s : kst) : cpu :=
  if c_noff (k_cpu s) =? 0 then set_c_intena (b2z (SIE s)) (k_cpu s) else k_cpu s.
Definition touch (s : kst) : kst := set_k_cpu (touch_cpu s) s.

Definition lock_free (l : lockid) (s : kst) : Prop :=
  exists n, k_locks s !! l = Some (mkSpinlock 0 n None).
Definition lock_held (l : lockid) (s : kst) : Prop :=
  exists n, k_locks s !! l = Some (mkSpinlock 1 n (Some (k_hart s))).

Definition acquired (l : lockid) (s : kst) : kst :=
  set_k_locks
    (<[l := mkSpinlock 1 (lk_name (get_lock s l)) (Some (k_hart s))]> (k_locks s))
    (pushed s).
Definition released (l : lockid) (s : kst) : kst :=
  popped (set_k_locks
    (<[l := mkSpinlock 0 (lk_name (get_lock s l)) None]> (k_locks s)) s).

(** The part of the state that locking works on, and replacing it. *)
Definition hw (s : kst) := (k_hart s, k_cpu s, k_csr s, k_locks s).
Definition put_hw (h : Z * cpu * csrs * gmap lockid spinlock) (s : kst) : kst :=
  set_k_hart h.1.1.1 (set_k_cpu h.1.1.2 (set_k_csr h.1.2 (set_k_locks h.2 s))).

(** ** Facts about the interrupt bit *)
Lemma land_SIE x : truthy (Z.land x SSTATUS_SIE) = Z.testbit x 1.
Proof. by apply (truthy_land_bit x 1). Qed.

Lemma SIE_bit s : SIE s = Z.testbit (r_sstatus (k_csr s)) 1.
Proof. apply land_SIE. Qed.

Lemma ldiff_SIE_bit x : Z.testbit (Z.ldiff x SSTATUS_SIE) 1 = false.
Proof. rewrite Z.ldiff_spec. change (Z.testbit SSTATUS_SIE 1) with true. apply andb_false_r. Qed.

Lemma lor_ldiff_SIE x : Z.testbit x 1 = true -> Z.lor (Z.ldiff x SSTATUS_SIE) SSTATUS_SIE = x.
Proof.
  intros Hx. apply Z.bits_inj'. intros n Hn.
  rewrite Z.lor_spec, Z.ldiff_spec. change SSTATUS_SIE with (2 ^ 1).
  rewrite Z.pow2_bits_eqb by lia.
  destruct (Z.eqb_spec 1 n) as [<-|]; [by rewrite Hx|].
  destruct (Z.testbit x n); done.
Qed.

Lemma ldiff_SIE_id x : Z.testbit x 1 = false -> Z.ldiff x SSTATUS_SIE = x.
Proof.
  intros Hx. apply Z.bits_inj'. intros n Hn. rewrite Z.ldiff_spec.
  change SSTATUS_SIE with (2 ^ 1). rewrite Z.pow2_bits_eqb by lia.
  destruct (Z.eqb_spec 1 n) as [<-|]; [by rewrite Hx|by rewrite andb_true_r].
Qed.

(** ** Equations of the operations *)
Section equations.
  Implicit Types s : kst.

Lemma push_off_eq s : cpu_ok s -> push_off s = Done tt (pushed s).
Proof.
  intros [[Hlo Hhi] _].
  assert (s32 (c_noff (k_cpu s) + 1) = c_noff (k_cpu s) + 1) as H32 by (apply s32_small; lia).
  unfold push_off, rc_sstatus, get_sstatus, put_sstatus, mycpu, upd_mycpu. krun.
  unfold pushed, SIE. cbn.
  destruct (Z.eqb_spec (c_noff (k_cpu s)) 0); cbn; by rewrite H32.
Qed.

Lemma pop_off_eq s :
  1 <= c_noff (k_cpu s) < 2 ^ 31 -> SIE s = false -> pop_off s = Done tt (popped s).
Proof.
  intros Hn Hsie.
  assert (s32 (c_noff (k_cpu s) - 1) = c_noff (k_cpu s) - 1) as H32 by (apply s32_small; lia).
  unfold pop_off, intr_get, intr_on, s_sstatus, get_sstatus, put_sstatus, mycpu, upd_mycpu.
  krun. fold (SIE s). rewrite Hsie.
  destruct (Z.ltb_spec (c_noff (k_cpu s)) 1); [lia|]. unfold popped. cbn. rewrite H32.
  destruct (Z.eqb_spec (c_noff (k_cpu s) - 1) 0), (Z.eqb_spec (c_noff (k_cpu s)) 1);
    try lia; cbn; [destruct (truthy _)|]; done.
Qed.

Lemma SIE_pushed s : SIE (pushed s) = false.
Proof. rewrite SIE_bit. destruct s as [? [] []]. cbn. apply ldiff_SIE_bit. Qed.

Lemma set_sstatus_id s : set_k_csr (set_r_sstatus (r_sstatus (k_csr s)) (k_csr s)) s = s.
Proof. by destruct s as [? ? []]. Qed.

Lemma popped_pushed s : cpu_ok s -> popped (pushed s) = touch s.
Proof.
  intros [[Hlo _] Hoff]. rewrite SIE_bit in Hoff.
  unfold popped, pushed, touch, touch_cpu. cbn. rewrite SIE_bit.
  replace (c_noff (k_cpu s) + 1 - 1) with (c_noff (k_cpu s)) by lia.
  destruct (Z.eqb_spec (c_noff (k_cpu s)) 0) as [E|].
  - rewrite E, truthy_b2z. cbn.
    destruct (Z.testbit (r_sstatus (k_csr s)) 1) eqn:Eb; cbn.
    + rewrite lor_ldiff_SIE by done. destruct s as [? [] []]; cbn in *. by subst.
    + rewrite ldiff_SIE_id by done. destruct s as [? [] []]; cbn in *. by subst.
  - destruct (Z.eqb_spec (c_noff (k_cpu s) + 1) 1); [lia|]. cbn.
    rewrite ldiff_SIE_id by (apply Hoff; lia). by destruct s as [? [] []].
Qed.

Lemma touch_touch s : touch (touch s) = touch s.
Proof.
  unfold touch, touch_cpu.
  destruct (Z.eqb_spec (c_noff (k_cpu s)) 0) as [E|E]; cbn; [by rewrite E|].
  by destruct (Z.eqb_spec (c_noff (k_cpu s)) 0).
Qed.

Lemma cpu_ok_pushed s : cpu_ok s -> c_noff (k_cpu s) + 1 < 2 ^ 30 -> cpu_ok (pushed s).
Proof.
  intros [Hn _] ?. split; [destruct s as [? [] []]; cbn in *; lia|].
  intros _. apply SIE_pushed.
Qed.

Lemma cpu_ok_touch s : cpu_ok s -> cpu_ok (touch s).
Proof.
  intros H. unfold cpu_ok, touch, touch_cpu, SIE in *.
  by destruct (Z.eqb_spec (c_noff (k_cpu s)) 0).
Qed.

Lemma hw_touch_proc s : c_proc (k_cpu (touch s)) = c_proc (k_cpu s).
Proof. unfold touch, touch_cpu. by destruct (_ =? _). Qed.

Lemma touch_nested s : 0 < c_noff (k_cpu s) -> touch s = s.
Proof.
  intros. unfold touch, touch_cpu. destruct (Z.eqb_spec (c_noff (k_cpu s)) 0); [lia|].
  by destruct s.
Qed.

Lemma myproc_eq s : cpu_ok s -> myproc s = Done (c_proc (k_cpu s)) (touch s).
Proof.
  intros Hok. unfold myproc. erewrite bind_Done by by apply push_off_eq.
  unfold mycpu. rewrite bind_gets. cbn zeta.
  erewrite bind_Done.
  2:{ apply pop_off_eq; [|apply SIE_pushed].
      destruct Hok as [? _], s as [? [] []]. cbn in *. lia. }
  rewrite popped_pushed by done. done.
Qed.

Lemma get_lock_Some l s lk : k_locks s !! l = Some lk -> get_lock s l = lk.
Proof. unfold get_lock. by intros ->. Qed.

Lemma get_lock_insert l s lk : get_lock (set_k_locks (<[l := lk]> (k_locks s)) s) l = lk.
Proof. apply get_lock_Some. cbn. apply lookup_insert_eq. Qed.

Lemma holding_free l s : lock_free l s -> holding l s = Done false s.
Proof. intros [n Hn]. unfold holding. krun. by rewrite (get_lock_Some _ _ _ Hn). Qed.

Lemma holding_held l s : lock_held l s -> holding l s = Done true s.
Proof.
  intros [n Hn]. unfold holding. krun. rewrite (get_lock_Some _ _ _ Hn). cbn.
  by rewrite bool_decide_true.
Qed.

Lemma lock_free_pushed l s : lock_free l s -> lock_free l (pushed s).
Proof. done. Qed.

Lemma upd_lock_eq l f s lk :
  k_locks s !! l = Some lk -> upd_lock l f s = Done tt (set_k_locks (<[l := f lk]> (k_locks s)) s).
Proof. intros H. unfold upd_lock. krun. by rewrite (get_lock_Some _ _ _ H). Qed.

Lemma acquire_eq l s : cpu_ok s -> lock_free l s -> acquire l s = Done tt (acquired l s).
Proof.
  intros Hok Hf. unfold acquire. erewrite bind_Done by by apply push_off_eq.
  erewrite bind_Done by by apply holding_free, lock_free_pushed.
  destruct Hf as [n Hn]. assert (k_locks (pushed s) !! l = Some (mkSpinlock 0 n None)) as Hn'
    by apply Hn.
  unfold exchange_locked, acquired. krun. rewrite !(get_lock_Some _ _ _ Hn').
  erewrite upd_lock_eq by apply Hn'. cbn [res_bind lk_locked truthy].
  change (truthy 0) with false. cbv iota beta.
  erewrite upd_lock_eq by (cbn; apply lookup_insert_eq).
  cbn. rewrite insert_insert_eq, (get_lock_Some _ _ _ Hn). done.
Qed.

Lemma initlock_eq l name s :
  initlock l name s = Done tt (set_k_locks (<[l := mkSpinlock 0 name None]> (k_locks s)) s).
Proof.
  unfold initlock. erewrite bind_Done by reflexivity.
  erewrite bind_Done by (eapply upd_lock_eq; apply lookup_insert_eq).
  erewrite upd_lock_eq by apply lookup_insert_eq. cbn. by rewrite !insert_insert_eq.
Qed.

Lemma initlock_free l name s :
  lock_free l (set_k_locks (<[l := mkSpinlock 0 name None]> (k_locks s)) s).
Proof. eexists. apply lookup_insert_eq. Qed.

(** A lock held by another hart: acquire() spins. *)
Lemma acquire_spins l s n h :
  cpu_ok s -> k_locks s !! l = Some (mkSpinlock 1 n (Some h)) -> h <> k_hart s ->
  exists s', acquire l s = Stuck (Spinning l) s'.
Proof.
  intros Hok Hl Hne. unfold acquire. erewrite bind_Done by by apply push_off_eq.
  assert (k_locks (pushed s) !! l = Some (mkSpinlock 1 n (Some h))) as Hl' by apply Hl.
  unfold holding, exchange_locked. krun. rewrite !(get_lock_Some _ _ _ Hl').
  rewrite bool_decide_false by (cbn; congruence). rewrite andb_false_r. cbv beta iota.
  erewrite upd_lock_eq by apply Hl'. cbn [res_bind]. rewrite (get_lock_Some _ _ _ Hl').
  eexists. reflexivity.
Qed.

(** A hart that already holds the lock panics instead of deadlocking. *)
Lemma acquire_held l s :
  cpu_ok s -> lock_held l s -> exists s', acquire l s = Panic "acquire" s'.
Proof.
  intros Hok Hl. unfold acquire. erewrite bind_Done by by apply push_off_eq.
  erewrite bind_Done by by apply holding_held. eexists. reflexivity.
Qed.

Lemma lock_held_acquired l s : lock_held l (acquired l s).
Proof. eexists. unfold acquired. cbn. apply lookup_insert_eq. Qed.

Lemma release_eq l s :
  lock_held l s -> 1 <= c_noff (k_cpu s) < 2 ^ 31 -> SIE s = false ->
  release l s = Done tt (released l s).
Proof.
  intros Hh Hn Hsie. unfold release. erewrite bind_Done by by apply holding_held.
  destruct Hh as [n Hl]. cbn [negb].
  erewrite bind_Done by by eapply upd_lock_eq.
  erewrite bind_Done by (eapply upd_lock_eq; cbn; apply lookup_insert_eq).
  cbn. rewrite insert_insert_eq. unfold released. rewrite (get_lock_Some _ _ _ Hl).
  by apply pop_off_eq.
Qed.

Lemma hw_eq_fields s s' :
  hw s = hw s' -> k_hart s = k_hart s' /\ k_cpu s = k_cpu s' /\ k_csr s = k_csr s' /\ k_locks s = k_locks s'.
Proof. unfold hw. intros H. by inversion H. Qed.

Lemma put_hw_id s : put_hw (hw s) s = s.
Proof. by destruct s. Qed.

(** Leaving a critical section whose body left the locking state alone puts
    that state back to what it was on entry. *)
Lemma release_section l s s1 :
  cpu_ok s -> lock_free l s -> hw s1 = hw (acquired l s) ->
  release l s1 = Done tt (put_hw (hw (touch s)) s1).
Proof.
  intros Hok [n Hn] Hhw.
  assert (s1 = put_hw (hw (acquired l s)) s1) as Hs1 by (rewrite <- Hhw; symmetry; apply put_hw_id).
  rewrite Hs1. clear Hs1 Hhw. pose proof Hok as [? _].
  rewrite release_eq.
  - f_equal.
    assert (released l (put_hw (hw (acquired l s)) s1)
            = put_hw (hw (popped (set_k_locks (k_locks s) (pushed s)))) s1) as ->.
    { unfold released, acquired, get_lock. cbn. rewrite Hn. cbn.
      rewrite lookup_insert_eq. cbn. rewrite insert_insert_eq, (insert_id _ _ _ Hn).
      unfold popped. cbn. by destruct ((_ =? _) && _). }
    replace (set_k_locks (k_locks s) (pushed s)) with (pushed s) by by destruct s.
    rewrite popped_pushed by done. by destruct s1.
  - eexists. cbn. apply lookup_insert_eq.
  - cbn. lia.
  - rewrite <- (SIE_pushed s). by destruct s.
Qed.

End equations.

#[export] Hint Resolve cpu_ok_touch : xv6.

(** ** Nesting *)
Fixpoint times (n : nat) (m : K unit) : K unit :=
  match n with
  | O => mret tt
  | S n' => m ;; times n' m
  end.

Lemma times_push_off n s :
  cpu_ok s -> c_noff (k_cpu s) + Z.of_nat n < 2 ^ 30 ->
  times n push_off s = Done tt (Nat.iter n pushed s)
  /\ c_noff (k_cpu (Nat.iter n pushed s)) = c_noff (k_cpu s) + Z.of_nat n
  /\ cpu_ok (Nat.iter n pushed s).
Proof.
  revert s. induction n as [|n IH]; intros s Hok Hn.
  { split; [done|]. split; [cbn; lia|done]. }
  rewrite Nat.iter_succ_r. cbn [times].
  erewrite bind_Done by by apply push_off_eq.
  assert (c_noff (k_cpu (pushed s)) = c_noff (k_cpu s) + 1) as E by done.
  destruct (IH (pushed s)) as (-> & H2 & H3); [apply cpu_ok_pushed; [done|lia]|lia|].
  split; [done|]. split; [lia|done].
Qed.

Lemma times_pop_off n s :
  cpu_ok s -> c_noff (k_cpu s) + Z.of_nat (S n) < 2 ^ 30 ->
  times (S n) pop_off (Nat.iter (S n) pushed s) = Done tt (touch s).
Proof.
  intros Hok. induction n as [|n IH]; intros Hn.
  - destruct (times_push_off 1 s Hok Hn) as (_ & E & _). cbn [times Nat.iter] in *.
    erewrite bind_Done by (apply pop_off_eq; [destruct Hok; lia|apply SIE_pushed]).
    by rewrite popped_pushed.
  - destruct (times_push_off (S (S n)) s Hok Hn) as (_ & E & _).
    destruct (times_push_off (S n) s Hok) as (_ & E' & Hok'); [lia|].
    change (times (S (S n)) pop_off) with (pop_off ;; times (S n) pop_off).
    erewrite bind_Done by (apply pop_off_eq; [destruct Hok; lia|apply SIE_pushed]).
    change (Nat.iter (S (S n)) pushed s) with (pushed (Nat.iter (S n) pushed s)) in *.
    rewrite popped_pushed by done. rewrite touch_nested by (destruct Hok; lia). apply IH. lia.
Qed.

(** ** Properties *)

(** Interrupt disabling nests.  After [n] calls of push_off() interrupts
    are off and [noff] has grown by [n]; [n] calls of pop_off() then give back
    the machine as it was, with interrupts on again exactly when they were on
    before the first push_off() (only [intena] remembers the visit). *)
Lemma push_pop_nest n s :
  cpu_ok s -> c_noff (k_cpu s) + Z.of_nat (S n) < 2 ^ 30 ->
  exists s1, times (S n) push_off s = Done tt s1
    /\ SIE s1 = false /\ c_noff (k_cpu s1) = c_noff (k_cpu s) + Z.of_nat (S n)
    /\ times (S n) pop_off s1 = Done tt (touch s) /\ SIE (touch s) = SIE s.
Proof.
  intros Hok Hn. destruct (times_push_off (S n) s Hok Hn) as (H1 & H2 & [_ H3]).
  eexists. split; [exact H1|]. split; [apply H3; destruct Hok; lia|]. split; [done|].
  split; [by apply times_pop_off|]. done.
Qed.

(** C31: the spin-lock protocol on every branch.  acquire() of a free lock
    returns with the lock held by this hart and interrupts off; a second
    acquire() by the holder panics, one on another hart's lock spins; a
    critical section that leaves the locking state alone ends, after
    release(), with the lock free and the interrupt state of its start; and
    release() of a lock this hart does not hold panics. *)
Theorem spinlock_protocol l s :
  cpu_ok s -> lock_free l s ->
  exists s1, acquire l s = Done tt s1
    /\ lock_held l s1 /\ SIE s1 = false
    /\ (forall s2, hw s2 = hw s1 -> release l s2 = Done tt (put_hw (hw (touch s)) s2))
    /\ lock_free l (touch s) /\ SIE (touch s) = SIE s
    /\ (c_noff (k_cpu s) + 1 < 2 ^ 30 -> exists s3, acquire l s1 = Panic "acquire" s3)
    /\ release l s = Panic "release" s
    /\ (forall n h s4, cpu_ok s4 -> k_locks s4 !! l = Some (mkSpinlock 1 n (Some h)) ->
          h <> k_hart s4 -> exists s5, acquire l s4 = Stuck (Spinning l) s5).
Proof.
  intros Hok Hf. exists (acquired l s). split_and!.
  - by apply acquire_eq.
  - apply lock_held_acquired.
  - apply (SIE_pushed s).
  - intros s2 Hs2. by apply release_section.
  - exact Hf.
  - done.
  - intros Hn. apply acquire_held; [|apply lock_held_acquired]. by apply cpu_ok_pushed.
  - unfold release. by erewrite bind_Done by by apply holding_free.
  - intros n h s4 Hok4 Hl Hne. by eapply acquire_spins.
Qed.

Lemma spinlock_protocol_witness :
  exists s1, acquire LK_kmem idle_kst = Done tt s1 /\ lock_held LK_kmem s1.
Proof.
  destruct (spinlock_protocol LK_kmem idle_kst) as (s1 & H1 & H2 & _);
    [split; [done|intros H; by vm_compute in H]|by eexists|by exists s1].
Defined.
