(* ===== verification/Strings.v ===== *)
(** * Strings: kernel/string.c

    memset/memmove work on the byte memory, since their contract is about
    overlapping regions.  The str* functions work on character arrays: a
    [char *] is the list of bytes from that address on, and a byte read past
    the end of an array is taken to be NUL; a write past the end is dropped
    (the callers' bounds are part of the theorems). *)

From S2P Require Import Prelude Params Machine.

(** ** Memory blocks *)
Definition upd1 (m : mem) (a v : Z) : mem := fun x => if x =? a then v else m x.

Fixpoint memset_loop (k : nat) (cdst c i : Z) (m : mem) : mem :=
  match k with
  | O => m
  | S k' => memset_loop k' cdst c (i + 1) (upd1 m (cdst + i) (u8 c))
  end.
Definition memset (dst c n : Z) (m : mem) : mem := memset_loop (Z.to_nat n) dst c 0 m.

(** [while (n-- > 0) *d++ = *s++;] and [while (n-- > 0) *--d = *--s;] *)
Fixpoint copy_up (n : nat) (d s : Z) (m : mem) : mem :=
  match n with
  | O => m
  | S n' => copy_up n' (d + 1) (s + 1) (upd1 m d (m s))
  end.
Fixpoint copy_down (n : nat) (d s : Z) (m : mem) : mem :=
  match n with
  | O => m
  | S n' => copy_down n' (d - 1) (s - 1) (upd1 m (d - 1) (m (s - 1)))
  end.

Definition memmove (dst src n : Z) (m : mem) : mem :=
  if n =? 0 then m else
  if (src <? dst) && (src + n >? dst)
  then copy_down (Z.to_nat n) (dst + n) (src + n) m
  else copy_up (Z.to_nat n) dst src m.

Definition memcpy (dst src n : Z) (m : mem) : mem := memmove dst src n m.

Fixpoint memcmp (n : nat) (s1 s2 : Z) (m : mem) : Z :=
  match n with
  | O => 0
  | S n' => if m s1 =? m s2 then memcmp n' (s1 + 1) (s2 + 1) m else m s1 - m s2
  end.

(** ** Character arrays *)
Definition hd0 (p : list Z) : Z := default 0 (head p).

Fixpoint strncmp (n : nat) (p q : list Z) : Z :=
  match n with
  | O => 0
  | S n' =>
      if truthy (hd0 p) && (hd0 p =? hd0 q)
      then strncmp n' (tail p) (tail q) else hd0 p - hd0 q
  end.

(** [while (n-- > 0) *s++ = 0;] with [i] the index of [s]. *)
Fixpoint strncpy_pad (n i : nat) (s : list Z) : list Z :=
  match n with
  | O => s
  | S n' => strncpy_pad n' (S i) (<[i := 0]> s)
  end.
Fixpoint strncpy_loop (n i : nat) (s t : list Z) : list Z :=
  match n with
  | O => s
  | S n' =>
      let c := hd0 t in
      let s' := <[i := c]> s in
      if truthy c then strncpy_loop n' (S i) s' (tail t) else strncpy_pad n' (S i) s'
  end.
Definition strncpy (s t : list Z) (n : Z) : list Z := strncpy_loop (Z.to_nat n) 0 s t.

Fixpoint safestrcpy_loop (n i : nat) (s t : list Z) : list Z :=
  match n with
  | O => <[i := 0]> s
  | S n' =>
      let c := hd0 t in
      let s' := <[i := c]> s in
      if truthy c then safestrcpy_loop n' (S i) s' (tail t) else <[S i := 0]> s'
  end.
Definition safestrcpy (s t : list Z) (n : Z) : list Z :=
  if n <=? 0 then s else safestrcpy_loop (Z.to_nat (n - 1)) 0 s t.

Fixpoint strlen (s : list Z) : Z :=
  match s with
  | [] => 0
  | c :: s' => if truthy c then 1 + strlen s' else 0
  end.

(** The string an array holds: its bytes before the first NUL. *)
Fixpoint cstr (s : list Z) : list Z :=
  match s with
  | [] => []
  | c :: s' => if truthy c then c :: cstr s' else []
  end.

Arguments memset : simpl never.
Arguments memmove : simpl never.

(** ** memset *)
Lemma memset_loop_spec k cdst c i m x :
  memset_loop k cdst c i m x =
    if (cdst + i <=? x) && (x <? cdst + i + Z.of_nat k) then u8 c else m x.
Proof.
  revert i m. induction k as [|k IH]; intros i m; cbn [memset_loop].
  - zcases; done.
  - rewrite IH. unfold upd1. zcases; done.
Qed.

Lemma memset_spec dst c n m x :
  0 <= n ->
  memset dst c n m x = if (dst <=? x) && (x <? dst + n) then u8 c else m x.
Proof. intros. unfold memset. rewrite memset_loop_spec, Z.add_0_r, Z2Nat.id; done. Qed.

Lemma memset_out dst c n m x : 0 <= n -> ~ (dst <= x < dst + n) -> memset dst c n m x = m x.
Proof. intros ? ?. rewrite memset_spec by done. zcases; done. Qed.

(** ** memmove *)
Lemma copy_up_spec n d s m x :
  (d <= s \/ s + Z.of_nat n <= d) ->
  copy_up n d s m x =
    if (d <=? x) && (x <? d + Z.of_nat n) then m (s + (x - d)) else m x.
Proof.
  revert d s m. induction n as [|n IH]; intros d s m Hov; cbn [copy_up].
  - zcases; done.
  - rewrite IH by lia. unfold upd1. zcases; try done; f_equal; lia.
Qed.

Lemma copy_down_spec n d s m x :
  s <= d ->
  copy_down n d s m x =
    if (d - Z.of_nat n <=? x) && (x <? d) then m (s + (x - d)) else m x.
Proof.
  revert d s m. induction n as [|n IH]; intros d s m Hov; cbn [copy_down].
  - zcases; done.
  - rewrite IH by lia. unfold upd1. zcases; try done; f_equal; lia.
Qed.

Lemma memmove_lookup dst src n m x :
  0 <= n ->
  memmove dst src n m x =
    if (dst <=? x) && (x <? dst + n) then m (src + (x - dst)) else m x.
Proof.
  intros Hn. unfold memmove. destruct (Z.eqb_spec n 0) as [->|]; [zcases; done|].
  destruct (Z.ltb_spec src dst); cbn [andb];
    rewrite ?Z.gtb_ltb; [destruct (Z.ltb_spec dst (src + n))|].
  - rewrite copy_down_spec by lia. zcases; try done; f_equal; lia.
  - rewrite copy_up_spec by lia. zcases; done.
  - rewrite copy_up_spec by lia. zcases; done.
Qed.

(** memmove copies the bytes the source held before the call, whatever the
    overlap of the two regions, and changes nothing else. *)
Lemma memmove_store dst src n m x :
  0 <= n -> memmove dst src n m x = mem_store m dst (mem_load m src (Z.to_nat n)) x.
Proof.
  intros Hn. rewrite memmove_lookup by done.
  unfold mem_store. rewrite mem_load_length, Z2Nat.id by done.
  destruct ((dst <=? x) && (x <? dst + n)) eqn:E; [|done].
  apply andb_true_iff in E as [E1 E2]. apply Z.leb_le in E1. apply Z.ltb_lt in E2.
  symmetry. apply list_lookup_total_correct. rewrite mem_load_lookup by lia.
  f_equal. f_equal. lia.
Qed.

(** ** strncpy, strncmp, safestrcpy *)
Section strings.
  Implicit Types s t p q : list Z.

Lemma hd0_cstr t : truthy (hd0 t) = true -> cstr t = hd0 t :: cstr (tail t).
Proof. destruct t as [|c t]; [done|]. cbn. intros H. by rewrite H. Qed.
Lemma hd0_cstr_nil t : truthy (hd0 t) = false -> cstr t = [].
Proof. destruct t as [|c t]; [done|]. cbn. intros H. by rewrite H. Qed.

Lemma strlen_cstr s : strlen s = Z.of_nat (length (cstr s)).
Proof. induction s as [|c s IH]; [done|]. cbn. destruct (truthy c); cbn; lia. Qed.

Lemma cstr_nonzero s c : c ∈ cstr s -> c <> 0.
Proof.
  induction s as [|d s IH]; cbn; [by intros ?%elem_of_nil|].
  destruct (truthy d) eqn:E; [|by intros ?%elem_of_nil]. apply truthy_true in E.
  intros [->|?]%elem_of_cons; auto.
Qed.

Lemma strncmp_zero n p q :
  strncmp n p q = 0 <-> take n (cstr p) = take n (cstr q).
Proof.
  revert p q. induction n as [|n IH]; intros p q; [done|]. cbn [strncmp].
  destruct (truthy (hd0 p)) eqn:Ep; cbn [andb].
  - destruct (Z.eqb_spec (hd0 p) (hd0 q)) as [E|E].
    + assert (truthy (hd0 q) = true) as Eq by by rewrite <- E.
      rewrite IH, (hd0_cstr p), (hd0_cstr q), E by done. cbn.
      split; [by intros -> | by intros [= ->]].
    + rewrite (hd0_cstr p) by done. split; [lia|]. destruct (truthy (hd0 q)) eqn:Eq.
      * rewrite (hd0_cstr q) by done. cbn. congruence.
      * rewrite (hd0_cstr_nil q) by done. done.
  - rewrite (hd0_cstr_nil p) by done. apply truthy_false in Ep. rewrite Ep.
    destruct (truthy (hd0 q)) eqn:Eq.
    + rewrite (hd0_cstr q) by done. apply truthy_true in Eq. split; [lia|done].
    + rewrite (hd0_cstr_nil q) by done. apply truthy_false in Eq. by rewrite Eq.
Qed.

Lemma strncpy_pad_length n i s : length (strncpy_pad n i s) = length s.
Proof. revert i s. induction n; intros; cbn; [done|]. by rewrite IHn, length_insert. Qed.

Lemma strncpy_length n i s t : length (strncpy_loop n i s t) = length s.
Proof.
  revert i s t. induction n; intros; cbn; [done|].
  destruct (truthy _); rewrite ?IHn, ?strncpy_pad_length, length_insert; done.
Qed.

(** Splitting an array at the index the loop has reached. *)
Lemma insert_app_len (a : list Z) x y b : <[length a := x]> (a ++ y :: b) = a ++ x :: b.
Proof. rewrite insert_app_r_alt by done. by rewrite Nat.sub_diag. Qed.

Lemma strncpy_pad_app n a b :
  (n <= length b)%nat -> strncpy_pad n (length a) (a ++ b) = a ++ replicate n 0 ++ drop n b.
Proof.
  revert a b. induction n as [|n IH]; intros a b Hn; cbn; [done|].
  destruct b as [|y b]; [cbn in Hn; lia|]. rewrite insert_app_len.
  replace (a ++ 0 :: b) with ((a ++ [0]) ++ b) by by rewrite <- app_assoc.
  replace (S (length a)) with (length (a ++ [0])) by (rewrite length_app; cbn; lia).
  rewrite IH by (cbn in Hn; lia). by rewrite <- app_assoc.
Qed.

Lemma strncpy_loop_app n a b t :
  (n <= length b)%nat ->
  exists k, strncpy_loop n (length a) (a ++ b) t
            = a ++ take n (cstr t) ++ replicate k 0 ++ drop n b
            /\ (length (take n (cstr t)) + k = n)%nat.
Proof.
  revert a b t. induction n as [|n IH]; intros a b t Hn; cbn [strncpy_loop].
  { exists 0%nat. done. }
  destruct b as [|y b]; [cbn in Hn; lia|]. rewrite insert_app_len.
  replace (S (length a)) with (length (a ++ [hd0 t])) by (rewrite length_app; cbn; lia).
  replace (a ++ hd0 t :: b) with ((a ++ [hd0 t]) ++ b) by by rewrite <- app_assoc.
  destruct (truthy (hd0 t)) eqn:Et.
  - destruct (IH (a ++ [hd0 t]) b (tail t)) as (k & Hk & Hlen); [cbn in Hn; lia|].
    exists k. rewrite Hk, (hd0_cstr t) by done. cbn. rewrite <- app_assoc. split; [done|].
    f_equal. done.
  - exists (S n). rewrite strncpy_pad_app by (cbn in Hn; lia).
    rewrite (hd0_cstr_nil t) by done. apply truthy_false in Et. rewrite Et.
    cbn. by rewrite <- app_assoc.
Qed.

Lemma cstr_app_nonzero a b : Forall (fun c => c <> 0) a -> cstr (a ++ b) = a ++ cstr b.
Proof.
  induction 1 as [|c a Hc _ IH]; cbn; [done|].
  apply truthy_true in Hc. by rewrite Hc, IH.
Qed.

Lemma cstr_Forall_nonzero s : Forall (fun c => c <> 0) (cstr s).
Proof. apply Forall_forall. intros c. apply cstr_nonzero. Qed.

Lemma cstr_take_le n s : Forall (fun c => c <> 0) (take n (cstr s)).
Proof. apply Forall_take, cstr_Forall_nonzero. Qed.

Lemma cstr_pad k b : cstr (replicate (S k) 0 ++ b) = [].
Proof. done. Qed.

(** A name written with strncpy into a field of [n] characters compares equal
    to the original with strncmp, also when it fills the field. *)
Lemma strncmp_strncpy s t n :
  0 <= n <= Z.of_nat (length s) -> strncmp (Z.to_nat n) (strncpy s t n) t = 0.
Proof.
  intros Hn. apply strncmp_zero. unfold strncpy.
  destruct (strncpy_loop_app (Z.to_nat n) [] s t) as (k & Hk & Hlen); [lia|].
  cbn in Hk. rewrite Hk. rewrite cstr_app_nonzero by apply cstr_take_le.
  destruct k as [|k].
  - rewrite take_app_le by lia. rewrite take_take. f_equal. lia.
  - rewrite cstr_pad, app_nil_r, take_take. f_equal. lia.
Qed.

(** strncpy writes exactly [n] bytes. *)
Lemma strncpy_drop s t n :
  0 <= n <= Z.of_nat (length s) ->
  drop (Z.to_nat n) (strncpy s t n) = drop (Z.to_nat n) s.
Proof.
  intros Hn. unfold strncpy.
  destruct (strncpy_loop_app (Z.to_nat n) [] s t) as (k & Hk & Hlen); [lia|].
  cbn in Hk. rewrite Hk, app_assoc, drop_app_length'; [done|].
  rewrite length_app, length_replicate. lia.
Qed.

Lemma safestrcpy_loop_app n a b t :
  (n < length b)%nat -> Forall (fun c => c <> 0) a ->
  cstr (safestrcpy_loop n (length a) (a ++ b) t) = a ++ take n (cstr t)
  /\ length (safestrcpy_loop n (length a) (a ++ b) t) = length (a ++ b)
  /\ drop (S n) (drop (length a) (safestrcpy_loop n (length a) (a ++ b) t)) = drop (S n) b.
Proof.
  revert a b t. induction n as [|n IH]; intros a b t Hn Ha; cbn [safestrcpy_loop];
    destruct b as [|y b]; try (cbn in Hn; lia); rewrite insert_app_len.
  { rewrite cstr_app_nonzero by done. cbn. rewrite !length_app, drop_app_length. done. }
  replace (S (length a)) with (length (a ++ [hd0 t])) by (rewrite length_app; cbn; lia).
  replace (a ++ hd0 t :: b) with ((a ++ [hd0 t]) ++ b) by by rewrite <- app_assoc.
  destruct (truthy (hd0 t)) eqn:Et.
  - destruct (IH (a ++ [hd0 t]) b (tail t)) as (H1 & H2 & H3); [cbn in Hn; lia| |].
    { apply Forall_app. split; [done|]. constructor; [|done]. by apply truthy_true. }
    rewrite H1, H2, (hd0_cstr t), <- app_assoc by done. split; [done|]. split.
    + rewrite !length_app. cbn. lia.
    + change (drop (S (S n)) (y :: b)) with (drop (S n) b). rewrite <- H3, !drop_drop.
      f_equal. rewrite length_app. cbn. lia.
  - destruct b as [|z b]; [cbn in Hn; lia|]. rewrite insert_app_len, <- app_assoc.
    rewrite cstr_app_nonzero, (hd0_cstr_nil t) by done.
    apply truthy_false in Et. rewrite Et. cbn. rewrite !length_app, drop_app_length.
    cbn. done.
Qed.

(** safestrcpy leaves the source string truncated to [n - 1] characters, NUL
    terminated inside the first [n] bytes, and touches nothing after them. *)
Lemma safestrcpy_spec s t n :
  0 < n <= Z.of_nat (length s) ->
  cstr (safestrcpy s t n) = take (Z.to_nat (n - 1)) (cstr t)
  /\ length (safestrcpy s t n) = length s
  /\ drop (Z.to_nat n) (safestrcpy s t n) = drop (Z.to_nat n) s.
Proof.
  intros Hn. unfold safestrcpy. destruct (Z.leb_spec n 0); [lia|].
  destruct (safestrcpy_loop_app (Z.to_nat (n - 1)) [] s t) as (H1 & H2 & H3); [lia|done|].
  cbn in *. replace (Z.to_nat n) with (S (Z.to_nat (n - 1))) by lia. done.
Qed.

End strings.

(** ** Properties *)

