(* ===== verification/Kalloc.v ===== *)
(** * Kalloc: the physical page allocator (kernel/kalloc.c)

    The free list is threaded through the free pages themselves: the first
    eight bytes of a free page hold the address of the next one. *)

From S2P Require Import Prelude Params Machine Spinlock Strings.

Section kalloc.
Context {SYM : Symbols}.

Definition upd_mem (f : mem -> mem) : K unit := modify (fun s => set_k_mem (f (k_mem s)) s).

Definition kfree (pa : Z) : K unit :=
  if negb (pa mod PGSIZE =? 0) || (pa <? sym_end) || (pa >=? PHYSTOP)
  then panic "kfree" else
  (* Fill with junk to catch dangling refs. *)
  upd_mem (memset pa 1 PGSIZE) ;;
  let r := pa in
  acquire LK_kmem ;;
  fl ← gets k_freelist;
  upd_mem (fun m => st64 m r fl) ;;
  modify (set_k_freelist r) ;;
  release LK_kmem.

Definition kalloc : K Z :=
  acquire LK_kmem ;;
  r ← gets k_freelist;
  when (truthy r) (nxt ← gets (fun s => ld64 (k_mem s) r); modify (set_k_freelist nxt)) ;;
  release LK_kmem ;;
  when (truthy r) (upd_mem (memset r 5 PGSIZE)) ;;
  mret r.

(** Enough iterations for every page below [pa_end]. *)
Definition freerange_fuel (pa_end : Z) : nat := S (Z.to_nat (pa_end / PGSIZE)).

Definition freerange (pa_start pa_end : Z) : K unit :=
  loop (freerange_fuel pa_end)
    (fun p =>
       if p + PGSIZE <=? pa_end
       then kfree p ;; mret (inl (p + PGSIZE))
       else mret (inr tt))
    (PGROUNDUP pa_start).

Definition kinit : K unit :=
  initlock LK_kmem "kmem" ;;
  freerange sym_end PHYSTOP.

(** ** Invariant *)
Definition valid_page (a : Z) : Prop := a mod PGSIZE = 0 /\ sym_end <= a < PHYSTOP.

#[global] Instance valid_page_dec a : Decision (valid_page a).
Proof. unfold valid_page. apply _. Defined.

(** [chain m p l]: following the links from [p] visits exactly [l]. *)
Fixpoint chain (m : mem) (p : Z) (l : list Z) : Prop :=
  match l with
  | [] => p = 0
  | a :: l' => p = a /\ valid_page a /\ chain m (ld64 m a) l'
  end.

Definition kmem_inv (s : kst) (l : list Z) : Prop :=
  chain (k_mem s) (k_freelist s) l /\ NoDup l.

Lemma valid_page_pos a : valid_page a -> 0 < a < 2 ^ 64 - PGSIZE.
Proof.
  intros [_ [? ?]]. pose proof sym_end_range.
  unfold KERNBASE, PHYSTOP, PGSIZE in *. unfold KERNBASE in *. lia.
Qed.

Lemma valid_page_truthy a : valid_page a -> truthy a = true.
Proof. intros H%valid_page_pos. apply truthy_true. lia. Qed.

(** Two distinct pages do not overlap. *)
Lemma page_disjoint a b :
  a mod PGSIZE = 0 -> b mod PGSIZE = 0 -> a <> b -> a + PGSIZE <= b \/ b + PGSIZE <= a.
Proof.
  unfold PGSIZE. intros Ha Hb Hne.
  pose proof (Z.div_mod a 4096). pose proof (Z.div_mod b 4096). lia.
Qed.

Lemma chain_valid m p l : chain m p l -> Forall valid_page l.
Proof. revert p. induction l; intros p; cbn; [done|]. intros (_ & ? & ?). eauto. Qed.

(** The chain only depends on the memory of its own pages. *)
Lemma chain_ext m m' p l :
  (forall a x, a ∈ l -> a <= x < a + PGSIZE -> m x = m' x) ->
  chain m p l -> chain m' p l.
Proof.
  revert p. induction l as [|a l IH]; intros p Hext; cbn; [done|].
  intros (-> & Hv & Hl). split_and!; [done..|].
  rewrite <- (ld64_ext m m').
  - apply IH; [|done]. intros. apply (Hext a0); [|done]. by apply elem_of_cons; right.
  - intros x Hx. apply (Hext a); [apply elem_of_cons; auto|]. unfold PGSIZE. lia.
Qed.

(** ** Equations *)
Lemma kfree_guard pa :
  valid_page pa -> negb (pa mod PGSIZE =? 0) || (pa <? sym_end) || (pa >=? PHYSTOP) = false.
Proof. intros [H [? ?]]. rewrite H, Z.geb_leb. cbn. zcases. Qed.

Lemma kfree_eq pa s :
  cpu_ok s -> lock_free LK_kmem s -> valid_page pa ->
  kfree pa s = Done tt
    (set_k_freelist pa
      (set_k_mem (st64 (memset pa 1 PGSIZE (k_mem s)) pa (k_freelist s)) (touch s))).
Proof.
  intros Hok Hlk Hv. unfold kfree. rewrite kfree_guard by done.
  unfold upd_mem. rewrite bind_modify. cbv zeta.
  erewrite bind_Done by by apply acquire_eq.
  rewrite bind_gets, !bind_modify.
  erewrite release_section; [|done|done|reflexivity]. reflexivity.
Qed.

Lemma kfree_panics pa s :
  ~ valid_page pa -> kfree pa s = Panic "kfree" s.
Proof.
  intros Hv. unfold kfree.
  destruct (negb (pa mod PGSIZE =? 0) || (pa <? sym_end) || (pa >=? PHYSTOP)) eqn:E; [done|].
  exfalso. apply Hv. rewrite Z.geb_leb in E. unfold valid_page.
  apply orb_false_iff in E as [[E1 E2]%orb_false_iff E3].
  apply negb_false_iff, Z.eqb_eq in E1. zcases.
Qed.

Definition kalloc_post (s : kst) : kst :=
  let r := k_freelist s in
  if truthy r
  then set_k_mem (memset r 5 PGSIZE (k_mem s)) (set_k_freelist (ld64 (k_mem s) r) (touch s))
  else touch s.

Lemma kalloc_eq s :
  cpu_ok s -> lock_free LK_kmem s -> kalloc s = Done (k_freelist s) (kalloc_post s).
Proof.
  intros Hok Hlk. unfold kalloc, kalloc_post, when. cbv zeta.
  erewrite bind_Done by by apply acquire_eq.
  rewrite bind_gets. change (k_freelist (acquired LK_kmem s)) with (k_freelist s).
  destruct (truthy (k_freelist s)).
  - erewrite bind_Done by reflexivity.
    erewrite bind_Done by by (apply (release_section LK_kmem s); [..|reflexivity]).
    reflexivity.
  - erewrite bind_Done by reflexivity.
    erewrite bind_Done by by (apply (release_section LK_kmem s); [..|reflexivity]).
    reflexivity.
Qed.

(** ** Allocation and freeing preserve the invariant *)
Lemma kalloc_inv s a l :
  kmem_inv s (a :: l) -> k_freelist s = a /\ valid_page a /\ kmem_inv (kalloc_post s) l.
Proof.
  intros [(Hp & Hv & Hch) [Hnin Hnd]%NoDup_cons]. split_and!; [done..|].
  unfold kalloc_post. rewrite Hp, valid_page_truthy by done. split; cbn; [|done].
  eapply chain_ext; [|exact Hch]. intros b x Hb Hx. symmetry. apply memset_out.
  - unfold PGSIZE; lia.
  - destruct (page_disjoint a b) as [|]; try lia; [apply Hv| |by intros ->].
    apply chain_valid in Hch. rewrite Forall_forall in Hch. by apply Hch.
Qed.

Lemma kalloc_exhausted s : kmem_inv s [] -> k_freelist s = 0 /\ kalloc_post s = touch s.
Proof. intros [Hc _]. cbn in Hc. unfold kalloc_post. by rewrite Hc. Qed.

Lemma kfree_inv pa s l s' :
  kmem_inv s l -> valid_page pa -> pa ∉ l ->
  k_mem s' = st64 (memset pa 1 PGSIZE (k_mem s)) pa (k_freelist s) ->
  k_freelist s' = pa ->
  kmem_inv s' (pa :: l).
Proof.
  intros [Hch Hnd] Hv Hnin Hm Hf. split; [|by constructor].
  pose proof (chain_valid _ _ _ Hch) as Hall. rewrite Forall_forall in Hall.
  cbn. rewrite Hm, Hf, ld64_st64_same. split_and!; [done..|].
  assert (u64 (k_freelist s) = k_freelist s) as ->.
  { apply u64_small. destruct l as [|b l]; cbn in Hch; [lia|].
    destruct Hch as (-> & Hvb & _). apply valid_page_pos in Hvb. unfold PGSIZE in *. lia. }
  eapply chain_ext; [|exact Hch]. intros b x Hb Hx.
  assert (pa + PGSIZE <= b \/ b + PGSIZE <= pa).
  { apply page_disjoint; [apply Hv|apply (Hall b Hb)|by intros ->]. }
  unfold st64. rewrite mem_store_out, memset_out; try done; unfold PGSIZE in *;
    rewrite ?le_bytes_length; lia.
Qed.

(** ** Boot: freerange puts every page of RAM above the kernel on the list *)
Definition freerange_body (pa_end p : Z) : K (Z + unit) :=
  if p + PGSIZE <=? pa_end then kfree p ;; mret (inl (p + PGSIZE)) else mret (inr tt).

Lemma freerange_loop n : forall fuel p s l,
  (n < fuel)%nat -> p mod PGSIZE = 0 -> sym_end <= p -> p + Z.of_nat n * PGSIZE = PHYSTOP ->
  cpu_ok s -> lock_free LK_kmem s -> kmem_inv s l -> (forall a, a ∈ l -> a < p) ->
  exists s' l', loop fuel (freerange_body PHYSTOP) p s = Done tt s'
    /\ kmem_inv s' l' /\ (forall a, a ∈ l' <-> a ∈ l \/ (valid_page a /\ p <= a)).
Proof.
  induction n as [|n IH]; intros [|fuel] p s l Hf Hp Hlo Hhi Hok Hlk Hinv Hlt; try lia;
    cbn [loop].
  - erewrite bind_Done.
    2:{ unfold freerange_body.
        destruct (Z.leb_spec (p + PGSIZE) PHYSTOP); [unfold PGSIZE in *; lia|reflexivity]. }
    exists s, l. split; [done|]. split; [done|]. intros a. split; [auto|].
    intros [?|[[_ ?] ?]]; [done|lia].
  - assert (valid_page p) as Hv by (unfold valid_page, PGSIZE in *; lia).
    erewrite bind_Done.
    2:{ unfold freerange_body.
        destruct (Z.leb_spec (p + PGSIZE) PHYSTOP); [|unfold PGSIZE in *; lia].
        erewrite bind_Done by by apply kfree_eq. reflexivity. }
    edestruct (IH fuel (p + PGSIZE)) as (s' & l' & -> & Hinv' & Hl'); [lia|..]; cycle 4.
    { exact Hlk. }
    { eapply kfree_inv; [exact Hinv|exact Hv| |reflexivity|reflexivity].
      intros ?%Hlt. lia. }
    { intros a [->|?%Hlt]%elem_of_cons; unfold PGSIZE; lia. }
    { exists s', l'. split; [done|]. split; [done|]. intros a. rewrite Hl', elem_of_cons.
      split; [intros [[->|?]|[? ?]]; auto; right; split; auto; unfold PGSIZE in *; lia|].
      intros [?|[Hva ?]]; [auto|]. destruct (decide (a = p)); [auto|].
      right. split; [done|]. destruct (page_disjoint p a) as [|]; [done|apply Hva|done|lia|].
      unfold PGSIZE in *; lia. }
    + unfold PGSIZE in *. rewrite Zplus_mod, Hp. done.
    + unfold PGSIZE in *; lia.
    + lia.
    + by apply cpu_ok_touch.
Qed.

(** At boot every page of RAM above the kernel becomes free.  kinit()
    returns, and the free list then holds each aligned page between [end] and
    PHYSTOP exactly once and nothing else. *)
Lemma kinit_pages s :
  cpu_ok s -> k_freelist s = 0 ->
  exists s' l, kinit s = Done tt s' /\ kmem_inv s' l /\ (forall a, a ∈ l <-> valid_page a).
Proof.
  intros Hok Hf0. pose proof sym_end_range as Hend.
  assert (0 <= sym_end <= 2 ^ 64 - PGSIZE) as Hr
    by (unfold PHYSTOP, KERNBASE, PGSIZE in *; lia).
  pose proof (PGROUNDUP_ge _ Hr) as Hge. pose proof (PGROUNDUP_aligned _ Hr) as Hal.
  assert (PHYSTOP mod PGSIZE = 0) as HP by done.
  assert (PGROUNDUP sym_end <= PHYSTOP) as Hle.
  { unfold PGSIZE in *. pose proof (Z.div_mod (PGROUNDUP sym_end) 4096).
    pose proof (Z.div_mod PHYSTOP 4096). lia. }
  set (n := Z.to_nat ((PHYSTOP - PGROUNDUP sym_end) / PGSIZE)).
  assert (PGROUNDUP sym_end + Z.of_nat n * PGSIZE = PHYSTOP) as Hn.
  { unfold n. unfold PGSIZE in *. rewrite Z2Nat.id by (apply Z.div_pos; lia).
    pose proof (Z.div_mod (PHYSTOP - PGROUNDUP sym_end) 4096) as Hd.
    rewrite Zminus_mod, HP, Hal in Hd. change ((0 - 0) mod 4096) with 0 in Hd. lia. }
  unfold kinit, freerange.
  rewrite (bind_Done _ _ _ _ _ (initlock_eq _ _ _)).
  destruct (freerange_loop n (freerange_fuel PHYSTOP) (PGROUNDUP sym_end)
    (set_k_locks (<[LK_kmem := mkSpinlock 0 "kmem" None]> (k_locks s)) s) [])
    as (s' & l' & Hrun & Hinv & Hl').
  8: { intros a Ha%elem_of_nil. destruct Ha. }
  - unfold freerange_fuel, n. apply le_n_S, Z2Nat.inj_le; [apply Z.div_pos; unfold PGSIZE in *; lia..|].
    apply Z.div_le_mono; unfold PGSIZE in *; lia.
  - exact Hal.
  - lia.
  - exact Hn.
  - exact Hok.
  - apply initlock_free.
  - split; [exact Hf0|constructor].
  - exists s', l'. split; [exact Hrun|]. split; [done|]. intros a. rewrite Hl', elem_of_nil.
    split; [intros [[]|[? _]]; done|]. intros Hv. right. split; [done|].
    destruct (decide (PGROUNDUP sym_end <= a)); [done|exfalso].
    destruct Hv as [Hva [? _]]. destruct (page_disjoint a (PGROUNDUP sym_end)); try done; lia.
Qed.

(** ** Properties *)

(** C20: kalloc() and kfree() implement a set of free pages.  With [a :: l] on
    the free list kalloc() returns [a], leaves exactly [l] free, fills the page
    with 5s and touches no other byte; with nothing free it returns null and
    changes nothing.  kfree() of a page that is not free puts it back. *)
Theorem kalloc_kfree_pages s a l :
  cpu_ok s -> lock_free LK_kmem s -> kmem_inv s (a :: l) ->
  exists s1, (kalloc s = Done a s1) /\ valid_page a /\ (a ∉ l) /\ kmem_inv s1 l
    /\ (forall x, a <= x < a + PGSIZE -> k_mem s1 x = 5)
    /\ (forall x, ~ (a <= x < a + PGSIZE) -> k_mem s1 x = k_mem s x)
    /\ (exists s2, kfree a s1 = Done tt s2 /\ kmem_inv s2 (a :: l))
    /\ (forall s0, cpu_ok s0 -> lock_free LK_kmem s0 -> kmem_inv s0 [] ->
          kalloc s0 = Done 0 (touch s0)).
Proof.
  intros Hok Hlk Hinv. pose proof (kalloc_inv s a l Hinv) as (Ha & Hv & Hinv1).
  pose proof Hinv as [_ [Hnin _]%NoDup_cons].
  assert (kalloc_post s = set_k_mem (memset a 5 PGSIZE (k_mem s))
            (set_k_freelist (ld64 (k_mem s) a) (touch s))) as Hpost.
  { unfold kalloc_post. by rewrite Ha, valid_page_truthy. }
  exists (kalloc_post s). rewrite kalloc_eq by done. rewrite Ha. split_and!; try done.
  - intros x Hx. rewrite Hpost. cbn. rewrite memset_spec by (unfold PGSIZE; lia). zcases; done.
  - intros x Hx. rewrite Hpost. cbn. apply memset_out; [unfold PGSIZE; lia|done].
  - eexists. split.
    + apply kfree_eq; [rewrite Hpost; by apply (cpu_ok_touch s)|by rewrite Hpost|done].
    + eapply kfree_inv; [exact Hinv1|done|done|reflexivity|reflexivity].
  - intros s0 Hok0 Hlk0 Hinv0. rewrite kalloc_eq by done.
    destruct (kalloc_exhausted s0 Hinv0) as [-> ->]. done.
Qed.

(** Kfree() refuses anything that is not an aligned page of the RAM it
    manages, before it has changed anything, and accepts everything else. *)
Lemma kfree_panics_iff pa s :
  cpu_ok s -> lock_free LK_kmem s ->
  (kfree pa s = Panic "kfree" s <-> ~ (pa mod PGSIZE = 0 /\ sym_end <= pa < PHYSTOP)).
Proof.
  intros Hok Hlk. split; [|apply kfree_panics].
  intros Hp Hv. by rewrite kfree_eq in Hp by done.
Qed.

End kalloc.

Lemma kinit_pages_witness :
  exists s' l, @kinit built_kernel kst_zero = Done tt s' /\ @kmem_inv built_kernel s' l.
Proof.
  destruct (@kinit_pages built_kernel kst_zero) as (s' & l & H1 & H2 & _);
    [split; [done|intros H; by vm_compute in H]|reflexivity|exists s', l; split; [exact H1|exact H2]].
Defined.

(** One free page at the top of RAM. *)
Definition one_page_kst : kst := set_k_freelist 0x87fff000 idle_kst.

Lemma kalloc_kfree_pages_witness :
  exists s1, kalloc one_page_kst = Done 0x87fff000 s1.
Proof.
  destruct (@kalloc_kfree_pages built_kernel one_page_kst 0x87fff000 []) as (s1 & H & _);
    [split; [done|intros H; by vm_compute in H]|by eexists| |exists s1; exact H].
  split; [|apply NoDup_singleton]. split; [reflexivity|]. split; [|reflexivity].
  split; [reflexivity|]. vm_compute. split; [discriminate|reflexivity].
Defined.
