(* ===== verification/Uart.v ===== *)
(** * Uart: the 16550a serial port (kernel/uart.c) and consputc (kernel/console.c)

    The device is part of the state ([k_uart]): the bytes written to THR, the
    bytes waiting in RHR, and what the next reads of the line status register
    report.  The blocking path, uartwrite and uartintr, is in Console. *)

From S2P Require Import Prelude Params Machine Spinlock.

Definition RHR : Z := 0.
Definition THR : Z := 0.
Definition IER : Z := 1.
Definition IER_RX_ENABLE : Z := Z.shiftl 1 0.
Definition IER_TX_ENABLE : Z := Z.shiftl 1 1.
Definition FCR : Z := 2.
Definition FCR_FIFO_ENABLE : Z := Z.shiftl 1 0.
Definition FCR_FIFO_CLEAR : Z := Z.shiftl 3 1.
Definition LCR : Z := 3.
Definition LCR_EIGHT_BITS : Z := Z.shiftl 3 0.
Definition LCR_BAUD_LATCH : Z := Z.shiftl 1 7.
Definition LSR_RX_READY : Z := Z.shiftl 1 0.
Definition LSR_TX_IDLE : Z := Z.shiftl 1 5.

Definition upd_uart (f : uart -> uart) : K unit := modify (fun s => set_k_uart (f (k_uart s)) s).

(** [ReadReg(LSR)]. *)
Definition read_LSR : K Z :=
  u ← gets k_uart;
  let idle := default true (head (u_idle u)) in
  upd_uart (fun u => set_u_idle (tail (u_idle u)) u) ;;
  mret (Z.lor (if bool_decide (u_rx u = []) then 0 else LSR_RX_READY)
              (if idle then LSR_TX_IDLE else 0)).

(** [ReadReg(RHR)]: takes the next received byte. *)
Definition read_RHR : K Z :=
  u ← gets k_uart;
  upd_uart (fun u => set_u_rx (tail (u_rx u)) u) ;;
  mret (default 0 (head (u_rx u))).

(** [WriteReg(THR, c)]: transmits a byte. *)
Definition write_THR (c : Z) : K unit :=
  upd_uart (fun u => set_u_out (u_out u ++ [u8 c]) u).

(** [WriteReg] of a control register, or of any register while the baud-rate
    latch is set. *)
Definition write_ctl (reg v : Z) : K unit :=
  upd_uart (fun u => set_u_ctl (u_ctl u ++ [(reg, v)]) u).

Definition uartinit : K unit :=
  write_ctl IER 0x00 ;;
  write_ctl LCR LCR_BAUD_LATCH ;;
  write_ctl 0 0x03 ;;
  write_ctl 1 0x00 ;;
  write_ctl LCR LCR_EIGHT_BITS ;;
  write_ctl FCR (Z.lor FCR_FIFO_ENABLE FCR_FIFO_CLEAR) ;;
  write_ctl IER (Z.lor IER_TX_ENABLE IER_RX_ENABLE) ;;
  initlock LK_tx "uart".

(** [while ((ReadReg(LSR) & LSR_TX_IDLE) == 0);] *)
Fixpoint wait_tx_idle (fuel : nat) : K unit :=
  match fuel with
  | O => stuck_at OutOfFuel
  | S n => v ← read_LSR; if truthy (Z.land v LSR_TX_IDLE) then mret tt else wait_tx_idle n
  end.

Definition uartputc_sync (c : Z) : K unit :=
  pk ← gets k_panicking;
  when (pk =? 0) push_off ;;
  pd ← gets k_panicked;
  if truthy pd then stuck_at Halted else
  fuel ← gets (fun s => S (length (u_idle (k_uart s))));
  wait_tx_idle fuel ;;
  write_THR c ;;
  pk ← gets k_panicking;
  when (pk =? 0) pop_off.

Definition uartgetc : K Z :=
  v ← read_LSR;
  if truthy (Z.land v LSR_RX_READY) then read_RHR else mret (-1).

(** ** kernel/console.c: consputc *)
Definition BACKSPACE : Z := 0x100.

Definition consputc (c : Z) : K unit :=
  if c =? BACKSPACE then
    uartputc_sync 8 ;; uartputc_sync 32 ;; uartputc_sync 8
  else uartputc_sync c.

(** ** Effect of sending a character *)

(** The line-status readings the wait consumes: the busy ones up to the first
    idle one. *)
Fixpoint after_idle (l : list bool) : list bool :=
  match l with
  | [] => []
  | b :: l' => if b then l' else after_idle l'
  end.

Definition sent (c : Z) (s : kst) : kst :=
  let u := k_uart s in
  set_k_uart (mkUart (u_out u ++ [u8 c]) (u_rx u) (after_idle (u_idle u)) (u_ctl u) (u_tx_busy u)) s.

Lemma land_tx_idle (r : Z) (idle : bool) :
  r = 0 \/ r = LSR_RX_READY ->
  truthy (Z.land (Z.lor r (if idle then LSR_TX_IDLE else 0)) LSR_TX_IDLE) = idle.
Proof. intros [->| ->]; by destruct idle. Qed.

Lemma wait_tx_idle_eq fuel s :
  (length (u_idle (k_uart s)) < fuel)%nat ->
  wait_tx_idle fuel s
  = Done tt (set_k_uart (set_u_idle (after_idle (u_idle (k_uart s))) (k_uart s)) s).
Proof.
  revert s. induction fuel as [|fuel IH]; intros s Hf; [lia|]. cbn [wait_tx_idle].
  erewrite bind_Done by (unfold read_LSR, upd_uart; krun; reflexivity).
  cbv beta zeta. rewrite land_tx_idle by (destruct (bool_decide _); auto).
  destruct (k_uart s) as [out rx [|[|] idle] ctl busy] eqn:Hu; cbn in *; [done..|].
  rewrite IH by (cbn; lia). done.
Qed.

Lemma uartputc_sync_eq c s :
  cpu_ok s -> k_panicking s = 0 -> k_panicked s = 0 ->
  uartputc_sync c s = Done tt (sent c (touch s)).
Proof.
  intros Hok Hpk Hpd. unfold uartputc_sync. rewrite bind_gets, Hpk. cbn [when].
  erewrite bind_Done by by apply push_off_eq. rewrite bind_gets.
  change (k_panicked (pushed s)) with (k_panicked s). rewrite Hpd.
  change (truthy 0) with false. cbv iota. rewrite bind_gets.
  erewrite bind_Done by (apply wait_tx_idle_eq; lia).
  unfold write_THR, upd_uart. rewrite bind_modify, bind_gets. cbn [k_panicking set_k_uart].
  change (k_panicking (pushed s)) with (k_panicking s). rewrite Hpk. cbn [when].
  change (0 =? 0) with true. cbv iota.
  rewrite pop_off_eq; [|destruct Hok; cbn; lia|apply (SIE_pushed s)].
  rewrite <- popped_pushed by done. unfold popped. cbn.
  by destruct ((_ =? _) && _).
Qed.
