(* ===== verification/Printk.v ===== *)
(** * Printk: formatted console output (kernel/printk.c) *)

From S2P Require Import Prelude Params Machine Spinlock Strings Uart.

(** ** Numbers *)
Definition digits : list Z := str "0123456789abcdef".

(** [do { buf[i++] = digits[x % base]; } while ((x /= base) != 0);]  Sixty-four
    iterations are enough for any 64-bit [x] and base at least 2. *)
Fixpoint digit_loop (fuel : nat) (x base : Z) (buf : list Z) : list Z :=
  match fuel with
  | O => buf
  | S n =>
      let buf := buf ++ [digits !!! Z.to_nat (x mod base)] in
      let x := x / base in
      if truthy x then digit_loop n x base buf else buf
  end.

(** The contents of [buf] when printint starts printing. *)
Definition printint_buf (xx base sign : Z) : list Z :=
  let sign := truthy sign && (xx <? 0) in
  let x := if sign then u64 (- xx) else u64 xx in
  let buf := digit_loop 64 x base [] in
  if sign then buf ++ [chr "-"] else buf.

(** [while (--i >= 0) consputc(buf[i]);] *)
Definition printint_chars (xx base sign : Z) : list Z := reverse (printint_buf xx base sign).

Definition printint (xx base sign : Z) : K unit := foreach_ (printint_chars xx base sign) consputc.

Fixpoint printptr_digits (n : nat) (x : Z) : list Z :=
  match n with
  | O => []
  | S n' => digits !!! Z.to_nat (Z.shiftr x 60) :: printptr_digits n' (u64 (Z.shiftl x 4))
  end.
Definition printptr_chars (x : Z) : list Z := chr "0" :: chr "x" :: printptr_digits 16 x.
Definition printptr (x : Z) : K unit := foreach_ (printptr_chars x) consputc.

(** ** Format strings *)

(** A variadic argument: a scalar or a (possibly null) string. *)
Inductive varg := AInt (v : Z) | AStr (s : option (list Z)).
Definition va_int (args : list varg) : Z :=
  match args with AInt v :: _ => v | _ => 0 end.
Definition va_str (args : list varg) : option (list Z) :=
  match args with AStr s :: _ => s | _ => None end.

(** What one conversion does with the characters [c0 c1 c2] after the
    percent sign: the characters it prints, whether it takes an argument, and
    how many format characters after the percent sign it uses; [None] for the
    end of the format. *)
Definition conversion (c0 c1 c2 : Z) (args : list varg) : option (list Z * bool * nat) :=
  if c0 =? chr "d" then Some (printint_chars (s32 (va_int args)) 10 1, true, 1%nat)
  else if (c0 =? chr "l") && (c1 =? chr "d") then
    Some (printint_chars (s64 (va_int args)) 10 1, true, 2%nat)
  else if (c0 =? chr "l") && (c1 =? chr "l") && (c2 =? chr "d") then
    Some (printint_chars (s64 (va_int args)) 10 1, true, 3%nat)
  else if c0 =? chr "u" then Some (printint_chars (u32 (va_int args)) 10 0, true, 1%nat)
  else if (c0 =? chr "l") && (c1 =? chr "u") then
    Some (printint_chars (s64 (va_int args)) 10 0, true, 2%nat)
  else if (c0 =? chr "l") && (c1 =? chr "l") && (c2 =? chr "u") then
    Some (printint_chars (s64 (va_int args)) 10 0, true, 3%nat)
  else if c0 =? chr "x" then Some (printint_chars (u32 (va_int args)) 16 0, true, 1%nat)
  else if (c0 =? chr "l") && (c1 =? chr "x") then
    Some (printint_chars (s64 (va_int args)) 16 0, true, 2%nat)
  else if (c0 =? chr "l") && (c1 =? chr "l") && (c2 =? chr "x") then
    Some (printint_chars (s64 (va_int args)) 16 0, true, 3%nat)
  else if c0 =? chr "p" then Some (printptr_chars (u64 (va_int args)), true, 1%nat)
  else if c0 =? chr "c" then Some ([u32 (va_int args)], true, 1%nat)
  else if c0 =? chr "s" then
    Some (cstr (default (str "(null)") (va_str args)), true, 1%nat)
  else if c0 =? chr "%" then Some ([chr "%"], false, 1%nat)
  else if c0 =? 0 then None
  else Some ([chr "%"; c0], false, 1%nat).

(** The loop over the format string. *)
Fixpoint printk_loop (fuel : nat) (fmt : list Z) (args : list varg) : K unit :=
  match fuel with
  | O => stuck_at OutOfFuel
  | S n =>
      let cx := hd0 fmt in
      if cx =? 0 then mret tt else
      if negb (cx =? chr "%") then consputc cx ;; printk_loop n (tail fmt) args else
      let fmt := tail fmt in
      let c0 := hd0 fmt in
      let c1 := if truthy c0 then hd0 (drop 1 fmt) else 0 in
      let c2 := if truthy c1 then hd0 (drop 2 fmt) else 0 in
      match conversion c0 c1 c2 args with
      | None => mret tt
      | Some (chars, takes_arg, used) =>
          foreach_ chars consputc ;;
          printk_loop n (drop used fmt) (if takes_arg : bool then tail args else args)
      end
  end.

Definition printk (fmt : list Z) (args : list varg) : K Z :=
  pk ← gets k_panicking;
  when (pk =? 0) (acquire LK_pr) ;;
  printk_loop (S (length fmt)) fmt args ;;
  pk ← gets k_panicking;
  when (pk =? 0) (release LK_pr) ;;
  mret 0.

(** The whole of panic(); in the other files [panic msg] marks the call. *)
Definition kpanic {A} (msg : string) : K A :=
  modify (set_k_panicking 1) ;;
  _ ← printk (str "panic: ") [];
  _ ← printk (str "%s" ++ [10]) [AStr (Some (str msg))];
  modify (set_k_panicked 1) ;;
  stuck_at Halted.

Definition printkinit : K unit := initlock LK_pr "pr".

(** ** What is printed *)

(** The bytes consputc sends for a character. *)
Definition cons_bytes (c : Z) : list Z := if c =? BACKSPACE then [8; 32; 8] else [c].

(** The text a format string and its arguments produce. *)
Fixpoint format (fuel : nat) (fmt : list Z) (args : list varg) : list Z :=
  match fuel with
  | O => []
  | S n =>
      let cx := hd0 fmt in
      if cx =? 0 then [] else
      if negb (cx =? chr "%") then cx :: format n (tail fmt) args else
      let fmt := tail fmt in
      let c0 := hd0 fmt in
      let c1 := if truthy c0 then hd0 (drop 1 fmt) else 0 in
      let c2 := if truthy c1 then hd0 (drop 2 fmt) else 0 in
      match conversion c0 c1 c2 args with
      | None => []
      | Some (chars, takes_arg, used) =>
          chars ++ format n (drop used fmt) (if takes_arg : bool then tail args else args)
      end
  end.
Definition formatted (fmt : list Z) (args : list varg) : list Z := format (S (length fmt)) fmt args.

Definition sent_all (l : list Z) (s : kst) : kst := foldl (fun s c => sent c s) s l.
Definition sent_chars (l : list Z) (s : kst) : kst := sent_all (l ≫= cons_bytes) s.

Lemma sent_all_cons c l s : sent_all (c :: l) s = sent_all l (sent c s).
Proof. done. Qed.
Arguments sent_all : simpl never.
Arguments printint_chars : simpl never.

Lemma sent_all_app l1 l2 s : sent_all (l1 ++ l2) s = sent_all l2 (sent_all l1 s).
Proof. apply foldl_app. Qed.

(** Sending changes the UART only. *)
Lemma sent_all_uart l s : exists u, sent_all l s = set_k_uart u s /\ u_out u = u_out (k_uart s) ++ map u8 l
  /\ u_rx u = u_rx (k_uart s) /\ u_ctl u = u_ctl (k_uart s) /\ u_tx_busy u = u_tx_busy (k_uart s).
Proof.
  revert s. induction l as [|c l IH]; intros s.
  - exists (k_uart s). cbn. rewrite app_nil_r. destruct s; done.
  - rewrite sent_all_cons. destruct (IH (sent c s)) as (u & -> & Ho & ? & ? & ?). exists u. cbn in *.
    rewrite Ho, <- app_assoc. done.
Qed.

(** ** printk prints the formatted text *)
Definition printing_ok (s : kst) : Prop := cpu_ok s /\ k_panicking s = 0 /\ k_panicked s = 0.

Lemma consputc_locked c s :
  printing_ok s -> 0 < c_noff (k_cpu s) -> consputc c s = Done tt (sent_all (cons_bytes c) s).
Proof.
  intros (Hok & Hp & Hq) Hn. unfold consputc, cons_bytes.
  assert (forall d s, printing_ok s -> 0 < c_noff (k_cpu s) -> uartputc_sync d s = Done tt (sent d s)) as Hput.
  { intros d s' (? & ? & ?) ?. rewrite uartputc_sync_eq by done. by rewrite touch_nested. }
  destruct (c =? BACKSPACE); [|by apply Hput].
  erewrite bind_Done by by apply Hput. erewrite bind_Done by by apply Hput. by apply Hput.
Qed.

Lemma printing_ok_sent l s : printing_ok s -> printing_ok (sent_all l s).
Proof. destruct (sent_all_uart l s) as (u & -> & _). done. Qed.

Lemma noff_sent l s : c_noff (k_cpu (sent_all l s)) = c_noff (k_cpu s).
Proof. by destruct (sent_all_uart l s) as (u & -> & _). Qed.

Lemma foreach_consputc l s :
  printing_ok s -> 0 < c_noff (k_cpu s) -> foreach_ l consputc s = Done tt (sent_chars l s).
Proof.
  revert s. induction l as [|c l IH]; intros s Hok Hn; cbn [foreach_]; [done|].
  erewrite bind_Done by by apply consputc_locked. rewrite IH.
  - unfold sent_chars. cbn. by rewrite sent_all_app.
  - by apply printing_ok_sent.
  - by rewrite noff_sent.
Qed.

Lemma printk_loop_eq fuel fmt args s :
  (length fmt < fuel)%nat -> printing_ok s -> 0 < c_noff (k_cpu s) ->
  printk_loop fuel fmt args s = Done tt (sent_chars (format fuel fmt args) s).
Proof.
  revert fmt args s. induction fuel as [|fuel IH]; intros fmt args s Hf Hok Hn; [lia|].
  cbn [printk_loop format]. destruct (Z.eqb_spec (hd0 fmt) 0) as [|Hnz]; [done|].
  destruct fmt as [|cx fmt]; [done|]. cbn [hd0 tail] in *. cbn in Hf.
  destruct (negb (_ =? chr "%")).
  - erewrite bind_Done by by apply consputc_locked. rewrite IH; [|lia|..].
    + unfold sent_chars. cbn [mbind list_bind]. by rewrite <- sent_all_app.
    + by apply printing_ok_sent.
    + by rewrite noff_sent.
  - destruct (conversion _ _ _ _) as [[[chars ta] used]|] eqn:E; [|done].
    erewrite bind_Done by by apply foreach_consputc.
    rewrite IH; [|rewrite length_drop; lia|..].
    + unfold sent_chars. by rewrite bind_app, sent_all_app.
    + by apply printing_ok_sent.
    + unfold sent_chars. by rewrite noff_sent.
Qed.

Lemma printk_eq fmt args s :
  printing_ok s -> lock_free LK_pr s -> c_noff (k_cpu s) + 1 < 2 ^ 30 ->
  printk fmt args s = Done 0 (sent_chars (formatted fmt args) (touch s)).
Proof.
  intros (Hok & Hp & Hq) Hl Hn. unfold printk. rewrite bind_gets, Hp. cbn [when].
  change (0 =? 0) with true. cbv iota.
  erewrite bind_Done by by apply acquire_eq.
  assert (printing_ok (acquired LK_pr s)) as Hok'.
  { split_and!; [|done..]. apply (cpu_ok_pushed s); done. }
  erewrite bind_Done.
  2:{ apply printk_loop_eq; [lia|done|]. cbn. destruct Hok. lia. }
  unfold sent_chars. destruct (sent_all_uart (formatted fmt args ≫= cons_bytes) (acquired LK_pr s)) as (u & Hu & _).
  fold (formatted fmt args). rewrite Hu, bind_gets. cbn [k_panicking set_k_uart].
  change (k_panicking (acquired LK_pr s)) with (k_panicking s). rewrite Hp.
  change (0 =? 0) with true. cbv iota.
  erewrite bind_Done by by (apply (release_section LK_pr s); [..|reflexivity]).
  unfold mret, K_ret. f_equal.
  assert (forall l a b, k_uart a = k_uart b -> k_uart (sent_all l a) = k_uart (sent_all l b)) as Hext.
  { induction l as [|c l IH]; intros a b Hab; [done|]. rewrite !sent_all_cons.
    apply IH. unfold sent. cbn. by rewrite Hab. }
  pose proof (Hext (formatted fmt args ≫= cons_bytes) (acquired LK_pr s) (touch s) eq_refl) as He.
  destruct (sent_all_uart (formatted fmt args ≫= cons_bytes) (touch s)) as (u' & Hu' & _).
  rewrite Hu, Hu' in He. cbn in He. by rewrite Hu', He.
Qed.

(** printk() and the UART: the text goes out, nothing else changes. *)
Lemma printk_out fmt args s :
  printing_ok s -> lock_free LK_pr s -> c_noff (k_cpu s) + 1 < 2 ^ 30 ->
  exists u, printk fmt args s = Done 0 (set_k_uart u (touch s))
    /\ u_out u = u_out (k_uart s) ++ map u8 (formatted fmt args ≫= cons_bytes)
    /\ u_rx u = u_rx (k_uart s) /\ u_ctl u = u_ctl (k_uart s) /\ u_tx_busy u = u_tx_busy (k_uart s).
Proof.
  intros Hok Hl Hn. rewrite printk_eq by done. unfold sent_chars.
  destruct (sent_all_uart (formatted fmt args ≫= cons_bytes) (touch s)) as (u & -> & H). by exists u.
Qed.

Lemma cons_bytes_plain l : Forall (fun c => c <> BACKSPACE) l -> l ≫= cons_bytes = l.
Proof.
  induction 1 as [|c l Hc _ IH]; [done|]. cbn. rewrite IH. unfold cons_bytes.
  destruct (Z.eqb_spec c BACKSPACE); done.
Qed.

Lemma digits_plain k : digits !!! k <> BACKSPACE.
Proof. do 16 (destruct k as [|k]; [vm_compute; discriminate|]). vm_compute. discriminate. Qed.

Lemma digit_loop_plain fuel x base buf :
  Forall (fun c => c <> BACKSPACE) buf -> Forall (fun c => c <> BACKSPACE) (digit_loop fuel x base buf).
Proof.
  revert x buf. induction fuel as [|n IH]; intros x buf Hb; [done|]. cbn [digit_loop].
  assert (Forall (fun c => c <> BACKSPACE) (buf ++ [digits !!! Z.to_nat (x mod base)])).
  { apply Forall_app. split; [done|]. apply Forall_singleton, digits_plain. }
  destruct (truthy _); [by apply IH|done].
Qed.

Lemma printint_chars_plain xx base sign : Forall (fun c => c <> BACKSPACE) (printint_chars xx base sign).
Proof.
  apply Forall_reverse. unfold printint_buf.
  destruct (truthy sign && (xx <? 0)); [apply Forall_app; split; [|by repeat constructor]|];
    by apply digit_loop_plain.
Qed.

(** Printk() sends exactly the formatted text to the UART: it returns 0,
    appends to the output the characters the format and its arguments produce
    (an erase character as backspace, space, backspace), and leaves the lock
    [pr.lock] free and the rest of the state as it was. *)
Lemma printk_output fmt args s :
  printing_ok s -> lock_free LK_pr s -> c_noff (k_cpu s) + 1 < 2 ^ 30 ->
  exists u, printk fmt args s = Done 0 (set_k_uart u (touch s))
    /\ u_out u = u_out (k_uart s) ++ map u8 (formatted fmt args ≫= cons_bytes)
    /\ formatted (str "%d %s%%") [AInt (-7); AStr None] = str "-7 (null)%"
    /\ formatted (str "0x%lx") [AInt 255] = str "0xff".
Proof.
  intros Hok Hl Hn. destruct (printk_out fmt args s Hok Hl Hn) as (u & H1 & H2 & _).
  exists u. split; [done|]. split; [done|]. split; vm_compute; reflexivity.
Qed.

Lemma printk_output_witness :
  exists u, printk (str "hart %d starting") [AInt 2] idle_kst = Done 0 (set_k_uart u (touch idle_kst))
    /\ u_out u = str "hart 2 starting".
Proof.
  destruct (printk_output (str "hart %d starting") [AInt 2] idle_kst) as (u & H1 & H2 & _);
    [split_and!; [split; [done|intros H; by vm_compute in H]|done..]|by eexists|reflexivity|].
  exists u. split; [exact H1|]. rewrite H2. vm_compute. reflexivity.
Defined.

(** ** Numerals *)

(** The value of a digit character, and of a numeral read left to right. *)
Definition digit_val (c : Z) : Z := if c <? 97 then c - 48 else c - 87.
Definition numeral_val (base : Z) (l : list Z) : Z :=
  foldl (fun v c => v * base + digit_val c) 0 l.

Lemma digit_val_digits d : 0 <= d < 16 -> digit_val (digits !!! Z.to_nat d) = d.
Proof.
  intros Hd. assert (exists n, d = Z.of_nat n /\ (n < 16)%nat) as (n & -> & Hn).
  { exists (Z.to_nat d). lia. }
  rewrite Nat2Z.id. do 16 (destruct n as [|n]; [done|]). lia.
Qed.

Lemma numeral_val_snoc base l c : numeral_val base (l ++ [c]) = numeral_val base l * base + digit_val c.
Proof. unfold numeral_val. by rewrite foldl_app. Qed.

Lemma digit_loop_S n x base buf :
  digit_loop (S n) x base buf =
    let buf := buf ++ [digits !!! Z.to_nat (x mod base)] in
    if truthy (x / base) then digit_loop n (x / base) base buf else buf.
Proof. done. Qed.

Lemma digit_loop_app fuel x base buf :
  digit_loop fuel x base buf = buf ++ digit_loop fuel x base [].
Proof.
  revert x buf. induction fuel as [|fuel IH]; intros x buf; cbn [digit_loop].
  { by rewrite app_nil_r. }
  destruct (truthy _); [|done]. rewrite IH, (IH _ ([] ++ _)). by rewrite <- app_assoc.
Qed.

Lemma digit_loop_val fuel x base :
  2 <= base <= 16 -> 0 <= x < base ^ Z.of_nat (S fuel) ->
  numeral_val base (reverse (digit_loop (S fuel) x base [])) = x.
Proof.
  intros Hb. revert x. induction fuel as [|fuel IH]; intros x Hx.
  - change (Z.of_nat 1) with 1 in Hx. rewrite Z.pow_1_r in Hx. cbn [digit_loop].
    rewrite Z.div_small by lia. change (truthy 0) with false. cbn.
    rewrite Z.mod_small by lia. unfold numeral_val. cbn. rewrite digit_val_digits; lia.
  - rewrite digit_loop_S. cbv zeta. pose proof (Z.mod_pos_bound x base).
    pose proof (Z.div_mod x base).
    destruct (truthy (x / base)) eqn:E.
    + rewrite digit_loop_app, reverse_app. cbn [app]. rewrite reverse_singleton, numeral_val_snoc.
      rewrite digit_val_digits by lia.
      rewrite IH; [lia|]. split; [apply Z.div_pos; lia|].
      apply Z.div_lt_upper_bound; [lia|].
      rewrite (Nat2Z.inj_succ (S fuel)), Z.pow_succ_r in Hx by lia. lia.
    + apply truthy_false in E. cbn. unfold numeral_val. cbn.
      rewrite digit_val_digits by lia. lia.
Qed.

Lemma digit_loop_length fuel x base k :
  2 <= base -> 0 <= x < base ^ Z.of_nat (S k) ->
  (length (digit_loop fuel x base []) <= S k)%nat.
Proof.
  intros Hb. revert x k. induction fuel as [|fuel IH]; intros x k Hx; cbn [digit_loop]; [cbn; lia|].
  destruct (truthy (x / base)) eqn:E; [|cbn; lia].
  rewrite digit_loop_app, length_app. cbn [length app].
  destruct k as [|k].
  - change (Z.of_nat 1) with 1 in Hx. rewrite Z.pow_1_r in Hx.
    rewrite Z.div_small in E by lia. done.
  - apply le_n_S, IH. split; [apply Z.div_pos; lia|]. apply Z.div_lt_upper_bound; [lia|].
    rewrite (Nat2Z.inj_succ (S k)), Z.pow_succ_r in Hx by lia. lia.
Qed.

(** Printint prints the numeral of its argument in base 10 or 16, with a
    minus sign first for a negative signed argument, and never uses more than
    the 20 characters of its buffer. *)
Lemma printint_correct (xx base sign : Z) :
  -2 ^ 63 <= xx < 2 ^ 63 -> (base = 10 \/ base = 16) ->
  (length (printint_buf xx base sign) <= 20)%nat /\
  (sign = 0 -> numeral_val base (printint_chars xx base sign) = u64 xx) /\
  (0 <= xx -> numeral_val base (printint_chars xx base sign) = xx) /\
  (xx < 0 -> sign <> 0 -> exists ds,
     printint_chars xx base sign = chr "-" :: ds /\ numeral_val base ds = - xx).
Proof.
  intros Hx Hb. assert (2 <= base <= 16) as Hb' by lia.
  assert (forall x, 0 <= x < 2 ^ 64 ->
    numeral_val base (reverse (digit_loop 64 x base [])) = x) as Hval.
  { intros x [? Hr]. apply digit_loop_val; [done|]. split; [done|].
    eapply Z.lt_le_trans; [exact Hr|]. destruct Hb as [->| ->]; vm_compute; discriminate. }
  assert (2 ^ 64 <= 10 ^ Z.of_nat 20) as H20 by (vm_compute; discriminate).
  assert (2 ^ 63 < 10 ^ Z.of_nat 19) as H19 by (vm_compute; reflexivity).
  assert (forall x k, 0 <= x < 10 ^ Z.of_nat (S k) ->
    (length (digit_loop 64 x base []) <= S k)%nat) as Hlen.
  { intros x k Hr. apply digit_loop_length; [lia|]. split; [lia|].
    eapply Z.lt_le_trans; [apply Hr|]. apply Z.pow_le_mono_l. lia. }
  pose proof (u64_range xx) as Hu.
  unfold printint_chars, printint_buf.
  destruct (Z.ltb_spec xx 0) as [Hneg|Hpos]; [destruct (truthy sign) eqn:Es|]; cbn [andb];
    rewrite ?andb_false_r.
  - rewrite u64_small by lia. apply truthy_true in Es. split_and!; try lia.
    + rewrite length_app. cbn [length].
      assert (length (digit_loop 64 (- xx) base []) <= 19)%nat; [|lia].
      apply Hlen. split; [lia|]. apply (Z.le_lt_trans _ (2 ^ 63)); [lia|exact H19].
    + intros _ _. exists (reverse (digit_loop 64 (- xx) base [])).
      rewrite reverse_app, reverse_singleton. split; [reflexivity|]. apply Hval. lia.
  - apply truthy_false in Es. split_and!; try lia.
    + apply (Hlen _ 19%nat). split; [apply Hu|].
      apply (Z.lt_le_trans _ (2 ^ 64)); [apply Hu|exact H20].
    + intros _. apply Hval. lia.
  - split_and!; try lia.
    + apply (Hlen _ 19%nat). split; [apply Hu|].
      apply (Z.lt_le_trans _ (2 ^ 64)); [apply Hu|exact H20].
    + intros _. apply Hval. lia.
    + intros _. rewrite Hval by lia. apply u64_small. lia.
Qed.
