(* ===== verification/Sched.v ===== *)
(** * Sched: switching, sleeping and waking (kernel/proc.c)

    The part of proc.c the rest of the kernel is built on: procinit, sched,
    yield, sleep, wakeup, kill and the per-CPU scheduler loop. *)

From S2P Require Import Prelude Params Machine Spinlock.

(** ** The process table *)
Definition proc_at (s : kst) (i : nat) : proc := k_procs s !!! i.
Definition getp (i : nat) : K proc := gets (fun s => proc_at s i).
Definition updp (i : nat) (f : proc -> proc) : K unit :=
  modify (fun s => set_k_procs (alter f i (k_procs s)) s).

(** Following a null [struct proc *] faults in the kernel, which ends in
    kerneltrap()'s panic. *)
Definition null_deref {A} : K A := panic "kerneltrap".
Definition curproc : K nat :=
  p ← myproc;
  match p with Some i => mret i | None => null_deref end.

Definition procinit : K unit :=
  initlock LK_pid "nextpid" ;;
  initlock LK_wait "wait_lock" ;;
  foreach_ (seq 0 NPROC) (fun i =>
    initlock (LK_proc i) "proc" ;;
    updp i (set_p_state UNUSED) ;;
    updp i (set_p_kstack (KSTACK (Z.of_nat i)))).

(** ** Giving up the CPU *)
Definition sched : K unit :=
  p ← curproc;
  h ← holding (LK_proc p);
  if negb h then panic "sched p->lock" else
  c ← mycpu;
  if negb (c_noff c =? 1) then panic "sched locks" else
  pr ← getp p;
  if decide (p_state pr = RUNNING) then panic "sched RUNNING" else
  on ← intr_get;
  if on : bool then panic "sched interruptible" else
  c ← mycpu;
  let intena := c_intena c in
  swtch ;;
  upd_mycpu (set_c_intena intena).

Definition yield : K unit :=
  p ← curproc;
  acquire (LK_proc p) ;;
  updp p (set_p_state RUNNABLE) ;;
  sched ;;
  release (LK_proc p).

(** ** Sleep and wakeup *)
Definition sleep (chan : chan_id) (lk : lockid) : K unit :=
  p ← curproc;
  acquire (LK_proc p) ;;
  release lk ;;
  (* Go to sleep. *)
  updp p (set_p_chan (Some chan)) ;;
  updp p (set_p_state SLEEPING) ;;
  sched ;;
  (* Tidy up. *)
  updp p (set_p_chan None) ;;
  (* Reacquire original lock. *)
  release (LK_proc p) ;;
  acquire lk.

Definition wakeup (chan : chan_id) : K unit :=
  foreach_ (seq 0 NPROC) (fun i =>
    me ← myproc;
    when (negb (bool_decide (Some i = me)))
      (acquire (LK_proc i) ;;
       p ← getp i;
       when (bool_decide (p_state p = SLEEPING /\ p_chan p = Some chan))
         (updp i (set_p_state RUNNABLE)) ;;
       release (LK_proc i))).

(** ** Killing *)
Definition kkill (pid : Z) : K Z :=
  r ← foreach (seq 0 NPROC) (fun i =>
    acquire (LK_proc i) ;;
    p ← getp i;
    if p_pid p =? pid then
      updp i (set_p_killed 1) ;;
      p ← getp i;
      when (bool_decide (p_state p = SLEEPING)) (updp i (set_p_state RUNNABLE)) ;;
      release (LK_proc i) ;;
      mret (Some 0)
    else
      release (LK_proc i) ;;
      mret None);
  mret (default (-1) r).

Definition setkilled (i : nat) : K unit :=
  acquire (LK_proc i) ;;
  updp i (set_p_killed 1) ;;
  release (LK_proc i).

Definition killed (i : nat) : K Z :=
  acquire (LK_proc i) ;;
  p ← getp i;
  let k := p_killed p in
  release (LK_proc i) ;;
  mret k.

(** ** The scheduler *)

(** The scan of the process table: returns [found]. *)
Fixpoint scheduler_scan (l : list nat) (found : bool) : K bool :=
  match l with
  | [] => mret found
  | i :: l' =>
      acquire (LK_proc i) ;;
      p ← getp i;
      found ← (if decide (p_state p = RUNNABLE) then
          (* Switch to chosen process.  It is the process's job to release its
             lock and then reacquire it before jumping back to us. *)
          updp i (set_p_state RUNNING) ;;
          upd_mycpu (set_c_proc (Some i)) ;;
          swtch ;;
          (* Process is done running for now. *)
          upd_mycpu (set_c_proc None) ;;
          mret true
        else mret found);
      release (LK_proc i) ;;
      scheduler_scan l' found
  end.

(** One round of the [for (;;)] loop of scheduler(); the wfi after a round
    that found nothing only waits. *)
Definition scheduler_round : K bool :=
  intr_on ;;
  intr_off ;;
  scheduler_scan (seq 0 NPROC) false.

(** scheduler() never returns; [fuel] rounds of it. *)
Fixpoint scheduler_rounds (fuel : nat) : K unit :=
  match fuel with
  | O => stuck_at OutOfFuel
  | S n => _ ← scheduler_round; scheduler_rounds n
  end.
Definition scheduler (fuel : nat) : K unit :=
  upd_mycpu (set_c_proc None) ;;
  scheduler_rounds fuel.

(** ** Lemmas *)

(** Nothing of the locking state stands in the way of a short critical
    section: interrupts nest, and the locks of [ls] are free. *)
Definition can_lock (s : kst) (ls : lockid -> Prop) : Prop :=
  cpu_ok s /\ c_noff (k_cpu s) + 4 < 2 ^ 30 /\ forall l, ls l -> lock_free l s.

Definition is_proc_lock (l : lockid) : Prop := exists i, (i < NPROC)%nat /\ l = LK_proc i.
Definition procs_free (s : kst) : Prop := can_lock s is_proc_lock.

Lemma procs_free_lock s i : procs_free s -> (i < NPROC)%nat -> lock_free (LK_proc i) s.
Proof. intros (_ & _ & H) Hi. apply H. by exists i. Qed.

(** [can_lock] only looks at the locking state. *)
Lemma can_lock_hw s s' ls : hw s' = hw (touch s) -> can_lock s ls -> can_lock s' ls.
Proof.
  intros (Hh & Hc & Hr & Hl)%hw_eq_fields (Hok & Hn & Hf).
  apply cpu_ok_touch in Hok. unfold can_lock, cpu_ok, SIE, lock_free in *.
  rewrite Hc, Hr, Hl. cbn in *. split; [done|]. split; [|exact Hf].
  unfold touch_cpu. destruct (_ =? _); cbn; lia.
Qed.

Lemma can_lock_ext s s' ls : hw s' = hw s -> can_lock s ls -> can_lock s' ls.
Proof.
  intros (Hh & Hc & Hr & Hl)%hw_eq_fields H. unfold can_lock, cpu_ok, SIE, lock_free in *.
  by rewrite Hc, Hr, Hl.
Qed.

Lemma list_alter_id_at {A} `{Inhabited A} (f : A -> A) i (l : list A) :
  f (l !!! i) = l !!! i -> alter f i l = l.
Proof.
  intros Hf. apply list_eq. intros j. destruct (decide (i = j)) as [<-|].
  - rewrite list_lookup_alter_eq. destruct (l !! i) eqn:E; cbn; [|done].
    f_equal. rewrite (list_lookup_total_correct _ _ _ E) in Hf. done.
  - by rewrite list_lookup_alter_ne.
Qed.

(** A critical section of process [i]'s lock that only updates its entry. *)
Lemma proc_section {A} i (body : proc -> K A) (f : proc -> proc) (a : A) s :
  can_lock s (eq (LK_proc i)) ->
  body (proc_at s i) (acquired (LK_proc i) s)
    = Done a (set_k_procs (alter f i (k_procs s)) (acquired (LK_proc i) s)) ->
  (acquire (LK_proc i) ;; p ← getp i; x ← body p; release (LK_proc i) ;; mret x) s
  = Done a (set_k_procs (alter f i (k_procs s)) (touch s)).
Proof.
  intros (Hok & _ & Hf) Hb. specialize (Hf _ eq_refl).
  erewrite bind_Done by by apply acquire_eq.
  unfold getp. rewrite bind_gets.
  change (proc_at (acquired (LK_proc i) s) i) with (proc_at s i).
  erewrite bind_Done by exact Hb.
  erewrite bind_Done by by (apply (release_section (LK_proc i) s); [..|reflexivity]).
  reflexivity.
Qed.

Lemma killed_eq i s :
  can_lock s (eq (LK_proc i)) -> killed i s = Done (p_killed (proc_at s i)) (touch s).
Proof.
  intros (Hok & _ & Hf). specialize (Hf _ eq_refl). unfold killed.
  erewrite bind_Done by by apply acquire_eq. unfold getp. rewrite bind_gets.
  change (proc_at (acquired (LK_proc i) s) i) with (proc_at s i).
  erewrite bind_Done by by (apply (release_section (LK_proc i) s); [..|reflexivity]).
  unfold mret, K_ret. by destruct s.
Qed.

(** The locks of the process table stay free while another lock is held. *)
Lemma procs_free_acquired l s :
  procs_free s -> c_noff (k_cpu s) = 0 -> ~ is_proc_lock l -> procs_free (acquired l s).
Proof.
  intros (Hok & Hn & Hf) H0 Hl. split; [apply cpu_ok_pushed; [done|lia]|].
  split; [cbn; lia|]. intros l' Hl'. destruct (Hf l' Hl') as [n Hn']. exists n. cbn.
  rewrite lookup_insert_ne; [done|]. by intros ->.
Qed.

(** *** A process in the kernel *)

(** Process [i] is the current one, it holds no spin-lock, and nobody holds
    the locks of the process table. *)
Record running (i : nat) (s : kst) : Prop := {
  run_proc : c_proc (k_cpu s) = Some i;
  run_slot : (i < NPROC)%nat;
  run_len : length (k_procs s) = NPROC;
  run_noff : c_noff (k_cpu s) = 0;
  run_free : procs_free s
}.

Lemma running_cpu_ok i s : running i s -> cpu_ok s.
Proof. intros H. apply (run_free _ _ H). Qed.

(** It stays so across calls that give the locks back. *)
Lemma running_hw i s s' :
  running i s -> hw s' = hw (touch s) -> length (k_procs s') = length (k_procs s) -> running i s'.
Proof.
  intros [Hp Hi Hl Hn Hf] Hhw Hlen. pose proof (hw_eq_fields _ _ Hhw) as (_ & Hc & _).
  split; [|done|congruence| |by eapply can_lock_hw].
  - rewrite Hc, hw_touch_proc. done.
  - rewrite Hc. cbn. unfold touch_cpu. by rewrite Hn.
Qed.

Lemma lock_free_hw l s s' : hw s' = hw (touch s) -> lock_free l s -> lock_free l s'.
Proof. intros (_ & _ & _ & Hl)%hw_eq_fields H. unfold lock_free. by rewrite Hl. Qed.

(** Two states with the same locking state, up to the interrupt flag that
    push_off() saves anew at the outermost level. *)
Definition settled (s s' : kst) : Prop := hw (touch s') = hw (touch s).

#[global] Instance settled_equiv : Equivalence settled.
Proof. split; unfold settled; [done|by intros s s' ->|by intros s s' s'' -> ->]. Qed.

Lemma hw_touch_ext s s' : hw s' = hw s -> hw (touch s') = hw (touch s).
Proof. intros (Hh & Hc & Hr & Hl)%hw_eq_fields. unfold hw, touch, touch_cpu, SIE. cbn. by rewrite Hh, Hc, Hr, Hl. Qed.
Lemma settled_hw s s' : hw s' = hw s -> settled s s'.
Proof. apply hw_touch_ext. Qed.
Lemma settled_touch s s' : hw s' = hw (touch s) -> settled s s'.
Proof. intros H%hw_touch_ext. by rewrite touch_touch in H. Qed.

Lemma settled_fields s s' :
  settled s s' -> k_hart s' = k_hart s /\ c_proc (k_cpu s') = c_proc (k_cpu s)
    /\ c_noff (k_cpu s') = c_noff (k_cpu s) /\ k_csr s' = k_csr s /\ k_locks s' = k_locks s.
Proof.
  intros (Hh & Hc & Hr & Hl)%hw_eq_fields. split_and!; [exact Hh| | |exact Hr|exact Hl].
  - by rewrite <- (hw_touch_proc s), <- Hc, hw_touch_proc.
  - assert (forall s, c_noff (k_cpu (touch s)) = c_noff (k_cpu s)) as E
      by (intros s0; unfold touch, touch_cpu; by destruct (_ =? _)).
    by rewrite <- (E s), <- Hc, E.
Qed.

Lemma can_lock_settled s s' ls : settled s s' -> can_lock s ls -> can_lock s' ls.
Proof.
  intros (_ & _ & Hn & Hr & Hl)%settled_fields H. unfold can_lock, cpu_ok, SIE, lock_free in *.
  by rewrite Hn, Hr, Hl.
Qed.

Lemma running_settled i s s' :
  running i s -> settled s s' -> length (k_procs s') = length (k_procs s) -> running i s'.
Proof.
  intros [Hp Hi Hl Hn Hf] Hs Hlen. pose proof (settled_fields _ _ Hs) as (_ & Hc & Hn' & _).
  split; [congruence|done|congruence|congruence|by eapply can_lock_settled].
Qed.

Lemma lock_free_settled l s s' : settled s s' -> lock_free l s -> lock_free l s'.
Proof. intros (_ & _ & _ & _ & Hl)%settled_fields H. unfold lock_free. by rewrite Hl. Qed.

(** *** wakeup *)
Definition wake_proc (chan : chan_id) (p : proc) : proc :=
  if bool_decide (p_state p = SLEEPING /\ p_chan p = Some chan) then set_p_state RUNNABLE p else p.

Definition wake_at (chan : chan_id) (me : option nat) (ps : list proc) (i : nat) : list proc :=
  if bool_decide (Some i = me) then ps else alter (wake_proc chan) i ps.

Definition woken (chan : chan_id) (s : kst) : list proc :=
  foldl (wake_at chan (c_proc (k_cpu s))) (k_procs s) (seq 0 NPROC).

Lemma woken_ext chan s s' :
  k_procs s = k_procs s' -> c_proc (k_cpu s) = c_proc (k_cpu s') -> woken chan s = woken chan s'.
Proof. unfold woken. by intros -> ->. Qed.

Lemma wakeup_step chan i s :
  procs_free s -> (i < NPROC)%nat ->
  (me ← myproc;
   when (negb (bool_decide (Some i = me)))
      (acquire (LK_proc i) ;;
       p ← getp i;
       when (bool_decide (p_state p = SLEEPING /\ p_chan p = Some chan))
         (updp i (set_p_state RUNNABLE)) ;;
       release (LK_proc i))) s
  = Done tt (set_k_procs (wake_at chan (c_proc (k_cpu s)) (k_procs s) i) (touch s)).
Proof.
  intros Hpf Hi. pose proof Hpf as (Hok & Hn & _).
  erewrite bind_Done by by apply myproc_eq. unfold wake_at.
  destruct (bool_decide (Some i = _)); cbn [negb when].
  { unfold mret, K_ret. by destruct s. }
  erewrite bind_Done by by (apply acquire_eq; [apply cpu_ok_touch|apply (procs_free_lock s)]).
  unfold getp. rewrite bind_gets.
  change (proc_at (acquired (LK_proc i) (touch s)) i) with (proc_at s i).
  erewrite bind_Done; cycle 1.
  { instantiate (1 := set_k_procs (alter (wake_proc chan) i (k_procs s)) (acquired (LK_proc i) (touch s))).
    instantiate (1 := tt). unfold updp, when, wake_proc.
    destruct (bool_decide (p_state (proc_at s i) = SLEEPING /\ _)) eqn:E.
    - unfold modify. do 2 f_equal. apply list_eq. intros j. cbn.
      destruct (decide (i = j)) as [<-|]; [|by rewrite !list_lookup_alter_ne].
      rewrite !list_lookup_alter_eq. unfold proc_at in E.
      destruct (k_procs s !! i) eqn:Ei; [|done].
      rewrite (list_lookup_total_correct _ _ _ Ei) in E. cbn. by rewrite E.
    - rewrite list_alter_id_at; [by destruct s|]. unfold proc_at in E. by rewrite E. }
  erewrite release_section; [|by apply cpu_ok_touch|by apply (procs_free_lock s)|reflexivity].
  rewrite touch_touch. reflexivity.
Qed.

Lemma foreach_Done {A} (l : list A) (body : A -> K unit) (g : A -> kst -> kst) (P : kst -> Prop) s :
  (forall x s, x ∈ l -> P s -> body x s = Done tt (g x s) /\ P (g x s)) ->
  P s -> foreach_ l body s = Done tt (foldl (fun s x => g x s) s l) /\ P (foldl (fun s x => g x s) s l).
Proof.
  revert s. induction l as [|x l IH]; intros s Hb HP; cbn [foreach_ foldl]; [done|].
  destruct (Hb x s) as [Hx HPx]; [by apply elem_of_cons; left|done|].
  erewrite bind_Done by exact Hx. apply IH; [|done].
  intros y s' Hy. apply Hb. by apply elem_of_cons; right.
Qed.

Lemma wakeup_eq chan s :
  procs_free s -> wakeup chan s = Done tt (set_k_procs (woken chan s) (touch s)).
Proof.
  intros Hpf. unfold wakeup.
  destruct (foreach_Done (seq 0 NPROC) (fun i =>
    me ← myproc;
    when (negb (bool_decide (Some i = me)))
      (acquire (LK_proc i) ;;
       p ← getp i;
       when (bool_decide (p_state p = SLEEPING /\ p_chan p = Some chan))
         (updp i (set_p_state RUNNABLE)) ;;
       release (LK_proc i)))
    (fun i s => set_k_procs (wake_at chan (c_proc (k_cpu s)) (k_procs s) i) (touch s))
    procs_free s) as [-> _].
  - intros i s' Hi Hpf'. apply elem_of_seq in Hi. split.
    + apply wakeup_step; [done|lia].
    + eapply can_lock_hw; [|exact Hpf']. reflexivity.
  - done.
  - f_equal. unfold woken.
    assert (forall l s, l <> [] -> foldl (fun s i => set_k_procs (wake_at chan (c_proc (k_cpu s)) (k_procs s) i) (touch s)) s l
      = set_k_procs (foldl (wake_at chan (c_proc (k_cpu s))) (k_procs s) l) (touch s)) as H.
    { clear. intros l. induction l as [|i l IH]; intros s Hl; [done|]. cbn [foldl].
      destruct l as [|j l]; [done|]. rewrite IH by done. cbn.
      change (c_proc (touch_cpu s)) with (c_proc (k_cpu (touch s))).
      rewrite hw_touch_proc.
      change (touch (set_k_procs ?x (touch s))) with (set_k_procs x (touch (touch s))).
      by rewrite touch_touch. }
    by apply H.
Qed.

Lemma foldl_wake_lookup chan me ps a n j :
  foldl (wake_at chan me) ps (seq a n) !! j =
    (fun p => if bool_decide (Some j <> me /\ (a <= j < a + n)%nat) then wake_proc chan p else p)
      <$> ps !! j.
Proof.
  revert ps a. induction n as [|n IH]; intros ps a; cbn [seq foldl].
  - rewrite bool_decide_false by lia. by rewrite option_fmap_id.
  - rewrite IH. unfold wake_at. destruct (decide (Some a = me)) as [E|E].
    + rewrite (bool_decide_true (Some a = me)) by done. apply option_fmap_ext. intros p.
      destruct (decide (j = a)) as [->|].
      * rewrite !bool_decide_false; [done|naive_solver..].
      * repeat case_bool_decide; try done; naive_solver lia.
    + rewrite (bool_decide_false (Some a = me)) by done. destruct (decide (a = j)) as [<-|].
      * rewrite list_lookup_alter_eq, <- option_fmap_compose.
        destruct (ps !! a); [|done]. cbn.
        rewrite bool_decide_false by lia.
        by rewrite bool_decide_true by (split; [congruence|lia]).
      * rewrite list_lookup_alter_ne by done. apply option_fmap_ext. intros p.
        repeat case_bool_decide; try done; naive_solver lia.
Qed.

Lemma woken_lookup chan s j p :
  (length (k_procs s) <= NPROC)%nat -> k_procs s !! j = Some p ->
  woken chan s !! j = Some (if bool_decide (Some j = c_proc (k_cpu s)) then p else wake_proc chan p).
Proof.
  intros Hlen Hj. unfold woken. rewrite foldl_wake_lookup, Hj. cbn.
  apply lookup_lt_Some in Hj. repeat case_bool_decide; try done; naive_solver lia.
Qed.

Lemma length_woken chan s : length (woken chan s) = length (k_procs s).
Proof.
  unfold woken. generalize (seq 0 NPROC). generalize (k_procs s).
  intros ps l. revert ps. induction l as [|i l IH]; intros ps; [done|]. cbn [foldl].
  rewrite IH. unfold wake_at. case_match; [done|]. apply length_alter.
Qed.

(** The caller of wakeup() is not woken. *)
Lemma woken_same i chan s :
  running i s -> length (woken chan s) = length (k_procs s) /\ woken chan s !!! i = k_procs s !!! i.
Proof.
  intros Hr. split; [apply length_woken|].
  destruct (lookup_lt_is_Some_2 (k_procs s) i) as [p Hp].
  { rewrite (run_len _ _ Hr). apply (run_slot _ _ Hr). }
  rewrite (list_lookup_total_correct _ _ _ Hp). apply list_lookup_total_correct.
  rewrite (woken_lookup _ _ _ p); [|by rewrite (run_len _ _ Hr)|done].
  by rewrite bool_decide_true by (symmetry; apply (run_proc _ _ Hr)).
Qed.

(** *** sleep *)

(** A process [i] running on this hart that holds the lock [lk] and no other,
    as the condition lock of sleep() must be. *)
Definition holds_only (i : nat) (lk : lockid) (s : kst) : Prop :=
  c_proc (k_cpu s) = Some i /\ c_noff (k_cpu s) = 1 /\ SIE s = false
  /\ lock_held lk s /\ (i < length (k_procs s))%nat.

Lemma holds_only_cpu_ok i lk s : holds_only i lk s -> cpu_ok s.
Proof. intros (_ & Hn & Hs & _). split; [rewrite Hn; lia|done]. Qed.

Lemma curproc_eq i s :
  cpu_ok s -> c_proc (k_cpu s) = Some i -> curproc s = Done i (touch s).
Proof. intros Hok Hp. unfold curproc. erewrite bind_Done by by apply myproc_eq. by rewrite Hp. Qed.

Lemma proc_at_alter i f s : (i < length (k_procs s))%nat ->
  proc_at (set_k_procs (alter f i (k_procs s)) s) i = f (proc_at s i).
Proof.
  intros Hi. unfold proc_at. cbn. apply lookup_lt_is_Some in Hi as [p Hp].
  rewrite (list_lookup_total_correct _ _ _ Hp).
  apply list_lookup_total_correct. by rewrite list_lookup_alter_eq, Hp.
Qed.

Lemma proc_at_alter_ne i j f s : i <> j ->
  proc_at (set_k_procs (alter f i (k_procs s)) s) j = proc_at s j.
Proof. intros Hij. unfold proc_at. cbn. by rewrite list_lookup_total_alter_ne. Qed.

(** sched() reaches swtch when its four checks hold. *)
Lemma sched_eq i s :
  holds_only i (LK_proc i) s -> p_state (proc_at s i) <> RUNNING ->
  sched s = Yield s (fun s' => upd_mycpu (set_c_intena (c_intena (k_cpu s))) s').
Proof.
  intros Hh Hst. pose proof (holds_only_cpu_ok _ _ _ Hh) as Hok.
  destruct Hh as (Hp & Hn & Hs & Hl & _). unfold sched.
  erewrite bind_Done by by apply curproc_eq. rewrite touch_nested by lia.
  erewrite bind_Done by by apply holding_held. cbn [negb].
  unfold mycpu, getp. rewrite !bind_gets, Hn. cbn [negb]. change (1 =? 1) with true. cbn [negb].
  rewrite bind_gets. rewrite decide_False by done.
  erewrite bind_Done by (unfold intr_get, get_sstatus; krun; reflexivity).
  fold (SIE s). rewrite Hs, bind_gets. reflexivity.
Qed.

(** The state in which a sleeping process hands the CPU to the scheduler. *)
Definition asleep (i : nat) (chan : chan_id) (lk : lockid) (s : kst) : kst :=
  let s1 := released lk (acquired (LK_proc i) s) in
  let s2 := set_k_procs (alter (set_p_chan (Some chan)) i (k_procs s1)) s1 in
  set_k_procs (alter (set_p_state SLEEPING) i (k_procs s2)) s2.

(** Releasing [lk] under [LK_proc i] swaps the two locks, one level deep. *)
Lemma swap_locks i lk s :
  holds_only i lk s -> lk <> LK_proc i ->
  let s1 := released lk (acquired (LK_proc i) s) in
  k_hart s1 = k_hart s /\ c_proc (k_cpu s1) = Some i /\ c_noff (k_cpu s1) = 1 /\ SIE s1 = false
  /\ lock_held (LK_proc i) s1 /\ lock_free lk s1 /\ k_procs s1 = k_procs s
  /\ (forall l, l <> lk -> l <> LK_proc i -> k_locks s1 !! l = k_locks s !! l).
Proof.
  intros (Hp & Hn & Hs & [n Hl] & Hi) Hne s1.
  assert (popped (acquired (LK_proc i) s)
    = set_k_cpu (set_c_noff 1 (k_cpu (acquired (LK_proc i) s))) (acquired (LK_proc i) s)) as _.
  { unfold popped. cbn. rewrite Hn. by destruct s as [? []]. }
  assert (s1 = set_k_cpu (set_c_noff 1 (k_cpu (acquired (LK_proc i) s)))
     (set_k_locks (<[lk := mkSpinlock 0 n None]> (k_locks (acquired (LK_proc i) s)))
        (acquired (LK_proc i) s))) as E.
  { unfold s1, released.
    erewrite (get_lock_Some lk (acquired (LK_proc i) s)).
    2:{ cbn. rewrite lookup_insert_ne by congruence. exact Hl. }
    unfold popped. cbn. rewrite Hn. reflexivity. }
  rewrite E. clear E s1. cbn.
  split_and!; try done.
  - rewrite <- (SIE_pushed s). reflexivity.
  - eexists. cbn. rewrite lookup_insert_ne, lookup_insert_eq by congruence. done.
  - eexists. cbn. rewrite lookup_insert_eq. done.
  - intros l H1 H2. cbn. by rewrite !lookup_insert_ne.
Qed.

Lemma sleep_yields i chan lk s :
  holds_only i lk s -> lk <> LK_proc i -> lock_free (LK_proc i) s ->
  exists k, sleep chan lk s = Yield (asleep i chan lk s) k
    /\ forall s', k s' = (updp i (set_p_chan None) ;; release (LK_proc i) ;; acquire lk)
                 (set_k_cpu (set_c_intena (c_intena (k_cpu (asleep i chan lk s))) (k_cpu s')) s').
Proof.
  intros Hh Hne Hf. pose proof (holds_only_cpu_ok _ _ _ Hh) as Hok.
  destruct (swap_locks i lk s Hh Hne) as (Hh1 & Hp1 & Hn1 & Hs1 & Hl1 & Hfree & Hps & _).
  destruct Hh as (Hp & Hn & Hs & Hl & Hi).
  unfold sleep. erewrite bind_Done by by apply curproc_eq. rewrite touch_nested by lia.
  erewrite bind_Done by by apply acquire_eq.
  erewrite bind_Done.
  2:{ apply release_eq; [|cbn; lia|apply (SIE_pushed s)].
      destruct Hl as [n Hl]. exists n. cbn. rewrite lookup_insert_ne by congruence. exact Hl. }
  erewrite bind_Done by reflexivity. erewrite bind_Done by reflexivity. fold (asleep i chan lk s).
  assert (proc_at (asleep i chan lk s) i = set_p_state SLEEPING (set_p_chan (Some chan) (proc_at s i))) as Hpa.
  { unfold asleep. rewrite proc_at_alter by (cbn; rewrite length_alter, Hps; done).
    rewrite proc_at_alter by by rewrite Hps. unfold proc_at. by rewrite Hps. }
  unfold mbind at 1, K_bind at 1. erewrite (sched_eq i).
  - eexists. split; [reflexivity|]. intros s'. reflexivity.
  - split_and!; try done. unfold asleep. cbn. by rewrite !length_alter, Hps.
  - rewrite Hpa. done.
Qed.

(** What the scheduler must give back for sleep() to continue: the same
    process, its lock held and nothing else, and the condition lock free. *)
Definition resumable (i : nat) (lk : lockid) (s : kst) : Prop :=
  holds_only i (LK_proc i) s /\ lock_free lk s.

Lemma sleep_resumes i lk ie s :
  lk <> LK_proc i -> resumable i lk s ->
  exists s', (updp i (set_p_chan None) ;; release (LK_proc i) ;; acquire lk)
               (set_k_cpu (set_c_intena ie (k_cpu s)) s) = Done tt s'
    /\ lock_held lk s' /\ lock_free (LK_proc i) s'
    /\ k_procs s' = alter (set_p_chan None) i (k_procs s).
Proof.
  intros Hne [(Hp & Hn & Hs & [n Hl] & Hi) [m Hm]].
  set (s0 := set_k_cpu (set_c_intena ie (k_cpu s)) s).
  unfold updp. rewrite bind_modify.
  set (s1 := set_k_procs _ s0).
  erewrite bind_Done.
  2:{ apply release_eq; [exists n; exact Hl|cbn; lia|exact Hs]. }
  assert (released (LK_proc i) s1 = popped (set_k_locks (<[LK_proc i := mkSpinlock 0 n None]> (k_locks s)) s1)) as E.
  { unfold released. by erewrite (get_lock_Some _ s1) by exact Hl. }
  rewrite E. clear E. set (s2 := set_k_locks _ s1).
  assert (k_locks (popped s2) = k_locks s2 /\ k_procs (popped s2) = k_procs s2
    /\ c_noff (k_cpu (popped s2)) = 0) as (E1 & E2 & E3).
  { unfold popped. destruct (_ && _); cbn; split_and!; try done; lia. }
  rewrite acquire_eq.
  - eexists. split; [reflexivity|]. split; [apply lock_held_acquired|]. split.
    + exists n. cbn. rewrite lookup_insert_ne by congruence. rewrite E1. apply lookup_insert_eq.
    + cbn. by rewrite E2.
  - split; rewrite E3; lia.
  - exists m. rewrite E1. cbn. rewrite lookup_insert_ne by congruence. exact Hm.
Qed.

(** What the scheduler gives back to a process it resumes: it is the current
    one, it holds its own lock and nothing else. *)
Definition resumed (i : nat) (s : kst) : Prop :=
  c_proc (k_cpu s) = Some i /\ c_noff (k_cpu s) = 1 /\ SIE s = false /\ lock_held (LK_proc i) s.

Lemma released_only_hw l s : released l s = put_hw (hw (released l s)) s.
Proof. unfold released, popped. by destruct (_ && _), s. Qed.

(** yield() stops in sched() with the process RUNNABLE, and when resumed
    returns having changed nothing but the locking state. *)
Lemma yield_eq i s :
  c_proc (k_cpu s) = Some i -> (i < length (k_procs s))%nat ->
  cpu_ok s -> c_noff (k_cpu s) = 0 -> lock_free (LK_proc i) s ->
  exists s1 k, yield s = Yield s1 k
    /\ s1 = put_hw (hw s1) (set_k_procs (alter (set_p_state RUNNABLE) i (k_procs s)) s)
    /\ forall s2, resumed i s2 -> exists s3, k s2 = Done tt s3 /\ s3 = put_hw (hw s3) s2.
Proof.
  intros Hp Hi Hok Hn Hf. unfold yield.
  erewrite bind_Done by by apply curproc_eq.
  erewrite bind_Done by (apply acquire_eq; [by apply cpu_ok_touch|exact Hf]).
  erewrite bind_Done by reflexivity.
  set (sc := set_k_procs _ _).
  erewrite bind_Yield.
  2:{ apply (sched_eq i).
      - split_and!; [by cbn; rewrite <- hw_touch_proc in Hp| | | |].
        + transitivity (c_noff (touch_cpu s) + 1); [done|]. unfold touch_cpu. case_match; cbn; lia.
        + exact (SIE_pushed (touch s)).
        + apply lock_held_acquired.
        + cbn. by rewrite length_alter.
      - unfold sc. by rewrite proc_at_alter. }
  do 2 eexists. split; [reflexivity|]. split; [by destruct s|].
  intros s2 (Hp2 & Hn2 & Hs2 & [n Hl2]). cbn [res_bind upd_mycpu].
  eexists. unfold upd_mycpu, modify. cbn [res_bind]. rewrite release_eq; cbn; [|by exists n|lia|done].
  split; [reflexivity|]. rewrite released_only_hw at 1. by destruct s2.
Qed.

(** *** kill *)
Definition kill_proc (p : proc) : proc :=
  let p := set_p_killed 1 p in
  if bool_decide (p_state p = SLEEPING) then set_p_state RUNNABLE p else p.

(** One round of kkill()'s scan. *)
Definition kill_round (pid : Z) (i : nat) : K (option Z) :=
  acquire (LK_proc i) ;;
  p ← getp i;
  if p_pid p =? pid then
    updp i (set_p_killed 1) ;;
    p ← getp i;
    when (bool_decide (p_state p = SLEEPING)) (updp i (set_p_state RUNNABLE)) ;;
    release (LK_proc i) ;;
    mret (Some 0)
  else
    release (LK_proc i) ;;
    mret None.

Lemma alter_alter_at {A} `{Inhabited A} (f g h : A -> A) i (l : list A) :
  (forall x, l !! i = Some x -> g (f x) = h x) -> alter g i (alter f i l) = alter h i l.
Proof.
  intros Hx. apply list_eq. intros j. destruct (decide (i = j)) as [<-|].
  - rewrite !list_lookup_alter_eq. destruct (l !! i); cbn; [|done]. f_equal. by apply Hx.
  - by rewrite !list_lookup_alter_ne.
Qed.

Lemma kill_round_miss pid i s :
  can_lock s (eq (LK_proc i)) -> p_pid (proc_at s i) <> pid ->
  kill_round pid i s = Done None (touch s).
Proof.
  intros (Hok & _ & Hf) Hne. specialize (Hf _ eq_refl). unfold kill_round.
  erewrite bind_Done by by apply acquire_eq. unfold getp. rewrite bind_gets.
  change (proc_at (acquired (LK_proc i) s) i) with (proc_at s i).
  destruct (Z.eqb_spec (p_pid (proc_at s i)) pid); [done|].
  erewrite bind_Done by (eapply release_section; [exact Hok|exact Hf|reflexivity]).
  unfold mret, K_ret. by destruct s.
Qed.

Lemma kill_round_hit pid i s :
  can_lock s (eq (LK_proc i)) -> p_pid (proc_at s i) = pid -> (i < length (k_procs s))%nat ->
  kill_round pid i s = Done (Some 0) (set_k_procs (alter kill_proc i (k_procs s)) (touch s)).
Proof.
  intros (Hok & _ & Hf) Hpid Hi. specialize (Hf _ eq_refl). unfold kill_round.
  erewrite bind_Done by by apply acquire_eq. unfold getp. rewrite bind_gets.
  change (proc_at (acquired (LK_proc i) s) i) with (proc_at s i).
  destruct (Z.eqb_spec (p_pid (proc_at s i)) pid); [|done].
  erewrite bind_Done by reflexivity. rewrite bind_gets.
  rewrite (proc_at_alter i (set_p_killed 1) (acquired (LK_proc i) s)) by done.
  change (proc_at (acquired (LK_proc i) s) i) with (proc_at s i).
  erewrite (bind_Done _ _ _ tt
    (set_k_procs (alter kill_proc i (k_procs s)) (acquired (LK_proc i) s))).
  2:{ assert (forall x, k_procs s !! i = Some x -> proc_at s i = x) as Hx
        by (intros x Hx; by apply list_lookup_total_correct).
      unfold when, updp, modify. case_bool_decide as Hst.
      - f_equal. cbn. unfold set_k_procs. cbn. f_equal. apply alter_alter_at. intros x Ex%Hx. unfold kill_proc.
        rewrite Ex in Hst. by rewrite bool_decide_true.
      - f_equal. cbn. unfold set_k_procs. cbn. f_equal.
        apply list_eq. intros j. destruct (decide (i = j)) as [<-|]; [|by rewrite !list_lookup_alter_ne].
        rewrite !list_lookup_alter_eq. destruct (k_procs s !! i) as [x|] eqn:Ex; [|done]. cbn.
        unfold kill_proc. rewrite (Hx x) in Hst by done. by rewrite bool_decide_false. }
  erewrite bind_Done by (eapply release_section; [exact Hok|exact Hf|reflexivity]).
  reflexivity.
Qed.

Lemma procs_free_can_lock s i :
  procs_free s -> (i < NPROC)%nat -> can_lock s (eq (LK_proc i)).
Proof.
  intros (H1 & H2 & H3) Hi. split; [done|]. split; [done|]. intros l <-. apply H3. by exists i.
Qed.

Lemma kill_scan pid n a s :
  (a + n = NPROC)%nat -> procs_free s -> length (k_procs s) = NPROC ->
  (exists i, p_pid (proc_at s i) = pid /\ (a <= i < NPROC)%nat
     /\ (forall j, (a <= j < i)%nat -> p_pid (proc_at s j) <> pid)
     /\ foreach (seq a n) (kill_round pid) s
        = Done (Some 0) (set_k_procs (alter kill_proc i (k_procs s)) (touch s)))
  \/ ((forall j, (a <= j < NPROC)%nat -> p_pid (proc_at s j) <> pid)
      /\ foreach (seq a n) (kill_round pid) s = Done None (if decide (n = 0%nat) then s else touch s)).
Proof.
  revert a s. induction n as [|n IH]; intros a s Ha Hp Hl; cbn [seq foreach].
  { right. split; [lia|done]. }
  destruct (decide (p_pid (proc_at s a) = pid)) as [E|E].
  - left. exists a. split; [done|]. split; [lia|]. split; [lia|].
    erewrite bind_Done; [|apply kill_round_hit; [apply procs_free_can_lock; [done|lia]|done|lia]]. done.
  - erewrite bind_Done by (apply kill_round_miss; [apply procs_free_can_lock; [done|lia]|done]).
    destruct (IH (S a) (touch s)) as [(i & H1 & H2 & H3 & H4)|[H1 H2]];
      [lia|by apply (can_lock_hw s)|done|left|right].
    + exists i. split; [done|]. split; [lia|]. split; [|by rewrite H4, touch_touch].
      intros j Hj. destruct (decide (j = a)) as [->|]; [done|]. apply H3. lia.
    + split; [|rewrite H2; case_decide; by rewrite ?touch_touch].
      intros j Hj. destruct (decide (j = a)) as [->|]; [done|]. apply H1. lia.
Qed.

Lemma idle_procs_free : procs_free idle_kst.
Proof.
  split; [split; [done|intros H; by vm_compute in H]|]. split; [done|].
  intros l (i & Hi & ->). assert (i ∈ seq 0 NPROC) as Hin by (apply elem_of_seq; lia).
  clear Hi. revert i Hin. apply Forall_forall. vm_compute. repeat constructor; eexists; reflexivity.
Qed.

(** ** Properties *)

(** Wakeup(chan) makes runnable exactly the processes sleeping on
    [chan], other than the caller: it returns, every other process table entry
    and everything outside the table is unchanged, and the locks are as
    before. *)
Lemma wakeup_exact chan s :
  procs_free s -> length (k_procs s) = NPROC ->
  exists ps, wakeup chan s = Done tt (set_k_procs ps (touch s)) /\ length ps = NPROC /\
    forall j p, k_procs s !! j = Some p ->
      ps !! j = Some
        (if bool_decide (p_state p = SLEEPING /\ p_chan p = Some chan
                         /\ Some j <> c_proc (k_cpu s))
         then set_p_state RUNNABLE p else p).
Proof.
  intros Hpf Hlen. exists (woken chan s). split; [by apply wakeup_eq|].
  assert (forall j p, k_procs s !! j = Some p -> woken chan s !! j
    = Some (if bool_decide (Some j = c_proc (k_cpu s)) then p else wake_proc chan p)) as Hw
    by (intros; apply woken_lookup; [lia|done]).
  split.
  - by rewrite length_woken.
  - intros j p Hj. rewrite (Hw j p Hj). f_equal. unfold wake_proc.
    repeat case_bool_decide; try done; naive_solver.
Qed.

Lemma wakeup_exact_witness :
  exists ps, wakeup CH_log idle_kst = Done tt (set_k_procs ps (touch idle_kst)).
Proof.
  destruct (wakeup_exact CH_log idle_kst) as (ps & H & _);
    [apply idle_procs_free|reflexivity|exists ps; exact H].
Defined.



(** kill(pid).  The first process with that pid is marked killed, and
    made runnable if it was sleeping; kill() returns 0 and changes nothing
    else.  When no process has the pid it returns -1 and changes nothing. *)
Lemma kkill_spec pid s :
  procs_free s -> length (k_procs s) = NPROC ->
  (exists i, p_pid (proc_at s i) = pid /\ (i < NPROC)%nat
     /\ (forall j, (j < i)%nat -> p_pid (proc_at s j) <> pid)
     /\ kkill pid s = Done 0 (set_k_procs (alter kill_proc i (k_procs s)) (touch s)))
  \/ ((forall j, (j < NPROC)%nat -> p_pid (proc_at s j) <> pid)
      /\ kkill pid s = Done (-1) (touch s)).
Proof.
  intros Hpf Hlen. unfold kkill.
  destruct (kill_scan pid NPROC 0 s) as [(i & H1 & H2 & H3 & H4)|[H1 H2]]; [lia|done|done|left|right].
  - exists i. split; [done|]. split; [lia|]. split; [intros; apply H3; lia|].
    by erewrite bind_Done by exact H4.
  - split; [intros; apply H1; lia|]. by erewrite bind_Done by exact H2.
Qed.

(** *** scheduler *)

(** The state in which the scheduler switches to process [i]. *)
Definition dispatched (i : nat) (s : kst) : kst :=
  let s1 := acquired (LK_proc i) s in
  set_k_cpu (set_c_proc (Some i) (k_cpu s1)) (set_k_procs (alter (set_p_state RUNNING) i (k_procs s1)) s1).

Lemma scheduler_scan_eq n a s :
  (a + n = NPROC)%nat -> procs_free s -> c_noff (k_cpu s) = 0 ->
  (exists i k, (a <= i < NPROC)%nat /\ p_state (proc_at s i) = RUNNABLE
     /\ (forall j, (a <= j < i)%nat -> p_state (proc_at s j) <> RUNNABLE)
     /\ (scheduler_scan (seq a n) false s = Yield (dispatched i s) k
         \/ scheduler_scan (seq a n) false s = Yield (dispatched i (touch s)) k))
  \/ ((forall j, (a <= j < NPROC)%nat -> p_state (proc_at s j) <> RUNNABLE)
      /\ scheduler_scan (seq a n) false s = Done false (if decide (n = 0%nat) then s else touch s)).
Proof.
  revert a s. induction n as [|n IH]; intros a s Ha Hp Hn; cbn [seq scheduler_scan].
  { right. split; [lia|done]. }
  destruct (procs_free_can_lock s a Hp) as (Hok & _ & Hf); [lia|]. specialize (Hf _ eq_refl).
  erewrite bind_Done by by apply acquire_eq.
  unfold getp. rewrite bind_gets. change (proc_at (acquired (LK_proc a) s) a) with (proc_at s a).
  destruct (decide (p_state (proc_at s a) = RUNNABLE)) as [E|E].
  - left. exists a. eexists. split; [lia|]. split; [done|]. split; [lia|]. left. reflexivity.
  - rewrite bind_ret. erewrite bind_Done by (eapply release_section; [exact Hok|exact Hf|reflexivity]).
    change (put_hw (hw (touch s)) (acquired (LK_proc a) s)) with (touch s).
    destruct (IH (S a) (touch s)) as [(i & k & H1 & H2 & H3 & H4)|[H1 H2]];
      [lia|by apply (can_lock_hw s)| |left|right].
    + unfold touch, touch_cpu. by rewrite Hn.
    + exists i, k. split; [lia|]. split; [done|]. split.
      * intros j Hj. destruct (decide (j = a)) as [->|]; [done|]. apply H3. lia.
      * right. by destruct H4 as [->| ->]; rewrite ?touch_touch.
    + split; [|rewrite H2; case_decide; by rewrite ?touch_touch].
      intros j Hj. destruct (decide (j = a)) as [->|]; [done|]. apply H1. lia.
Qed.

(** The scheduler runs the first runnable process.  A round switches to
    the lowest-numbered RUNNABLE process, having marked it RUNNING and made it
    the CPU's current process, with that process's lock held, interrupts off
    and no other lock: what sched() and forkret() rely on.  With no RUNNABLE
    process a round finds nothing and leaves the table alone. *)
Lemma scheduler_picks_runnable s :
  procs_free s -> c_noff (k_cpu s) = 0 -> length (k_procs s) = NPROC ->
  (exists i s1 k, scheduler_round s = Yield s1 k /\ (i < NPROC)%nat
     /\ p_state (proc_at s i) = RUNNABLE
     /\ (forall j, (j < i)%nat -> p_state (proc_at s j) <> RUNNABLE)
     /\ resumed i s1 /\ k_procs s1 = alter (set_p_state RUNNING) i (k_procs s))
  \/ ((forall j, (j < NPROC)%nat -> p_state (proc_at s j) <> RUNNABLE)
      /\ exists s1, scheduler_round s = Done false s1 /\ k_procs s1 = k_procs s /\ SIE s1 = false).
Proof.
  intros Hp Hn Hlen. unfold scheduler_round.
  set (s0 := set_k_csr (set_r_sstatus (Z.ldiff (Z.lor (r_sstatus (k_csr s)) SSTATUS_SIE) SSTATUS_SIE)
                          (k_csr s)) s).
  assert (SIE s0 = false) as Hs0 by (rewrite SIE_bit; apply ldiff_SIE_bit).
  assert (procs_free s0) as Hp0.
  { destruct Hp as ([H1 _] & H2 & H3). split; [split; [exact H1|done]|]. split; [exact H2|exact H3]. }
  erewrite bind_Done by reflexivity. erewrite bind_Done by reflexivity.
  change (scheduler_scan (seq 0 NPROC) false _) with (scheduler_scan (seq 0 NPROC) false s0).
  assert (forall i s', (i < NPROC)%nat -> c_noff (k_cpu s') = 0 -> resumed i (dispatched i s')) as Hres.
  { intros i s' _ Hn'. split_and!; [done|cbn; lia|exact (SIE_pushed s')|apply (lock_held_acquired _ s')]. }
  destruct (scheduler_scan_eq NPROC 0 s0) as [(i & k & H1 & H2 & H3 & H4)|[H1 H2]]; [lia|done|done|left|right].
  - assert (c_noff (k_cpu (touch s0)) = 0) as Hnt by (unfold touch, touch_cpu; cbn; by rewrite Hn).
    destruct H4 as [H4|H4]; exists i; do 2 eexists; (split; [exact H4|]);
      (split; [lia|]); (split; [done|]); (split; [intros; apply H3; lia|]);
      (split; [apply Hres; [lia|done]|done]).
  - split; [intros; apply H1; lia|]. eexists. split; [exact H2|]. done.
Qed.

Lemma scheduler_picks_runnable_witness :
  let s := set_k_procs (<[5%nat := set_p_state RUNNABLE proc_zero]> (k_procs idle_kst)) idle_kst in
  exists s1 k, scheduler_round s = Yield s1 k.
Proof.
  intros s. destruct (scheduler_picks_runnable s) as [(i & s1 & k & H & _)|[H _]];
    [apply idle_procs_free|reflexivity|reflexivity|exists s1, k; exact H|].
  exfalso. apply (H 5%nat); [vm_compute; lia|reflexivity].
Defined.
