(* ===== verification/Race.v ===== *)
(** * Race: the shared counter of kernel/race.c

    The four kernel functions on [shared_res], and the interleaving of
    several processes running race_increment() on different harts, which is
    what user/racetest.c sets up: each thread is a program counter and the
    locals of race_increment(), a step is one access to shared memory. *)

From S2P Require Import Prelude Params Machine Spinlock Sched.

(** ** The functions *)
Definition upd_race (f : shared_resource -> shared_resource) : K unit :=
  modify (fun s => set_k_race (f (k_race s)) s).

Definition race_init : K unit :=
  initlock LK_race "race_counter" ;;
  upd_race (set_counter 0) ;;
  upd_race (set_total_ops 0).

Definition race_reset : K Z :=
  acquire LK_race ;;
  upd_race (set_counter 0) ;;
  upd_race (set_total_ops 0) ;;
  release LK_race ;;
  mret 0.

Definition race_get_counter : K Z :=
  acquire LK_race ;;
  r ← gets k_race;
  let val := counter r in
  release LK_race ;;
  mret val.

(** One iteration with [i] the loop variable.  The delay loops
    [for (volatile int d = 0; d < 30; d++)] touch only their own local. *)
Definition race_iter (use_lock i : Z) : K unit :=
  if truthy use_lock then
    acquire LK_race ;;
    r ← gets k_race;
    let temp := counter r in
    upd_race (set_counter (s32 (temp + 1))) ;;
    upd_race (fun r => set_total_ops (s32 (total_ops r + 1)) r) ;;
    release LK_race
  else
    r ← gets k_race;
    let temp := counter r in
    when (Z.rem i 5 =? 0) yield ;;
    upd_race (set_counter (s32 (temp + 1))) ;;
    upd_race (fun r => set_total_ops (s32 (total_ops r + 1)) r).

(** [for (i = ...; i < iterations; i++)] with [n] iterations left. *)
Fixpoint race_loop (n : nat) (use_lock i : Z) : K unit :=
  match n with
  | O => mret tt
  | S n' => race_iter use_lock i ;; race_loop n' use_lock (i + 1)
  end.

Definition race_increment (iterations use_lock : Z) : K Z :=
  race_loop (Z.to_nat iterations) use_lock 0 ;;
  mret 0.

(** ** Several harts *)
Module Smp.

(** Where a thread is in race_increment(). *)
Inductive pc :=
| Loop                 (* the loop test *)
| Acq                  (* acquire(): the atomic exchange, retried *)
| Read                 (* temp = shared_res.counter *)
| Write (temp : Z)     (* shared_res.counter = temp + 1 *)
| OpsRead              (* shared_res.total_ops++, the load *)
| OpsWrite (ops : Z)   (* and its store *)
| Rel                  (* release() *)
| Fin.                 (* returned *)

#[global] Instance pc_eq_dec : EqDecision pc.
Proof. solve_decision. Defined.

Record thread := mkThread { t_pc : pc; t_i : Z }.

(** The lock word is the index of the thread that set it. *)
Record shared := mkSh { sh_lock : option nat; sh_counter : Z; sh_ops : Z }.

Section smp.
  Context (iterations use_lock : Z).

(** One step of thread [me].  [None]: the thread has returned. *)
Definition thread_step (me : nat) (sh : shared) (t : thread) : option (shared * thread) :=
  let goto p := mkThread p (t_i t) in
  match t_pc t with
  | Loop =>
      if t_i t <? iterations
      then Some (sh, goto (if truthy use_lock then Acq else Read))
      else Some (sh, goto Fin)
  | Acq =>
      match sh_lock sh with
      | None => Some (mkSh (Some me) (sh_counter sh) (sh_ops sh), goto Read)
      | Some _ => Some (sh, t)
      end
  | Read => Some (sh, goto (Write (sh_counter sh)))
  | Write temp => Some (mkSh (sh_lock sh) (s32 (temp + 1)) (sh_ops sh), goto OpsRead)
  | OpsRead => Some (sh, goto (OpsWrite (sh_ops sh)))
  | OpsWrite ops =>
      Some (mkSh (sh_lock sh) (sh_counter sh) (s32 (ops + 1)),
            if truthy use_lock then goto Rel else mkThread Loop (t_i t + 1))
  | Rel => Some (mkSh None (sh_counter sh) (sh_ops sh), mkThread Loop (t_i t + 1))
  | Fin => None
  end.

Definition config : Type := shared * list thread.

(** The hart running thread [me] takes a step. *)
Definition sys_step (c : config) (me : nat) : option config :=
  t ← c.2 !! me;
  '(sh', t') ← thread_step me c.1 t;
  Some (sh', <[me := t']> c.2).

(** A schedule names the thread that moves at each step; a move of a thread
    that has returned is skipped. *)
Fixpoint run (sched : list nat) (c : config) : config :=
  match sched with
  | [] => c
  | me :: r => run r (default c (sys_step c me))
  end.

Inductive reachable (c0 : config) : config -> Prop :=
| reach_refl : reachable c0 c0
| reach_step c me c' : reachable c0 c -> sys_step c me = Some c' -> reachable c0 c'.

Definition start (n : nat) (counter ops : Z) : config :=
  (mkSh None counter ops, replicate n (mkThread Loop 0)).

Definition all_done (c : config) : Prop := Forall (fun t => t_pc t = Fin) c.2.

(** *** What each thread has done so far *)
Definition iters : Z := Z.max 0 iterations.

Definition critical (p : pc) : bool :=
  match p with Read | Write _ | OpsRead | OpsWrite _ | Rel => true | _ => false end.

(** Increments of [counter] and of [total_ops] by a thread. *)
Definition incs (t : thread) : Z :=
  t_i t + match t_pc t with OpsRead | OpsWrite _ | Rel => 1 | _ => 0 end.
Definition ops (t : thread) : Z := t_i t + match t_pc t with Rel => 1 | _ => 0 end.

Definition thread_ok (sh : shared) (t : thread) : Prop :=
  0 <= t_i t <= iters /\
  match t_pc t with
  | Loop => True
  | Fin => t_i t = iters
  | Write temp => t_i t < iters /\ temp = sh_counter sh
  | OpsWrite o => t_i t < iters /\ o = sh_ops sh
  | _ => t_i t < iters
  end.

(** The locked protocol: the lock word names the one thread in its critical
    section, whose locals agree with the shared fields, and the fields count
    the increments made so far. *)
Record locked_inv (c : config) : Prop := {
  li_owner i t : c.2 !! i = Some t -> critical (t_pc t) = true <-> sh_lock c.1 = Some i;
  li_range i : sh_lock c.1 = Some i -> is_Some (c.2 !! i);
  li_thread i t : c.2 !! i = Some t -> thread_ok c.1 t;
  li_counter : sh_counter c.1 = s32 (zsum incs c.2);
  li_ops : sh_ops c.1 = s32 (zsum ops c.2)
}.

(** Steps left to a thread, when nobody keeps it waiting. *)
Definition work (t : thread) : Z :=
  8 * (iters - t_i t) + match t_pc t with
  | Loop => 1 | Acq => 0 | Read => -1 | Write _ => -2 | OpsRead => -3
  | OpsWrite _ => -4 | Rel => -5 | Fin => 0
  end.

Context (locked : truthy use_lock = true).

Lemma sys_step_inv c me c' :
  sys_step c me = Some c' ->
  exists t sh' t', c.2 !! me = Some t /\ thread_step me c.1 t = Some (sh', t')
    /\ c' = (sh', <[me := t']> c.2).
Proof.
  unfold sys_step. destruct (c.2 !! me) as [t|] eqn:Et; [|done]. cbn.
  destruct (thread_step me c.1 t) as [[sh' t']|] eqn:E; [|done]. cbn.
  intros [= <-]. eauto 10.
Qed.

Lemma locked_inv_start n : locked_inv (start n 0 0).
Proof.
  assert (forall i t, replicate n (mkThread Loop 0) !! i = Some t -> t = mkThread Loop 0) as H
    by (intros i t [-> _]%lookup_replicate; done).
  split; cbn.
  - intros i t ->%H. cbn. naive_solver.
  - done.
  - intros i t ->%H. split; [unfold iters; cbn; lia|done].
  - rewrite (zsum_const _ 0); [done|]. intros x [-> _]%elem_of_replicate. done.
  - rewrite (zsum_const _ 0); [done|]. intros x [-> _]%elem_of_replicate. done.
Qed.

Lemma s32_succ x : s32 (s32 x + 1) = s32 (x + 1).
Proof. apply (wrap_s_add_l 32); lia. Qed.

(** A step of a thread that owns the lock, or takes or drops it. *)
Lemma locked_inv_step c me c' :
  locked_inv c -> sys_step c me = Some c' -> locked_inv c'.
Proof.
  intros [Ho Hr Ht Hc Hp] (t & sh' & t' & Hme & Hs & ->)%sys_step_inv.
  pose proof (Ho _ _ Hme) as Hot. pose proof (Ht _ _ Hme) as [Hi Htt].
  assert (me < length c.2)%nat as Hlen by (eapply lookup_lt_Some; done).
  destruct c as [[lk ct op] ts], t as [p i]. cbn in *.
  assert (forall j tj, j <> me -> ts !! j = Some tj ->
    critical (t_pc tj) = true -> critical p = false) as Hother.
  { intros j tj Hj Etj Hcr. destruct (critical p); [|done].
    apply (Ho _ _ Etj) in Hcr. destruct Hot as [Hot _]. rewrite Hot in Hcr by done. congruence. }
  unfold thread_step in Hs. cbn in Hs. rewrite locked in Hs.
  split; cbn.
  - intros j tj Hj. apply list_lookup_insert_Some in Hj as [(<- & <- & _)|[Hne Hj]].
    + destruct p; repeat (case_match || simplify_eq); cbn in *; tauto || (split; congruence).
    + specialize (Ho _ _ Hj). clear Hother Htt.
      destruct p; repeat (case_match || simplify_eq); cbn in *; try done;
        rewrite Ho; intuition congruence.
  - intros j Hj. rewrite list_lookup_insert_is_Some. clear Hother Htt.
    destruct p; repeat (case_match || simplify_eq); cbn in *; try by auto.
    rewrite ?Hj; simplify_eq; auto.
  - intros j tj Hj. apply list_lookup_insert_Some in Hj as [(<- & <- & _)|[Hne Hj]].
    + clear Hother Ho Hot Ht Hr. unfold thread_ok, iters in *.
      destruct p; repeat (case_match || simplify_eq); cbn in *; zcases;
        repeat split; first [lia | by destruct Htt | congruence].
    + specialize (Hother j tj (not_eq_sym Hne) Hj). pose proof (Ht _ _ Hj) as Htj.
      clear Ho Hot Ht Hr Htt Hj. unfold thread_ok in *. destruct tj as [pj ij]. cbn in *.
      destruct p; repeat (case_match || simplify_eq); cbn in *; try done;
        by specialize (Hother eq_refl).
  - erewrite zsum_insert by exact Hme. clear Hother Ho Ht Hr Hot.
    generalize dependent (zsum incs ts). intros z Hz.
    destruct p; repeat (case_match || simplify_eq); unfold incs; cbn in *;
      try (f_equal; lia).
    destruct Htt as [_ ->]. rewrite s32_succ. f_equal. lia.
  - erewrite zsum_insert by exact Hme. clear Hother Ho Ht Hr Hot.
    generalize dependent (zsum ops ts). intros z Hz.
    destruct p; repeat (case_match || simplify_eq); unfold ops; cbn in *;
      try (f_equal; lia).
    destruct Htt as [_ ->]. rewrite s32_succ. f_equal. lia.
Qed.

Lemma locked_inv_reachable n c : reachable (start n 0 0) c -> locked_inv c.
Proof. induction 1; eauto using locked_inv_start, locked_inv_step. Qed.

Lemma reachable_length c0 c : reachable c0 c -> length c.2 = length c0.2.
Proof.
  induction 1 as [|c me c' _ IH H]; [done|].
  apply sys_step_inv in H as (t & sh' & t' & _ & _ & ->). cbn. by rewrite length_insert.
Qed.

(** A thread that is not spinning loses work at each step. *)
Lemma work_step me sh t sh' t' :
  thread_ok sh t -> thread_step me sh t = Some (sh', t') ->
  (t_pc t = Acq /\ sh_lock sh <> None /\ t' = t) \/ (0 <= work t' < work t).
Proof.
  intros [Hi Ht] Hs. unfold thread_step in Hs. rewrite locked in Hs.
  destruct t as [p i]. unfold work, iters in *. cbn in *.
  destruct p; repeat (case_match || simplify_eq); cbn in *; zcases;
    first [by left; naive_solver | right; naive_solver lia].
Qed.

Lemma sys_step_Some c i t sh' t' :
  c.2 !! i = Some t -> thread_step i c.1 t = Some (sh', t') ->
  sys_step c i = Some (sh', <[i := t']> c.2).
Proof. intros H1 H2. unfold sys_step. rewrite H1. cbn. by rewrite H2. Qed.

Lemma thread_step_total me sh t : t_pc t <> Fin -> exists sh' t', thread_step me sh t = Some (sh', t').
Proof.
  intros Hp. unfold thread_step. destruct (t_pc t); repeat case_match; eauto; done.
Qed.

Definition total_work (c : config) : Z := zsum work c.2.

(** Until every thread has returned, some thread can move and loses work. *)
Lemma locked_progress c :
  locked_inv c -> ~ all_done c ->
  exists me c', sys_step c me = Some c' /\ total_work c' < total_work c.
Proof.
  intros Hinv Hnd.
  assert (exists i t, c.2 !! i = Some t /\ t_pc t <> Fin
    /\ (t_pc t = Acq -> sh_lock c.1 = None)) as (i & t & Hi & Hp & Hq).
  { destruct (sh_lock c.1) as [i|] eqn:El.
    - destruct (li_range _ Hinv i El) as [t Hi]. exists i, t. split; [done|].
      pose proof (proj2 (li_owner _ Hinv _ _ Hi) El) as Hc. by destruct (t_pc t).
    - assert (Exists (fun t => t_pc t <> Fin) c.2) as He.
      { apply not_Forall_Exists; [apply _|done]. }
      apply Exists_exists in He as (t & (i & Hi)%list_elem_of_lookup & Hp). eauto. }
  destruct (thread_step_total i c.1 t Hp) as (sh' & t' & Hs).
  exists i, (sh', <[i := t']> c.2). split; [by eapply sys_step_Some|].
  unfold total_work. cbn. erewrite zsum_insert by exact Hi.
  destruct (work_step _ _ _ _ _ (li_thread _ Hinv _ _ Hi) Hs) as [(? & ? & _)|]; [|lia].
  naive_solver.
Qed.

(** Running one schedule after another. *)
Lemma run_app l1 l2 c : run (l1 ++ l2) c = run l2 (run l1 c).
Proof. revert c. induction l1; intros; cbn; auto. Qed.

Lemma total_work_nonneg c : locked_inv c -> 0 <= total_work c.
Proof.
  intros Hinv. apply zsum_nonneg. intros t [i Hi]%list_elem_of_lookup.
  destruct (li_thread _ Hinv _ _ Hi) as [? Ht]. unfold work. destruct (t_pc t); lia.
Qed.

(** From a state of the protocol some schedule lets every thread return. *)
Lemma locked_completes c :
  locked_inv c -> exists sched, all_done (run sched c) /\ locked_inv (run sched c)
    /\ length (run sched c).2 = length c.2.
Proof.
  intros Hinv. remember (Z.to_nat (total_work c)) as w eqn:Ew.
  revert c Hinv Ew. induction w as [w IH] using lt_wf_ind. intros c Hinv Ew.
  destruct (decide (Forall (fun t => t_pc t = Fin) c.2)) as [Hd|Hnd].
  { by exists []. }
  destruct (locked_progress c Hinv Hnd) as (me & c' & Hs & Hw).
  pose proof (locked_inv_step _ _ _ Hinv Hs) as Hinv'.
  pose proof (total_work_nonneg _ Hinv').
  destruct (IH (Z.to_nat (total_work c')) ltac:(lia) c' Hinv' eq_refl) as (sched & Hd & Hi & Hl).
  exists (me :: sched). cbn [run]. rewrite Hs. cbn [default]. split_and!; try done.
  etrans; [exact Hl|]. apply sys_step_inv in Hs as (t & sh' & t' & _ & _ & ->). cbn. apply length_insert.
Qed.

(** When the threads have returned nothing has been lost. *)
Lemma locked_inv_done c :
  locked_inv c -> all_done c ->
  sh_counter c.1 = s32 (Z.of_nat (length c.2) * iters)
  /\ sh_ops c.1 = s32 (Z.of_nat (length c.2) * iters) /\ sh_lock c.1 = None.
Proof.
  intros Hinv Hd. unfold all_done in Hd. rewrite Forall_forall in Hd.
  assert (forall t, t ∈ c.2 -> t_pc t = Fin /\ t_i t = iters) as Hall.
  { intros t Ht. pose proof (Hd t Ht) as Hp. split; [done|].
    apply list_elem_of_lookup in Ht as [i Hi].
    destruct (li_thread _ Hinv _ _ Hi) as [_ H]. by rewrite Hp in H. }
  split_and!.
  - rewrite (li_counter _ Hinv), (zsum_const incs iters), Z.mul_comm; [done|].
    intros t [H1 H2]%Hall. unfold incs. rewrite H1, H2. lia.
  - rewrite (li_ops _ Hinv), (zsum_const ops iters), Z.mul_comm; [done|].
    intros t [H1 H2]%Hall. unfold ops. rewrite H1, H2. lia.
  - destruct (sh_lock c.1) as [i|] eqn:E; [|done].
    destruct (li_range _ Hinv i E) as [t Hi].
    pose proof (proj2 (li_owner _ Hinv _ _ Hi) E) as Hc.
    destruct (Hall t) as [Hp _]; [by eapply list_elem_of_lookup_2|]. by rewrite Hp in Hc.
Qed.

End smp.

(** *** Without the lock *)
Section unlocked.
  Context (iterations use_lock : Z) (unlocked : truthy use_lock = false).

(** Without the lock a thread never waits, and what it holds in [temp] is at
    most the number of stores made so far. *)
Definition unlocked_inv (c : config) : Prop :=
  0 <= sh_counter c.1 <= zsum incs c.2 /\
  forall i t, c.2 !! i = Some t ->
    0 <= t_i t <= iters iterations /\
    match t_pc t with
    | Loop => True
    | Fin => t_i t = iters iterations
    | Acq | Rel => False
    | Write temp => t_i t < iters iterations /\ 0 <= temp <= zsum incs c.2
    | _ => t_i t < iters iterations
    end.

Lemma unlocked_inv_start n : unlocked_inv (start n 0 0).
Proof.
  split; cbn.
  - rewrite (zsum_const _ 0); [lia|]. intros x [-> _]%elem_of_replicate. done.
  - intros i t [-> _]%lookup_replicate. cbn. unfold iters. split; [lia|done].
Qed.

Lemma incs_bound c t :
  unlocked_inv c -> t ∈ c.2 -> incs t <= iters iterations.
Proof.
  intros [_ H] [i Hi]%list_elem_of_lookup. destruct (H _ _ Hi) as [? Hp].
  unfold incs. destruct (t_pc t); lia.
Qed.

Lemma unlocked_inv_step c me c' :
  Z.of_nat (length c.2) * iters iterations < 2 ^ 31 ->
  unlocked_inv c -> sys_step iterations use_lock c me = Some c' -> unlocked_inv c'.
Proof.
  intros Hfit Hinv (t & sh' & t' & Hme & Hs & ->)%sys_step_inv.
  pose proof (zsum_le_at _ _ _ _ _ (fun t => incs_bound c t Hinv) Hme) as Hb. destruct Hinv as [Hc Ht].
  pose proof (Ht _ _ Hme) as [Hi Htt].
  assert (zsum incs c.2 <= zsum incs (<[me:=t']> c.2)
    /\ 0 <= sh_counter sh' <= zsum incs (<[me:=t']> c.2)) as [Hmono Hc'].
  { clear Ht. erewrite !zsum_insert by exact Hme. generalize dependent (zsum incs c.2). intros z Hz Hb. unfold incs, thread_step in *.
    rewrite unlocked in Hs. destruct t as [p i]. cbn in *.
    destruct p; repeat (case_match || simplify_eq); cbn in *; try lia.
    intros [? ?]. rewrite s32_small by lia. lia. }
  split; [exact Hc'|]. cbn. intros j tj Hj.
  apply list_lookup_insert_Some in Hj as [(<- & <- & _)|[Hne Hj]].
  - unfold thread_step, iters in *. rewrite unlocked in Hs. destruct t as [p i]. cbn in *.
    destruct p; repeat (case_match || simplify_eq); cbn in *; zcases;
      repeat split; first [lia | by destruct Htt | simplify_eq/=; lia].
  - destruct (Ht _ _ Hj) as [? Htj]. split; [done|]. destruct (t_pc tj); try done. lia.
Qed.

Lemma unlocked_inv_reachable n c :
  Z.of_nat n * iters iterations < 2 ^ 31 ->
  reachable iterations use_lock (start n 0 0) c -> unlocked_inv c.
Proof.
  intros Hfit. induction 1 as [|c me c' Hr IH Hs]; [apply unlocked_inv_start|].
  eapply unlocked_inv_step; [|exact IH|exact Hs].
  apply reachable_length in Hr. rewrite Hr. cbn. by rewrite length_replicate.
Qed.

End unlocked.

Lemma run_reachable it ul c0 c sched :
  reachable it ul c0 c -> reachable it ul c0 (run it ul sched c).
Proof.
  revert c. induction sched as [|me r IH]; intros c Hc; cbn; [done|]. apply IH.
  destruct (sys_step it ul c me) eqn:E; [by eapply reach_step|done].
Qed.

(** ** What user/racetest.c reports *)

(** C4: racetest's locked run loses nothing.  However the harts interleave
    [n] processes that each run race_increment(iterations, use_lock) with
    [use_lock] non-zero after a reset, when all of them have returned the
    counter and the audit counter are [n * iterations] (as an int), and at
    every moment at most one process is between acquire() and release(). *)
Theorem locked_no_lost_update iterations use_lock n sched :
  let c := run iterations use_lock sched (start n 0 0) in
  truthy use_lock = true ->
  (all_done c -> sh_counter c.1 = s32 (Z.of_nat n * Z.max 0 iterations)
                 /\ sh_ops c.1 = s32 (Z.of_nat n * Z.max 0 iterations)) /\
  (forall i j ti tj, c.2 !! i = Some ti -> c.2 !! j = Some tj ->
     critical (t_pc ti) = true -> critical (t_pc tj) = true -> i = j).
Proof.
  intros c Hl. assert (reachable iterations use_lock (start n 0 0) c) as Hr
    by apply run_reachable, reach_refl.
  pose proof (locked_inv_reachable _ _ Hl _ _ Hr) as Hinv. split.
  - intros Hd. destruct (locked_inv_done _ _ Hinv Hd) as (H1 & H2 & _).
    rewrite H1, H2, (reachable_length _ _ _ _ Hr). cbn. by rewrite length_replicate.
  - intros i j ti tj Hi Hj Ci Cj.
    apply (li_owner _ _ Hinv _ _ Hi) in Ci. apply (li_owner _ _ Hinv _ _ Hj) in Cj. congruence.
Qed.

Lemma locked_no_lost_update_witness :
  truthy 1 = true /\ sh_counter (run 1 1 [0;1;0;1;0;1;0;1;0;0;0;0;1;1;1;1;1;1;1;1]%nat (start 2 0 0)).1 = 2.
Proof.
  split; [reflexivity|].
  refine (proj1 (proj1 (locked_no_lost_update 1 1 2 _ eq_refl) _)).
  unfold all_done. vm_compute. repeat constructor.
Defined.

(** C21: the spinlock never deadlocks the experiment.  From every state that
    [n] locked processes can reach, some continuation of the schedule lets all
    of them return, and then the counter holds every increment; until then some
    process can take a step that is not a retry of the atomic exchange. *)
Theorem locked_can_finish iterations use_lock n sched :
  let c := run iterations use_lock sched (start n 0 0) in
  truthy use_lock = true ->
  exists rest, all_done (run iterations use_lock rest c)
    /\ sh_counter (run iterations use_lock rest c).1 = s32 (Z.of_nat n * Z.max 0 iterations)
    /\ sh_lock (run iterations use_lock rest c).1 = None
    /\ (all_done c \/ exists me c', sys_step iterations use_lock c me = Some c' /\ c' <> c).
Proof.
  intros c Hl. assert (reachable iterations use_lock (start n 0 0) c) as Hr
    by apply run_reachable, reach_refl.
  pose proof (locked_inv_reachable _ _ Hl _ _ Hr) as Hinv.
  destruct (locked_completes _ _ Hl c Hinv) as (rest & Hd & Hi & Hlen).
  exists rest. destruct (locked_inv_done _ _ Hi Hd) as (H1 & _ & H3).
  rewrite H1, Hlen, (reachable_length _ _ _ _ Hr). cbn. rewrite length_replicate.
  split_and!; try done. destruct (decide (Forall (fun t => t_pc t = Fin) c.2)); [by left|right].
  destruct (locked_progress _ _ Hl c Hinv) as (me & c' & Hs & Hw); [done|].
  exists me, c'. split; [done|]. intros ->. lia.
Qed.

Lemma locked_can_finish_witness :
  truthy 1 = true /\ exists rest, all_done (run 3 1 rest (run 3 1 [0; 1]%nat (start 2 0 0))).
Proof.
  split; [reflexivity|].
  destruct (locked_can_finish 3 1 2 [0; 1]%nat eq_refl) as (rest & H & _). by exists rest.
Defined.



End Smp.

(** ** One hart *)

(** The counters after [n] more locked iterations. *)
Definition bumped (n : Z) (s : kst) : kst :=
  set_k_race (mkShared (s32 (counter (k_race s) + n)) (s32 (total_ops (k_race s) + n))) s.

Lemma race_iter_locked ul i s :
  truthy ul = true -> cpu_ok s -> lock_free LK_race s ->
  race_iter ul i s = Done tt (bumped 1 (touch s)).
Proof.
  intros Hl Hok Hf. unfold race_iter. rewrite Hl.
  erewrite bind_Done by by apply acquire_eq. rewrite bind_gets. cbn zeta.
  erewrite bind_Done by reflexivity. erewrite bind_Done by reflexivity.
  erewrite release_section; [|exact Hok|exact Hf|reflexivity].
  reflexivity.
Qed.

Lemma s32_add_assoc x n m : s32 (s32 (x + n) + m) = s32 (x + (n + m)).
Proof. rewrite Z.add_assoc. apply (wrap_s_add_l 32); lia. Qed.

Lemma race_loop_locked n ul i s :
  truthy ul = true -> cpu_ok s -> lock_free LK_race s ->
  race_loop (S n) ul i s = Done tt (bumped (Z.of_nat (S n)) (touch s)).
Proof.
  intros Hl. revert i s. induction n as [|n IH]; intros i s Hok Hf; cbn [race_loop].
  { erewrite bind_Done by by apply race_iter_locked. done. }
  erewrite bind_Done by by apply race_iter_locked.
  change (race_loop (S n) ul (i + 1) (bumped 1 (touch s))
          = Done tt (bumped (Z.of_nat (S (S n))) (touch s))).
  rewrite IH.
  - f_equal. unfold bumped at 1. cbn. rewrite !s32_add_assoc.
    change (touch (bumped 1 (touch s))) with (set_k_race (k_race (bumped 1 (touch s))) (touch (touch s))).
    rewrite touch_touch. unfold bumped. cbn.
    replace (1 + Z.of_nat (S n)) with (Z.of_nat (S (S n))) by lia. reflexivity.
  - by apply (cpu_ok_touch s).
  - exact Hf.
Qed.

(** race_increment() under the lock, on its own: it returns 0, adds
    [iterations] to both counters (as ints; nothing when it is not positive)
    and leaves the lock free and interrupts as they were. *)
Lemma race_increment_locked iterations use_lock s :
  truthy use_lock = true -> cpu_ok s -> lock_free LK_race s -> 0 < iterations ->
  race_increment iterations use_lock s = Done 0 (bumped iterations (touch s)).
Proof.
  intros Hl Hok Hf Hit. unfold race_increment.
  destruct (Z.to_nat iterations) as [|n] eqn:En; [lia|].
  erewrite bind_Done by by apply race_loop_locked.
  replace (Z.of_nat (S n)) with iterations by lia. done.
Qed.

Lemma race_increment_locked_witness :
  let s := set_k_locks {[LK_race := mkSpinlock 0 "race_counter" None]} kst_zero in
  race_increment 1000 1 s = Done 0 (bumped 1000 (touch s)).
Proof.
  intros s. apply (race_increment_locked 1000 1 s);
    [reflexivity|split; [done|intros H; by vm_compute in H]|by eexists|lia].
Defined.

(** The lost update, in one process's own code.  In unlocked mode the
    first iteration reads the counter and then yields; whatever the counter
    is when the scheduler resumes the process, the value it stores is the one
    read before the yield plus one, so every increment made in between is
    overwritten (while total_ops keeps counting). *)
Lemma race_increment_unlocked_stale i s :
  c_proc (k_cpu s) = Some i -> (i < length (k_procs s))%nat ->
  cpu_ok s -> c_noff (k_cpu s) = 0 -> lock_free (LK_proc i) s ->
  exists s1 k, race_increment 1 0 s = Yield s1 k /\
    forall s2, c_proc (k_cpu s2) = Some i -> c_noff (k_cpu s2) = 1 -> SIE s2 = false ->
      lock_held (LK_proc i) s2 ->
      exists s3, k s2 = Done 0 s3
        /\ counter (k_race s3) = s32 (counter (k_race s) + 1)
        /\ total_ops (k_race s3) = s32 (total_ops (k_race s2) + 1).
Proof.
  intros Hp Hi Hok Hn Hf.
  destruct (yield_eq i s Hp Hi Hok Hn Hf) as (s1 & k & Hy & _ & Hk).
  assert (exists k', race_iter 0 0 s = Yield s1 k' /\ forall s2, k' s2 =
    res_bind (fun _ => upd_race (set_counter (s32 (counter (k_race s) + 1))) ;;
      upd_race (fun r => set_total_ops (s32 (total_ops r + 1)) r)) (k s2)) as (k' & Hr & Hk').
  { eexists. split; [|intros; reflexivity].
    unfold race_iter. change (truthy 0) with false. change (Z.rem 0 5 =? 0) with true.
    cbv iota. rewrite bind_gets. cbn [when]. erewrite bind_Yield by exact Hy. reflexivity. }
  exists s1. eexists. split.
  - unfold race_increment. change (Z.to_nat 1) with 1%nat. cbn [race_loop].
    erewrite bind_Yield; [|erewrite bind_Yield by exact Hr; reflexivity]. reflexivity.
  - intros s2 Hp2 Hn2 Hs2 Hl2. destruct (Hk s2) as (s3 & E & E3); [done|].
    eexists. cbn beta. rewrite Hk', E. split; [reflexivity|]. cbn. split; [done|].
    by rewrite E3.
Qed.
