(* ===== verification/Vm.v ===== *)
(** * Vm: page tables and user memory (kernel/vm.c)

    Page-table pages live in [k_mem]; a page table is the address of its root
    page and a page-table entry the eight bytes at an address, as in the
    source.  Also proc_mapstacks() of kernel/proc.c, which kvmmake() calls. *)

From S2P Require Import Prelude Params Machine Spinlock Strings Kalloc Sched.

Definition getpte (a : Z) : K Z := gets (fun s => ld64 (k_mem s) a).
Definition setpte (a v : Z) : K unit := modify (fun s => set_k_mem (st64 (k_mem s) a v) s).

(** [x & mask] as a condition. *)
Definition has (x mask : Z) : bool := truthy (Z.land x mask).

(** Address of entry [i] of a page-table page. *)
Definition pte_at (pagetable i : Z) : Z := pagetable + 8 * i.

Section vm.
Context {SYM : Symbols}.

(** ** Walking *)

(** The loop of walk() from [level] down to 1; 0 is the null pointer. *)
Fixpoint walk_levels (level : nat) (pagetable va : Z) (alloc : bool) : K Z :=
  match level with
  | O => mret (pte_at pagetable (PX 0 va))
  | S l =>
      let pte := pte_at pagetable (PX (Z.of_nat level) va) in
      e ← getpte pte;
      if has e PTE_V then walk_levels l (PTE2PA e) va alloc
      else if negb alloc then mret 0
      else
        pagetable ← kalloc;
        if pagetable =? 0 then mret 0 else
        upd_mem (memset pagetable 0 PGSIZE) ;;
        setpte pte (Z.lor (PA2PTE pagetable) PTE_V) ;;
        walk_levels l pagetable va alloc
  end.

Definition walk (pagetable va : Z) (alloc : bool) : K Z :=
  if va >=? MAXVA then panic "walk" else walk_levels 2 pagetable va alloc.

Definition walkaddr (pagetable va : Z) : K Z :=
  if va >=? MAXVA then mret 0 else
  pte ← walk pagetable va false;
  if pte =? 0 then mret 0 else
  e ← getpte pte;
  if negb (has e PTE_V) then mret 0 else
  if negb (has e PTE_U) then mret 0 else
  mret (PTE2PA e).

Definition ismapped (pagetable va : Z) : K bool :=
  pte ← walk pagetable va false;
  if pte =? 0 then mret false else
  e ← getpte pte;
  mret (has e PTE_V).

(** ** Mapping.  The fuel is the number of pages of the range. *)
Definition mappages (pagetable va size pa perm : Z) : K Z :=
  if negb (va mod PGSIZE =? 0) then panic "mappages: va not aligned" else
  if negb (size mod PGSIZE =? 0) then panic "mappages: size not aligned" else
  if size =? 0 then panic "mappages: size" else
  let last := u64 (va + size - PGSIZE) in
  loop (Z.to_nat (size / PGSIZE)) (fun '(a, pa) =>
    pte ← walk pagetable a true;
    if pte =? 0 then mret (inr (-1)) else
    e ← getpte pte;
    if has e PTE_V then panic "mappages: remap" else
    setpte pte (Z.lor (Z.lor (PA2PTE pa) perm) PTE_V) ;;
    if a =? last then mret (inr 0)
    else mret (inl (u64 (a + PGSIZE), u64 (pa + PGSIZE)))) (va, pa).

Definition kvmmap (kpgtbl va pa sz perm : Z) : K unit :=
  r ← mappages kpgtbl va sz pa perm;
  when (negb (r =? 0)) (panic "kvmmap").

Definition proc_mapstacks (kpgtbl : Z) : K unit :=
  foreach_ (seq 0 NPROC) (fun i =>
    pa ← kalloc;
    if pa =? 0 then panic "kalloc" else
    let va := KSTACK (Z.of_nat i) in
    kvmmap kpgtbl va pa PGSIZE (Z.lor PTE_R PTE_W)).

Definition kvmmake : K Z :=
  kpgtbl ← kalloc;
  upd_mem (memset kpgtbl 0 PGSIZE) ;;
  kvmmap kpgtbl UART0 UART0 PGSIZE (Z.lor PTE_R PTE_W) ;;
  kvmmap kpgtbl VIRTIO0 VIRTIO0 PGSIZE (Z.lor PTE_R PTE_W) ;;
  kvmmap kpgtbl PLIC PLIC 0x4000000 (Z.lor PTE_R PTE_W) ;;
  kvmmap kpgtbl KERNBASE KERNBASE (sym_etext - KERNBASE) (Z.lor PTE_R PTE_X) ;;
  kvmmap kpgtbl sym_etext sym_etext (PHYSTOP - sym_etext) (Z.lor PTE_R PTE_W) ;;
  kvmmap kpgtbl TRAMPOLINE sym_trampoline PGSIZE (Z.lor PTE_R PTE_X) ;;
  proc_mapstacks kpgtbl ;;
  mret kpgtbl.

Definition kvminit : K unit :=
  t ← kvmmake;
  modify (set_k_kpgtbl t).

(** The TLB is not part of the model, so sfence_vma() has nothing to do. *)
Definition kvminithart : K unit :=
  t ← gets k_kpgtbl;
  modify (fun s => set_k_csr (set_r_satp (MAKE_SATP t) (k_csr s)) s).

Definition uvmcreate : K Z :=
  pagetable ← kalloc;
  if pagetable =? 0 then mret 0 else
  upd_mem (memset pagetable 0 PGSIZE) ;;
  mret pagetable.

(** ** Unmapping and freeing *)
Definition uvmunmap (pagetable va npages : Z) (do_free : bool) : K unit :=
  if negb (va mod PGSIZE =? 0) then panic "uvmunmap: not aligned" else
  loop (S (Z.to_nat npages)) (fun a =>
    if negb (a <? u64 (va + npages * PGSIZE)) then mret (inr tt) else
    let next := u64 (a + PGSIZE) in
    pte ← walk pagetable a false;
    if pte =? 0 then mret (inl next) else
    e ← getpte pte;
    if negb (has e PTE_V) then mret (inl next) else
    when do_free (kfree (PTE2PA e)) ;;
    setpte pte 0 ;;
    mret (inl next)) va.

Definition uvmdealloc (pagetable oldsz newsz : Z) : K Z :=
  if newsz >=? oldsz then mret oldsz else
  when (PGROUNDUP newsz <? PGROUNDUP oldsz)
    (let npages := s32 ((PGROUNDUP oldsz - PGROUNDUP newsz) / PGSIZE) in
     uvmunmap pagetable (PGROUNDUP newsz) npages true) ;;
  mret newsz.

Definition uvmalloc (pagetable oldsz newsz xperm : Z) : K Z :=
  if newsz <? oldsz then mret oldsz else
  let oldsz := PGROUNDUP oldsz in
  loop (S (Z.to_nat (newsz / PGSIZE + 1))) (fun a =>
    if negb (a <? newsz) then mret (inr newsz) else
    mem ← kalloc;
    if mem =? 0 then
      uvmdealloc pagetable a oldsz ;;
      mret (inr 0)
    else
    upd_mem (memset mem 0 PGSIZE) ;;
    r ← mappages pagetable a PGSIZE mem (Z.lor (Z.lor PTE_R PTE_U) xperm);
    if negb (r =? 0) then
      kfree mem ;;
      uvmdealloc pagetable a oldsz ;;
      mret (inr 0)
    else mret (inl (u64 (a + PGSIZE)))) oldsz.

(** Page tables are three levels deep: [depth] bounds the recursion. *)
Fixpoint freewalk_depth (depth : nat) (pagetable : Z) : K unit :=
  match depth with
  | O => stuck_at OutOfFuel
  | S d =>
      foreach_ (seq 0 512) (fun i =>
        pte ← getpte (pte_at pagetable (Z.of_nat i));
        if has pte PTE_V && negb (has pte (Z.lor (Z.lor PTE_R PTE_W) PTE_X)) then
          (* this PTE points to a lower-level page table. *)
          let child := PTE2PA pte in
          freewalk_depth d child ;;
          setpte (pte_at pagetable (Z.of_nat i)) 0
        else if has pte PTE_V then panic "freewalk: leaf"
        else mret tt) ;;
      kfree pagetable
  end.
Definition freewalk (pagetable : Z) : K unit := freewalk_depth 3 pagetable.

Definition uvmfree (pagetable sz : Z) : K unit :=
  when (0 <? sz) (uvmunmap pagetable 0 (PGROUNDUP sz / PGSIZE) true) ;;
  freewalk pagetable.

(** ** Copying an address space *)
Definition uvmcopy (old new sz : Z) : K Z :=
  let err i := uvmunmap new 0 (i / PGSIZE) true ;; mret (inr (-1)) in
  loop (S (Z.to_nat (sz / PGSIZE + 1))) (fun i =>
    if negb (i <? sz) then mret (inr 0) else
    let next := u64 (i + PGSIZE) in
    pte ← walk old i false;
    if pte =? 0 then mret (inl next) else (* page table entry hasn't been allocated *)
    e ← getpte pte;
    if negb (has e PTE_V) then mret (inl next) else (* physical page hasn't been allocated *)
    let pa := PTE2PA e in
    let flags := PTE_FLAGS e in
    mem ← kalloc;
    if mem =? 0 then err i else
    upd_mem (memmove mem pa PGSIZE) ;;
    r ← mappages new i PGSIZE mem flags;
    if negb (r =? 0) then kfree mem ;; err i
    else mret (inl next)) 0.

Definition uvmclear (pagetable va : Z) : K unit :=
  pte ← walk pagetable va false;
  if pte =? 0 then panic "uvmclear" else
  e ← getpte pte;
  setpte pte (Z.ldiff e PTE_U).

(** ** Lazily allocated pages *)
Definition vmfault (pagetable va : Z) (read : bool) : K Z :=
  p ← curproc;
  pr ← getp p;
  if va >=? p_sz pr then mret 0 else
  let va := PGROUNDDOWN va in
  m ← ismapped pagetable va;
  if m : bool then mret 0 else
  mem ← kalloc;
  if mem =? 0 then mret 0 else
  upd_mem (memset mem 0 PGSIZE) ;;
  pr ← getp p;
  r ← mappages (p_pagetable pr) va PGSIZE mem (Z.lor (Z.lor PTE_W PTE_U) PTE_R);
  if negb (r =? 0) then kfree mem ;; mret 0 else
  mret mem.

(** ** Copying between kernel and user

    The kernel side of a copy is a byte list: [src] is what the source
    pointer points to, and copyin() also returns the bytes it has stored at
    [dst] (all of them, or those before the failure).  Each round moves at
    least one byte, so the number of bytes bounds the rounds. *)
Definition copyout_body (pagetable : Z) : Z * list Z -> K (Z * list Z + Z) := fun '(dstva, src) =>
  let len := Z.of_nat (length src) in
  if negb (0 <? len) then mret (inr 0) else
  let va0 := PGROUNDDOWN dstva in
  if va0 >=? MAXVA then mret (inr (-1)) else
  pa0 ← walkaddr pagetable va0;
  pa0 ← (if pa0 =? 0 then vmfault pagetable va0 false else mret pa0);
  if pa0 =? 0 then mret (inr (-1)) else
  pte ← walk pagetable va0 false;
  e ← getpte pte;
  (* forbid copyout over read-only user text pages. *)
  if negb (has e PTE_W) then mret (inr (-1)) else
  let n := PGSIZE - (dstva - va0) in
  let n := if n >? len then len else n in
  upd_mem (fun m => mem_store m (pa0 + (dstva - va0)) (take (Z.to_nat n) src)) ;;
  mret (inl (u64 (va0 + PGSIZE), drop (Z.to_nat n) src)).

Definition copyout (pagetable dstva : Z) (src : list Z) : K Z :=
  loop (S (length src)) (copyout_body pagetable) (dstva, src).

Definition copyin_body (pagetable : Z) :
    list Z * Z * Z -> K (list Z * Z * Z + Z * list Z) := fun '(dst, srcva, len) =>
  if negb (0 <? len) then mret (inr (0, dst)) else
  let va0 := PGROUNDDOWN srcva in
  pa0 ← walkaddr pagetable va0;
  pa0 ← (if pa0 =? 0 then vmfault pagetable va0 true else mret pa0);
  if pa0 =? 0 then mret (inr (-1, dst)) else
  let n := PGSIZE - (srcva - va0) in
  let n := if n >? len then len else n in
  bs ← gets (fun s => mem_load (k_mem s) (pa0 + (srcva - va0)) (Z.to_nat n));
  mret (inl (dst ++ bs, u64 (va0 + PGSIZE), len - n)).

Definition copyin (pagetable srcva len : Z) : K (Z * list Z) :=
  loop (S (Z.to_nat len)) (copyin_body pagetable) ([], srcva, len).

(** The inner loop of copyinstr() on the page bytes from [p]: the bytes
    stored and whether the terminator (included) was found. *)
Fixpoint copyinstr_page (m : mem) (p : Z) (n : nat) : list Z * bool :=
  match n with
  | O => ([], false)
  | S n' =>
      if ld8 m p =? 0 then ([0], true)
      else let '(bs, g) := copyinstr_page m (p + 1) n' in (ld8 m p :: bs, g)
  end.

Definition copyinstr (pagetable srcva max : Z) : K (Z * list Z) :=
  loop (S (Z.to_nat max)) (fun '(dst, srcva, max, got_null) =>
    if negb (negb got_null && (0 <? max))
    then mret (inr ((if got_null : bool then 0 else -1), dst)) else
    let va0 := PGROUNDDOWN srcva in
    pa0 ← walkaddr pagetable va0;
    if pa0 =? 0 then mret (inr (-1, dst)) else
    let n := PGSIZE - (srcva - va0) in
    let n := if n >? max then max else n in
    r ← gets (fun s => copyinstr_page (k_mem s) (pa0 + (srcva - va0)) (Z.to_nat n));
    let '(bs, g) := r in
    let max := max - Z.of_nat (length bs) + b2z g in
    mret (inl (dst ++ bs, u64 (va0 + PGSIZE), max, g))) ([], srcva, max, false).

(** ** kernel/proc.c: either_copyout, either_copyin *)
Definition either_copyout (user_dst : bool) (dst : Z) (src : list Z) : K Z :=
  p ← curproc;
  if user_dst then
    pr ← getp p;
    copyout (p_pagetable pr) dst src
  else
    upd_mem (fun m => mem_store m dst src) ;;
    mret 0.

Definition either_copyin (user_src : bool) (src len : Z) : K (Z * list Z) :=
  p ← curproc;
  if user_src then
    pr ← getp p;
    copyin (p_pagetable pr) src len
  else
    bs ← gets (fun s => mem_load (k_mem s) src (Z.to_nat len));
    mret (0, bs).

End vm.

(** ** Translation as a function of memory *)

(** The entry walk() finds without allocating. *)
Definition leaf_pte (m : mem) (pagetable va : Z) : option Z :=
  let e2 := ld64 m (pte_at pagetable (PX 2 va)) in
  if negb (has e2 PTE_V) then None else
  let e1 := ld64 m (pte_at (PTE2PA e2) (PX 1 va)) in
  if negb (has e1 PTE_V) then None else
  Some (pte_at (PTE2PA e1) (PX 0 va)).

(** The physical page of a user virtual page. *)
Definition user_page (m : mem) (pagetable va : Z) : option Z :=
  match leaf_pte m pagetable va with
  | None => None
  | Some pte =>
      let e := ld64 m pte in
      if (pte =? 0) || negb (has e PTE_V) || negb (has e PTE_U) then None else Some (PTE2PA e)
  end.

(** Address of the byte at user address [va], when its page is [mapped]. *)
Definition user_addr (m : mem) (pagetable va : Z) : Z :=
  default 0 (user_page m pagetable (va - va mod PGSIZE)) + va mod PGSIZE.
Definition mapped (m : mem) (pagetable va : Z) : Prop :=
  exists pa, user_page m pagetable (va - va mod PGSIZE) = Some pa /\ pa <> 0.

(** The [n] bytes of user memory from [va] on. *)
Definition user_bytes (m : mem) (pagetable va n : Z) : list Z :=
  (fun i => m (user_addr m pagetable (va + i))) <$> seqZ 0 n.

Section translation.
Context {SYM : Symbols}.

Lemma walk_noalloc pt va s :
  va < MAXVA -> walk pt va false s = Done (default 0 (leaf_pte (k_mem s) pt va)) s.
Proof.
  intros Hva. unfold walk, leaf_pte. rewrite Z.geb_leb. destruct (Z.leb_spec MAXVA va); [lia|].
  cbn [walk_levels]. unfold getpte. rewrite bind_gets.
  change (Z.of_nat 2) with 2. change (Z.of_nat 1) with 1.
  destruct (has (ld64 (k_mem s) (pte_at pt (PX 2 va))) PTE_V); cbn [negb]; [|done].
  rewrite bind_gets. destruct (has _ PTE_V); done.
Qed.

Lemma walkaddr_eq pt va s :
  va < MAXVA -> walkaddr pt va s = Done (default 0 (user_page (k_mem s) pt va)) s.
Proof.
  intros Hva. unfold walkaddr, user_page. rewrite Z.geb_leb. destruct (Z.leb_spec MAXVA va); [lia|].
  erewrite bind_Done by by apply walk_noalloc.
  destruct (leaf_pte (k_mem s) pt va) as [pte|]; [|done]. change (default 0 (Some pte)) with pte.
  destruct (pte =? 0); [done|]. unfold getpte. rewrite bind_gets.
  destruct (has (ld64 (k_mem s) pte) PTE_V); cbn; [|done].
  by destruct (has (ld64 (k_mem s) pte) PTE_U).
Qed.

Lemma page_of_add a i :
  0 <= i < PGSIZE - a mod PGSIZE ->
  (a + i) - (a + i) mod PGSIZE = a - a mod PGSIZE /\ (a + i) mod PGSIZE = a mod PGSIZE + i.
Proof.
  intros Hi. assert ((a + i) mod PGSIZE = a mod PGSIZE + i) as E; [|lia].
  unfold PGSIZE in *. pose proof (Z.mod_pos_bound a 4096).
  rewrite (Z.div_mod a 4096) at 1 by lia.
  replace (4096 * (a / 4096) + a mod 4096 + i) with (a mod 4096 + i + (a / 4096) * 4096) by lia.
  rewrite Z_mod_plus_full, Z.mod_small; lia.
Qed.

(** The bytes of one page. *)
Lemma user_bytes_page m pt va n pa :
  0 <= n <= PGSIZE - va mod PGSIZE -> user_page m pt (va - va mod PGSIZE) = Some pa ->
  user_bytes m pt va n = mem_load m (pa + va mod PGSIZE) (Z.to_nat n).
Proof.
  intros Hn Hp. unfold user_bytes, mem_load, seqZ. rewrite <- list_fmap_compose.
  apply list_fmap_ext. intros i x [-> Hx]%lookup_seq. cbn. unfold user_addr.
  replace (Z.of_nat i + 0) with (Z.of_nat i) by lia.
  destruct (page_of_add va (Z.of_nat i)) as [-> ->]; [lia|]. rewrite Hp. cbn. f_equal. lia.
Qed.

Lemma user_bytes_app m pt va n k :
  0 <= n -> 0 <= k ->
  user_bytes m pt va (n + k) = user_bytes m pt va n ++ user_bytes m pt (va + n) k.
Proof.
  intros Hn Hk. unfold user_bytes. rewrite seqZ_app by lia. rewrite fmap_app. f_equal.
  unfold seqZ. rewrite <- !list_fmap_compose. apply list_fmap_ext. intros i x _. cbn.
  do 2 f_equal. lia.
Qed.

Lemma user_bytes_length m pt va n : length (user_bytes m pt va n) = Z.to_nat n.
Proof. unfold user_bytes. by rewrite length_fmap, length_seqZ. Qed.

Lemma PGROUNDDOWN_page va : 0 <= va < MAXVA -> PGROUNDDOWN va = va - va mod PGSIZE.
Proof. intros H. apply PGROUNDDOWN_eq. change MAXVA with (2 ^ 38) in H. lia. Qed.

Lemma page_bounds va : 0 <= va < MAXVA ->
  0 <= va mod PGSIZE < PGSIZE /\ 0 <= va - va mod PGSIZE < MAXVA
  /\ u64 (va - va mod PGSIZE + PGSIZE) = va - va mod PGSIZE + PGSIZE.
Proof.
  intros H. change MAXVA with (2 ^ 38) in *. unfold PGSIZE.
  pose proof (Z.mod_pos_bound va 4096). pose proof (Z.mod_le va 4096).
  split; [lia|]. split; [lia|]. apply u64_small. lia.
Qed.

(** The next page boundary is where a copy goes on. *)
Lemma chunk_next va len :
  0 < len ->
  let n := PGSIZE - va mod PGSIZE in
  let n' := if n >? len then len else n in
  0 < n' <= len /\ (n' < len -> va - va mod PGSIZE + PGSIZE = va + n') /\ n' <= n.
Proof.
  intros Hl. unfold PGSIZE. pose proof (Z.mod_pos_bound va 4096). cbv zeta.
  rewrite Z.gtb_ltb. destruct (Z.ltb_spec len (4096 - va mod 4096)); lia.
Qed.

(** The loop of copyin(), on mapped pages. *)
Lemma copyin_loop pt fuel dst va len s :
  (Z.to_nat len < fuel)%nat -> 0 <= va -> 0 <= len -> va + len <= MAXVA ->
  (forall a, va <= a < va + len -> mapped (k_mem s) pt a) ->
  loop fuel (copyin_body pt) (dst, va, len) s
  = Done (0, dst ++ user_bytes (k_mem s) pt va len) s.
Proof.
  revert dst va len. induction fuel as [|fuel IH]; intros dst va len Hf Hva Hl Hmax Hm; [lia|].
  destruct (Z.ltb_spec 0 len) as [Hpos|Hz].
  2:{ replace len with 0 by lia. unfold user_bytes. rewrite app_nil_r. done. }
  assert (0 <= va < MAXVA) as Hr by lia.
  destruct (page_bounds va Hr) as (Hmod & Hp0 & Hu).
  destruct (Hm va) as (pa & Hpa & Hnz); [lia|].
  destruct (chunk_next va len Hpos) as (Hn & Hnext & Hle). cbv zeta in Hn, Hnext, Hle.
  set (n := if PGSIZE - va mod PGSIZE >? len then len else PGSIZE - va mod PGSIZE) in *.
  erewrite loop_next.
  2:{ unfold copyin_body. destruct (Z.ltb_spec 0 len); [|lia]. cbn [negb]. rewrite PGROUNDDOWN_page by done. cbv zeta.
      erewrite bind_Done by (apply walkaddr_eq; lia). rewrite Hpa. cbn [default from_option]. unfold id.
      destruct (Z.eqb_spec pa 0); [done|]. rewrite bind_ret.
      destruct (Z.eqb_spec pa 0); [done|].
      replace (va - (va - va mod PGSIZE)) with (va mod PGSIZE) by lia. fold n.
      rewrite bind_gets. reflexivity. }
  rewrite Hu. rewrite <- (user_bytes_page (k_mem s) pt va n pa) by (done || lia).
  destruct (decide (n < len)) as [Hlt|Hge].
  - rewrite Hnext by done. rewrite IH.
    + rewrite <- app_assoc, <- user_bytes_app by lia. by replace (n + (len - n)) with len by lia.
    + lia.
    + lia.
    + lia.
    + lia.
    + intros a Ha. apply Hm. lia.
  - replace (len - n) with 0 by lia. replace n with len by lia.
    destruct fuel as [|fuel]; [lia|]. apply loop_done; [lia|reflexivity].
Qed.

(** copyin() of mapped user memory reads the bytes and changes nothing. *)
Lemma copyin_mapped pt va len s :
  0 <= va -> 0 <= len -> va + len <= MAXVA ->
  (forall a, va <= a < va + len -> mapped (k_mem s) pt a) ->
  copyin pt va len s = Done (0, user_bytes (k_mem s) pt va len) s.
Proof. intros H1 H2 H3 H4. apply (copyin_loop pt _ [] va len s); [lia|done..]. Qed.

(** *** Writing to user memory *)

(** The bytes of page-table pages that the translation of page [va] reads. *)
Definition pte2 (pt va : Z) : Z := pte_at pt (PX 2 va).
Definition pte1 (m : mem) (pt va : Z) : Z := pte_at (PTE2PA (ld64 m (pte2 pt va))) (PX 1 va).
Definition pte0 (m : mem) (pt va : Z) : Z := pte_at (PTE2PA (ld64 m (pte1 m pt va))) (PX 0 va).
Definition reads (m : mem) (pt va x : Z) : Prop :=
  pte2 pt va <= x < pte2 pt va + 8 \/ pte1 m pt va <= x < pte1 m pt va + 8
  \/ pte0 m pt va <= x < pte0 m pt va + 8.

Definition page (a : Z) : Z := a - a mod PGSIZE.

(** A user buffer copyout() can fill: mapped and writable, its pages distinct
    and none of them a page-table page its own translation goes through. *)
Record user_buffer (m : mem) (pt va len : Z) : Prop := {
  ub_range : 0 <= va /\ 0 <= len /\ va + len <= MAXVA;
  ub_mapped a : va <= a < va + len ->
    mapped m pt a /\ has (ld64 m (pte0 m pt (page a))) PTE_W = true;
  ub_sep a b x pa : va <= a < va + len -> va <= b < va + len ->
    reads m pt (page a) x -> user_page m pt (page b) = Some pa -> ~ (pa <= x < pa + PGSIZE);
  ub_inj a b pa pb : va <= a < va + len -> va <= b < va + len -> page a <> page b ->
    user_page m pt (page a) = Some pa -> user_page m pt (page b) = Some pb ->
    pa + PGSIZE <= pb \/ pb + PGSIZE <= pa
}.

Lemma reads_ext m m' pt va :
  (forall x, reads m pt va x -> m x = m' x) ->
  user_page m' pt va = user_page m pt va /\ ld64 m' (pte0 m' pt va) = ld64 m (pte0 m pt va)
  /\ (forall x, reads m' pt va x <-> reads m pt va x) /\ leaf_pte m' pt va = leaf_pte m pt va.
Proof.
  intros H.
  assert (ld64 m' (pte2 pt va) = ld64 m (pte2 pt va)) as E2
    by (apply ld64_ext; intros; symmetry; apply H; by left).
  assert (pte1 m' pt va = pte1 m pt va) as P1 by (unfold pte1; by rewrite E2).
  assert (ld64 m' (pte1 m pt va) = ld64 m (pte1 m pt va)) as E1
    by (apply ld64_ext; intros; symmetry; apply H; right; by left).
  assert (pte0 m' pt va = pte0 m pt va) as P0 by (unfold pte0; by rewrite P1, E1).
  assert (ld64 m' (pte0 m pt va) = ld64 m (pte0 m pt va)) as E0
    by (apply ld64_ext; intros; symmetry; apply H; right; by right).
  assert (leaf_pte m' pt va = leaf_pte m pt va) as El.
  { unfold leaf_pte. fold (pte2 pt va). fold (pte1 m' pt va). fold (pte1 m pt va).
    fold (pte0 m' pt va). fold (pte0 m pt va). by rewrite E2, P1, E1, P0. }
  split_and!; [|by rewrite P0|unfold reads; by rewrite P0, P1|done].
  unfold user_page. rewrite El. destruct (leaf_pte m pt va) as [pte|] eqn:Ep; [|done].
  assert (pte = pte0 m pt va) as ->; [|by rewrite E0].
  unfold leaf_pte in Ep. fold (pte2 pt va) in Ep. fold (pte1 m pt va) in Ep. fold (pte0 m pt va) in Ep.
  destruct (negb (has (ld64 m (pte2 pt va)) PTE_V)); [done|].
  destruct (negb (has (ld64 m (pte1 m pt va)) PTE_V)); [done|]. by injection Ep.
Qed.

Lemma mapped_leaf m pt a pa :
  user_page m pt (page a) = Some pa -> leaf_pte m pt (page a) = Some (pte0 m pt (page a)).
Proof.
  unfold user_page. destruct (leaf_pte m pt (page a)) as [pte|] eqn:Ep; [|done]. intros _. f_equal.
  unfold leaf_pte in Ep. fold (pte2 pt (page a)) in Ep. fold (pte1 m pt (page a)) in Ep.
  fold (pte0 m pt (page a)) in Ep.
  destruct (negb (has (ld64 m (pte2 pt (page a))) PTE_V)); [done|].
  destruct (negb (has (ld64 m (pte1 m pt (page a))) PTE_V)); [done|]. by injection Ep.
Qed.

(** The buffer survives changes to bytes its translation does not read. *)
Lemma user_buffer_ext m m' pt va len :
  user_buffer m pt va len ->
  (forall a x, va <= a < va + len -> reads m pt (page a) x -> m x = m' x) ->
  user_buffer m' pt va len
  /\ forall a, va <= a < va + len -> user_page m' pt (page a) = user_page m pt (page a).
Proof.
  intros [Hr Hm Hs Hi] Hext.
  assert (forall a, va <= a < va + len ->
    user_page m' pt (page a) = user_page m pt (page a)
    /\ ld64 m' (pte0 m' pt (page a)) = ld64 m (pte0 m pt (page a))
    /\ (forall x, reads m' pt (page a) x <-> reads m pt (page a) x)) as Hsame.
  { intros a Ha. destruct (reads_ext m m' pt (page a)) as (? & ? & ? & _); [|done].
    intros x Hx. by apply (Hext a). }
  split; [|intros a Ha; by apply Hsame]. split; [done| | |].
  - intros a Ha. destruct (Hsame a Ha) as (E1 & E2 & _). destruct (Hm a Ha) as [(pa & Hpa & Hz) Hw].
    split; [exists pa; split; [|done]|by rewrite E2]. unfold page in E1. by rewrite E1.
  - intros a b x pa Ha Hb Hrd Hp. destruct (Hsame a Ha) as (_ & _ & E3). destruct (Hsame b Hb) as (E1 & _).
    rewrite E1 in Hp. eapply Hs; [exact Ha|exact Hb|by apply E3|done].
  - intros a b pa pb Ha Hb Hne H1 H2. destruct (Hsame a Ha) as (Ea & _). destruct (Hsame b Hb) as (Eb & _).
    rewrite Ea in H1. rewrite Eb in H2. exact (Hi a b pa pb Ha Hb Hne H1 H2).
Qed.

Lemma user_buffer_sub m pt va len va' len' :
  user_buffer m pt va len -> va <= va' -> 0 <= len' -> va' + len' <= va + len ->
  user_buffer m pt va' len'.
Proof.
  intros [Hr Hm Hs Hi] H1 H2 H3. split; [lia| | |].
  - intros a Ha. apply Hm. lia.
  - intros a b x pa Ha Hb. apply Hs; lia.
  - intros a b pa pb Ha Hb. apply Hi; lia.
Qed.

Lemma user_buffer_drop m pt va len n :
  user_buffer m pt va len -> 0 <= n <= len -> user_buffer m pt (va + n) (len - n).
Proof. intros H Hn. apply (user_buffer_sub m pt va len); [done|lia..]. Qed.

Lemma user_addr_in_page m pt a pa :
  user_page m pt (page a) = Some pa -> pa <= user_addr m pt a < pa + PGSIZE.
Proof.
  intros H. unfold user_addr. unfold page in H. rewrite H. cbn. unfold id, PGSIZE.
  pose proof (Z.mod_pos_bound a 4096). lia.
Qed.

(** One page of copyout(). *)
Lemma copyout_chunk pt va src s pa :
  let len := Z.of_nat (length src) in
  let n := PGSIZE - va mod PGSIZE in
  let n' := if n >? len then len else n in
  0 < len -> user_buffer (k_mem s) pt va len ->
  user_page (k_mem s) pt (page va) = Some pa -> pa <> 0 ->
  copyout_body pt (va, src) s
  = Done (inl (page va + PGSIZE, drop (Z.to_nat n') src))
      (set_k_mem (mem_store (k_mem s) (pa + va mod PGSIZE) (take (Z.to_nat n') src)) s).
Proof.
  intros len n n' Hpos Hub Hpa Hnz. destruct (ub_range _ _ _ _ Hub) as (H0 & _ & Hmax).
  assert (0 <= va < MAXVA) as Hr by lia.
  destruct (page_bounds va Hr) as (Hmod & Hp0 & Hu).
  destruct (ub_mapped _ _ _ _ Hub va) as [_ Hw]; [lia|].
  unfold copyout_body. fold len. destruct (Z.ltb_spec 0 len); [|lia]. cbn [negb].
  rewrite PGROUNDDOWN_page by done. fold (page va) in *. cbv zeta.
  rewrite Z.geb_leb. destruct (Z.leb_spec MAXVA (page va)); [lia|].
  erewrite bind_Done by (apply walkaddr_eq; lia). rewrite Hpa. change (default 0 (Some pa)) with pa.
  destruct (Z.eqb_spec pa 0); [done|]. rewrite bind_ret. destruct (Z.eqb_spec pa 0); [done|].
  erewrite bind_Done by (apply walk_noalloc; lia). rewrite (mapped_leaf _ _ _ _ Hpa).
  change (default 0 (Some ?x)) with x. unfold getpte. rewrite bind_gets, Hw. cbn [negb].
  replace (va - page va) with (va mod PGSIZE) by (unfold page; lia). fold n. fold n'.
  unfold upd_mem. rewrite bind_modify, Hu. reflexivity.
Qed.

(** Different addresses of a buffer are different bytes of memory. *)
Lemma user_addr_inj m pt va len a b :
  user_buffer m pt va len -> va <= a < va + len -> va <= b < va + len ->
  user_addr m pt a = user_addr m pt b -> a = b.
Proof.
  intros Hub Ha Hb Heq.
  destruct (ub_mapped _ _ _ _ Hub a Ha) as [(pa & Hpa & _) _]. fold (page a) in Hpa.
  destruct (ub_mapped _ _ _ _ Hub b Hb) as [(pb & Hpb & _) _]. fold (page b) in Hpb.
  destruct (decide (page a = page b)) as [Hp|Hp].
  - unfold user_addr in Heq. fold (page a) (page b) in Heq. rewrite Hp in Heq. unfold page in Hp. lia.
  - pose proof (user_addr_in_page _ _ _ _ Hpa). pose proof (user_addr_in_page _ _ _ _ Hpb).
    pose proof (ub_inj _ _ _ _ Hub a b pa pb Ha Hb Hp Hpa Hpb). lia.
Qed.

Lemma user_bytes_ext m m' pt va n :
  (forall a, va <= a < va + n ->
     user_page m' pt (page a) = user_page m pt (page a) /\ m' (user_addr m pt a) = m (user_addr m pt a)) ->
  user_bytes m' pt va n = user_bytes m pt va n.
Proof.
  intros H. unfold user_bytes. apply list_fmap_ext. intros i x Hx.
  apply list_elem_of_lookup_2, elem_of_seqZ in Hx.
  destruct (H (va + x)) as [Hp Hm]; [lia|]. rewrite <- Hm. unfold user_addr.
  fold (page (va + x)). by rewrite Hp.
Qed.

(** Storing into part of a buffer leaves its translation and the rest of it
    alone. *)
Lemma user_buffer_write m m' pt va len lo hi :
  user_buffer m pt va len -> va <= lo -> hi <= va + len ->
  (forall x, (forall a, lo <= a < hi -> x <> user_addr m pt a) -> m' x = m x) ->
  user_buffer m' pt va len
  /\ (forall a, va <= a < va + len -> user_page m' pt (page a) = user_page m pt (page a))
  /\ (forall a, va <= a < va + len -> user_addr m' pt a = user_addr m pt a)
  /\ (forall a n, va <= a -> 0 <= n -> a + n <= va + len -> a + n <= lo \/ hi <= a ->
        user_bytes m' pt a n = user_bytes m pt a n).
Proof.
  intros Hub Hlo Hhi Hfr. destruct (user_buffer_ext m m' pt va len Hub) as [Hub' Hpg].
  { intros a x Ha Hrd. symmetry. apply Hfr. intros b Hb ->.
    destruct (ub_mapped _ _ _ _ Hub b) as [(pb & Hpb & _) _]; [lia|]. fold (page b) in Hpb.
    eapply (ub_sep _ _ _ _ Hub a b); [done|lia|exact Hrd|exact Hpb|by apply user_addr_in_page]. }
  split_and!; [done|done|intros a Ha; unfold user_addr; fold (page a); by rewrite Hpg|].
  intros a n Ha Hn Hend Hout. apply user_bytes_ext. intros b Hb. split; [apply Hpg; lia|].
  apply Hfr. intros c Hc Heq.
  assert (b = c) by (apply (user_addr_inj m pt va len b c Hub); [lia|lia|done]). lia.
Qed.

(** A store within one page of the buffer. *)
Lemma user_buffer_store m pt va len pa bs :
  let n := Z.of_nat (length bs) in
  let m1 := mem_store m (pa + va mod PGSIZE) bs in
  user_buffer m pt va len -> n <= len -> n <= PGSIZE - va mod PGSIZE ->
  user_page m pt (page va) = Some pa ->
  (forall x, (forall a, va <= a < va + n -> x <> user_addr m pt a) -> m1 x = m x)
  /\ user_bytes m1 pt va n = bs.
Proof.
  intros n m1 Hub Hlen Hn Hpa.
  assert (forall i, 0 <= i < n -> user_addr m pt (va + i) = pa + va mod PGSIZE + i) as Hadr.
  { intros i Hi. unfold user_addr. destruct (page_of_add va i) as [-> ->]; [lia|].
    fold (page va). rewrite Hpa. cbn. unfold id. lia. }
  assert (forall x, (forall a, va <= a < va + n -> x <> user_addr m pt a) -> m1 x = m x) as Hfr.
  { intros x Hx. apply mem_store_out. fold n. intros Hin.
    apply (Hx (va + (x - (pa + va mod PGSIZE)))); [lia|]. rewrite Hadr; lia. }
  split; [exact Hfr|]. destruct (user_buffer_write m m1 pt va len va (va + n)) as (_ & _ & Had & _);
    [done|lia|lia|exact Hfr|].
  apply list_eq. intros i. destruct (decide (i < length bs)%nat) as [Hi|Hi].
  2:{ rewrite !lookup_ge_None_2; rewrite ?user_bytes_length; [done|lia..]. }
  unfold user_bytes. rewrite list_lookup_fmap, lookup_seqZ_lt by lia. cbn.
  rewrite Had, Z.add_0_l, Hadr by lia. unfold m1. rewrite mem_store_in by lia.
  replace (Z.to_nat (pa + va mod PGSIZE + Z.of_nat i - (pa + va mod PGSIZE))) with i by lia.
  symmetry. by apply list_lookup_lookup_total_lt.
Qed.

Lemma copyout_loop pt fuel va src s :
  (length src < fuel)%nat -> user_buffer (k_mem s) pt va (Z.of_nat (length src)) ->
  exists m', loop fuel (copyout_body pt) (va, src) s = Done 0 (set_k_mem m' s)
    /\ user_bytes m' pt va (Z.of_nat (length src)) = src
    /\ (forall x, (forall a, va <= a < va + Z.of_nat (length src) ->
                     x <> user_addr (k_mem s) pt a) -> m' x = k_mem s x).
Proof.
  revert va src s. induction fuel as [|fuel IH]; intros va src s Hf Hub; [lia|].
  set (len := Z.of_nat (length src)) in *.
  destruct (decide (0 < len)) as [Hpos|Hz].
  2:{ assert (src = []) as -> by (destruct src; [done|cbn in *; lia]).
      exists (k_mem s). split; [|done]. by destruct s. }
  destruct (ub_mapped _ _ _ _ Hub va) as [(pa & Hpa & Hnz) _]; [lia|]. fold (page va) in Hpa.
  pose proof (copyout_chunk pt va src s pa Hpos Hub Hpa Hnz) as Hchunk. cbv zeta in Hchunk. fold len in Hchunk.
  destruct (chunk_next va len Hpos) as (Hn & Hnext & Hle). cbv zeta in Hn, Hnext, Hle.
  fold (page va) in Hnext.
  set (n := if PGSIZE - va mod PGSIZE >? len then len else PGSIZE - va mod PGSIZE) in *.
  rewrite (loop_next _ _ _ _ _ _ Hchunk). clear Hchunk.
  assert (Z.of_nat (length (take (Z.to_nat n) src)) = n) as Hlt by (rewrite length_take; lia).
  destruct (user_buffer_store (k_mem s) pt va len pa (take (Z.to_nat n) src)) as [Hfr1 Hby1];
    [done|lia|lia|done|]. rewrite Hlt in Hfr1, Hby1.
  set (m1 := mem_store (k_mem s) (pa + va mod PGSIZE) (take (Z.to_nat n) src)) in *.
  destruct (user_buffer_write (k_mem s) m1 pt va len va (va + n)) as (Hub1 & _ & Had1 & _); [done|lia|lia|done|].
  assert (len - n = Z.of_nat (length (drop (Z.to_nat n) src))) as Hlen'
    by (rewrite length_drop; unfold len; lia).
  destruct (decide (n < len)) as [Hlt'|Hge].
  - rewrite Hnext by done. destruct (IH (va + n) (drop (Z.to_nat n) src) (set_k_mem m1 s))
      as (m' & Hrun & Hby & Hfr);
      [rewrite length_drop; lia|rewrite <- Hlen'; apply user_buffer_drop; [exact Hub1|lia]|].
    rewrite <- Hlen' in *. replace (va + n + (len - n)) with (va + len) in * by lia.
    destruct (user_buffer_write m1 m' pt va len (va + n) (va + len)) as (_ & _ & _ & Hk);
      [done|lia|lia|exact Hfr|].
    exists m'. split; [exact Hrun|]. split.
    + replace len with (n + (len - n)) by lia. rewrite user_bytes_app by lia.
      rewrite Hby, Hk, Hby1 by lia. apply take_drop.
    + intros x Hx. rewrite Hfr; [apply Hfr1; intros; apply Hx; lia|].
      intros a Ha. cbn. rewrite Had1 by lia. apply Hx. lia.
  - exists m1. rewrite (drop_ge src) by lia. split.
    { destruct fuel as [|f]; [lia|]. by apply loop_done; [lia|]. }
    replace n with len in * by lia. split; [|exact Hfr1].
    rewrite Hby1. apply take_ge. lia.
Qed.

(** C18: copyout() then copyin().  For a user buffer whose pages are mapped
    and writable, whatever page boundaries it crosses, copyout() returns 0
    and stores exactly the bytes given at the buffer's user addresses: every
    byte of physical memory that is not one of them is unchanged, and a
    copyin() from the same addresses returns those bytes and changes
    nothing. *)
Theorem copyout_copyin pt va src s :
  user_buffer (k_mem s) pt va (Z.of_nat (length src)) ->
  exists m', copyout pt va src s = Done 0 (set_k_mem m' s)
    /\ (forall x, (forall a, va <= a < va + Z.of_nat (length src) ->
                     x <> user_addr (k_mem s) pt a) -> m' x = k_mem s x)
    /\ copyin pt va (Z.of_nat (length src)) (set_k_mem m' s) = Done (0, src) (set_k_mem m' s).
Proof.
  intros Hub. destruct (copyout_loop pt (S (length src)) va src s) as (m' & Hrun & Hby & Hfr);
    [lia|done|]. exists m'. split; [exact Hrun|]. split; [exact Hfr|].
  destruct (user_buffer_write (k_mem s) m' pt va (Z.of_nat (length src)) va
              (va + Z.of_nat (length src))) as (Hub' & _); [done|lia|lia|exact Hfr|].
  destruct (ub_range _ _ _ _ Hub) as (? & ? & ?).
  rewrite copyin_mapped; [cbn; by rewrite Hby|lia|lia|lia|].
  intros a Ha. cbn. by apply (ub_mapped _ _ _ _ Hub').
Qed.
End translation.

(** A process image of two pages: virtual page 0 at 0x87003000 and page 1 at
    0x87005000, the page table at 0x87000000. *)
Definition two_page_mem : mem :=
  let leaf pa := PA2PTE pa + PTE_V + PTE_R + PTE_W + PTE_U in
  st64 (st64 (st64 (st64 (fun _ => 0)
    0x87000000 (PA2PTE 0x87001000 + PTE_V))
    0x87001000 (PA2PTE 0x87002000 + PTE_V))
    0x87002000 (leaf 0x87003000))
    0x87002008 (leaf 0x87005000).

Lemma page_two a : 4094 <= a < 4094 + 4 -> page a = 0 \/ page a = 4096.
Proof.
  intros Ha. unfold page, PGSIZE.
  assert (a = 4094 \/ a = 4095 \/ a = 4096 \/ a = 4097) as [->|[->|[->| ->]]] by lia;
    vm_compute; auto.
Qed.

Lemma two_page_buffer : user_buffer two_page_mem 0x87000000 4094 4.
Proof.
  assert (user_page two_page_mem 0x87000000 0 = Some 0x87003000) as P0
    by (vm_compute; exact eq_refl).
  assert (user_page two_page_mem 0x87000000 4096 = Some 0x87005000) as P1
    by (vm_compute; exact eq_refl).
  assert (pte2 0x87000000 0 = 0x87000000 /\ pte1 two_page_mem 0x87000000 0 = 0x87001000
    /\ pte0 two_page_mem 0x87000000 0 = 0x87002000) as (A2 & A1 & A0)
    by (split_and!; vm_compute; exact eq_refl).
  assert (pte2 0x87000000 4096 = 0x87000000 /\ pte1 two_page_mem 0x87000000 4096 = 0x87001000
    /\ pte0 two_page_mem 0x87000000 4096 = 0x87002008) as (B2 & B1 & B0)
    by (split_and!; vm_compute; exact eq_refl).
  split.
  - change MAXVA with (2 ^ 38). lia.
  - intros a Ha. unfold mapped. fold (page a).
    destruct (page_two a Ha) as [->| ->]; (split; [eexists; split; [eassumption|lia]|vm_compute; exact eq_refl]).
  - intros a b x pa Ha Hb Hrd Hp.
    assert (0x87000000 <= x < 0x87002010) as Hx.
    { unfold reads in Hrd. destruct (page_two a Ha) as [Ea|Ea]; rewrite Ea in Hrd;
        [rewrite A2, A1, A0 in Hrd|rewrite B2, B1, B0 in Hrd]; clear -Hrd; lia. }
    destruct (page_two b Hb) as [Eb|Eb]; rewrite Eb in Hp; [rewrite P0 in Hp|rewrite P1 in Hp];
      injection Hp as <-; unfold PGSIZE; clear -Hx; lia.
  - intros a b pa pb Ha Hb Hne H1 H2. unfold PGSIZE.
    destruct (page_two a Ha) as [Ea|Ea], (page_two b Hb) as [Eb|Eb]; rewrite Ea in Hne, H1; rewrite Eb in Hne, H2.
    + by contradiction Hne.
    + rewrite P0 in H1. rewrite P1 in H2. injection H1 as <-. injection H2 as <-. clear. lia.
    + rewrite P1 in H1. rewrite P0 in H2. injection H1 as <-. injection H2 as <-. clear. lia.
    + by contradiction Hne.
Qed.

Lemma copyout_copyin_witness :
  exists m', @copyout built_kernel 0x87000000 4094 [104; 105; 33; 10] (set_k_mem two_page_mem idle_kst)
             = Done 0 (set_k_mem m' idle_kst)
    /\ @copyin built_kernel 0x87000000 4094 4 (set_k_mem m' idle_kst)
       = Done (0, [104; 105; 33; 10]) (set_k_mem m' idle_kst).
Proof.
  destruct (@copyout_copyin built_kernel 0x87000000 4094 [104; 105; 33; 10]
              (set_k_mem two_page_mem idle_kst)) as (m' & H1 & _ & H2); [exact two_page_buffer|].
  exists m'. split; [exact H1|exact H2].
Defined.
