(* ===== verification/Sleeplock.v ===== *)
(** * Sleeplock: long-term locks (kernel/sleeplock.c)

    The spin-lock inside a sleep-lock [l] is [LK_sleep l], the channel its
    waiters sleep on [CH_sleeplock l]. *)

From S2P Require Import Prelude Params Machine Spinlock Sched.

Definition sleeplock_zero : sleeplock := mkSleeplock 0 "" 0.
Definition get_slock (s : kst) (l : slid) : sleeplock := default sleeplock_zero (k_slocks s !! l).
Definition upd_slock (l : slid) (f : sleeplock -> sleeplock) : K unit :=
  modify (fun s => set_k_slocks (<[l := f (get_slock s l)]> (k_slocks s)) s).

Definition initsleeplock (l : slid) (name : string) : K unit :=
  initlock (LK_sleep l) "sleep lock" ;;
  upd_slock l (set_sl_name name) ;;
  upd_slock l (set_sl_locked 0) ;;
  upd_slock l (set_sl_pid 0).

Definition acquiresleep (l : slid) : K unit :=
  acquire (LK_sleep l) ;;
  loop SLEEP_FUEL (fun _ =>
    lk ← gets (fun s => get_slock s l);
    if truthy (sl_locked lk)
    then sleep (CH_sleeplock l) (LK_sleep l) ;; mret (inl tt)
    else mret (inr tt)) tt ;;
  upd_slock l (set_sl_locked 1) ;;
  p ← curproc;
  pr ← getp p;
  upd_slock l (set_sl_pid (p_pid pr)) ;;
  release (LK_sleep l).

Definition releasesleep (l : slid) : K unit :=
  acquire (LK_sleep l) ;;
  upd_slock l (set_sl_locked 0) ;;
  upd_slock l (set_sl_pid 0) ;;
  wakeup (CH_sleeplock l) ;;
  release (LK_sleep l).

Definition holdingsleep (l : slid) : K bool :=
  acquire (LK_sleep l) ;;
  lk ← gets (fun s => get_slock s l);
  r ← (if truthy (sl_locked lk) then
         p ← curproc;
         pr ← getp p;
         mret (sl_pid lk =? p_pid pr)
       else mret false);
  release (LK_sleep l) ;;
  mret r.

(** ** What they do when nobody has to wait *)
Section equations.
Context (i : nat) (l : slid).

Lemma in_section_touch s : running i s -> touch (acquired (LK_sleep l) s) = acquired (LK_sleep l) s.
Proof. intros H. apply touch_nested. cbn. rewrite (run_noff _ _ H). lia. Qed.

Lemma in_section_cpu_ok s : running i s -> cpu_ok (acquired (LK_sleep l) s).
Proof. intros H. apply cpu_ok_pushed; [by eapply running_cpu_ok|]. rewrite (run_noff _ _ H). lia. Qed.

Lemma in_section_proc s : running i s -> curproc (acquired (LK_sleep l) s) = Done i (acquired (LK_sleep l) s).
Proof.
  intros H. rewrite (curproc_eq i); [by rewrite in_section_touch|by apply in_section_cpu_ok|apply H].
Qed.

Lemma acquiresleep_eq s :
  running i s -> lock_free (LK_sleep l) s -> sl_locked (get_slock s l) = 0 ->
  acquiresleep l s
  = Done tt (set_k_slocks
      (<[l := set_sl_pid (p_pid (proc_at s i)) (set_sl_locked 1 (get_slock s l))]> (k_slocks s)) (touch s)).
Proof.
  intros Hr Hf Hl. pose proof (running_cpu_ok _ _ Hr) as Hok. unfold acquiresleep.
  erewrite bind_Done by by apply acquire_eq.
  erewrite bind_Done.
  2:{ apply loop_done; [unfold SLEEP_FUEL; lia|]. rewrite bind_gets.
      change (get_slock (acquired (LK_sleep l) s) l) with (get_slock s l). rewrite Hl. reflexivity. }
  unfold upd_slock. rewrite bind_modify. set (s1 := set_k_slocks _ _).
  erewrite bind_Done.
  2:{ transitivity (Done i s1); [|reflexivity].
      rewrite (curproc_eq i); [|by apply in_section_cpu_ok|apply Hr].
      f_equal. apply touch_nested. cbn. rewrite (run_noff _ _ Hr). lia. }
  unfold getp. rewrite bind_gets, bind_modify.
  rewrite (release_section (LK_sleep l) s) by done. f_equal.
  assert (get_slock s1 l = set_sl_locked 1 (get_slock s l)) as ->
    by (unfold get_slock at 1; cbn; by rewrite lookup_insert_eq).
  cbn [k_slocks s1 set_k_slocks]. unfold s1. cbn. rewrite insert_insert_eq. reflexivity.
Qed.

Lemma holdingsleep_eq s :
  running i s -> lock_free (LK_sleep l) s ->
  holdingsleep l s
  = Done (truthy (sl_locked (get_slock s l)) && (sl_pid (get_slock s l) =? p_pid (proc_at s i))) (touch s).
Proof.
  intros Hr Hf. pose proof (running_cpu_ok _ _ Hr) as Hok. unfold holdingsleep.
  erewrite bind_Done by by apply acquire_eq. rewrite bind_gets.
  change (get_slock (acquired (LK_sleep l) s) l) with (get_slock s l).
  assert (forall r : bool, (release (LK_sleep l) ;; mret r : K bool) (acquired (LK_sleep l) s) = Done r (touch s)) as Hrel.
  { intros r. erewrite bind_Done by (by apply (release_section (LK_sleep l) s)).
    reflexivity. }
  destruct (truthy (sl_locked (get_slock s l))); cbn [andb].
  - erewrite bind_Done.
    2:{ erewrite bind_Done by by apply in_section_proc. unfold getp. rewrite bind_gets. reflexivity. }
    apply Hrel.
  - rewrite bind_ret. apply Hrel.
Qed.

Lemma releasesleep_eq s :
  running i s -> lock_free (LK_sleep l) s ->
  releasesleep l s
  = Done tt (set_k_procs (woken (CH_sleeplock l) s)
      (set_k_slocks (<[l := set_sl_pid 0 (set_sl_locked 0 (get_slock s l))]> (k_slocks s)) (touch s))).
Proof.
  intros Hr Hf. pose proof (running_cpu_ok _ _ Hr) as Hok. unfold releasesleep, upd_slock.
  erewrite bind_Done by by apply acquire_eq. rewrite bind_modify. set (s1 := set_k_slocks _ _).
  assert (get_slock s1 l = set_sl_locked 0 (get_slock s l)) as E
    by (unfold get_slock at 1; cbn; by rewrite lookup_insert_eq).
  rewrite bind_modify. set (s2 := set_k_slocks _ s1).
  assert (procs_free s2) as Hpf.
  { apply (procs_free_acquired (LK_sleep l) s); [apply Hr|apply Hr|]. by intros (j & _ & ?). }
  erewrite bind_Done by by apply wakeup_eq.
  rewrite touch_nested by (cbn; rewrite (run_noff _ _ Hr); lia).
  rewrite (woken_ext (CH_sleeplock l) _ s) by reflexivity.
  rewrite (release_section (LK_sleep l) s) by done. unfold s2. rewrite E. unfold s1. cbn.
  rewrite insert_insert_eq. generalize (woken (CH_sleeplock l) s). intros w. by destruct s.
Qed.
End equations.
