(* ===== verification/Blockdev.v ===== *)
(** * Blockdev: buffers, and what the buffer cache asks of the disk driver

    bio.c reaches the disk through one function, virtio_disk_rw().
    [BlockDev] is that interface: everything from bio.c upwards is defined
    for any instance of it, and [virtio_disk] of Virtio.v is the instance of
    the kernel.  [transferred] is the effect callers rely on. *)

From S2P Require Import Prelude Params Machine.

Definition buf_at (s : kst) (b : nat) : buf := k_bufs s !!! b.
Definition getb (b : nat) : K buf := gets (fun s => buf_at s b).
Definition updb (b : nat) (f : buf -> buf) : K unit :=
  modify (fun s => set_k_bufs (alter f b (k_bufs s)) s).

(** [disk_rw b write] moves block [b->blockno] between buffer [b] and the
    disk, to the disk if [write]. *)
Class BlockDev := { disk_rw : nat -> bool -> K unit }.

(** One block moved. *)
Definition transferred (b : nat) (write : bool) (s : kst) : kst :=
  let bf := buf_at s b in
  if write then
    set_k_dwrites (k_dwrites s ++ [(b_blockno bf, b_data bf)])
      (set_k_disk (fun n => if n =? b_blockno bf then b_data bf else k_disk s n) s)
  else set_k_bufs (alter (set_b_data (k_disk s (b_blockno bf))) b (k_bufs s)) s.

(** A driver that has moved the block when it returns, and does nothing
    else. *)
Class SyncDisk `{BlockDev} : Prop :=
  disk_rw_sync b write s : disk_rw b write s = Done tt (transferred b write s).

(** The simplest such driver, for running the model. *)
Definition sync_disk : BlockDev := {| disk_rw b write s := Done tt (transferred b write s) |}.

Lemma sync_disk_sync : @SyncDisk sync_disk.
Proof. done. Qed.
