(* ===== verification/Virtio.v ===== *)
(** * Virtio: the disk driver and the interrupt controller

    The request and completion paths of kernel/virtio_disk.c over the
    descriptor table and the two rings, and kernel/plic.c.  The device on the
    other side of the rings is a parameter, constrained by [virtio_blk]. *)

From S2P Require Import Prelude Params Machine Spinlock Sched Sleeplock Blockdev.

(** ** kernel/virtio.h *)
Definition NUM : nat := 8.
Definition VRING_DESC_F_NEXT : Z := 1.
Definition VRING_DESC_F_WRITE : Z := 2.
Definition VIRTIO_BLK_T_IN : Z := 0.
Definition VIRTIO_BLK_T_OUT : Z := 1.
Definition VIRTIO_MMIO_QUEUE_NOTIFY : Z := 0x050.
Definition VIRTIO_MMIO_INTERRUPT_STATUS : Z := 0x060.
Definition VIRTIO_MMIO_INTERRUPT_ACK : Z := 0x064.
Arguments NUM : simpl never.

Definition getvd : K vdisk := gets k_vdisk.
Definition updvd (f : vdisk -> vdisk) : K unit := modify (fun s => set_k_vdisk (f (k_vdisk s)) s).
Definition upd_desc (i : nat) (f : virtq_desc -> virtq_desc) : K unit :=
  updvd (fun v => set_vd_desc (alter f i (vd_desc v)) v).
Definition set_free (i : nat) (x : Z) : K unit := updvd (fun v => set_vd_free (<[i := x]> (vd_free v)) v).
Definition write_mmio (reg v : Z) : K unit := modify (fun s => set_k_mmio (k_mmio s ++ [(reg, v)]) s).
Definition ring_slot (i : Z) : nat := Z.to_nat (i mod Z.of_nat NUM).

(** ** Descriptors *)
Definition alloc_desc : K Z :=
  r ← foreach (seq 0 NUM) (fun i =>
    v ← getvd;
    if truthy (vd_free v !!! i) then
      set_free i 0 ;;
      mret (Some (Z.of_nat i))
    else mret None);
  mret (default (-1) r).

Definition free_desc (i : Z) : K unit :=
  if i >=? Z.of_nat NUM then panic "free_desc 1" else
  v ← getvd;
  if truthy (vd_free v !!! Z.to_nat i) then panic "free_desc 2" else
  upd_desc (Z.to_nat i) (fun _ => mkDesc DMA_null 0 0 0) ;;
  set_free (Z.to_nat i) 1 ;;
  wakeup CH_disk_free.

(** A chain is at most as long as the table; a longer walk would free a
    descriptor twice and panic. *)
Definition free_chain (i : Z) : K unit :=
  loop (S NUM) (fun i =>
    v ← getvd;
    let flag := d_flags (vd_desc v !!! Z.to_nat i) in
    let nxt := d_next (vd_desc v !!! Z.to_nat i) in
    free_desc i ;;
    if truthy (Z.land flag VRING_DESC_F_NEXT) then mret (inl nxt) else mret (inr tt)) i.

(** [None] is the return value -1. *)
Definition alloc3_desc : K (option (Z * Z * Z)) :=
  i0 ← alloc_desc;
  if i0 <? 0 then mret None else
  i1 ← alloc_desc;
  if i1 <? 0 then free_desc i0 ;; mret None else
  i2 ← alloc_desc;
  if i2 <? 0 then free_desc i0 ;; free_desc i1 ;; mret None else
  mret (Some (i0, i1, i2)).

(** ** Requests *)

(** Formatting the three descriptors and telling the device. *)
Definition submit (b : nat) (write : bool) (sector : Z) (idx : Z * Z * Z) : K unit :=
  let '(i0, i1, i2) := idx in
  let n0 := Z.to_nat i0 in
  updvd (fun v => set_vd_ops (<[n0 := mkReq (if write then VIRTIO_BLK_T_OUT else VIRTIO_BLK_T_IN) 0 sector]>
                                (vd_ops v)) v) ;;
  upd_desc n0 (fun _ => mkDesc (DMA_op n0) 16 VRING_DESC_F_NEXT i1) ;;
  upd_desc (Z.to_nat i1)
    (fun _ => mkDesc (DMA_data b) BSIZE
       (Z.lor (if write then 0 else VRING_DESC_F_WRITE) VRING_DESC_F_NEXT) i2) ;;
  updvd (fun v => set_vd_info_status (<[n0 := 0xff]> (vd_info_status v)) v) ;; (* device writes 0 on success *)
  upd_desc (Z.to_nat i2) (fun _ => mkDesc (DMA_status n0) 1 VRING_DESC_F_WRITE 0) ;;
  (* record struct buf for virtio_disk_intr(). *)
  updb b (set_b_disk 1) ;;
  updvd (fun v => set_vd_info_b (<[n0 := Some b]> (vd_info_b v)) v) ;;
  (* tell the device the first index in our chain of descriptors. *)
  updvd (fun v => set_vd_avail_ring (<[ring_slot (vd_avail_idx v) := i0]> (vd_avail_ring v)) v) ;;
  updvd (fun v => set_vd_avail_idx (u16 (vd_avail_idx v + 1)) v) ;;
  write_mmio VIRTIO_MMIO_QUEUE_NOTIFY 0.

Definition virtio_disk_rw (b : nat) (write : bool) : K unit :=
  bf ← getb b;
  let sector := u32 (b_blockno bf * (BSIZE / 512)) in
  acquire LK_vdisk ;;
  (* allocate the three descriptors. *)
  idx ← loop SLEEP_FUEL (fun _ =>
    r ← alloc3_desc;
    match r with
    | Some idx => mret (inr idx)
    | None => sleep CH_disk_free LK_vdisk ;; mret (inl tt)
    end) tt;
  submit b write sector idx ;;
  (* Wait for virtio_disk_intr() to say request has finished. *)
  loop SLEEP_FUEL (fun _ =>
    bf ← getb b;
    if b_disk bf =? 1 then sleep (CH_buf b) LK_vdisk ;; mret (inl tt)
    else mret (inr tt)) tt ;;
  updvd (fun v => set_vd_info_b (<[Z.to_nat idx.1.1 := None]> (vd_info_b v)) v) ;;
  free_chain idx.1.1 ;;
  release LK_vdisk.

(** The driver behind the buffer cache. *)
#[export] Instance virtio_disk : BlockDev := {| disk_rw := virtio_disk_rw |}.

(** ** Completions.  At most 2^16 entries separate the two indices. *)
Definition intr_round : unit -> K (unit + unit) := fun _ =>
  v ← getvd;
  if vd_used_idx v =? vd_dev_idx v then mret (inr tt) else
  let id := Z.to_nat (vd_used_ring v !!! ring_slot (vd_used_idx v)) in
  if negb (vd_info_status v !!! id =? 0) then panic "virtio_disk_intr status" else
  match vd_info_b v !!! id with
  | None => null_deref
  | Some b =>
      updb b (set_b_disk 0) ;; (* disk is done with buf *)
      wakeup (CH_buf b) ;;
      updvd (fun v => set_vd_used_idx (u16 (vd_used_idx v + 1)) v) ;;
      mret (inl tt)
  end.

Definition virtio_disk_intr : K unit :=
  acquire LK_vdisk ;;
  (* the status register reads 1: a buffer has been used *)
  write_mmio VIRTIO_MMIO_INTERRUPT_ACK (Z.land 1 0x3) ;;
  v ← getvd;
  loop (S (Z.to_nat (u16 (vd_dev_idx v - vd_used_idx v)))) intr_round tt ;;
  release LK_vdisk.

(** ** kernel/plic.c.  Register offsets are those of memlayout.h. *)
Definition PLIC_SENABLE (hart : Z) : Z := PLIC + 0x2080 + hart * 0x100.
Definition PLIC_SPRIORITY (hart : Z) : Z := PLIC + 0x201000 + hart * 0x2000.
Definition PLIC_SCLAIM (hart : Z) : Z := PLIC + 0x201004 + hart * 0x2000.

Definition plicinit : K unit :=
  write_mmio (PLIC + UART0_IRQ * 4) 1 ;;
  write_mmio (PLIC + VIRTIO0_IRQ * 4) 1.

Definition plicinithart : K unit :=
  hart ← cpuid;
  write_mmio (PLIC_SENABLE hart) (Z.lor (Z.shiftl 1 UART0_IRQ) (Z.shiftl 1 VIRTIO0_IRQ)) ;;
  write_mmio (PLIC_SPRIORITY hart) 0.

(** Reading the claim register takes the next pending interrupt, 0 if none. *)
Definition plic_claim : K Z :=
  hart ← cpuid;
  q ← gets k_plic;
  match q with
  | [] => mret 0
  | irq :: r => modify (set_k_plic r) ;; mret irq
  end.

Definition plic_complete (irq : Z) : K unit :=
  hart ← cpuid;
  write_mmio (PLIC_SCLAIM hart) irq.

(** ** What the device does

    The device is not code of this repository.  What the driver relies on is
    the block-device section of the virtio specification: a request is a
    chain of three descriptors (header, data, status byte), which the device
    reads from the avail ring; it moves the data, stores 0 in the status
    byte, appends the head of the chain to the used ring and raises its
    interrupt. *)

(** The request at avail-ring position [i], when the chain is well formed. *)
Definition chain_at (v : vdisk) (i : Z) : option (nat * virtio_blk_req * nat * nat) :=
  let head := Z.to_nat (vd_avail_ring v !!! ring_slot i) in
  let d0 := vd_desc v !!! head in
  let d1 := vd_desc v !!! Z.to_nat (d_next d0) in
  let d2 := vd_desc v !!! Z.to_nat (d_next d1) in
  match d_addr d0, d_addr d1, d_addr d2 with
  | DMA_op o, DMA_data b, DMA_status st =>
      let req := vd_ops v !!! o in
      if (d_len d0 =? 16) && (d_flags d0 =? VRING_DESC_F_NEXT)
         && (d_len d1 =? BSIZE)
         && (d_flags d1 =? Z.lor (if req_type req =? VIRTIO_BLK_T_OUT then 0 else VRING_DESC_F_WRITE)
                             VRING_DESC_F_NEXT)
         && (d_len d2 =? 1) && (d_flags d2 =? VRING_DESC_F_WRITE)
      then Some (head, req, b, st) else None
  | _, _, _ => None
  end.

Definition served (head : nat) (req : virtio_blk_req) (b st : nat) (s : kst) : kst :=
  let v := k_vdisk s in
  let blk := req_sector req / (BSIZE / 512) in
  let s1 :=
    if req_type req =? VIRTIO_BLK_T_OUT then
      set_k_dwrites (k_dwrites s ++ [(blk, b_data (buf_at s b))])
        (set_k_disk (fun n => if n =? blk then b_data (buf_at s b) else k_disk s n) s)
    else set_k_bufs (alter (set_b_data (k_disk s blk)) b (k_bufs s)) s in
  set_k_plic (k_plic s ++ [VIRTIO0_IRQ])
    (set_k_vdisk
       (set_vd_dev_idx (u16 (vd_dev_idx v + 1))
          (set_vd_used_ring (<[ring_slot (vd_dev_idx v) := Z.of_nat head]> (vd_used_ring v))
             (set_vd_info_status (<[st := 0]> (vd_info_status v)) v))) s1).

Definition virtio_blk (dev : Z -> kst -> kst) : Prop :=
  forall i s head req b st,
    chain_at (k_vdisk s) i = Some (head, req, b, st) -> dev i s = served head req b st s.

(** Rings and tables of the sizes the driver declares. *)
Record vdisk_ok (v : vdisk) : Prop := {
  vo_desc : length (vd_desc v) = NUM;
  vo_avail : length (vd_avail_ring v) = NUM;
  vo_used : length (vd_used_ring v) = NUM;
  vo_free : length (vd_free v) = NUM;
  vo_b : length (vd_info_b v) = NUM;
  vo_status : length (vd_info_status v) = NUM;
  vo_ops : length (vd_ops v) = NUM
}.

Lemma ring_slot_lt i : (ring_slot i < NUM)%nat.
Proof. unfold ring_slot, NUM. pose proof (Z.mod_pos_bound i 8). lia. Qed.

Lemma total_alter_eq {A} `{Inhabited A} (f : A -> A) i (l : list A) :
  (i < length l)%nat -> alter f i l !!! i = f (l !!! i).
Proof.
  intros [x Hx]%lookup_lt_is_Some. rewrite !list_lookup_total_alt, list_lookup_alter_eq, Hx. done.
Qed.

Lemma total_alter_ne {A} `{Inhabited A} (f : A -> A) i j (l : list A) :
  i <> j -> alter f i l !!! j = l !!! j.
Proof. intros Hne. by rewrite !list_lookup_total_alt, list_lookup_alter_ne. Qed.

(** The driver's data after submit(). *)
Definition submitted (b : nat) (write : bool) (sector i0 i1 i2 : Z) (v : vdisk) : vdisk :=
  let n0 := Z.to_nat i0 in
  mkVdisk
    (alter (fun _ => mkDesc (DMA_status n0) 1 VRING_DESC_F_WRITE 0) (Z.to_nat i2)
      (alter (fun _ => mkDesc (DMA_data b) BSIZE
                (Z.lor (if write then 0 else VRING_DESC_F_WRITE) VRING_DESC_F_NEXT) i2) (Z.to_nat i1)
        (alter (fun _ => mkDesc (DMA_op n0) 16 VRING_DESC_F_NEXT i1) n0 (vd_desc v))))
    (u16 (vd_avail_idx v + 1))
    (<[ring_slot (vd_avail_idx v) := i0]> (vd_avail_ring v))
    (vd_dev_idx v) (vd_used_ring v) (vd_free v) (vd_used_idx v)
    (<[n0 := Some b]> (vd_info_b v))
    (<[n0 := 0xff]> (vd_info_status v))
    (<[n0 := mkReq (if write then VIRTIO_BLK_T_OUT else VIRTIO_BLK_T_IN) 0 sector]> (vd_ops v)).

Lemma submit_eq b write sector i0 i1 i2 s :
  submit b write sector (i0, i1, i2) s
  = Done tt (set_k_mmio (k_mmio s ++ [(VIRTIO_MMIO_QUEUE_NOTIFY, 0)])
      (set_k_vdisk (submitted b write sector i0 i1 i2 (k_vdisk s))
         (set_k_bufs (alter (set_b_disk 1) b (k_bufs s)) s))).
Proof. unfold submit, upd_desc, updvd, updb, write_mmio. rewrite !bind_modify. by destruct s. Qed.

(** submit() leaves a well-formed chain for its request at the next position
    of the avail ring. *)
Lemma submitted_chain b write sector i0 i1 i2 v :
  vdisk_ok v ->
  0 <= i0 < 8 -> 0 <= i1 < 8 -> 0 <= i2 < 8 -> i0 <> i1 -> i0 <> i2 -> i1 <> i2 ->
  chain_at (submitted b write sector i0 i1 i2 v) (vd_avail_idx v)
  = Some (Z.to_nat i0, mkReq (if write then VIRTIO_BLK_T_OUT else VIRTIO_BLK_T_IN) 0 sector,
          b, Z.to_nat i0).
Proof.
  intros [Hd Ha Hu Hf Hb Hs Ho] H0 H1 H2 N1 N2 N3. unfold NUM in *.
  pose proof (ring_slot_lt (vd_avail_idx v)) as Hr. unfold NUM in Hr.
  unfold chain_at, submitted. cbn [vd_avail_ring vd_desc vd_ops].
  rewrite list_lookup_total_insert_eq by lia.
  rewrite (total_alter_ne _ (Z.to_nat i2) (Z.to_nat i0)), (total_alter_ne _ (Z.to_nat i1) (Z.to_nat i0)),
    (total_alter_eq _ (Z.to_nat i0)) by lia. cbn [d_next d_addr d_len d_flags].
  rewrite (total_alter_ne _ (Z.to_nat i2) (Z.to_nat i1)), (total_alter_eq _ (Z.to_nat i1))
    by (rewrite ?length_alter; lia). cbn [d_next d_addr d_len d_flags].
  rewrite (total_alter_eq _ (Z.to_nat i2)) by (rewrite ?length_alter; lia).
  cbn [d_next d_addr d_len d_flags].
  rewrite list_lookup_total_insert_eq by lia. by destruct write.
Qed.

(** One completion. *)
Lemma intr_one b s :
  let v := k_vdisk s in
  let head := Z.to_nat (vd_used_ring v !!! ring_slot (vd_used_idx v)) in
  procs_free s -> c_noff (k_cpu s) = 0 -> lock_free LK_vdisk s ->
  0 <= vd_used_idx v < 2 ^ 16 -> vd_dev_idx v = u16 (vd_used_idx v + 1) ->
  vd_info_status v !!! head = 0 -> vd_info_b v !!! head = Some b ->
  virtio_disk_intr s
  = Done tt (set_k_mmio (k_mmio s ++ [(VIRTIO_MMIO_INTERRUPT_ACK, 1)])
      (set_k_vdisk (set_vd_used_idx (vd_dev_idx v) v)
         (set_k_procs (woken (CH_buf b) s)
            (set_k_bufs (alter (set_b_disk 0) b (k_bufs s)) (touch s))))).
Proof.
  intros v head Hpf H0 Hf Hui Hdi Hst Hb. pose proof Hpf as (Hok & _).
  assert (u16 (vd_dev_idx v - vd_used_idx v) = 1 /\ vd_used_idx v <> vd_dev_idx v) as [Hcnt Hne].
  { rewrite Hdi. unfold u16, wrap_u. rewrite Zminus_mod_idemp_l. split; [by replace (_ + 1 - _) with 1 by lia|].
    intros E. destruct (decide (vd_used_idx v + 1 = 2 ^ 16)) as [E1|E1].
    - rewrite E1, Z_mod_same_full in E. lia.
    - rewrite Z.mod_small in E by lia. lia. }
  unfold virtio_disk_intr, write_mmio, getvd. erewrite bind_Done by by apply acquire_eq.
  rewrite bind_modify, bind_gets. set (s1 := set_k_mmio _ _).
  change (k_vdisk s1) with v. rewrite Hcnt. change (S (Z.to_nat 1)) with 2%nat.
  assert (procs_free s1) as Hpf1.
  { apply (procs_free_acquired LK_vdisk s); [done|done|by intros (j & _ & ?)]. }
  set (s2 := set_k_procs (woken (CH_buf b) s) (set_k_bufs (alter (set_b_disk 0) b (k_bufs s)) s1)).
  assert (intr_round tt s1 = Done (inl tt) (set_k_vdisk (set_vd_used_idx (vd_dev_idx v) v) s2)) as Hr.
  { unfold intr_round, getvd. rewrite bind_gets. change (k_vdisk s1) with v.
    destruct (Z.eqb_spec (vd_used_idx v) (vd_dev_idx v)); [done|]. fold head. rewrite Hst, Hb.
    change (negb (0 =? 0)) with false. cbv iota zeta. unfold updb. rewrite bind_modify.
    erewrite bind_Done by (apply wakeup_eq; exact Hpf1).
    rewrite touch_nested by (cbn; lia).
    rewrite (woken_ext (CH_buf b) _ s) by reflexivity.
    unfold updvd. rewrite bind_modify. cbn [k_vdisk set_k_procs set_k_bufs]. change (k_vdisk s1) with v.
    rewrite <- Hdi. reflexivity. }
  erewrite bind_Done.
  2:{ rewrite (loop_next _ _ _ _ _ _ Hr). apply loop_done; [lia|].
      unfold intr_round, getvd. rewrite bind_gets. cbn [k_vdisk set_k_vdisk vd_used_idx set_vd_used_idx vd_dev_idx].
      by rewrite Z.eqb_refl. }
  rewrite (release_section LK_vdisk s) by done. unfold s2. generalize (woken (CH_buf b) s). intros w.
  clear. by destruct s.
Qed.

Lemma served_vdisk b st req s :
  let s2 := served st req b st s in
  let v := k_vdisk s in
  k_vdisk s2 = set_vd_dev_idx (u16 (vd_dev_idx v + 1))
    (set_vd_used_ring (<[ring_slot (vd_dev_idx v) := Z.of_nat st]> (vd_used_ring v))
       (set_vd_info_status (<[st := 0]> (vd_info_status v)) v))
  /\ hw s2 = hw s /\ k_procs s2 = k_procs s.
Proof. cbv zeta. unfold served. by destruct (req_type req =? VIRTIO_BLK_T_OUT). Qed.

(** The data the device moves for the request of buffer [b]. *)
Lemma served_moves b write sector st s s1 :
  sector = b_blockno (buf_at s b) * 2 -> (b < length (k_bufs s))%nat ->
  k_bufs s1 = alter (set_b_disk 1) b (k_bufs s) -> k_disk s1 = k_disk s -> k_dwrites s1 = k_dwrites s ->
  let req := mkReq (if write : bool then VIRTIO_BLK_T_OUT else VIRTIO_BLK_T_IN) 0 sector in
  let s2 := served st req b st s1 in
  (forall n, k_disk s2 n = k_disk (transferred b write s) n)
  /\ k_dwrites s2 = k_dwrites (transferred b write s)
  /\ set_b_disk 0 (buf_at s2 b) = set_b_disk 0 (buf_at (transferred b write s) b)
  /\ (forall c, c <> b -> buf_at s2 c = buf_at s c) /\ length (k_bufs s2) = length (k_bufs s).
Proof.
  intros -> Hb Eb Ed Ew. cbv zeta. unfold served, transferred. change (BSIZE / 512) with 2.
  cbn [req_sector req_type]. rewrite Z_div_mult by lia.
  assert (buf_at s1 b = set_b_disk 1 (buf_at s b)) as E
    by (unfold buf_at; rewrite Eb; by apply total_alter_eq).
  rewrite E, Ed, Ew. destruct write; cbn [k_disk k_dwrites k_bufs]; change (VIRTIO_BLK_T_OUT =? VIRTIO_BLK_T_OUT) with true;
    change (VIRTIO_BLK_T_IN =? VIRTIO_BLK_T_OUT) with false; cbv iota.
  - split_and!; [done|done| | |cbn; by rewrite Eb, length_alter].
    + unfold buf_at. cbn. rewrite Eb. by rewrite total_alter_eq.
    + intros c Hc. unfold buf_at. cbn. rewrite Eb. by rewrite total_alter_ne.
  - split_and!; [intros n; cbn; by rewrite Ed|cbn; done| | |cbn; by rewrite Eb, !length_alter].
    + unfold buf_at. cbn. rewrite Eb, !total_alter_eq by (rewrite ?length_alter; done). done.
    + intros c Hc. unfold buf_at. cbn. rewrite Eb. by rewrite !total_alter_ne.
Qed.

(** C19: the disk driver moves the right block.  Let virtio_disk_rw() have
    three descriptors for buffer [b].  For every device that serves a
    well-formed request chain as the virtio specification says, the request
    that submit() builds, served by the device and completed by
    virtio_disk_intr(), has moved exactly the buffer's block in the
    direction asked for: the disk, the sequence of disk writes and the
    buffer's data are those of [transferred], no other buffer is touched,
    [b->disk] is 0 again, and exactly the processes waiting for [b] have been
    woken. *)
Theorem virtio_moves_block dev b write i0 i1 i2 s :
  virtio_blk dev -> vdisk_ok (k_vdisk s) ->
  0 <= i0 < 8 -> 0 <= i1 < 8 -> 0 <= i2 < 8 -> i0 <> i1 -> i0 <> i2 -> i1 <> i2 ->
  procs_free s -> c_noff (k_cpu s) = 0 -> lock_free LK_vdisk s ->
  0 <= vd_used_idx (k_vdisk s) < 2 ^ 16 -> vd_dev_idx (k_vdisk s) = vd_used_idx (k_vdisk s) ->
  0 <= b_blockno (buf_at s b) < 2 ^ 31 -> (b < length (k_bufs s))%nat ->
  exists s1 s3,
    submit b write (u32 (b_blockno (buf_at s b) * (BSIZE / 512))) (i0, i1, i2) s = Done tt s1
    /\ virtio_disk_intr (dev (vd_avail_idx (k_vdisk s)) s1) = Done tt s3
    /\ (forall n, k_disk s3 n = k_disk (transferred b write s) n)
    /\ k_dwrites s3 = k_dwrites (transferred b write s)
    /\ buf_at s3 b = set_b_disk 0 (buf_at (transferred b write s) b)
    /\ (forall c, c <> b -> buf_at s3 c = buf_at s c)
    /\ k_procs s3 = woken (CH_buf b) s /\ hw s3 = hw (touch s).
Proof.
  intros Hdev Hv H0 H1 H2 N1 N2 N3 Hpf Hn Hf Hui Hdi Hblk Hb.
  set (blk := b_blockno (buf_at s b)). change (BSIZE / 512) with 2.
  rewrite u32_small by (unfold blk; lia). rewrite submit_eq. set (s1 := set_k_mmio _ _).
  pose proof (submitted_chain b write (blk * 2) i0 i1 i2 (k_vdisk s) Hv H0 H1 H2 N1 N2 N3) as Hch.
  specialize (Hdev (vd_avail_idx (k_vdisk s)) s1 _ _ _ _ Hch).
  set (req := mkReq (if write then VIRTIO_BLK_T_OUT else VIRTIO_BLK_T_IN) 0 (blk * 2)) in *.
  set (s2 := served (Z.to_nat i0) req b (Z.to_nat i0) s1) in *.
  destruct (served_vdisk b (Z.to_nat i0) req s1) as (Hv2 & Hhw & Hps). fold s2 in Hv2, Hhw, Hps.
  destruct (served_moves b write (blk * 2) (Z.to_nat i0) s s1) as (Hd & Hw & Hbb & Hbc & Hbl);
    [done|done|reflexivity..|]. fold req s2 in Hd, Hw, Hbb, Hbc, Hbl.
  destruct Hv as [Ld La Lu Lf Lb Ls Lo]. unfold NUM in *.
  pose proof (ring_slot_lt (vd_used_idx (k_vdisk s))) as Hslot. unfold NUM in Hslot.
  change (hw s1) with (hw s) in Hhw. change (k_procs s1) with (k_procs s) in Hps.
  pose proof (hw_eq_fields _ _ Hhw) as (E1 & E2 & E3 & E4).
  eexists s1, _. split; [reflexivity|]. rewrite Hdev. split.
  - apply (intr_one b); rewrite ?Hv2.
    + by apply (can_lock_ext s).
    + by rewrite E2.
    + unfold lock_free. by rewrite E4.
    + exact Hui.
    + cbn. by rewrite Hdi.
    + cbn. rewrite Hdi, list_lookup_total_insert_eq, Nat2Z.id by lia.
      apply list_lookup_total_insert_eq. rewrite length_insert. lia.
    + cbn. rewrite Hdi, list_lookup_total_insert_eq, Nat2Z.id by lia.
      apply list_lookup_total_insert_eq. lia.
  - split; [exact Hd|]. split; [exact Hw|]. split.
    { rewrite <- Hbb. apply (total_alter_eq (set_b_disk 0) b (k_bufs s2)). lia. }
    split; [intros c Hc; rewrite <- (Hbc c Hc); by apply (total_alter_ne (set_b_disk 0) b c (k_bufs s2))|].
    split; [by apply woken_ext; [|rewrite E2]|].
    transitivity (hw (touch s2)); [reflexivity|]. unfold hw, touch. cbn [k_hart k_cpu k_csr k_locks set_k_cpu].
    unfold touch_cpu, SIE. by rewrite E1, E2, E3, E4.
Qed.

(** A disk with nothing in flight, and the device that does what the
    specification says and nothing on a malformed chain. *)
Definition device_step (i : Z) (s : kst) : kst :=
  match chain_at (k_vdisk s) i with
  | Some (head, req, b, st) => served head req b st s
  | None => s
  end.

Lemma device_step_blk : virtio_blk device_step.
Proof. intros i s head req b st H. unfold device_step. by rewrite H. Qed.

Lemma virtio_moves_block_witness :
  exists s1 s3, submit 0 true 0 (0, 1, 2) idle_kst = Done tt s1
    /\ virtio_disk_intr (device_step 0 s1) = Done tt s3
    /\ k_dwrites s3 = [(0, b_data (buf_at idle_kst 0))].
Proof.
  destruct (virtio_moves_block device_step 0 true 0 1 2 idle_kst) as (s1 & s3 & H1 & H2 & _ & H3 & _);
    [exact device_step_blk|by split|lia..|exact idle_procs_free|reflexivity|by eexists|split; [discriminate|reflexivity]
    |reflexivity|vm_compute; split; [discriminate|reflexivity]|vm_compute; lia|].
  exists s1, s3. split; [exact H1|]. split; [exact H2|exact H3].
Defined.
