(* ===== verification/Bio.v ===== *)
(** * Bio: the buffer cache (kernel/bio.c)

    [k_bufs] holds [bcache.buf] at indices below [NBUF] and [bcache.head] at
    index [NBUF]; prev/next are indices.  The disk driver is the [BlockDev]
    interface. *)

From S2P Require Import Prelude Params Machine Spinlock Sched Sleeplock Blockdev.

(** [bcache.head] *)
Definition bhead : nat := NBUF.
Arguments bhead : simpl never.

Section bio.
Context {DISK : BlockDev}.

(** Inserting a buffer at the head of the list. *)
Definition push_buf (b : nat) : K unit :=
  h ← getb bhead;
  updb b (set_b_next (b_next h)) ;;
  updb b (set_b_prev bhead) ;;
  h ← getb bhead;
  updb (b_next h) (set_b_prev b) ;;
  updb bhead (set_b_next b).

Definition binit_round (b : nat) : K unit :=
  h ← getb bhead;
  updb b (set_b_next (b_next h)) ;;
  updb b (set_b_prev bhead) ;;
  initsleeplock (SL_buf b) "buffer" ;;
  h ← getb bhead;
  updb (b_next h) (set_b_prev b) ;;
  updb bhead (set_b_next b).
Definition binit : K unit :=
  initlock LK_bcache "bcache" ;;
  updb bhead (set_b_prev bhead) ;;
  updb bhead (set_b_next bhead) ;;
  foreach_ (seq 0 NBUF) binit_round.

(** The scans of bget(): from buffer [b] along [step] to the first buffer
    that passes [test], or back to the list head.  Each buffer is visited at
    most once. *)
Definition bscan_round (step : buf -> nat) (test : buf -> bool) (b : nat) : K (nat + option nat) :=
  if decide (b = bhead) then mret (inr None) else
  bf ← getb b;
  if test bf then mret (inr (Some b)) else mret (inl (step bf)).
Definition bscan (step : buf -> nat) (test : buf -> bool) (b : nat) : K (option nat) :=
  loop (S NBUF) (bscan_round step test) b.

Definition bget (dev blockno : Z) : K nat :=
  acquire LK_bcache ;;
  h ← getb bhead;
  (* Is the block already cached? *)
  hit ← bscan b_next (fun bf => (b_dev bf =? dev) && (b_blockno bf =? blockno)) (b_next h);
  match hit with
  | Some b =>
      updb b (fun x => set_b_refcnt (u32 (b_refcnt x + 1)) x) ;;
      release LK_bcache ;;
      acquiresleep (SL_buf b) ;;
      mret b
  | None =>
      (* Not cached. Recycle the least recently used (LRU) unused buffer. *)
      h ← getb bhead;
      lru ← bscan b_prev (fun bf => b_refcnt bf =? 0) (b_prev h);
      match lru with
      | Some b =>
          updb b (set_b_dev dev) ;;
          updb b (set_b_blockno blockno) ;;
          updb b (set_b_valid 0) ;;
          updb b (set_b_refcnt 1) ;;
          release LK_bcache ;;
          acquiresleep (SL_buf b) ;;
          mret b
      | None => panic "bget: no buffers"
      end
  end.

Definition bread (dev blockno : Z) : K nat :=
  b ← bget dev blockno;
  bf ← getb b;
  when (negb (truthy (b_valid bf)))
    (disk_rw b false ;;
     updb b (set_b_valid 1)) ;;
  mret b.

Definition bwrite (b : nat) : K unit :=
  h ← holdingsleep (SL_buf b);
  if negb h then panic "bwrite" else
  disk_rw b true.

(** Moving a buffer to the head of the list: the six assignments of
    brelse(). *)
Definition unlink_buf (b : nat) : K unit :=
  bf ← getb b;
  updb (b_next bf) (set_b_prev (b_prev bf)) ;;
  bf ← getb b;
  updb (b_prev bf) (set_b_next (b_next bf)).
Definition to_front (b : nat) : K unit :=
  unlink_buf b ;;
  push_buf b.

Definition brelse (b : nat) : K unit :=
  h ← holdingsleep (SL_buf b);
  if negb h then panic "brelse" else
  releasesleep (SL_buf b) ;;
  acquire LK_bcache ;;
  updb b (fun x => set_b_refcnt (u32 (b_refcnt x - 1)) x) ;;
  bf ← getb b;
  when (b_refcnt bf =? 0) (to_front b) ;; (* no one is waiting for it. *)
  release LK_bcache.

Definition bpin (b : nat) : K unit :=
  acquire LK_bcache ;;
  updb b (fun x => set_b_refcnt (u32 (b_refcnt x + 1)) x) ;;
  release LK_bcache.

Definition bunpin (b : nat) : K unit :=
  acquire LK_bcache ;;
  updb b (fun x => set_b_refcnt (u32 (b_refcnt x - 1)) x) ;;
  release LK_bcache.
End bio.

(** ** The list of buffers *)

(** [seg nx pv x l y]: from node [x], [nx] leads through [l] to [y], and [pv]
    leads back. *)
Fixpoint seg (nx pv : nat -> nat) (x : nat) (l : list nat) (y : nat) : Prop :=
  match l with
  | [] => nx x = y /\ pv y = x
  | b :: r => nx x = b /\ pv b = x /\ seg nx pv b r y
  end.

Section segments.
Implicit Types (nx pv : nat -> nat) (l : list nat).

Lemma seg_app nx pv x l1 b l2 y :
  seg nx pv x (l1 ++ b :: l2) y <-> seg nx pv x l1 b /\ seg nx pv b l2 y.
Proof. revert x. induction l1 as [|a l1 IH]; intros x; cbn; [naive_solver|]. rewrite IH. naive_solver. Qed.

Lemma seg_ext nx pv nx' pv' x l y :
  seg nx pv x l y -> (forall z, z ∈ x :: l -> nx' z = nx z) -> (forall z, z ∈ l ++ [y] -> pv' z = pv z) ->
  seg nx' pv' x l y.
Proof.
  revert x. induction l as [|b l IH]; intros x Hs Hn Hp; cbn in *.
  - rewrite Hn, Hp by set_solver. done.
  - destruct Hs as (H1 & H2 & H3). rewrite Hn, Hp by set_solver. split_and!; [done|done|].
    apply IH; [done|set_solver|set_solver].
Qed.

(** Backwards. *)
Lemma seg_rev nx pv x l y : seg nx pv x l y -> seg pv nx y (reverse l) x.
Proof.
  revert x. induction l as [|b l IH]; intros x; cbn [seg].
  - naive_solver.
  - intros (H1 & H2 & H3). rewrite reverse_cons. apply seg_app. split; [by apply IH|done].
Qed.

(** Where the neighbours of an element are. *)
Lemma seg_prev_in nx pv x l1 b l2 y : seg nx pv x (l1 ++ b :: l2) y -> pv b ∈ x :: l1.
Proof.
  revert x. induction l1 as [|a l1 IH]; intros x; cbn; [intros (_ & -> & _); set_solver|].
  intros (_ & _ & H). specialize (IH _ H). set_solver.
Qed.

Lemma seg_next_in nx pv x l1 b l2 y : seg nx pv x (l1 ++ b :: l2) y -> nx b ∈ l2 ++ [y].
Proof. rewrite seg_app. intros [_ H]. destruct l2; cbn in H; destruct H as [-> _]; set_solver. Qed.

(** Taking an element out. *)
Lemma seg_unlink nx pv nx' pv' x l1 b l2 y :
  seg nx pv x (l1 ++ b :: l2) y -> NoDup (x :: l1 ++ b :: l2) -> y ∉ l1 ++ b :: l2 ->
  nx' (pv b) = nx b -> (forall z, z <> pv b -> nx' z = nx z) ->
  pv' (nx b) = pv b -> (forall z, z <> nx b -> pv' z = pv z) ->
  seg nx' pv' x (l1 ++ l2) y.
Proof.
  revert x. induction l1 as [|a l1 IH]; intros x Hs Hnd Hy Hn Hnz Hp Hpz.
  - cbn [app seg] in *. destruct Hs as (_ & Hb & Hs).
    destruct l2 as [|c r]; cbn in Hs |- *.
    + destruct Hs as [H1 _]. rewrite H1, Hb in *. done.
    + destruct Hs as (H1 & H2 & H3). rewrite H1, Hb in *. split_and!; [done|done|].
      apply NoDup_cons in Hnd as [Hx Hnd]. apply NoDup_cons in Hnd as [Hbn Hnd]. apply NoDup_cons in Hnd as [Hc Hnd].
      apply (seg_ext nx pv); [done| |].
      * intros z Hz. apply Hnz. set_solver.
      * intros z Hz. apply Hpz. intros ->. apply elem_of_app in Hz as [Hz|Hz]; [done|].
        apply list_elem_of_singleton in Hz. subst. set_solver.
  - pose proof Hs as Hs0. cbn [app] in *. destruct Hs as (H1 & H2 & H3).
    pose proof (seg_prev_in _ _ _ _ _ _ _ H3) as Hpin. pose proof (seg_next_in _ _ _ _ _ _ _ H3) as Hnin.
    apply NoDup_cons in Hnd as [Hx Hnd]. cbn [seg]. split_and!.
    + rewrite Hnz; [done|]. intros ->. set_solver.
    + rewrite Hpz; [done|]. intros ->. apply NoDup_cons in Hnd as [Ha _]. set_solver.
    + apply (IH a); try done. set_solver.
Qed.

(** Putting an element at the front. *)
Lemma seg_push nx pv nx' pv' h l b :
  seg nx pv h l h -> NoDup (h :: l) -> b ∉ h :: l ->
  nx' h = b -> nx' b = nx h -> (forall z, z <> h -> z <> b -> nx' z = nx z) ->
  pv' b = h -> pv' (nx h) = b -> (forall z, z <> b -> z <> nx h -> pv' z = pv z) ->
  seg nx' pv' h (b :: l) h.
Proof.
  intros Hs Hnd Hb N1 N2 N3 P1 P2 P3. cbn [seg]. split_and!; [done|done|].
  destruct l as [|c r]; cbn in Hs |- *.
  - destruct Hs as [H1 _]. rewrite H1 in *. done.
  - destruct Hs as (H1 & _ & H3). rewrite H1 in *. split_and!; [done|done|].
    apply NoDup_cons in Hnd as [Hh Hnd]. apply NoDup_cons in Hnd as [Hc Hnd].
    apply (seg_ext nx pv); [done| |].
    + intros z Hz. apply N3; set_solver.
    + intros z Hz. apply P3; set_solver.
Qed.
End segments.

Definition nx (bs : list buf) (x : nat) : nat := b_next (bs !!! x).
Definition pv (bs : list buf) (x : nat) : nat := b_prev (bs !!! x).

(** [order] lists the buffers from the most to the least recently used. *)
Record lru (bs : list buf) (order : list nat) : Prop := {
  lru_len : length bs = S NBUF;
  lru_perm : order ≡ₚ seq 0 NBUF;
  lru_seg : seg (nx bs) (pv bs) bhead order bhead
}.

(** Two lists of buffers that differ in the links only. *)
Definition unlinked (x : buf) : buf := set_b_prev 0 (set_b_next 0 x).
Definition same_bufs (bs bs' : list buf) : Prop := forall c, unlinked (bs' !!! c) = unlinked (bs !!! c).

Section links.
Context (bs : list buf).

Lemma total_alter (f : buf -> buf) k z :
  (k < length bs)%nat -> alter f k bs !!! z = if decide (z = k) then f (bs !!! k) else bs !!! z.
Proof.
  intros [x Hx]%lookup_lt_is_Some. rewrite !list_lookup_total_alt.
  destruct (decide (z = k)) as [->|Hne]; [by rewrite list_lookup_alter_eq, Hx|by rewrite list_lookup_alter_ne].
Qed.

Lemma nx_set_next v k z :
  (k < length bs)%nat -> nx (alter (set_b_next v) k bs) z = if decide (z = k) then v else nx bs z.
Proof. intros H. unfold nx. rewrite total_alter by done. by case_decide. Qed.
Lemma nx_set_prev v k z : (k < length bs)%nat -> nx (alter (set_b_prev v) k bs) z = nx bs z.
Proof. intros H. unfold nx. rewrite total_alter by done. case_decide; by subst. Qed.
Lemma pv_set_prev v k z :
  (k < length bs)%nat -> pv (alter (set_b_prev v) k bs) z = if decide (z = k) then v else pv bs z.
Proof. intros H. unfold pv. rewrite total_alter by done. by case_decide. Qed.
Lemma pv_set_next v k z : (k < length bs)%nat -> pv (alter (set_b_next v) k bs) z = pv bs z.
Proof. intros H. unfold pv. rewrite total_alter by done. case_decide; by subst. Qed.

Lemma same_set_next v k : (k < length bs)%nat -> same_bufs bs (alter (set_b_next v) k bs).
Proof. intros H c. rewrite total_alter by done. case_decide; by subst. Qed.
Lemma same_set_prev v k : (k < length bs)%nat -> same_bufs bs (alter (set_b_prev v) k bs).
Proof. intros H c. rewrite total_alter by done. case_decide; by subst. Qed.
End links.

#[global] Instance same_bufs_equiv : PreOrder same_bufs.
Proof. split; [by intros bs c|]. intros b1 b2 b3 H1 H2 c. by rewrite H2. Qed.

Lemma lru_nodup bs order : lru bs order -> NoDup (bhead :: order) /\ forall b, b ∈ order <-> (b < NBUF)%nat.
Proof.
  intros [_ Hp _]. assert (forall b, b ∈ order <-> (b < NBUF)%nat) as Hin.
  { intros b. rewrite Hp, elem_of_seq. lia. }
  split; [|done]. apply NoDup_cons. split; [rewrite Hin; unfold bhead; lia|].
  rewrite Hp. apply NoDup_seq.
Qed.

(** The unlinking half of brelse(). *)
Definition unlinking (b : nat) (bs : list buf) : list buf :=
  let bs1 := alter (set_b_prev (pv bs b)) (nx bs b) bs in
  alter (set_b_next (nx bs1 b)) (pv bs1 b) bs1.

(** The insertion of brelse() and binit(). *)
Definition pushing (b : nat) (bs : list buf) : list buf :=
  let bs1 := alter (set_b_prev bhead) b (alter (set_b_next (nx bs bhead)) b bs) in
  alter (set_b_next b) bhead (alter (set_b_prev b) (nx bs1 bhead) bs1).

Lemma to_front_eq b s :
  to_front b s = Done tt (set_k_bufs (pushing b (unlinking b (k_bufs s))) s).
Proof.
  unfold to_front, unlink_buf, push_buf, getb, updb, pushing, unlinking, nx, pv, buf_at.
  unfold mbind, K_bind, gets, modify. cbn [res_bind]. cbv beta zeta. by destruct s.
Qed.

Lemma unlinking_ok b bs l1 l2 :
  length bs = S NBUF -> seg (nx bs) (pv bs) bhead (l1 ++ b :: l2) bhead ->
  NoDup (bhead :: l1 ++ b :: l2) -> (forall c, c ∈ l1 ++ b :: l2 -> (c < NBUF)%nat) ->
  seg (nx (unlinking b bs)) (pv (unlinking b bs)) bhead (l1 ++ l2) bhead
  /\ same_bufs bs (unlinking b bs) /\ length (unlinking b bs) = length bs.
Proof.
  intros Hl Hs Hnd Hin.
  pose proof (seg_prev_in _ _ _ _ _ _ _ Hs) as Hp. pose proof (seg_next_in _ _ _ _ _ _ _ Hs) as Hn.
  assert (forall c, c ∈ bhead :: l1 ++ b :: l2 -> (c < length bs)%nat) as Hlt.
  { intros c Hc. rewrite Hl. apply elem_of_cons in Hc as [->|Hc]; [unfold bhead; lia|]. specialize (Hin c Hc). lia. }
  assert (nx bs b < length bs)%nat as Hnl by (apply Hlt; set_solver).
  assert (pv bs b < length bs)%nat as Hpl by (apply Hlt; set_solver).
  assert (nx bs b <> b) as Hnb.
  { intros E. rewrite E in Hn. apply NoDup_cons in Hnd as [Hh Hnd]. apply NoDup_app in Hnd as (_ & _ & Hnd).
    apply NoDup_cons in Hnd as [Hb _]. apply elem_of_app in Hn as [Hn|Hn]; [done|].
    apply list_elem_of_singleton in Hn. subst b. set_solver. }
  unfold unlinking. set (bs1 := alter (set_b_prev (pv bs b)) (nx bs b) bs).
  assert (nx bs1 b = nx bs b) as E1 by by apply nx_set_prev.
  assert (pv bs1 b = pv bs b) as E2 by (unfold bs1; rewrite pv_set_prev by done; by rewrite decide_False).
  assert (length bs1 = length bs) as L1 by apply length_alter. rewrite E1, E2. split_and!.
  - apply (seg_unlink (nx bs) (pv bs) _ _ bhead l1 b l2 bhead); [done|done| | | | |].
    + apply NoDup_cons in Hnd as [Hh _]. exact Hh.
    + rewrite nx_set_next by lia. by rewrite decide_True.
    + intros z Hz. rewrite nx_set_next by lia. rewrite decide_False by done. by apply nx_set_prev.
    + rewrite pv_set_next by lia. unfold bs1. rewrite pv_set_prev by done. by rewrite decide_True.
    + intros z Hz. rewrite pv_set_next by lia. unfold bs1. rewrite pv_set_prev by done. by rewrite decide_False.
  - transitivity bs1; [by apply same_set_prev|]. apply same_set_next. lia.
  - by rewrite length_alter.
Qed.

Lemma pushing_ok b bs l :
  length bs = S NBUF -> seg (nx bs) (pv bs) bhead l bhead ->
  NoDup (bhead :: b :: l) -> (forall c, c ∈ b :: l -> (c < NBUF)%nat) ->
  seg (nx (pushing b bs)) (pv (pushing b bs)) bhead (b :: l) bhead
  /\ same_bufs bs (pushing b bs) /\ length (pushing b bs) = length bs.
Proof.
  intros Hl Hs Hnd Hin.
  assert (b < length bs)%nat as Hbl by (rewrite Hl; specialize (Hin b); set_solver by lia).
  assert (bhead < length bs)%nat as Hhl by (rewrite Hl; unfold bhead; lia).
  assert (nx bs bhead < length bs)%nat as Hnl.
  { destruct l as [|c r]; cbn in Hs; destruct Hs as [-> _]; [done|]. rewrite Hl.
    specialize (Hin c). set_solver by lia. }
  assert (bhead <> b /\ NoDup (bhead :: l) /\ b ∉ bhead :: l) as (Hhb & Hnd' & Hb).
  { apply NoDup_cons in Hnd as [Hh Hnd]. apply NoDup_cons in Hnd as [Hb Hnd].
    split_and!; [set_solver|apply NoDup_cons; set_solver|set_solver]. }
  assert (nx bs bhead <> b) as Hnb.
  { destruct l as [|c r]; cbn in Hs; destruct Hs as [-> _]; set_solver. }
  unfold pushing. set (bs0 := alter (set_b_next (nx bs bhead)) b bs).
  set (bs1 := alter (set_b_prev bhead) b bs0).
  assert (length bs0 = length bs) as L0 by apply length_alter.
  assert (length bs1 = length bs) as L1 by (unfold bs1; by rewrite length_alter).
  assert (forall z, nx bs1 z = if decide (z = b) then nx bs bhead else nx bs z) as N1.
  { intros z. unfold bs1. rewrite nx_set_prev by lia. by apply nx_set_next. }
  assert (forall z, pv bs1 z = if decide (z = b) then bhead else pv bs z) as P1.
  { intros z. unfold bs1. rewrite pv_set_prev by lia. case_decide; [done|]. by apply pv_set_next. }
  assert (nx bs1 bhead = nx bs bhead) as E by (rewrite N1; by rewrite decide_False). rewrite E.
  set (bs2 := alter (set_b_prev b) (nx bs bhead) bs1).
  assert (length bs2 = length bs) as L2 by (unfold bs2; by rewrite length_alter).
  split_and!.
  - apply (seg_push (nx bs) (pv bs)); [done|done|done| | | | | |].
    + rewrite nx_set_next by lia. by rewrite decide_True.
    + rewrite nx_set_next by lia. rewrite decide_False by done. unfold bs2. rewrite nx_set_prev by lia.
      rewrite N1. by rewrite decide_True.
    + intros z H1 H2. rewrite nx_set_next by lia. rewrite decide_False by done. unfold bs2.
      rewrite nx_set_prev by lia. rewrite N1. by rewrite decide_False.
    + rewrite pv_set_next by lia. unfold bs2. rewrite pv_set_prev by lia. rewrite decide_False by done.
      rewrite P1. by rewrite decide_True.
    + rewrite pv_set_next by lia. unfold bs2. rewrite pv_set_prev by lia. by rewrite decide_True.
    + intros z H1 H2. rewrite pv_set_next by lia. unfold bs2. rewrite pv_set_prev by lia.
      rewrite decide_False by done. rewrite P1. by rewrite decide_False.
  - transitivity bs0; [by apply same_set_next|]. transitivity bs1; [apply same_set_prev; lia|].
    transitivity bs2; [apply same_set_prev; lia|]. apply same_set_next. lia.
  - by rewrite length_alter.
Qed.

(** Moving a buffer to the front keeps the list well formed. *)
Lemma to_front_lru b bs order :
  lru bs order -> (b < NBUF)%nat ->
  exists order', lru (pushing b (unlinking b bs)) order' /\ same_bufs bs (pushing b (unlinking b bs)).
Proof.
  intros Hlru Hb. destruct (lru_nodup _ _ Hlru) as [Hnd Hin]. destruct Hlru as [Hl Hp Hs].
  apply Hin in Hb as Hb'. apply list_elem_of_split in Hb' as (l1 & l2 & ->).
  destruct (unlinking_ok b bs l1 l2) as (Hs1 & Hb1 & Hl1); [done|done|done|intros c; apply Hin|].
  assert (NoDup (bhead :: b :: l1 ++ l2)) as Hnd'.
  { rewrite Permutation_middle. exact Hnd. }
  destruct (pushing_ok b (unlinking b bs) (l1 ++ l2)) as (Hs2 & Hb2 & Hl2); [lia|done|done| |].
  { intros c Hc. apply Hin. rewrite <- Permutation_middle. exact Hc. }
  exists (b :: l1 ++ l2). split; [split; [lia| |done]|by transitivity (unlinking b bs)].
  by rewrite Permutation_middle.
Qed.

(** ** binit() *)

(** The sleep lock of buffer [b], initialised. *)
Definition slock_inited (b : nat) (s : kst) : kst :=
  set_k_slocks (<[SL_buf b := mkSleeplock 0 "buffer" 0]> (k_slocks s))
    (set_k_locks (<[LK_sleep (SL_buf b) := mkSpinlock 0 "sleep lock" None]> (k_locks s)) s).

Lemma initsleeplock_eq b s : initsleeplock (SL_buf b) "buffer" s = Done tt (slock_inited b s).
Proof.
  unfold initsleeplock, upd_slock. erewrite bind_Done by apply initlock_eq.
  rewrite !bind_modify. unfold modify, get_slock. cbn. rewrite !lookup_insert_eq. cbn.
  by rewrite !insert_insert_eq.
Qed.

Lemma binit_round_eq b s : binit_round b s = Done tt (set_k_bufs (pushing b (k_bufs s)) (slock_inited b s)).
Proof.
  unfold binit_round, getb, updb. rewrite bind_gets, !bind_modify.
  erewrite bind_Done by apply initsleeplock_eq. rewrite bind_gets, bind_modify. reflexivity.
Qed.

(** After [k] rounds. *)
Record binit_inv (s0 : kst) (k : nat) (s : kst) : Prop := {
  bi_len : length (k_bufs s) = S NBUF;
  bi_seg : seg (nx (k_bufs s)) (pv (k_bufs s)) bhead (reverse (seq 0 k)) bhead;
  bi_same : same_bufs (k_bufs s0) (k_bufs s);
  bi_bcache : lock_free LK_bcache s;
  bi_slock b : (b < k)%nat -> lock_free (LK_sleep (SL_buf b)) s /\ sl_locked (get_slock s (SL_buf b)) = 0;
  bi_free l : lock_free l s0 -> lock_free l s;
  bi_rest : exists bs ls sls, s = set_k_bufs bs (set_k_locks ls (set_k_slocks sls s0))
}.

Lemma binit_inv_step s0 k s :
  (k < NBUF)%nat -> binit_inv s0 k s ->
  exists s', binit_round k s = Done tt s' /\ binit_inv s0 (S k) s'.
Proof.
  intros Hk [Hl Hs Hsame [nm Hb] Hsl Hfr (bs & ls & sls & E)]. eexists. split; [apply binit_round_eq|].
  assert (forall c, c ∈ reverse (seq 0 k) <-> (c < k)%nat) as Hin
    by (intros c; rewrite elem_of_reverse, elem_of_seq; lia).
  destruct (pushing_ok k (k_bufs s) (reverse (seq 0 k))) as (Hs' & Hsame' & Hl'); [done|done| | |].
  - apply NoDup_cons. split; [rewrite elem_of_cons, Hin; unfold bhead; lia|].
    apply NoDup_cons. split; [rewrite Hin; lia|]. rewrite reverse_Permutation. apply NoDup_seq.
  - intros c. rewrite elem_of_cons, Hin. lia.
  - split.
    + cbn. congruence.
    + rewrite seq_S, reverse_snoc. exact Hs'.
    + by transitivity (k_bufs s).
    + exists nm. cbn. by rewrite lookup_insert_ne.
    + intros b Hbk. unfold lock_free, get_slock. cbn. destruct (decide (b = k)) as [->|Hne].
      * rewrite !lookup_insert_eq. split; [by eexists|done].
      * rewrite !lookup_insert_ne by congruence. apply Hsl. lia.
    + intros l Hf. destruct (Hfr l Hf) as [m Hm]. destruct (decide (l = LK_sleep (SL_buf k))) as [->|Hne].
      * eexists. cbn. apply lookup_insert_eq.
      * exists m. cbn. by rewrite lookup_insert_ne.
    + subst s. do 3 eexists. reflexivity.
Qed.

Lemma binit_ok s :
  length (k_bufs s) = S NBUF -> exists s', binit s = Done tt s' /\ binit_inv s NBUF s'.
Proof.
  intros Hl. unfold binit. erewrite bind_Done by apply initlock_eq. unfold updb. rewrite !bind_modify.
  apply foreach_seq; [intros k s' Hk; apply binit_inv_step; lia|].
  assert (bhead < length (k_bufs s))%nat as Hb by (rewrite Hl; unfold bhead; lia). split.
  - cbn. by rewrite !length_alter.
  - cbn. split; [by rewrite nx_set_next, decide_True by (rewrite ?length_alter; done)|].
    rewrite pv_set_next by (rewrite ?length_alter; done). by rewrite pv_set_prev, decide_True by done.
  - transitivity (alter (set_b_prev bhead) bhead (k_bufs s)); [by apply same_set_prev|].
    apply (same_set_next (alter (set_b_prev bhead) bhead (k_bufs s))). by rewrite length_alter.
  - eexists. cbn. apply lookup_insert_eq.
  - lia.
  - intros l [m Hm]. destruct (decide (l = LK_bcache)) as [->|Hne].
    + eexists. cbn. apply lookup_insert_eq.
    + exists m. cbn. by rewrite lookup_insert_ne.
  - do 3 eexists. cbn. by destruct s.
Qed.

(** ** The scans *)
Lemma bscan_loop step test f g s fuel x l :
  (forall z, step (buf_at s z) = f z) -> seg f g x l bhead -> bhead ∉ l -> (length l < fuel)%nat ->
  loop fuel (bscan_round step test) (f x) s
  = Done (List.find (fun b => test (buf_at s b)) l) s.
Proof.
  intros Hst. revert fuel x. induction l as [|b l IH]; intros fuel x Hs Hh Hf.
  - destruct Hs as [-> _]. apply loop_done; [cbn in Hf; lia|]. unfold bscan_round. by rewrite decide_True.
  - destruct Hs as (-> & _ & Hs). apply not_elem_of_cons in Hh as [Hb Hh].
    cbn [List.find]. destruct (test (buf_at s b)) eqn:E.
    + apply loop_done; [lia|]. unfold bscan_round. rewrite decide_False by done. unfold getb. rewrite bind_gets, E. done.
    + destruct fuel as [|fuel]; [lia|]. erewrite loop_next.
      2:{ unfold bscan_round. rewrite decide_False by done. unfold getb. rewrite bind_gets, E. reflexivity. }
      rewrite Hst. apply IH; [done|done|cbn in Hf; lia].
Qed.

Lemma bscan_next test s order :
  lru (k_bufs s) order ->
  bscan b_next test (b_next (buf_at s bhead)) s = Done (List.find (fun b => test (buf_at s b)) order) s.
Proof.
  intros Hlru. destruct (lru_nodup _ _ Hlru) as [Hnd _]. destruct Hlru as [_ Hp Hs].
  apply NoDup_cons in Hnd as [Hh _].
  apply (bscan_loop b_next test (nx (k_bufs s)) (pv (k_bufs s))); [done|done|done|].
  rewrite Hp, length_seq. lia.
Qed.

Lemma bscan_prev test s order :
  lru (k_bufs s) order ->
  bscan b_prev test (b_prev (buf_at s bhead)) s
  = Done (List.find (fun b => test (buf_at s b)) (reverse order)) s.
Proof.
  intros Hlru. destruct (lru_nodup _ _ Hlru) as [Hnd _]. destruct Hlru as [_ Hp Hs].
  apply NoDup_cons in Hnd as [Hh _]. apply seg_rev in Hs.
  apply (bscan_loop b_prev test (pv (k_bufs s)) (nx (k_bufs s))); [done|done| |].
  - by rewrite elem_of_reverse.
  - rewrite length_reverse, Hp, length_seq. lia.
Qed.

(** ** Pinning *)
Lemma bpin_eq b s :
  cpu_ok s -> lock_free LK_bcache s ->
  bpin b s = Done tt
    (set_k_bufs (alter (fun x => set_b_refcnt (u32 (b_refcnt x + 1)) x) b (k_bufs s)) (touch s)).
Proof.
  intros Hok Hf. unfold bpin, updb. erewrite bind_Done by by apply acquire_eq. rewrite bind_modify.
  rewrite (release_section LK_bcache s) by done. reflexivity.
Qed.
