(* ===== verification/Bcache.v ===== *)
(** * Bcache: what the buffer cache promises (kernel/bio.c)

    The doubly-linked list of Bio.v, its reference counts and its sleep locks
    implement a map from block numbers to contents.  [cview] is that map and
    [cache_ok] relates it to the kernel state; each operation of bio.c is
    shown to be a step on views.  Clients (log.c) are verified against the
    views only. *)

From S2P Require Import Prelude Params Machine Spinlock Sched Sleeplock Blockdev Bio.

(** ** The cache as a map from block numbers to contents

    What process [i], the only one at work on device [dev], may rely on:
    [cv_data] is what a block holds for the kernel, [cv_disk] what is on the
    disk and [cv_writes] the disk writes so far; [cv_held] are the blocks the
    process has locked, with their buffers, and [cv_pins] the pinned ones.
    Only a block that is held or pinned may differ from the disk. *)
Record cview := mkCview {
  cv_data : Z -> list Z;
  cv_disk : Z -> list Z;
  cv_writes : list (Z * list Z);
  cv_held : gmap Z nat;
  cv_pins : gset Z
}.

Definition refs (v : cview) (n : Z) : Z :=
  (if decide (is_Some (cv_held v !! n)) then 1 else 0) + (if decide (n ∈ cv_pins v) then 1 else 0).

(** Buffer [b] caches block [n] of [dev]. *)
Definition caches (dev : Z) (s : kst) (b : nat) (n : Z) : Prop :=
  (b < NBUF)%nat /\ b_dev (buf_at s b) = dev /\ b_blockno (buf_at s b) = n.

Section cache.
Context (i : nat) (dev : Z).

Record cache_ok (v : cview) (s : kst) : Prop := {
  co_run : running i s;
  co_lock : lock_free LK_bcache s;
  co_slocks b : (b < NBUF)%nat -> lock_free (LK_sleep (SL_buf b)) s;
  co_lru : exists order, lru (k_bufs s) order;
  co_disk : k_disk s = cv_disk v;
  co_writes : k_dwrites s = cv_writes v;
  co_uniq b c n : caches dev s b n -> caches dev s c n -> b = c;
  co_buf b n : caches dev s b n ->
    b_refcnt (buf_at s b) = refs v n /\ truthy (b_valid (buf_at s b)) = true
    /\ b_data (buf_at s b) = cv_data v n;
  co_other b : (b < NBUF)%nat -> b_dev (buf_at s b) <> dev -> b_refcnt (buf_at s b) = 0;
  co_held n b : cv_held v !! n = Some b ->
    caches dev s b n /\ sl_locked (get_slock s (SL_buf b)) = 1
    /\ sl_pid (get_slock s (SL_buf b)) = p_pid (proc_at s i);
  co_unheld b : (b < NBUF)%nat -> (forall n, cv_held v !! n <> Some b) ->
    sl_locked (get_slock s (SL_buf b)) = 0;
  co_pins n : n ∈ cv_pins v -> exists b, caches dev s b n;
  co_clean n : cv_held v !! n = None -> n ∉ cv_pins v -> cv_data v n = cv_disk v n
}.

(** The kernel stack of the running process stays where it is. *)
Definition same_stack (s s' : kst) : Prop :=
  forall j, c_proc (k_cpu s) = Some j -> p_kstack (proc_at s' j) = p_kstack (proc_at s j).
Lemma same_stack_trans s1 s2 s3 : settled s1 s2 -> same_stack s1 s2 -> same_stack s2 s3 -> same_stack s1 s3.
Proof.
  intros (_ & Hc & _)%settled_fields H1 H2 j Hj. rewrite <- (H1 j Hj). apply H2. by rewrite Hc.
Qed.
Lemma same_stack_procs s s' : k_procs s' = k_procs s -> same_stack s s'.
Proof. intros H j _. unfold proc_at. by rewrite H. Qed.

(** The parts of the state that the buffer cache leaves alone. *)
Definition bio_frame (s s' : kst) : Prop :=
  settled s s' /\ k_log s' = k_log s /\ k_uart s' = k_uart s
  /\ k_panicking s' = k_panicking s /\ k_panicked s' = k_panicked s
  /\ k_inodes s' = k_inodes s /\ k_sb s' = k_sb s /\ k_mem s' = k_mem s /\ same_stack s s'.
Definition hold (n : Z) (b : nat) (v : cview) : cview :=
  mkCview (cv_data v) (cv_disk v) (cv_writes v) (<[n := b]> (cv_held v)) (cv_pins v).

Lemma refs_bounds v n : 0 <= refs v n <= 2.
Proof. unfold refs. repeat case_decide; lia. Qed.

Lemma refs_zero v n : refs v n = 0 <-> cv_held v !! n = None /\ n ∉ cv_pins v.
Proof.
  unfold refs. rewrite eq_None_not_Some. repeat case_decide; naive_solver lia.
Qed.

Lemma refs_hold v n b m :
  cv_held v !! n = None -> refs (hold n b v) m = refs v m + (if decide (m = n) then 1 else 0).
Proof.
  intros Hn. unfold refs, hold. cbn. destruct (decide (m = n)) as [->|Hne].
  - rewrite lookup_insert_eq, Hn. rewrite (decide_True (P := is_Some (Some b))) by by eexists.
    rewrite (decide_False (P := is_Some None)) by by intros [? ?]. lia.
  - rewrite lookup_insert_ne by done. lia.
Qed.

(** Buffer [b], which held block [n] or nothing in use, becomes the locked
    buffer of block [n]. *)
Lemma cache_hold v s s' n b :
  cache_ok v s -> cv_held v !! n = None -> (b < NBUF)%nat ->
  caches dev s b n \/ (b_refcnt (buf_at s b) = 0 /\ refs v n = 0 /\ forall c, ~ caches dev s c n) ->
  bio_frame s s' -> k_procs s' = k_procs s -> k_disk s' = k_disk s -> k_dwrites s' = k_dwrites s ->
  (exists order, lru (k_bufs s') order) ->
  (forall c, c <> b -> buf_at s' c = buf_at s c) ->
  b_dev (buf_at s' b) = dev -> b_blockno (buf_at s' b) = n ->
  b_refcnt (buf_at s' b) = refs v n + 1 -> truthy (b_valid (buf_at s' b)) = true ->
  b_data (buf_at s' b) = cv_data v n ->
  (forall c, c <> b -> get_slock s' (SL_buf c) = get_slock s (SL_buf c)) ->
  sl_locked (get_slock s' (SL_buf b)) = 1 -> sl_pid (get_slock s' (SL_buf b)) = p_pid (proc_at s i) ->
  cache_ok (hold n b v) s'.
Proof.
  intros [Hr Hl Hsl Hlru Hd Hw Hu Hb Ho Hh Huh Hp Hc] Hn Hbn Hold [Hhw _] Eps Ed Ew Hlru' Eb
    D1 D2 D3 D4 D5 Esl S1 S2.
  assert (forall c m, c <> b -> caches dev s' c m <-> caches dev s c m) as Hca
    by (intros c m Hcb; unfold caches; by rewrite Eb).
  assert (caches dev s' b n) as Hcb by done.
  assert (forall m, caches dev s' b m -> m = n) as Hcbn by (intros m (_ & _ & <-); done).
  assert (forall c, c <> b -> ~ caches dev s c n) as Hnone
    by (intros c Hcb' Hcn; destruct Hold as [Hbn'|(_ & _ & Hno)]; [by eapply Hcb', Hu|by eapply Hno]).
  assert (forall m, refs v m <> 0 -> caches dev s b m -> m = n) as Hbusy.
  { intros m Hm Hcm. destruct Hold as [(_ & _ & <-)|(H0 & _ & _)]; [by destruct Hcm as (_ & _ & ->)|].
    destruct (Hb b m Hcm) as [E _]. congruence. }
  split.
  - eapply running_settled; [done|done|by rewrite Eps].
  - by eapply lock_free_settled.
  - intros c Hcc. eapply lock_free_settled; [done|by apply Hsl].
  - done.
  - by rewrite Ed.
  - by rewrite Ew.
  - intros c d m Hcm Hdm. destruct (decide (c = b)) as [->|Hc1], (decide (d = b)) as [->|Hd1]; [done| | |].
    + apply Hcbn in Hcm. subst m. apply Hca in Hdm; [|done]. by destruct (Hnone d).
    + apply Hcbn in Hdm. subst m. apply Hca in Hcm; [|done]. by destruct (Hnone c).
    + apply Hca in Hcm, Hdm; [|done..]. by eapply Hu.
  - intros c m Hcm. rewrite refs_hold by done. destruct (decide (c = b)) as [->|Hc1].
    + apply Hcbn in Hcm as ->. by rewrite decide_True.
    + apply Hca in Hcm; [|done]. rewrite decide_False by (intros ->; by destruct (Hnone c)).
      rewrite Eb, Z.add_0_r by done. by apply Hb.
  - intros c Hcn Hcd. destruct (decide (c = b)) as [->|Hc1]; [done|]. rewrite Eb in * by done. by apply Ho.
  - intros m c Hmc. cbn in Hmc. change (proc_at s' i) with (k_procs s' !!! i). rewrite Eps.
    destruct (decide (m = n)) as [->|Hmn]; [rewrite lookup_insert_eq in Hmc; injection Hmc as <-; done|].
    rewrite lookup_insert_ne in Hmc by done. destruct (Hh m c Hmc) as (H1 & H2 & H3).
    assert (c <> b) as Hc1.
    { intros ->. apply Hmn, Hbusy; [|done]. rewrite refs_zero. intros [E _]. congruence. }
    rewrite Esl by done. split; [by apply Hca|done].
  - intros c Hcn Hcu. destruct (decide (c = b)) as [->|Hc1].
    { destruct (Hcu n). cbn. by rewrite lookup_insert_eq. }
    rewrite Esl by done. apply Huh; [done|]. intros m Hm. apply (Hcu m). cbn.
    rewrite lookup_insert_ne; [done|]. intros ->. congruence.
  - intros m Hm. destruct (Hp m Hm) as [c Hcm]. destruct (decide (c = b)) as [->|Hc1].
    + exists b. rewrite (Hbusy m); [done| |done]. rewrite refs_zero. by intros [_ ?].
    + exists c. by apply Hca.
  - intros m Hm Hmp. cbn in *. apply Hc; [|done]. by apply lookup_insert_None in Hm as [? _].
Qed.

(** A view with fewer blocks in use than there are buffers leaves one free. *)
Lemma free_buffer v s order :
  cache_ok v s -> lru (k_bufs s) order -> (size (dom (cv_held v) ∪ cv_pins v) < NBUF)%nat ->
  exists b, List.find (fun b => b_refcnt (buf_at s b) =? 0) (reverse order) = Some b
    /\ (b < NBUF)%nat /\ b_refcnt (buf_at s b) = 0.
Proof.
  intros Hok Hlru Hsz. destruct (lru_nodup _ _ Hlru) as [_ Hin].
  destruct (List.find _ (reverse order)) as [b|] eqn:E.
  { apply find_some in E as [H1 H2]. apply list_elem_of_In, elem_of_reverse, Hin in H1.
    apply Z.eqb_eq in H2. by exists b. }
  exfalso.
  assert (forall b, (b < NBUF)%nat -> caches dev s b (b_blockno (buf_at s b))
            /\ b_blockno (buf_at s b) ∈ dom (cv_held v) ∪ cv_pins v) as Hall.
  { intros b Hb. assert (b_refcnt (buf_at s b) <> 0) as Hne.
    { apply Z.eqb_neq. apply (find_none _ _ E). apply list_elem_of_In, elem_of_reverse. by apply Hin. }
    destruct (decide (b_dev (buf_at s b) = dev)) as [Hd|Hd]; [|by destruct Hne; apply (co_other _ _ Hok)].
    split; [done|]. destruct (co_buf _ _ Hok b _ (conj Hb (conj Hd eq_refl))) as [Er _].
    rewrite Er, refs_zero in Hne. rewrite elem_of_union, elem_of_dom, <- not_eq_None_Some.
    destruct (decide (cv_held v !! b_blockno (buf_at s b) = None)); [|by left].
    right. apply dec_stable. intros Hp. by destruct Hne. }
  set (ns := (fun b => b_blockno (buf_at s b)) <$> seq 0 NBUF).
  assert (NoDup ns) as Hnd.
  { apply NoDup_fmap_2_strong; [|apply NoDup_seq]. intros x y Hx Hy Heq.
    apply elem_of_seq in Hx, Hy. destruct (Hall x) as [Cx _]; [lia|]. destruct (Hall y) as [Cy _]; [lia|].
    rewrite Heq in Cx. by eapply (co_uniq _ _ Hok). }
  assert (size (list_to_set ns : gset Z) = NBUF) as Hs
    by (rewrite size_list_to_set by done; unfold ns; by rewrite length_fmap, length_seq).
  assert ((list_to_set ns : gset Z) ⊆ dom (cv_held v) ∪ cv_pins v) as Hsub.
  { intros m Hm. apply elem_of_list_to_set in Hm. unfold ns in Hm. apply list_elem_of_fmap in Hm as (b & -> & Hb).
    apply elem_of_seq in Hb. apply Hall. lia. }
  apply subseteq_size in Hsub. lia.
Qed.
(** ** bget() and bread() *)
Definition locked_by (s : kst) (b : nat) : sleeplock :=
  set_sl_pid (p_pid (proc_at s i)) (set_sl_locked 1 (get_slock s (SL_buf b))).

(** The state in which bget() returns buffer [b], after changing it by [f]. *)
Definition got (f : buf -> buf) (b : nat) (s : kst) : kst :=
  set_k_slocks (<[SL_buf b := locked_by s b]> (k_slocks s))
    (set_k_bufs (alter f b (k_bufs s)) (touch s)).

Lemma find_unique {A} (f : A -> bool) (l : list A) x :
  x ∈ l -> f x = true -> (forall y, y ∈ l -> f y = true -> y = x) -> List.find f l = Some x.
Proof.
  intros Hx Hf Hu. destruct (List.find f l) as [y|] eqn:E.
  - apply find_some in E as [H1 H2]. f_equal. apply Hu; [by apply list_elem_of_In|done].
  - rewrite (find_none _ _ E x) in Hf; [done|]. by apply list_elem_of_In.
Qed.

(** The common end of bget(). *)
Lemma bget_finish v s b f :
  cache_ok v s -> (b < NBUF)%nat -> sl_locked (get_slock s (SL_buf b)) = 0 ->
  (release LK_bcache ;; acquiresleep (SL_buf b) ;; mret b)
    (set_k_bufs (alter f b (k_bufs s)) (acquired LK_bcache s))
  = Done b (got f b s).
Proof.
  intros Hok Hb Hl. pose proof (co_run _ _ Hok) as Hr.
  erewrite bind_Done
    by (apply (release_section LK_bcache s); [by eapply running_cpu_ok|apply (co_lock _ _ Hok)|reflexivity]).
  set (s2 := put_hw _ _).
  assert (s2 = set_k_bufs (alter f b (k_bufs s)) (touch s)) as E2 by by destruct s.
  rewrite E2. erewrite bind_Done.
  2:{ apply (acquiresleep_eq i).
      - eapply running_hw; [done|reflexivity|reflexivity].
      - eapply lock_free_hw; [reflexivity|]. by apply (co_slocks _ _ Hok).
      - exact Hl. }
  unfold got, mret, K_ret. f_equal. unfold locked_by.
  change (touch (set_k_bufs ?x ?y)) with (set_k_bufs x (touch y)). by rewrite touch_touch.
Qed.

Lemma unheld_buffer v s b n :
  cache_ok v s -> cv_held v !! n = None -> caches dev s b n -> sl_locked (get_slock s (SL_buf b)) = 0.
Proof.
  intros Hok Hn Hc. apply (co_unheld _ _ Hok); [apply Hc|]. intros m Hm.
  destruct (co_held _ _ Hok m b Hm) as ((_ & _ & E) & _). destruct Hc as (_ & _ & E'). congruence.
Qed.

Lemma bget_hit v s b n :
  cache_ok v s -> cv_held v !! n = None -> caches dev s b n ->
  bget dev n s = Done b (got (fun x => set_b_refcnt (u32 (b_refcnt x + 1)) x) b s).
Proof.
  intros Hok Hn Hc. destruct (co_lru _ _ Hok) as [order Hlru]. destruct (lru_nodup _ _ Hlru) as [_ Hin].
  unfold bget. erewrite bind_Done
    by (apply acquire_eq; [eapply running_cpu_ok, (co_run _ _ Hok)|apply (co_lock _ _ Hok)]).
  unfold getb. rewrite bind_gets.
  erewrite bind_Done by (apply (bscan_next _ (acquired LK_bcache s) order); exact Hlru).
  rewrite (find_unique _ _ b).
  - unfold updb. rewrite bind_modify. apply (bget_finish v s b); [done|apply Hc|by eapply unheld_buffer].
  - apply Hin, Hc.
  - destruct Hc as (_ & H1 & H2). change (buf_at (acquired LK_bcache s) b) with (buf_at s b).
    by rewrite H1, H2, !Z.eqb_refl.
  - intros y Hy Ht. apply andb_true_iff in Ht as [H1 H2]. apply Z.eqb_eq in H1, H2.
    change (buf_at (acquired LK_bcache s) y) with (buf_at s y) in *.
    apply (co_uniq _ _ Hok y b n); [|done]. split; [by apply Hin|done].
Qed.

(** Recycling a buffer for block [n]. *)
Definition recycle (n : Z) (x : buf) : buf :=
  set_b_refcnt 1 (set_b_valid 0 (set_b_blockno n (set_b_dev dev x))).

Lemma bget_miss v s n :
  cache_ok v s -> (size (dom (cv_held v) ∪ cv_pins v) < NBUF)%nat -> (forall c, ~ caches dev s c n) ->
  exists b, (b < NBUF)%nat /\ b_refcnt (buf_at s b) = 0 /\ bget dev n s = Done b (got (recycle n) b s).
Proof.
  intros Hok Hsz Hno. destruct (co_lru _ _ Hok) as [order Hlru]. destruct (lru_nodup _ _ Hlru) as [_ Hin].
  destruct (free_buffer v s order Hok Hlru Hsz) as (b & Hfind & Hb & H0).
  exists b. split; [done|]. split; [done|].
  unfold bget. erewrite bind_Done
    by (apply acquire_eq; [eapply running_cpu_ok, (co_run _ _ Hok)|apply (co_lock _ _ Hok)]).
  unfold getb. rewrite bind_gets.
  erewrite bind_Done by (apply (bscan_next _ (acquired LK_bcache s) order); exact Hlru).
  destruct (List.find _ order) as [c|] eqn:E.
  { apply find_some in E as [H1 H2]. apply list_elem_of_In, Hin in H1.
    apply andb_true_iff in H2 as [H2 H3]. apply Z.eqb_eq in H2, H3. by destruct (Hno c). }
  clear E. rewrite bind_gets.
  erewrite bind_Done by (apply (bscan_prev _ (acquired LK_bcache s) order); exact Hlru).
  change (List.find _ (reverse order))
    with (List.find (fun b => b_refcnt (buf_at s b) =? 0) (reverse order)). rewrite Hfind.
  unfold updb. rewrite !bind_modify. cbn [k_bufs set_k_bufs].
  rewrite !list_alter_alter_eq.
  apply (bget_finish v s b (recycle n)); [done|done|].
  apply (co_unheld _ _ Hok); [done|]. intros m Hm. destruct (co_held _ _ Hok m b Hm) as (Hc & _).
  destruct (co_buf _ _ Hok b m Hc) as [Er _]. rewrite H0 in Er. symmetry in Er.
  apply refs_zero in Er as [Er _]. congruence.
Qed.
(** Changing fields other than the links keeps the list. *)
Lemma lru_alter f b bs order :
  (forall x, b_next (f x) = b_next x /\ b_prev (f x) = b_prev x) ->
  lru bs order -> lru (alter f b bs) order.
Proof.
  intros Hf [Hl Hp Hs]. split; [by rewrite length_alter|done|].
  assert (forall z, nx (alter f b bs) z = nx bs z /\ pv (alter f b bs) z = pv bs z) as E.
  { intros z. unfold nx, pv. destruct (decide (b < length bs)%nat) as [Hb|Hb].
    - rewrite total_alter by done. case_decide; [subst; apply Hf|done].
    - assert (alter f b bs = bs) as ->; [|done]. apply list_eq. intros k.
      destruct (decide (b = k)) as [<-|]; [|by rewrite list_lookup_alter_ne].
      rewrite list_lookup_alter_eq, lookup_ge_None_2 by lia. done. }
  apply (seg_ext (nx bs) (pv bs)); [done|intros z _; apply E..].
Qed.

Lemma lru_len_bufs v s : cache_ok v s -> length (k_bufs s) = S NBUF.
Proof. intros Hok. destruct (co_lru _ _ Hok) as [order Hlru]. apply Hlru. Qed.

Lemma buf_at_alter v s f b c s' :
  cache_ok v s -> (b < NBUF)%nat -> k_bufs s' = alter f b (k_bufs s) ->
  buf_at s' c = if decide (c = b) then f (buf_at s b) else buf_at s c.
Proof.
  intros Hok Hb E. unfold buf_at. rewrite E. apply total_alter. rewrite (lru_len_bufs v s Hok). lia.
Qed.

Lemma get_slock_got f b s c :
  get_slock (got f b s) (SL_buf c) = if decide (c = b) then locked_by s b else get_slock s (SL_buf c).
Proof.
  unfold get_slock at 1. cbn. destruct (decide (c = b)) as [->|Hne].
  - by rewrite lookup_insert_eq.
  - rewrite lookup_insert_ne by congruence. done.
Qed.

Lemma cached_dec s n : (exists b, caches dev s b n) \/ (forall b, ~ caches dev s b n).
Proof.
  destruct (List.find (fun b => (b_dev (buf_at s b) =? dev) && (b_blockno (buf_at s b) =? n)) (seq 0 NBUF))
    as [b|] eqn:E.
  - left. exists b. apply find_some in E as [H1 H2]. apply list_elem_of_In, elem_of_seq in H1.
    apply andb_true_iff in H2 as [H2 H3]. apply Z.eqb_eq in H2, H3. split; [lia|done].
  - right. intros b (H1 & H2 & H3). pose proof (find_none _ _ E b) as Hf. cbv beta in Hf.
    rewrite H2, H3, !Z.eqb_refl in Hf. discriminate Hf. apply list_elem_of_In, elem_of_seq. lia.
Qed.

Lemma got_frame f b s : bio_frame s (got f b s).
Proof. split; [by apply settled_touch|done]. Qed.

Context {DISK : BlockDev} {SYNC : SyncDisk}.

Lemma bread_ok v s n :
  cache_ok v s -> cv_held v !! n = None ->
  n ∈ cv_pins v \/ (size (dom (cv_held v) ∪ cv_pins v) < NBUF)%nat ->
  exists b s', bread dev n s = Done b s' /\ cache_ok (hold n b v) s' /\ bio_frame s s'.
Proof using SYNC.
  intros Hok Hn Hroom. destruct (co_lru _ _ Hok) as [order Hlru].
  pose proof (refs_bounds v n) as Hrb. destruct (cached_dec s n) as [[b Hc]|Hno].
  - destruct (co_buf _ _ Hok b n Hc) as (Hr & Hv & Hd). pose proof Hc as (Hb & Hbd & Hbn).
    set (f := fun x => set_b_refcnt (u32 (b_refcnt x + 1)) x).
    exists b, (got f b s). split.
    { unfold bread. erewrite bind_Done by by eapply bget_hit. unfold getb. rewrite bind_gets. fold f.
      erewrite (buf_at_alter v s f b b (got f b s) Hok) by done. rewrite decide_True by done.
      change (b_valid (f (buf_at s b))) with (b_valid (buf_at s b)). rewrite Hv. done. }
    split; [|apply got_frame].
    assert (buf_at (got f b s) b = f (buf_at s b)) as E
      by (erewrite (buf_at_alter v s f b b) by done; by rewrite decide_True).
    apply (cache_hold v s); rewrite ?E; try apply got_frame; try done.
    + by left.
    + exists order. by apply lru_alter.
    + intros c Hcb. erewrite (buf_at_alter v s f b c) by done. by rewrite decide_False.
    + cbn. rewrite Hr. apply u32_small. lia.
    + intros c Hcb. rewrite get_slock_got. by rewrite decide_False.
    + rewrite get_slock_got. by rewrite decide_True.
    + rewrite get_slock_got. by rewrite decide_True.
  - assert (refs v n = 0) as Hr0.
    { apply refs_zero. split; [done|]. intros Hp. destruct (co_pins _ _ Hok n Hp) as [b Hb]. by apply (Hno b). }
    assert (n ∉ cv_pins v) as Hnp by (apply refs_zero in Hr0; apply Hr0).
    destruct Hroom as [|Hsz]; [done|].
    destruct (bget_miss v s n Hok Hsz Hno) as (b & Hb & H0 & Hget).
    set (s1 := got (recycle n) b s).
    assert (buf_at s1 b = recycle n (buf_at s b)) as E1
      by (erewrite (buf_at_alter v s (recycle n) b b) by done; by rewrite decide_True).
    set (f := fun x => set_b_valid 1 (set_b_data (k_disk s n) (recycle n x))).
    exists b, (got f b s). split.
    { unfold bread. erewrite bind_Done by exact Hget. unfold getb. rewrite bind_gets. fold s1. rewrite E1.
      change (negb (truthy (b_valid (recycle n (buf_at s b))))) with true. cbn [when].
      erewrite bind_assoc by apply disk_rw_sync. unfold transferred. rewrite E1.
      unfold updb. rewrite bind_modify. unfold mret, K_ret. f_equal. unfold got, s1, set_k_bufs. cbn.
      by rewrite !list_alter_alter_eq. }
    split; [|apply got_frame].
    assert (buf_at (got f b s) b = f (buf_at s b)) as E
      by (erewrite (buf_at_alter v s f b b) by done; by rewrite decide_True).
    apply (cache_hold v s); rewrite ?E; try apply got_frame; try done.
    + by right.
    + exists order. by apply lru_alter.
    + intros c Hcb. erewrite (buf_at_alter v s f b c) by done. by rewrite decide_False.
    + cbn. lia.
    + cbn. rewrite (co_disk _ _ Hok). symmetry. by apply (co_clean _ _ Hok).
    + intros c Hcb. rewrite get_slock_got. by rewrite decide_False.
    + rewrite get_slock_got. by rewrite decide_True.
    + rewrite get_slock_got. by rewrite decide_True.
Qed.

(** ** Operations on a held block *)

(** A step that changes the buffer [b] of a held block [n], the contents or
    the pin of that block, and no lock or link. *)
Lemma cache_update v v' s s' n b :
  cache_ok v s -> cv_held v !! n = Some b -> cv_held v' = cv_held v ->
  settled s s' -> k_procs s' = k_procs s -> k_slocks s' = k_slocks s ->
  (exists order, lru (k_bufs s') order) ->
  k_disk s' = cv_disk v' -> k_dwrites s' = cv_writes v' ->
  (forall c, c <> b -> buf_at s' c = buf_at s c) ->
  caches dev s' b n -> b_refcnt (buf_at s' b) = refs v' n ->
  b_valid (buf_at s' b) = b_valid (buf_at s b) -> b_data (buf_at s' b) = cv_data v' n ->
  (forall m, m <> n -> cv_data v' m = cv_data v m /\ cv_disk v' m = cv_disk v m
                      /\ (m ∈ cv_pins v' <-> m ∈ cv_pins v)) ->
  cache_ok v' s'.
Proof.
  intros [Hr Hl Hsl Hlru Hd Hw Hu Hb Ho Hh Huh Hp Hc] Hn Eh Hhw Eps Es Hlru' Ed Ew Eb Hcb D1 D2 D3 Hoth.
  destruct (Hh n b Hn) as (Hcn & _).
  assert (forall c m, caches dev s' c m <-> caches dev s c m) as Hca.
  { intros c m. destruct (decide (c = b)) as [->|Hne]; [|unfold caches; by rewrite Eb].
    destruct Hcb as (H1 & H2 & H3), Hcn as (H4 & H5 & H6). unfold caches. by rewrite H2, H3, H5, H6. }
  assert (forall m, m <> n -> refs v' m = refs v m) as Hrefs.
  { intros m Hm. unfold refs. rewrite Eh. destruct (Hoth m Hm) as (_ & _ & Hpm). f_equal.
    by repeat case_decide; try done; tauto. }
  assert (forall c, get_slock s' c = get_slock s c) as Egs by (intros c; unfold get_slock; by rewrite Es).
  split.
  - eapply running_settled; [done|done|by rewrite Eps].
  - by eapply lock_free_settled.
  - intros c Hcc. eapply lock_free_settled; [done|by apply Hsl].
  - done.
  - done.
  - done.
  - intros c d m Hcm Hdm. apply Hca in Hcm, Hdm. by eapply Hu.
  - intros c m Hcm. apply Hca in Hcm. destruct (decide (c = b)) as [->|Hne].
    + assert (m = n) as -> by (destruct Hcm as (_ & _ & <-), Hcn as (_ & _ & <-); done).
      rewrite D2. split; [done|]. split; [by eapply Hb|done].
    + assert (m <> n) as Hm by (intros ->; by eapply Hne, Hu).
      rewrite Eb, Hrefs by done. destruct (Hoth m Hm) as (-> & _). by apply Hb.
  - intros c Hcn' Hcd. destruct (decide (c = b)) as [->|Hne]; [by destruct Hcb as (_ & ? & _)|].
    rewrite Eb in * by done. by apply Ho.
  - intros m c Hm. rewrite Eh in Hm. rewrite Egs. unfold proc_at. rewrite Eps.
    destruct (Hh m c Hm) as (H1 & H2). split; [by apply Hca|done].
  - intros c Hcn' Hcu. rewrite Egs. apply Huh; [done|]. intros m. rewrite <- Eh. apply Hcu.
  - intros m Hm. destruct (decide (m = n)) as [->|Hne]; [by exists b|].
    destruct (Hoth m Hne) as (_ & _ & Hpm). destruct (Hp m) as [c Hcm]; [by apply Hpm|]. exists c. by apply Hca.
  - intros m Hm Hmp. rewrite Eh in Hm. destruct (decide (m = n)) as [->|Hne]; [congruence|].
    destruct (Hoth m Hne) as (-> & -> & Hpm). apply Hc; [done|]. by rewrite <- Hpm.
Qed.

(** The views after writing to a buffer, after bwrite(), bpin() and
    bunpin(). *)
Definition upd {A} (f : Z -> A) (n : Z) (x : A) : Z -> A := fun m => if m =? n then x else f m.

Definition put_data (n : Z) (d : list Z) (v : cview) : cview :=
  mkCview (upd (cv_data v) n d) (cv_disk v) (cv_writes v) (cv_held v) (cv_pins v).
Definition written (n : Z) (v : cview) : cview :=
  mkCview (cv_data v) (upd (cv_disk v) n (cv_data v n)) (cv_writes v ++ [(n, cv_data v n)]) (cv_held v) (cv_pins v).
Definition pin (n : Z) (v : cview) : cview :=
  mkCview (cv_data v) (cv_disk v) (cv_writes v) (cv_held v) ({[n]} ∪ cv_pins v).
Definition unpin (n : Z) (v : cview) : cview :=
  mkCview (cv_data v) (cv_disk v) (cv_writes v) (cv_held v) (cv_pins v ∖ {[n]}).
Definition unhold (n : Z) (v : cview) : cview :=
  mkCview (cv_data v) (cv_disk v) (cv_writes v) (delete n (cv_held v)) (cv_pins v).

Lemma unhold_hold n b v : cv_held v !! n = None -> unhold n (hold n b v) = v.
Proof. intros H. unfold unhold, hold. cbn. rewrite delete_insert_id by done. by destruct v. Qed.

Lemma upd_eq {A} (f : Z -> A) n x : upd f n x n = x.
Proof. unfold upd. by rewrite Z.eqb_refl. Qed.
Lemma upd_ne {A} (f : Z -> A) n x m : m <> n -> upd f n x m = f m.
Proof. intros H. unfold upd. by rewrite (proj2 (Z.eqb_neq m n) H). Qed.

Section held.
Context (v : cview) (s : kst) (n : Z) (b : nat).
Context (Hok : cache_ok v s) (Hn : cv_held v !! n = Some b).

Lemma held_caches : caches dev s b n.
Proof using Hok Hn. apply (co_held _ _ Hok _ _ Hn). Qed.

Lemma held_data : b_data (buf_at s b) = cv_data v n.
Proof using Hok Hn. apply (co_buf _ _ Hok b n held_caches). Qed.

Lemma held_blockno : b_blockno (buf_at s b) = n.
Proof using Hok Hn. apply held_caches. Qed.

(** Changing fields of the buffer of a held block. *)
Lemma cache_alter v' f s' :
  cv_held v' = cv_held v -> cv_disk v' = cv_disk v -> cv_writes v' = cv_writes v ->
  (forall x, b_next (f x) = b_next x /\ b_prev (f x) = b_prev x /\ b_dev (f x) = b_dev x
             /\ b_blockno (f x) = b_blockno x /\ b_valid (f x) = b_valid x) ->
  s' = set_k_bufs (alter f b (k_bufs s)) (touch s) \/ s' = set_k_bufs (alter f b (k_bufs s)) s ->
  b_refcnt (f (buf_at s b)) = refs v' n -> b_data (f (buf_at s b)) = cv_data v' n ->
  (forall m, m <> n -> cv_data v' m = cv_data v m /\ (m ∈ cv_pins v' <-> m ∈ cv_pins v)) ->
  cache_ok v' s'.
Proof using Hok Hn SYNC.
  intros Eh Ed Ew Hf Hs D1 D2 Hoth. pose proof held_caches as (Hb & Hbd & Hbn).
  assert (k_bufs s' = alter f b (k_bufs s)) as Ebs by (by destruct Hs as [->| ->]).
  assert (buf_at s' b = f (buf_at s b)) as Eb
    by (erewrite (buf_at_alter v s f b b) by done; by rewrite decide_True).
  destruct (Hf (buf_at s b)) as (_ & _ & F1 & F2 & F3).
  apply (cache_update v v' s s' n b); rewrite ?Eb; try done.
  - destruct Hs as [->| ->]; [by apply settled_touch|by apply settled_hw].
  - by destruct Hs as [->| ->].
  - by destruct Hs as [->| ->].
  - destruct (co_lru _ _ Hok) as [order Hlru]. exists order. rewrite Ebs. apply lru_alter; [|done].
    intros x. destruct (Hf x) as (? & ? & _). done.
  - rewrite Ed, <- (co_disk _ _ Hok). by destruct Hs as [->| ->].
  - rewrite Ew, <- (co_writes _ _ Hok). by destruct Hs as [->| ->].
  - intros c Hc. erewrite (buf_at_alter v s f b c) by done. by rewrite decide_False.
  - unfold caches. rewrite Eb, F1, F2. done.
  - intros m Hm. rewrite Ed. destruct (Hoth m Hm). done.
Qed.

Lemma set_data_ok d :
  let s' := set_k_bufs (alter (set_b_data d) b (k_bufs s)) s in
  cache_ok (put_data n d v) s' /\ bio_frame s s'.
Proof using Hok Hn SYNC.
  split; [|split; [by apply settled_hw|done]].
  apply (cache_alter _ (set_b_data d)); try done; [by right| | |].
  - apply (co_buf _ _ Hok b n held_caches).
  - cbn. by rewrite upd_eq.
  - intros m Hm. cbn. by rewrite upd_ne.
Qed.

Lemma bpin_ok :
  n ∉ cv_pins v -> exists s', bpin b s = Done tt s' /\ cache_ok (pin n v) s' /\ bio_frame s s'.
Proof using Hok Hn SYNC.
  intros Hp. eexists. split.
  { apply bpin_eq; [eapply running_cpu_ok, (co_run _ _ Hok)|apply (co_lock _ _ Hok)]. }
  destruct (co_buf _ _ Hok b n held_caches) as (Hr & _ & Hd). pose proof (refs_bounds v n).
  split; [|split; [by apply settled_touch|done]].
  apply (cache_alter _ (fun x => set_b_refcnt (u32 (b_refcnt x + 1)) x)); try done; [by left| |].
  - cbn. rewrite Hr, u32_small by lia. unfold refs, pin. cbn.
    rewrite (decide_False (P := n ∈ cv_pins v)) by done. rewrite (decide_True (P := n ∈ {[n]} ∪ cv_pins v)) by set_solver. lia.
  - intros m Hm. cbn. set_solver.
Qed.

Lemma bunpin_eq :
  bunpin b s = Done tt (set_k_bufs (alter (fun x => set_b_refcnt (u32 (b_refcnt x - 1)) x) b (k_bufs s)) (touch s)).
Proof using Hok.
  pose proof (running_cpu_ok _ _ (co_run _ _ Hok)) as Hc. pose proof (co_lock _ _ Hok) as Hf.
  unfold bunpin, updb. erewrite bind_Done by by apply acquire_eq. rewrite bind_modify.
  rewrite (release_section LK_bcache s) by done. reflexivity.
Qed.

Lemma bunpin_ok :
  n ∈ cv_pins v -> exists s', bunpin b s = Done tt s' /\ cache_ok (unpin n v) s' /\ bio_frame s s'.
Proof using Hok Hn SYNC.
  intros Hp. eexists. split; [apply bunpin_eq|].
  destruct (co_buf _ _ Hok b n held_caches) as (Hr & _ & Hd).
  split; [|split; [by apply settled_touch|done]].
  apply (cache_alter _ (fun x => set_b_refcnt (u32 (b_refcnt x - 1)) x)); try done; [by left| |].
  - assert (refs (unpin n v) n = refs v n - 1) as E.
    { unfold refs, unpin. cbn. rewrite (decide_True (P := n ∈ cv_pins v)) by done.
      rewrite (decide_False (P := n ∈ cv_pins v ∖ {[n]})) by set_solver. lia. }
    pose proof (refs_bounds (unpin n v) n). cbn [b_refcnt set_b_refcnt]. rewrite Hr, E, u32_small by lia. done.
  - intros m Hm. cbn. set_solver.
Qed.

Lemma held_holding : holdingsleep (SL_buf b) s = Done true (touch s).
Proof using Hok Hn SYNC.
  destruct (co_held _ _ Hok _ _ Hn) as ((Hb & _) & Hl & Hp).
  rewrite (holdingsleep_eq i); [|apply (co_run _ _ Hok)|by apply (co_slocks _ _ Hok)].
  by rewrite Hl, Hp, Z.eqb_refl.
Qed.

Lemma bwrite_ok :
  exists s', bwrite b s = Done tt s' /\ cache_ok (written n v) s' /\ bio_frame s s'.
Proof using Hok Hn SYNC.
  exists (transferred b true (touch s)). split.
  { unfold bwrite. erewrite bind_Done by apply held_holding. apply disk_rw_sync. }
  pose proof held_caches as (Hb & Hbd & Hbn). pose proof held_data as Hd.
  destruct (co_buf _ _ Hok b n held_caches) as (Hr & Hv & _).
  unfold transferred. change (buf_at (touch s) b) with (buf_at s b). rewrite Hbn, Hd.
  split; [|split; [by apply settled_touch|done]].
  apply (cache_update v _ s _ n b); try done.
  - by apply settled_touch.
  - apply (co_lru _ _ Hok).
  - cbn. unfold upd. by rewrite (co_disk _ _ Hok).
  - cbn. by rewrite (co_writes _ _ Hok).
  - intros m Hm. cbn. by rewrite upd_ne.
Qed.

(** The end of brelse(): one reference less, and to the front when it was the
    last. *)
Definition dropped (bs : list buf) : list buf :=
  let bs1 := alter (fun x => set_b_refcnt (u32 (b_refcnt x - 1)) x) b bs in
  if b_refcnt (bs1 !!! b) =? 0 then pushing b (unlinking b bs1) else bs1.

Lemma dropped_eq s0 :
  cpu_ok s0 -> lock_free LK_bcache s0 ->
  (acquire LK_bcache ;; updb b (fun x => set_b_refcnt (u32 (b_refcnt x - 1)) x) ;;
   bf ← getb b; when (b_refcnt bf =? 0) (to_front b) ;; release LK_bcache) s0
  = Done tt (set_k_bufs (dropped (k_bufs s0)) (touch s0)).
Proof.
  intros Hc Hf. erewrite bind_Done by by apply acquire_eq. unfold updb, getb. rewrite bind_modify, bind_gets.
  unfold dropped, buf_at. cbv zeta. cbn [k_bufs set_k_bufs acquired pushed set_k_locks set_k_csr set_k_cpu].
  destruct (_ =? 0); cbn [when].
  - erewrite bind_Done by apply to_front_eq. rewrite (release_section LK_bcache s0) by done. reflexivity.
  - rewrite bind_ret. rewrite (release_section LK_bcache s0) by done. reflexivity.
Qed.

Lemma dropped_ok bs order :
  lru bs order -> (b < NBUF)%nat -> 1 <= b_refcnt (bs !!! b) < 2 ^ 32 ->
  (exists order', lru (dropped bs) order')
  /\ forall c, unlinked (dropped bs !!! c)
       = unlinked (if decide (c = b) then set_b_refcnt (b_refcnt (bs !!! b) - 1) (bs !!! b) else bs !!! c).
Proof.
  intros Hlru Hb Hr. unfold dropped. set (f := fun x => set_b_refcnt _ x). set (bs1 := alter f b bs).
  assert (forall c, bs1 !!! c = if decide (c = b) then set_b_refcnt (b_refcnt (bs !!! b) - 1) (bs !!! b) else bs !!! c) as E.
  { intros c. unfold bs1. rewrite total_alter by (rewrite (lru_len _ _ Hlru); lia). unfold f.
    by rewrite u32_small by lia. }
  assert (lru bs1 order) as Hl1 by by apply lru_alter.
  destruct (_ =? 0).
  - destruct (to_front_lru b bs1 order Hl1 Hb) as (order' & Hl & Hs). split; [by exists order'|].
    intros c. by rewrite Hs, E.
  - split; [by exists order|]. intros c. by rewrite E.
Qed.

Lemma refs_unhold m : refs (unhold n v) m = refs v m - (if decide (m = n) then 1 else 0).
Proof using Hn.
  unfold refs, unhold. cbn. destruct (decide (m = n)) as [->|Hne].
  - rewrite lookup_delete_eq, Hn. rewrite (decide_True (P := is_Some (Some b))) by by eexists.
    rewrite (decide_False (P := is_Some None)) by by intros [? ?]. lia.
  - rewrite lookup_delete_ne by done. lia.
Qed.

(** The state in which the buffer has been given back. *)
Lemma cache_unhold s' :
  n ∈ cv_pins v \/ cv_data v n = cv_disk v n ->
  settled s s' -> length (k_procs s') = length (k_procs s) -> p_pid (proc_at s' i) = p_pid (proc_at s i) ->
  k_disk s' = k_disk s -> k_dwrites s' = k_dwrites s -> (exists order, lru (k_bufs s') order) ->
  (forall c, unlinked (buf_at s' c)
             = unlinked (if decide (c = b) then set_b_refcnt (refs v n - 1) (buf_at s b) else buf_at s c)) ->
  (forall c, c <> b -> get_slock s' (SL_buf c) = get_slock s (SL_buf c)) ->
  sl_locked (get_slock s' (SL_buf b)) = 0 ->
  cache_ok (unhold n v) s'.
Proof using Hok Hn SYNC.
  intros Hsync Hhw Elen Epid Ed Ew Hlru' Eb Esl S1. pose proof held_caches as Hcb.
  destruct Hok as [Hr Hl Hsl Hlru Hd Hw Hu Hb Ho Hh Huh Hp Hc].
  assert (forall c, b_dev (buf_at s' c) = b_dev (buf_at s c) /\ b_blockno (buf_at s' c) = b_blockno (buf_at s c)
    /\ b_valid (buf_at s' c) = b_valid (buf_at s c) /\ b_data (buf_at s' c) = b_data (buf_at s c)
    /\ b_refcnt (buf_at s' c) = (if decide (c = b) then refs v n - 1 else b_refcnt (buf_at s c))) as Hf.
  { intros c. specialize (Eb c). unfold unlinked in Eb. injection Eb. case_decide; subst; cbn; naive_solver. }
  assert (forall c m, caches dev s' c m <-> caches dev s c m) as Hca.
  { intros c m. unfold caches. destruct (Hf c) as (-> & -> & _). done. }
  split.
  - by eapply running_settled.
  - by eapply lock_free_settled.
  - intros c Hcc. eapply lock_free_settled; [done|by apply Hsl].
  - done.
  - by rewrite Ed.
  - by rewrite Ew.
  - intros c d m Hcm Hdm. apply Hca in Hcm, Hdm. by eapply Hu.
  - intros c m Hcm. apply Hca in Hcm. rewrite refs_unhold. destruct (Hf c) as (_ & _ & -> & -> & ->).
    destruct (Hb c m Hcm) as (E1 & E2 & E3). split; [|done]. destruct (decide (c = b)) as [->|Hne].
    + assert (m = n) as -> by (destruct Hcm as (_ & _ & <-), Hcb as (_ & _ & <-); done).
      by rewrite decide_True.
    + rewrite decide_False, E1; [lia|]. intros ->. by eapply Hne, Hu.
  - intros c Hcn Hcd. destruct (Hf c) as (E1 & _ & _ & _ & E2). rewrite E1 in Hcd. rewrite E2.
    rewrite decide_False; [by apply Ho|]. intros ->. by destruct Hcb as (_ & ? & _).
  - intros m c Hm. cbn in Hm. apply lookup_delete_Some in Hm as [Hne Hm]. rewrite Epid.
    destruct (Hh m c Hm) as (H1 & H2 & H3). rewrite Esl; [split; [by apply Hca|done]|].
    intros ->. destruct H1 as (_ & _ & <-), Hcb as (_ & _ & E). done.
  - intros c Hcn Hcu. destruct (decide (c = b)) as [->|Hne]; [done|]. rewrite Esl by done.
    apply Huh; [done|]. intros m Hm. apply (Hcu m). cbn. rewrite lookup_delete_ne; [done|].
    intros ->. congruence.
  - intros m Hm. destruct (Hp m Hm) as [c Hcm]. exists c. by apply Hca.
  - intros m Hm Hmp. cbn in *. apply lookup_delete_None in Hm as [<-|Hm]; [by destruct Hsync|by apply Hc].
Qed.

(** The state after brelse(), for the processes [ps] that it wakes. *)
Definition relsed (ps : list proc) : kst :=
  set_k_bufs (dropped (k_bufs s)) (set_k_procs ps
    (set_k_slocks (<[SL_buf b := set_sl_pid 0 (set_sl_locked 0 (get_slock s (SL_buf b)))]> (k_slocks s))
      (touch s))).

Lemma brelse_eq :
  exists ps, length ps = length (k_procs s) /\ ps !!! i = k_procs s !!! i /\ brelse b s = Done tt (relsed ps).
Proof using Hok Hn SYNC.
  pose proof (co_run _ _ Hok) as Hrun. pose proof held_caches as (Hb & _).
  assert (running i (touch s)) as Hrt by (eapply running_hw; [done|reflexivity|reflexivity]).
  destruct (woken_same i (CH_sleeplock (SL_buf b)) (touch s) Hrt) as [Hw1 Hw2].
  assert (releasesleep (SL_buf b) (touch s) = Done tt (set_k_procs (woken (CH_sleeplock (SL_buf b)) (touch s))
    (set_k_slocks (<[SL_buf b := set_sl_pid 0 (set_sl_locked 0 (get_slock s (SL_buf b)))]> (k_slocks s)) (touch s)))) as Hrel.
  { rewrite (releasesleep_eq i); [|done|eapply lock_free_hw; [reflexivity|by apply (co_slocks _ _ Hok)]].
    by rewrite touch_touch. }
  revert Hw1 Hw2 Hrel. generalize (woken (CH_sleeplock (SL_buf b)) (touch s)). intros w Hw1 Hw2 Hrel.
  exists w. split; [exact Hw1|]. split; [exact Hw2|].
  unfold brelse. erewrite bind_Done by apply held_holding. cbn [negb]. erewrite bind_Done by exact Hrel.
  rewrite dropped_eq.
  - f_equal. unfold relsed. change (touch (set_k_procs ?x (set_k_slocks ?y ?z))) with (set_k_procs x (set_k_slocks y (touch z))).
    rewrite touch_touch. reflexivity.
  - eapply running_cpu_ok, running_hw; [exact Hrt|by rewrite touch_touch|exact Hw1].
  - eapply lock_free_hw; [|apply (co_lock _ _ Hok)]. reflexivity.
Qed.

Lemma brelse_ok :
  n ∈ cv_pins v \/ cv_data v n = cv_disk v n ->
  exists s', brelse b s = Done tt s' /\ cache_ok (unhold n v) s' /\ bio_frame s s'.
Proof using Hok Hn SYNC.
  intros Hsync. destruct brelse_eq as (ps & Hl1 & Hl2 & ->). exists (relsed ps). split; [done|].
  pose proof held_caches as (Hb & _). destruct (co_buf _ _ Hok b n held_caches) as (Hr & _).
  assert (1 <= refs v n <= 2) as Hrb.
  { pose proof (refs_bounds v n). assert (refs v n <> 0); [|lia]. rewrite refs_zero. intros [E _]. congruence. }
  assert (settled s (relsed ps)) as Hs by by apply settled_touch.
  destruct (co_lru _ _ Hok) as [order Hlru].
  destruct (dropped_ok (k_bufs s) order) as [Hl Hu]; [done|done|unfold buf_at in Hr; lia|].
  assert (same_stack s (relsed ps)) as Hst.
  { intros j Hj. rewrite (run_proc _ _ (co_run _ _ Hok)) in Hj. injection Hj as <-. unfold proc_at. cbn. by rewrite Hl2. }
  split; [|split_and!; done]. apply cache_unhold; try done.
  - unfold proc_at. cbn. by rewrite Hl2.
  - rewrite <- Hr. apply Hu.
  - intros c Hne. unfold get_slock. cbn. by rewrite lookup_insert_ne by congruence.
  - unfold get_slock at 1. cbn. by rewrite lookup_insert_eq.
Qed.
End held.
End cache.

(** ** The interface

    What a client of the buffer cache relies on, for one device and one
    representation [R] of views by kernel states. *)
Class BlockCache {DISK : BlockDev} (dev : Z) (R : cview -> kst -> Prop) : Prop := {
  bc_idle v s : R v s -> cpu_ok s /\ c_noff (k_cpu s) = 0;
  bc_lock v s : R v s -> lock_free LK_bcache s;
  bc_proc v s : R v s -> is_Some (c_proc (k_cpu s));
  bc_blockno v s n b : R v s -> cv_held v !! n = Some b -> (b < length (k_bufs s))%nat /\ b_blockno (buf_at s b) = n;
  bc_disk v s : R v s -> k_disk s = cv_disk v /\ k_dwrites s = cv_writes v;
  bc_clean v s n : R v s -> cv_held v !! n = None -> n ∉ cv_pins v -> cv_data v n = cv_disk v n;
  bc_data v s n b : R v s -> cv_held v !! n = Some b -> b_data (buf_at s b) = cv_data v n;
  bc_bread v s n : R v s -> cv_held v !! n = None ->
    n ∈ cv_pins v \/ (size (dom (cv_held v) ∪ cv_pins v) < NBUF)%nat ->
    exists b s', bread dev n s = Done b s' /\ R (hold n b v) s' /\ bio_frame s s';
  bc_put v s n b d : R v s -> cv_held v !! n = Some b ->
    let s' := set_k_bufs (alter (set_b_data d) b (k_bufs s)) s in R (put_data n d v) s' /\ bio_frame s s';
  bc_bwrite v s n b : R v s -> cv_held v !! n = Some b ->
    exists s', bwrite b s = Done tt s' /\ R (written n v) s' /\ bio_frame s s';
  bc_bpin v s n b : R v s -> cv_held v !! n = Some b -> n ∉ cv_pins v ->
    exists s', bpin b s = Done tt s' /\ R (pin n v) s' /\ bio_frame s s';
  bc_bunpin v s n b : R v s -> cv_held v !! n = Some b -> n ∈ cv_pins v ->
    exists s', bunpin b s = Done tt s' /\ R (unpin n v) s' /\ bio_frame s s';
  bc_brelse v s n b : R v s -> cv_held v !! n = Some b -> n ∈ cv_pins v \/ cv_data v n = cv_disk v n ->
    exists s', brelse b s = Done tt s' /\ R (unhold n v) s' /\ bio_frame s s';
  bc_ext v s s' : R v s -> settled s s' -> k_procs s' = k_procs s -> k_slocks s' = k_slocks s ->
    k_bufs s' = k_bufs s -> k_disk s' = k_disk s -> k_dwrites s' = k_dwrites s -> R v s'
}.

Lemma cache_ext i dev v s s' :
  cache_ok i dev v s -> settled s s' -> k_procs s' = k_procs s -> k_slocks s' = k_slocks s ->
  k_bufs s' = k_bufs s -> k_disk s' = k_disk s -> k_dwrites s' = k_dwrites s -> cache_ok i dev v s'.
Proof.
  intros [Hr Hl Hsl Hlru Hd Hw Hu Hb Ho Hh Huh Hp Hc] Hs Eps Es Eb Ed Ew.
  assert (forall c, buf_at s' c = buf_at s c) as Ebuf by (intros c; unfold buf_at; by rewrite Eb).
  assert (forall c, get_slock s' c = get_slock s c) as Esl by (intros c; unfold get_slock; by rewrite Es).
  assert (forall c m, caches dev s' c m <-> caches dev s c m) as Hca by (intros c m; unfold caches; by rewrite Ebuf).
  split; [eapply running_settled; [done|done|by rewrite Eps]|by eapply lock_free_settled| |by rewrite Eb|congruence..| | | | | | |done].
  - intros b Hbn. eapply lock_free_settled; [done|by apply Hsl].
  - intros b c n. rewrite !Hca. apply Hu.
  - intros b n. rewrite Hca, Ebuf. apply Hb.
  - intros b. rewrite Ebuf. apply Ho.
  - intros n b. rewrite Hca, Esl. unfold proc_at. rewrite Eps. apply Hh.
  - intros b. rewrite Esl. apply Huh.
  - intros n Hn. destruct (Hp n Hn) as [b Hbn]. exists b. by apply Hca.
Qed.

#[global] Instance cache_laws {DISK : BlockDev} {SYNC : SyncDisk} i dev : BlockCache dev (cache_ok i dev).
Proof.
  split.
  - intros v s Hok. pose proof (co_run _ _ _ _ Hok) as Hr. split; [by eapply running_cpu_ok|apply (run_noff _ _ Hr)].
  - intros v s Hok. apply (co_lock _ _ _ _ Hok).
  - intros v s Hok. rewrite (run_proc _ _ (co_run _ _ _ _ Hok)). done.
  - intros v s n b Hok Hh. destruct (co_held _ _ _ _ Hok n b Hh) as [(Hb & _ & Hn) _]. split; [|done].
    destruct (co_lru _ _ _ _ Hok) as [order Hl]. pose proof (lru_len _ _ Hl). lia.
  - intros v s Hok. split; [apply (co_disk _ _ _ _ Hok)|apply (co_writes _ _ _ _ Hok)].
  - intros v s n Hok. apply (co_clean _ _ _ _ Hok).
  - intros v s n b. apply held_data.
  - intros v s n; intros. by eapply bread_ok.
  - intros v s n b d H1 H2. by eapply set_data_ok.
  - intros v s n b; intros. by eapply bwrite_ok.
  - intros v s n b; intros. by eapply bpin_ok.
  - intros v s n b; intros. by eapply bunpin_ok.
  - intros v s n b; intros. by eapply brelse_ok.
  - intros v s s'. apply cache_ext.
Qed.

(** ** The cache after boot *)
Definition empty_view (s : kst) : cview := mkCview (k_disk s) (k_disk s) (k_dwrites s) ∅ ∅.

Lemma cache_fresh i dev s0 s :
  dev <> 0 -> (forall b, b_dev (k_bufs s0 !!! b) = 0 /\ b_refcnt (k_bufs s0 !!! b) = 0) ->
  binit_inv s0 NBUF s -> running i s -> cache_ok i dev (empty_view s) s.
Proof.
  intros Hdev H0 [Hl Hs Hsame Hb Hsl _ _] Hr.
  assert (forall b, b_dev (buf_at s b) = 0 /\ b_refcnt (buf_at s b) = 0) as Hz.
  { intros b. specialize (Hsame b). unfold unlinked in Hsame. injection Hsame. intros.
    unfold buf_at. destruct (H0 b). split; congruence. }
  assert (forall b n, ~ caches dev s b n) as Hno by (intros b n (_ & E & _); destruct (Hz b); congruence).
  split; cbn; try done.
  - intros b Hbn. by apply Hsl.
  - exists (reverse (seq 0 NBUF)). split; [done|apply reverse_Permutation|done].
  - intros b c n Hc. by destruct (Hno b n).
  - intros b n Hc. by destruct (Hno b n).
  - intros b _ _. apply Hz.
  - intros b Hbn _. by apply Hsl.
Qed.

(** ** No buffer left *)

(** When NBUF blocks are pinned, every buffer holds one of them. *)
Lemma pinned_buffers i dev v s :
  cache_ok i dev v s -> size (cv_pins v) = NBUF ->
  forall b, (b < NBUF)%nat -> caches dev s b (b_blockno (buf_at s b)) /\ b_blockno (buf_at s b) ∈ cv_pins v.
Proof.
  intros Hok Hsz b Hb. destruct (decide (b_dev (buf_at s b) = dev /\ b_blockno (buf_at s b) ∈ cv_pins v)) as [[Hd Hp]|Hno].
  { split; [|done]. split; [done|]. by split. }
  exfalso. set (bs := seq 0 b ++ seq (S b) (NBUF - S b)).
  assert (cv_pins v ⊆ list_to_set ((fun c => b_blockno (buf_at s c)) <$> bs)) as Hsub.
  { intros n Hn. destruct (co_pins _ _ _ _ Hok n Hn) as (c & Hc & Hcd & <-). apply elem_of_list_to_set.
    apply (list_elem_of_fmap_2 (fun c => b_blockno (buf_at s c))). unfold bs.
    assert (c <> b) as Hcb by (intros ->; by apply Hno). rewrite elem_of_app, !elem_of_seq. lia. }
  apply subseteq_size in Hsub. pose proof (size_list_to_set_le ((fun c => b_blockno (buf_at s c)) <$> bs)) as Hle.
  unfold bs in Hle. rewrite length_fmap, length_app, !length_seq in Hle. fold bs in Hle. lia.
Qed.

Lemma bread_full {DISK : BlockDev} i dev v s n :
  cache_ok i dev v s -> size (cv_pins v) = NBUF -> n ∉ cv_pins v ->
  exists s', bread dev n s = Panic "bget: no buffers" s'.
Proof.
  intros Hok Hsz Hn. pose proof (pinned_buffers i dev v s Hok Hsz) as Hall.
  destruct (co_lru _ _ _ _ Hok) as [order Hlru]. destruct (lru_nodup _ _ Hlru) as [_ Hin].
  assert (bget dev n s = Panic "bget: no buffers" (acquired LK_bcache s)) as E.
  { unfold bget. erewrite bind_Done
      by (apply acquire_eq; [eapply running_cpu_ok, (co_run _ _ _ _ Hok)|apply (co_lock _ _ _ _ Hok)]).
    unfold getb. rewrite bind_gets.
    erewrite bind_Done by (apply (bscan_next _ (acquired LK_bcache s) order); exact Hlru).
    destruct (List.find _ order) as [c|] eqn:E1.
    { apply find_some in E1 as [H1 H2]. apply list_elem_of_In, Hin in H1. destruct (Hall c H1) as [_ Hp].
      apply andb_true_iff in H2 as [_ H2]. apply Z.eqb_eq in H2.
      change (buf_at (acquired LK_bcache s) c) with (buf_at s c) in H2. by rewrite H2 in Hp. }
    rewrite bind_gets.
    erewrite bind_Done by (apply (bscan_prev _ (acquired LK_bcache s) order); exact Hlru).
    destruct (List.find _ (reverse order)) as [c|] eqn:E2; [|done].
    apply find_some in E2 as [H1 H2]. apply list_elem_of_In, elem_of_reverse, Hin in H1.
    destruct (Hall c H1) as [Hc Hp]. destruct (co_buf _ _ _ _ Hok c _ Hc) as [Hr _]. apply Z.eqb_eq in H2.
    change (buf_at (acquired LK_bcache s) c) with (buf_at s c) in H2. rewrite H2 in Hr.
    symmetry in Hr. apply refs_zero in Hr as [_ Hr]. done. }
  exists (acquired LK_bcache s). unfold bread. by erewrite bind_Panic by exact E.
Qed.

(** ** Client programs *)
Inductive cop :=
| CRead (n : Z) | CPut (n : Z) (d : list Z) | CWrite (n : Z) | CPin (n : Z) | CUnpin (n : Z) | CRelease (n : Z).

(** The operation, on the buffer that the client holds for the block. *)
Definition cop_run {DISK : BlockDev} (dev : Z) (o : cop) (v : cview) : K nat :=
  let on n (f : nat -> K unit) :=
    match cv_held v !! n with Some b => f b ;; mret b | None => panic "not held" end in
  match o with
  | CRead n => bread dev n
  | CPut n d => on n (fun b => updb b (set_b_data d))
  | CWrite n => on n bwrite
  | CPin n => on n bpin
  | CUnpin n => on n bunpin
  | CRelease n => on n brelse
  end.

(** When a client may use it, and what it does to the view. *)
Definition allowed (o : cop) (v : cview) : Prop :=
  match o with
  | CRead n => cv_held v !! n = None
      /\ (n ∈ cv_pins v \/ (size (dom (cv_held v) ∪ cv_pins v) < NBUF)%nat)
  | CPut n _ | CWrite n => is_Some (cv_held v !! n)
  | CPin n => is_Some (cv_held v !! n) /\ n ∉ cv_pins v
  | CUnpin n => is_Some (cv_held v !! n) /\ n ∈ cv_pins v
  | CRelease n => is_Some (cv_held v !! n) /\ (n ∈ cv_pins v \/ cv_data v n = cv_disk v n)
  end.
Definition after (o : cop) (b : nat) (v : cview) : cview :=
  match o with
  | CRead n => hold n b v
  | CPut n d => put_data n d v
  | CWrite n => written n v
  | CPin n => pin n v
  | CUnpin n => unpin n v
  | CRelease n => unhold n v
  end.

Fixpoint cops_run {DISK : BlockDev} (dev : Z) (ops : list cop) (v : cview) : K cview :=
  match ops with
  | [] => mret v
  | o :: r => b ← cop_run dev o v; cops_run dev r (after o b v)
  end.
(** The abstract run, with the buffers [bs] that the reads chose. *)
Fixpoint afters (ops : list cop) (bs : list nat) (v : cview) : cview :=
  match ops, bs with
  | o :: r, b :: bs => afters r bs (after o b v)
  | _, _ => v
  end.
Fixpoint allowed_all (ops : list cop) (v : cview) : Prop :=
  match ops with
  | [] => True
  | o :: r => allowed o v /\ forall b, allowed_all r (after o b v)
  end.

Lemma cop_ok {DISK : BlockDev} dev R {BC : BlockCache dev R} o v s :
  R v s -> allowed o v -> exists b s', cop_run dev o v s = Done b s' /\ R (after o b v) s' /\ bio_frame s s'.
Proof.
  intros HR Ha.
  assert (forall n (f : nat -> K unit) v', is_Some (cv_held v !! n) ->
    (forall b, cv_held v !! n = Some b -> exists s', f b s = Done tt s' /\ R v' s' /\ bio_frame s s') ->
    exists b s', match cv_held v !! n with Some b => f b ;; mret b | None => panic "not held" end s = Done b s'
      /\ R v' s' /\ bio_frame s s') as Hon.
  { intros n f v' [b Hb] Hf. destruct (Hf b Hb) as (s' & H1 & H2). exists b, s'. rewrite Hb.
    erewrite bind_Done by exact H1. done. }
  destruct o as [n|n d|n|n|n|n]; cbn [allowed cop_run after] in *.
  - destruct Ha as [H1 H2]. destruct (bc_bread v s n HR H1 H2) as (b & s' & ? & ?). by exists b, s'.
  - apply Hon; [done|]. intros b Hb. eexists. split; [reflexivity|]. exact (bc_put (dev := dev) v s n b d HR Hb).
  - apply Hon; [done|]. intros b Hb. destruct (bc_bwrite v s n b HR Hb) as (s' & ? & ?). by exists s'.
  - destruct Ha as [H1 H2]. apply Hon; [done|]. intros b Hb.
    destruct (bc_bpin v s n b HR Hb H2) as (s' & ? & ?). by exists s'.
  - destruct Ha as [H1 H2]. apply Hon; [done|]. intros b Hb.
    destruct (bc_bunpin v s n b HR Hb H2) as (s' & ? & ?). by exists s'.
  - destruct Ha as [H1 H2]. apply Hon; [done|]. intros b Hb.
    destruct (bc_brelse v s n b HR Hb H2) as (s' & ? & ?). by exists s'.
Qed.


(** From zeroed buffers, binit() makes the cache of an empty view. *)
Lemma binit_cache i dev s :
  dev <> 0 -> k_bufs s = replicate (S NBUF) buf_zero -> running i s ->
  exists s', binit s = Done tt s' /\ cache_ok i dev (empty_view s') s'
    /\ k_disk s' = k_disk s /\ k_dwrites s' = k_dwrites s.
Proof.
  intros Hdev Hz Hr. destruct (binit_ok s) as (s' & E & Hinv); [by rewrite Hz, length_replicate|].
  exists s'. split; [exact E|]. clear E. pose proof (bi_rest _ _ _ Hinv) as (bs & ls & sls & Es).
  split; [|by rewrite Es]. apply (cache_fresh i dev s); [done| |done|].
  - intros b. rewrite Hz. generalize (S NBUF). intros n. clear.
    assert (replicate n buf_zero !!! b = buf_zero) as ->; [|done].
    rewrite list_lookup_total_alt. destruct (_ !! b) eqn:E; [|done]. by apply lookup_replicate in E as [-> _].
  - destruct Hr as [H1 H2 H3 H4 (H5 & H6 & H7)].
    split; [by rewrite Es|done|by rewrite Es|by rewrite Es|].
    split; [by rewrite Es|]. split; [by rewrite Es|]. intros l Hl. by apply (bi_free _ _ _ Hinv), H7.
Qed.

Lemma idle_running : running 0 idle_kst.
Proof. split; [done|unfold NPROC; lia|done|done|apply idle_procs_free]. Qed.

