(* ===== verification/Log.v ===== *)
(** * Log: the redo log of the file system (kernel/log.c) *)

From S2P Require Import Prelude Params Machine Spinlock Uart Printk Sched Sleeplock Blockdev Bio.

Definition upd_log (f : log -> log) : K unit := modify (fun s => set_k_log (f (k_log s)) s).
Definition getlog : K log := gets k_log.

(** ** struct logheader as it lies in a block: n, then LOGBLOCKS ints *)
Definition int_at (data : list Z) (off : nat) : Z := s32 (le_val (bytes_at data off 4)).
Definition put_int (data : list Z) (off : nat) (v : Z) : list Z := put_bytes data off (le_bytes 4 v).

Definition hdr_n (data : list Z) : Z := int_at data 0.
Definition hdr_block (data : list Z) (i : nat) : Z := int_at data (4 + 4 * i).

(** [log.lh.block[i]] *)
Definition lh_at (l : log) (i : nat) : Z := lh_block l !!! i.

(** The copying loops of read_head() and write_head(). *)
Definition read_header (data : list Z) (blocks : list Z) : list Z :=
  foldl (fun bl i => <[i := hdr_block data i]> bl) blocks (seq 0 (Z.to_nat (hdr_n data))).
Definition write_header (l : log) (data : list Z) : list Z :=
  foldl (fun d i => put_int d (4 + 4 * i) (lh_at l i)) (put_int data 0 (lh_n l))
    (seq 0 (Z.to_nat (lh_n l))).

Section log.
Context {DISK : BlockDev}.

(** ** Moving blocks.  [log.lh.n] is read again at each test in the source and
    does not change in the loops. *)
Definition install_round (recovering : bool) (tail : nat) : K unit :=
  l ← getlog;
  when recovering
    (printk (str "recovering tail %d dst %d" ++ [10])
       [AInt (Z.of_nat tail); AInt (lh_at l tail)] ;; mret tt) ;;
  lbuf ← bread (u32 (l_dev l)) (u32 (l_start l + Z.of_nat tail + 1)); (* read log block *)
  l ← getlog;
  dbuf ← bread (u32 (l_dev l)) (u32 (lh_at l tail)); (* read dst *)
  lb ← getb lbuf;
  updb dbuf (set_b_data (b_data lb)) ;; (* copy block to dst *)
  bwrite dbuf ;; (* write dst to disk *)
  when (negb recovering) (bunpin dbuf) ;;
  brelse lbuf ;;
  brelse dbuf.
Definition install_trans (recovering : bool) : K unit :=
  l ← getlog;
  foreach_ (seq 0 (Z.to_nat (lh_n l))) (install_round recovering).

Definition read_head : K unit :=
  l ← getlog;
  buf ← bread (u32 (l_dev l)) (u32 (l_start l));
  lh ← getb buf;
  upd_log (set_lh_n (hdr_n (b_data lh))) ;;
  upd_log (fun l => set_lh_block (read_header (b_data lh) (lh_block l)) l) ;;
  brelse buf.

Definition write_head : K unit :=
  l ← getlog;
  buf ← bread (u32 (l_dev l)) (u32 (l_start l));
  l ← getlog;
  updb buf (fun b => set_b_data (write_header l (b_data b)) b) ;;
  bwrite buf ;;
  brelse buf.

Definition write_log_round (tail : nat) : K unit :=
  l ← getlog;
  to ← bread (u32 (l_dev l)) (u32 (l_start l + Z.of_nat tail + 1)); (* log block *)
  l ← getlog;
  from ← bread (u32 (l_dev l)) (u32 (lh_at l tail)); (* cache block *)
  fb ← getb from;
  updb to (set_b_data (b_data fb)) ;;
  bwrite to ;; (* write the log *)
  brelse from ;;
  brelse to.
Definition write_log : K unit :=
  l ← getlog;
  foreach_ (seq 0 (Z.to_nat (lh_n l))) write_log_round.

Definition recover_from_log : K unit :=
  read_head ;;
  install_trans true ;; (* if committed, copy from log to disk *)
  upd_log (set_lh_n 0) ;;
  write_head. (* clear the log *)

(** The size check of initlog() compares constants: 124 against 1024. *)
Definition initlog (dev : Z) (sb : superblock) : K unit :=
  if 4 + 4 * LOGBLOCKS >=? BSIZE then panic "initlog: too big logheader" else
  initlock LK_log "log" ;;
  upd_log (set_l_start (s32 (sb_logstart sb))) ;;
  upd_log (set_l_dev dev) ;;
  recover_from_log.

(** ** Transactions *)
Definition begin_round : unit -> K (unit + unit) := fun _ =>
  l ← getlog;
  if truthy (l_committing l) then
    sleep CH_log LK_log ;;
    mret (inl tt)
  else if lh_n l + (l_outstanding l + 1) * MAXOPBLOCKS >? LOGBLOCKS then
    (* this op might exhaust log space; wait for commit. *)
    sleep CH_log LK_log ;;
    mret (inl tt)
  else
    upd_log (set_l_outstanding (l_outstanding l + 1)) ;;
    release LK_log ;;
    mret (inr tt).

Definition begin_op : K unit :=
  acquire LK_log ;;
  loop SLEEP_FUEL begin_round tt.

Definition commit : K unit :=
  l ← getlog;
  when (0 <? lh_n l)
    (write_log ;; (* Write modified blocks from cache to log *)
     write_head ;; (* Write header to disk -- the real commit *)
     install_trans false ;; (* Now install writes to home locations *)
     upd_log (set_lh_n 0) ;;
     write_head). (* Erase the transaction from the log *)

Definition end_op : K unit :=
  acquire LK_log ;;
  upd_log (fun l => set_l_outstanding (l_outstanding l - 1) l) ;;
  l ← getlog;
  if truthy (l_committing l) then panic "log.committing" else
  do_commit ← (if l_outstanding l =? 0 then
      upd_log (set_l_committing 1) ;;
      mret true
    else
      (* begin_op() may be waiting for log space, and decrementing
         log.outstanding has decreased the amount of reserved space. *)
      wakeup CH_log ;;
      mret false);
  release LK_log ;;
  when do_commit
    (commit ;;
     acquire LK_log ;;
     upd_log (set_l_committing 0) ;;
     upd_log (fun l => set_l_ncommit (s32 (l_ncommit l + 1)) l) ;;
     wakeup CH_log ;;
     release LK_log).

(** Index of [blockno] among the first [n] logged blocks, or [n]. *)
Fixpoint log_index (blocks : list Z) (n : nat) (blockno : Z) : nat :=
  match n, blocks with
  | S n', b :: r => if u32 b =? blockno then O else S (log_index r n' blockno)
  | _, _ => O
  end.

Definition log_write (b : nat) : K unit :=
  acquire LK_log ;;
  l ← getlog;
  if lh_n l >=? LOGBLOCKS then panic "too big a transaction" else
  if l_outstanding l <? 1 then panic "log_write outside of trans" else
  bf ← getb b;
  let i := log_index (lh_block l) (Z.to_nat (lh_n l)) (b_blockno bf) in (* log absorption *)
  upd_log (fun l => set_lh_block (<[i := s32 (b_blockno bf)]> (lh_block l)) l) ;;
  when (Z.of_nat i =? lh_n l) (* Add new block to log? *)
    (bpin b ;;
     upd_log (fun l => set_lh_n (lh_n l + 1) l)) ;;
  release LK_log.

Definition sys_sync : K Z :=
  acquire LK_log ;;
  l ← getlog;
  when (truthy (l_committing l) || (0 <? l_outstanding l))
    (let n := s32 (l_ncommit l + 1) in
     loop SLEEP_FUEL (fun _ =>
       l ← getlog;
       if l_ncommit l <? n
       then sleep CH_log LK_log ;; mret (inl tt)
       else mret (inr tt)) tt) ;;
  release LK_log ;;
  mret 0.

End log.

(** ** The header block *)
Lemma int_at_put data off v :
  (off + 4 <= length data)%nat -> int_at (put_int data off v) off = s32 v.
Proof.
  intros Hl. unfold int_at, put_int. rewrite <- (Nat.add_0_r off) at 2.
  rewrite bytes_at_put by (rewrite le_bytes_length; lia). unfold bytes_at. rewrite drop_0.
  rewrite take_ge by (rewrite le_bytes_length; lia). rewrite le_val_le_bytes.
  unfold s32, wrap_s. change (8 * Z.of_nat 4) with 32. by rewrite Zplus_mod_idemp_l.
Qed.

Lemma int_at_put_ne data off off' v :
  (off + 4 <= length data)%nat -> (off' + 4 <= off \/ off + 4 <= off')%nat ->
  int_at (put_int data off v) off' = int_at data off'.
Proof.
  intros Hl Ho. unfold int_at, put_int. rewrite bytes_at_put_ne; [done|rewrite le_bytes_length; lia..].
Qed.

Lemma length_put_int data off v :
  (off + 4 <= length data)%nat -> length (put_int data off v) = length data.
Proof. intros Hl. apply length_put_bytes. rewrite le_bytes_length. lia. Qed.

Lemma write_header_prefix l data n :
  (4 + 4 * n <= length data)%nat ->
  let d := foldl (fun d i => put_int d (4 + 4 * i) (lh_at l i)) (put_int data 0 (lh_n l)) (seq 0 n) in
  length d = length data /\ hdr_n d = s32 (lh_n l)
  /\ (forall i, (i < n)%nat -> hdr_block d i = s32 (lh_at l i)).
Proof.
  induction n as [|n IH]; intros Hl d.
  - split; [by apply length_put_int; lia|]. split; [by apply int_at_put; lia|]. lia.
  - destruct IH as (Hlen & Hn & Hb); [lia|]. unfold d. clear d. rewrite seq_S, foldl_app. cbn [foldl].
    rewrite Nat.add_0_l. set (d0 := foldl _ _ _) in *. split_and!.
    + by rewrite length_put_int by lia.
    + rewrite <- Hn. apply int_at_put_ne; lia.
    + intros i Hi. unfold hdr_block. destruct (decide (i = n)) as [->|].
      * apply int_at_put. lia.
      * rewrite int_at_put_ne by lia. apply Hb. lia.
Qed.

Lemma read_header_prefix data blocks n :
  (n <= length blocks)%nat ->
  let bl := foldl (fun bl i => <[i := hdr_block data i]> bl) blocks (seq 0 n) in
  length bl = length blocks /\ forall i, (i < n)%nat -> bl !! i = Some (hdr_block data i).
Proof.
  induction n as [|n IH]; intros Hl bl; [split; [done|lia]|].
  destruct IH as [Hlen Hb]; [lia|]. unfold bl. clear bl. rewrite seq_S, foldl_app. cbn [foldl].
  rewrite Nat.add_0_l. set (b0 := foldl _ _ _) in *. split; [by rewrite length_insert|].
  intros i Hi. destruct (decide (i = n)) as [->|].
  - apply list_lookup_insert_eq. lia.
  - rewrite list_lookup_insert_ne by done. apply Hb. lia.
Qed.

(** ** The log in memory *)

(** The block numbers of the running transaction. *)
Definition logged (l : log) : list Z := take (Z.to_nat (lh_n l)) (lh_block l).

Record log_ok (l : log) : Prop := {
  lo_len : Z.of_nat (length (lh_block l)) = LOGBLOCKS;
  lo_n : 0 <= lh_n l <= LOGBLOCKS;
  lo_blocks : Forall (fun b => 0 <= b < 2 ^ 31) (logged l);
  lo_nodup : NoDup (logged l)
}.

Lemma length_logged l : log_ok l -> Z.of_nat (length (logged l)) = lh_n l.
Proof. intros [Hl Hn _ _]. unfold logged. rewrite length_take. lia. Qed.

(** The log header survives the trip through the disk.  What write_head()
    puts in the header block, read_head() reads back: the number of blocks
    and every block number of the transaction. *)
Lemma log_head_roundtrip l data blocks :
  log_ok l -> Z.of_nat (length data) = BSIZE -> Z.of_nat (length blocks) = LOGBLOCKS ->
  let d := write_header l data in
  length d = length data /\ hdr_n d = lh_n l
  /\ take (Z.to_nat (lh_n l)) (read_header d blocks) = logged l.
Proof.
  intros Hok Hd Hb d. pose proof (length_logged l Hok) as Hlen. destruct Hok as [Hl Hn Hr _].
  unfold BSIZE, LOGBLOCKS, MAXOPBLOCKS in *.
  destruct (write_header_prefix l data (Z.to_nat (lh_n l))) as (H1 & H2 & H3); [lia|].
  assert (hdr_n d = lh_n l) as En by (unfold d, write_header; rewrite H2; apply s32_small; lia).
  split; [exact H1|]. split; [exact En|]. unfold read_header. rewrite En.
  destruct (read_header_prefix d blocks (Z.to_nat (lh_n l))) as (H4 & H5); [lia|].
  set (bl := foldl _ _ _) in *. apply list_eq. intros i.
  destruct (decide (i < Z.to_nat (lh_n l))%nat) as [Hi|Hi].
  2:{ rewrite !lookup_ge_None_2; [done|lia|rewrite length_take; lia]. }
  destruct (lookup_lt_is_Some_2 (logged l) i) as [x Hx]; [lia|].
  rewrite lookup_take_lt, H5, Hx by lia. f_equal. unfold d, write_header. rewrite H3 by lia.
  rewrite Forall_lookup in Hr. specialize (Hr i x Hx). cbn in Hr.
  unfold logged in Hx. rewrite lookup_take_lt in Hx by lia.
  unfold lh_at. rewrite (list_lookup_total_correct _ _ _ Hx). apply s32_small. lia.
Qed.

(** ** Transactions *)

(** What log_write() does to the log, and begin_op()'s two tests. *)
Definition log_add (blockno : Z) (l : log) : log :=
  let i := log_index (lh_block l) (Z.to_nat (lh_n l)) blockno in
  let l1 := set_lh_block (<[i := s32 blockno]> (lh_block l)) l in
  if Z.of_nat i =? lh_n l then set_lh_n (lh_n l1 + 1) l1 else l1.

Definition log_room (l : log) : bool :=
  negb (truthy (l_committing l)) && negb (lh_n l + (l_outstanding l + 1) * MAXOPBLOCKS >? LOGBLOCKS).

Lemma log_index_spec blocks n blockno :
  (n <= length blocks)%nat -> Forall (fun b => 0 <= b < 2 ^ 31) (take n blocks) ->
  ((blockno ∉ take n blocks) /\ log_index blocks n blockno = n)
  \/ ((log_index blocks n blockno < n)%nat /\ blocks !! log_index blocks n blockno = Some blockno).
Proof.
  revert n. induction blocks as [|b r IH]; intros n Hn Hb.
  { destruct n; [left; by split; [apply not_elem_of_nil|]|cbn in Hn; lia]. }
  destruct n as [|n]; [left; split; [apply not_elem_of_nil|done]|]. cbn [log_index take] in *.
  apply Forall_cons in Hb as [Hb1 Hb]. rewrite u32_small by lia.
  destruct (Z.eqb_spec b blockno) as [->|Hne]; [right; split; [lia|done]|].
  destruct (IH n) as [[Hni Hi]|[Hi1 Hi2]]; [cbn in Hn; lia|done| |].
  - left. split; [|by rewrite Hi]. apply not_elem_of_cons. done.
  - right. split; [lia|done].
Qed.

Lemma log_add_logged blockno l :
  log_ok l -> lh_n l < LOGBLOCKS -> 0 <= blockno < 2 ^ 31 ->
  log_ok (log_add blockno l)
  /\ logged (log_add blockno l)
     = (if bool_decide (blockno ∈ logged l) then logged l else logged l ++ [blockno]).
Proof.
  intros Hok Hlt Hb. pose proof (length_logged l Hok) as Hlen. destruct Hok as [Hl Hn Hbs Hnd].
  unfold log_add. set (i := log_index _ _ _).
  destruct (log_index_spec (lh_block l) (Z.to_nat (lh_n l)) blockno) as [[Hni Hi]|[Hi1 Hi2]];
    [lia|exact Hbs| |]; rewrite s32_small by lia.
  - fold i in Hi. rewrite Hi, Z2Nat.id, Z.eqb_refl by lia. rewrite bool_decide_false by done.
    set (l1 := set_lh_n _ _).
    assert (logged l1 = logged l ++ [blockno]) as E.
    { unfold logged, l1. cbn. replace (Z.to_nat (lh_n l + 1)) with (S (Z.to_nat (lh_n l))) by lia.
      rewrite (take_S_r _ _ blockno) by (apply list_lookup_insert_eq; lia).
      by rewrite take_insert_ge by lia. }
    split; [|exact E]. split.
    + unfold l1. cbn. by rewrite length_insert.
    + unfold l1. cbn. lia.
    + rewrite E. apply Forall_app. split; [done|]. by apply Forall_singleton.
    + rewrite E. apply NoDup_app. split; [done|]. split; [|apply NoDup_singleton]. set_solver.
  - fold i in Hi1, Hi2. assert ((Z.of_nat i =? lh_n l) = false) as -> by (apply Z.eqb_neq; lia).
    rewrite bool_decide_true.
    2:{ apply (list_elem_of_lookup_2 _ i). unfold logged. by rewrite lookup_take_lt. }
    rewrite list_insert_id by done. by destruct l.
Qed.

Lemma log_index_new blockno l :
  log_ok l ->
  (Z.of_nat (log_index (lh_block l) (Z.to_nat (lh_n l)) blockno) =? lh_n l)
  = negb (bool_decide (blockno ∈ logged l)).
Proof.
  intros [Hl Hn Hbs _].
  destruct (log_index_spec (lh_block l) (Z.to_nat (lh_n l)) blockno) as [[Hni Hi]|[Hi1 Hi2]];
    [lia|exact Hbs| |].
  - rewrite Hi, bool_decide_false by exact Hni. cbn. apply Z.eqb_eq. lia.
  - rewrite bool_decide_true; [cbn; apply Z.eqb_neq; lia|].
    apply (list_elem_of_lookup_2 _ (log_index (lh_block l) (Z.to_nat (lh_n l)) blockno)).
    unfold logged. by rewrite lookup_take_lt.
Qed.

Section transactions.
Context (s : kst) (Hok : cpu_ok s) (H0 : c_noff (k_cpu s) = 0).
Context (Hf1 : lock_free LK_log s) (Hf2 : lock_free LK_bcache s).
#[local] Abbreviation l := (k_log s).

(** The state after log_write() of a block. *)
Definition log_written (b : nat) : kst :=
  let blockno := b_blockno (buf_at s b) in
  set_k_log (log_add blockno l)
    (set_k_bufs (if bool_decide (blockno ∈ logged l) then k_bufs s
                 else alter (fun x => set_b_refcnt (u32 (b_refcnt x + 1)) x) b (k_bufs s)) (touch s)).

Lemma log_write_eq b :
  log_ok l -> lh_n l < LOGBLOCKS -> 1 <= l_outstanding l ->
  log_write b s = Done tt (log_written b).
Proof using Hok H0 Hf1 Hf2.
  intros Hlog Hlt Hout. unfold log_written. set (blockno := b_blockno (buf_at s b)).
  unfold log_write, getlog. erewrite bind_Done by by apply acquire_eq. rewrite bind_gets.
  change (k_log (acquired LK_log s)) with l.
  rewrite Z.geb_leb. destruct (Z.leb_spec LOGBLOCKS (lh_n l)); [lia|].
  destruct (Z.ltb_spec (l_outstanding l) 1); [lia|]. unfold getb. rewrite bind_gets.
  change (b_blockno (buf_at (acquired LK_log s) b)) with blockno. cbv zeta.
  unfold log_add. set (i := log_index _ _ _).
  assert ((Z.of_nat i =? lh_n l) = negb (bool_decide (blockno ∈ logged l))) as Hi by (by apply log_index_new).
  erewrite bind_Done by reflexivity. rewrite Hi.
  set (s1 := set_k_log _ _).
  destruct (bool_decide (blockno ∈ logged l)); cbn [negb when].
  + rewrite bind_ret, (release_section LK_log s) by done. reflexivity.
  + erewrite bind_assoc.
    2:{ apply bpin_eq; [apply (cpu_ok_pushed s); [done|lia]|].
        destruct Hf2 as [n Hn]. exists n. cbn. by rewrite lookup_insert_ne. }
    cbv beta. unfold upd_log. rewrite bind_modify, (touch_nested s1) by (cbn; lia).
    rewrite (release_section LK_log s) by done. reflexivity.
Qed.

(** Log_write().  Inside a transaction with room in the log it records
    the buffer's block: a block already logged is absorbed (the log is
    unchanged), a new one is appended and its buffer pinned in the cache;
    logged blocks stay distinct and within LOGBLOCKS.  Nothing else changes
    and both locks are free again.  Outside a transaction, or with a full
    log, it panics. *)
Lemma log_write_absorbs b :
  let blockno := b_blockno (buf_at s b) in
  log_ok l -> 0 <= blockno < 2 ^ 31 ->
  (lh_n l < LOGBLOCKS -> 1 <= l_outstanding l ->
     log_write b s = Done tt (log_written b)
     /\ log_ok (log_add blockno l)
     /\ logged (log_add blockno l) = (if bool_decide (blockno ∈ logged l) then logged l else logged l ++ [blockno]))
  /\ (lh_n l = LOGBLOCKS -> exists s', log_write b s = Panic "too big a transaction" s')
  /\ (lh_n l < LOGBLOCKS -> l_outstanding l < 1 ->
      exists s', log_write b s = Panic "log_write outside of trans" s').
Proof using Hok H0 Hf1 Hf2.
  intros blockno Hlog Hb. split_and!.
  - intros Hlt Hout. split; [by apply log_write_eq|by apply log_add_logged].
  - intros Hfull. unfold log_write, getlog. erewrite bind_Done by by apply acquire_eq. rewrite bind_gets.
    change (k_log (acquired LK_log s)) with l. rewrite Hfull, Z.geb_leb, Z.leb_refl. by eexists.
  - intros Hlt Hout. unfold log_write, getlog. erewrite bind_Done by by apply acquire_eq. rewrite bind_gets.
    change (k_log (acquired LK_log s)) with l.
    rewrite Z.geb_leb. destruct (Z.leb_spec LOGBLOCKS (lh_n l)); [lia|].
    destruct (Z.ltb_spec (l_outstanding l) 1); [|lia]. by eexists.
Qed.
End transactions.

Lemma idle_log_locks : lock_free LK_log idle_kst /\ lock_free LK_bcache idle_kst.
Proof. split; by eexists. Qed.

Lemma log_ok_small l : log_ok (mkLog 2 1 0 1 0 1 (45 :: replicate 29 l)).
Proof.
  split; [reflexivity|cbn; unfold LOGBLOCKS, MAXOPBLOCKS; lia| |].
  - cbn. repeat constructor; lia.
  - cbn. apply NoDup_singleton.
Qed.

Lemma log_write_absorbs_witness :
  logged (log_add 0 (mkLog 2 1 0 1 0 1 (45 :: replicate 29 0))) = [45; 0].
Proof.
  destruct idle_procs_free as (Hok & _). destruct idle_log_locks as [H1 H2].
  destruct (log_write_absorbs (set_k_log (mkLog 2 1 0 1 0 1 (45 :: replicate 29 0)) idle_kst)
    Hok eq_refl H1 H2 0) as (H & _); [apply log_ok_small|vm_compute; split; [discriminate|reflexivity]|].
  destruct H as (_ & _ & H); [reflexivity|discriminate|exact H].
Defined.

(** *** Admission and log space *)

Lemma begin_op_admits s :
  cpu_ok s -> lock_free LK_log s -> log_room (k_log s) = true ->
  begin_op s = Done tt (set_k_log (set_l_outstanding (l_outstanding (k_log s) + 1) (k_log s)) (touch s)).
Proof.
  intros Hok Hf Hr. unfold begin_op. erewrite bind_Done by by apply acquire_eq.
  apply loop_done; [unfold SLEEP_FUEL; lia|]. unfold begin_round, getlog. rewrite bind_gets.
  change (k_log (acquired LK_log s)) with (k_log s). unfold log_room in Hr.
  apply andb_true_iff in Hr as [Hr1 Hr2]. apply negb_true_iff in Hr1, Hr2. rewrite Hr1, Hr2.
  unfold upd_log. rewrite bind_modify.
  erewrite bind_Done by (apply (release_section LK_log s); [done|done|reflexivity]). reflexivity.
Qed.

Lemma begin_op_waits i s :
  cpu_ok s -> c_noff (k_cpu s) = 0 -> c_proc (k_cpu s) = Some i -> (i < length (k_procs s))%nat ->
  lock_free LK_log s -> lock_free (LK_proc i) s -> log_room (k_log s) = false ->
  exists k, begin_op s = Yield (asleep i CH_log LK_log (acquired LK_log s)) k.
Proof.
  intros Hok H0 Hp Hi Hf Hfp Hr. unfold begin_op. erewrite bind_Done by by apply acquire_eq.
  set (s1 := acquired LK_log s).
  assert (holds_only i LK_log s1) as Hh.
  { split_and!; [exact Hp|cbn; lia|apply (SIE_pushed s)|apply lock_held_acquired|exact Hi]. }
  destruct (sleep_yields i CH_log LK_log s1 Hh) as (k & Hy & _); [done| |].
  { destruct Hfp as [n Hn]. exists n. cbn. by rewrite lookup_insert_ne. }
  assert (exists k', begin_round tt s1 = Yield (asleep i CH_log LK_log s1) k') as (k' & Hk).
  { unfold log_room in Hr. unfold begin_round, getlog. rewrite bind_gets.
    change (k_log s1) with (k_log s).
    destruct (truthy (l_committing (k_log s))); [by erewrite bind_Yield by exact Hy; eexists|].
    cbn in Hr. apply negb_false_iff in Hr. rewrite Hr.
    by erewrite bind_Yield by exact Hy; eexists. }
  unfold SLEEP_FUEL. cbn [loop]. erewrite bind_Yield by exact Hk. by eexists.
Qed.

(** Running transactions: the log and, for each open file system call, how
    many more blocks it may log.  A call logs at most MAXOPBLOCKS. *)
Inductive log_step : log * list nat -> log * list nat -> Prop :=
| step_begin l ops : log_room l = true ->
    log_step (l, ops) (set_l_outstanding (l_outstanding l + 1) l, Z.to_nat MAXOPBLOCKS :: ops)
| step_write l ops j k b : ops !! j = Some (S k) -> 0 <= b < 2 ^ 31 ->
    log_step (l, ops) (log_add b l, <[j := k]> ops)
| step_end l ops j : is_Some (ops !! j) -> l_outstanding l <> 1 ->
    log_step (l, ops) (set_l_outstanding (l_outstanding l - 1) l, delete j ops)
| step_last l ops j : is_Some (ops !! j) -> l_outstanding l = 1 ->
    log_step (l, ops) (set_l_committing 1 (set_l_outstanding (l_outstanding l - 1) l), delete j ops)
| step_commit l ops : l_committing l = 1 ->
    log_step (l, ops) (set_l_ncommit (s32 (l_ncommit l + 1)) (set_l_committing 0 (set_lh_n 0 l)), ops).

Record space_inv (c : log * list nat) : Prop := {
  si_ok : log_ok c.1;
  si_out : l_outstanding c.1 = Z.of_nat (length c.2);
  si_quota : Forall (fun k => Z.of_nat k <= MAXOPBLOCKS) c.2;
  si_space : lh_n c.1 + Z.of_nat (sum_list c.2) <= LOGBLOCKS;
  si_commit : l_committing c.1 <> 0 -> c.2 = []
}.

Lemma sum_list_le (l : list nat) m : Forall (fun k => Z.of_nat k <= m) l -> Z.of_nat (sum_list l) <= m * Z.of_nat (length l).
Proof. induction 1; cbn; lia. Qed.

Lemma sum_list_insert (l : list nat) j k k' :
  l !! j = Some k -> (sum_list (<[j := k']> l) + k = sum_list l + k')%nat.
Proof.
  revert j. induction l as [|x l IH]; intros [|j] Hj; try done; [injection Hj as ->; cbn; lia|].
  change (<[S j := k']> (x :: l)) with (x :: <[j := k']> l). specialize (IH j Hj).
  unfold sum_list in *. cbn [sum_list_with]. lia.
Qed.

Lemma sum_list_delete (l : list nat) j : (sum_list (delete j l) <= sum_list l)%nat.
Proof.
  revert j. induction l as [|x l IH]; intros [|j]; [cbn; lia..|].
  change (delete (S j) (x :: l)) with (x :: delete j l). specialize (IH j).
  unfold sum_list in *. cbn [sum_list_with]. lia.
Qed.

Lemma log_add_n b l : lh_n (log_add b l) <= lh_n l + 1 /\ l_outstanding (log_add b l) = l_outstanding l
  /\ l_committing (log_add b l) = l_committing l.
Proof. unfold log_add. destruct (_ =? _); cbn; lia. Qed.

Lemma log_step_inv c c' : log_step c c' -> space_inv c -> space_inv c'.
Proof.
  intros Hs [Hok Ho Hq Hsp Hcm].
  destruct Hs as [l ops Hr|l ops j k b Hj Hb|l ops j [k Hj] Hne|l ops j [k Hj] Heq|l ops Hc];
    cbn [fst snd] in *.
  - apply andb_true_iff in Hr as [Hc Hr]. apply negb_true_iff in Hr, Hc. rewrite Z.gtb_ltb in Hr.
    apply Z.ltb_ge in Hr. pose proof (sum_list_le _ _ Hq).
    split; [by destruct Hok|cbn; lia|by constructor|cbn; unfold MAXOPBLOCKS in *; lia|].
    intros Hn. cbn in Hn. unfold truthy in Hc. apply negb_false_iff, Z.eqb_eq in Hc. done.
  - destruct (log_add_n b l) as (Hn & Hout & Hcom). pose proof (sum_list_insert ops j (S k) k Hj).
    split; cbn [fst snd]; rewrite ?Hout, ?Hcom, ?length_insert; [|done| |lia|].
    + apply log_add_logged; [done|lia|done].
    + apply Forall_insert; [done|]. apply Forall_lookup with (i := j) (x := S k) in Hq; [lia|done].
    + intros E. by rewrite (Hcm E) in Hj.
  - pose proof (lookup_lt_Some _ _ _ Hj). pose proof (sum_list_delete ops j).
    split; [by destruct Hok|cbn; rewrite length_delete by done; lia|by apply Forall_delete|cbn; lia|].
    intros E. by rewrite (Hcm E) in Hj.
  - pose proof (lookup_lt_Some _ _ _ Hj). pose proof (sum_list_delete ops j).
    assert (length (delete j ops) = 0%nat) as Hz by (rewrite length_delete by done; lia).
    split; [by destruct Hok|cbn; lia|by apply Forall_delete|cbn; lia|].
    intros _. by apply nil_length_inv.
  - pose proof (lo_n _ Hok). split; [|done|done|cbn; lia|done].
    destruct Hok. split; cbn; [done|lia| |]; unfold logged; cbn; constructor.
Qed.

Lemma log_steps_inv c c' : rtc log_step c c' -> space_inv c -> space_inv c'.
Proof. induction 1; eauto using log_step_inv. Qed.


