(* ===== verification/Crash.v ===== *)
(** * Crash: the commit protocol survives crashes (kernel/log.c)

    commit() writes the blocks of a transaction to the log, then the header
    that names them, then the blocks to their homes, then an empty header.
    The first half of the file is about disks alone: whatever prefix of these
    writes reaches the disk, and however often recovery is itself cut short,
    a complete recovery leaves all of the transaction or none of it.  The
    second half shows that commit() and recover_from_log() perform exactly
    these writes, using the buffer cache through [BlockCache]. *)

From S2P Require Import Prelude Params Machine Spinlock Uart Printk Sched Sleeplock Blockdev Bio Bcache Log.

(** ** Disks and sequences of block writes *)
Definition apply_writes (d : Z -> list Z) (ws : list (Z * list Z)) : Z -> list Z :=
  foldl (fun d w => upd d w.1 w.2) d ws.

Lemma apply_writes_app d ws1 ws2 : apply_writes d (ws1 ++ ws2) = apply_writes (apply_writes d ws1) ws2.
Proof. apply foldl_app. Qed.

Lemma apply_writes_snoc d ws n x : apply_writes d (ws ++ [(n, x)]) = upd (apply_writes d ws) n x.
Proof. by rewrite apply_writes_app. Qed.

Lemma apply_writes_out d ws n : n ∉ ws.*1 -> apply_writes d ws n = d n.
Proof.
  induction ws as [|[m x] ws IH] using rev_ind; [done|].
  rewrite apply_writes_snoc, fmap_app. cbn. rewrite elem_of_app, list_elem_of_singleton. intros Hn.
  rewrite upd_ne by tauto. apply IH. tauto.
Qed.

Lemma apply_writes_in d ws n x : NoDup ws.*1 -> (n, x) ∈ ws -> apply_writes d ws n = x.
Proof.
  induction ws as [|[m y] ws IH] using rev_ind; [by intros _ ?%not_elem_of_nil|].
  rewrite fmap_app, NoDup_app, elem_of_app, list_elem_of_singleton, apply_writes_snoc.
  intros (Hnd & Hdis & _) [Hin|[= -> ->]]; [|apply upd_eq].
  rewrite upd_ne; [by apply IH|]. intros ->.
  apply (Hdis m); [apply list_elem_of_fmap; by exists (m, x)|]. by apply list_elem_of_singleton.
Qed.

(** The blocks a header names. *)
Definition hdr_homes (h : list Z) : list Z := hdr_block h <$> seq 0 (Z.to_nat (hdr_n h)).

(** The writes of recover_from_log() on disk [d] with the log at [start], and
    a recovery that is cut short. *)
Definition recovery_writes (start : Z) (d : Z -> list Z) : list (Z * list Z) :=
  imap (fun i h => (h, d (start + Z.of_nat i + 1))) (hdr_homes (d start)) ++ [(start, put_int (d start) 0 0)].
Definition recovered (start : Z) (d : Z -> list Z) : Z -> list Z := apply_writes d (recovery_writes start d).
Definition cut_short (start : Z) (d d' : Z -> list Z) : Prop :=
  exists j, d' = apply_writes d (take j (recovery_writes start d)).

Lemma hdr_n_cleared h : (4 <= length h)%nat -> hdr_n (put_int h 0 0) = 0.
Proof. intros Hl. unfold hdr_n. by rewrite int_at_put. Qed.

Section protocol.
Context (start : Z) (d0 : Z -> list Z) (homes : list Z) (data : Z -> list Z) (hdr hdr0 : list Z).

(** The blocks of the log: the header and LOGBLOCKS blocks after it. *)
Definition in_log (m : Z) : Prop := start <= m <= start + LOGBLOCKS.

Definition log_copies : list (Z * list Z) := imap (fun i h => (start + Z.of_nat i + 1, data h)) homes.
Definition home_copies : list (Z * list Z) := (fun h => (h, data h)) <$> homes.
Definition commit_writes : list (Z * list Z) :=
  log_copies ++ [(start, hdr)] ++ home_copies ++ [(start, hdr0)].

(** The disk before the commit, between the commit point and the end, and
    after. *)
Record before (d : Z -> list Z) : Prop := {
  be_hdr : hdr_n (d start) = 0;
  be_len : (4 <= length (d start))%nat;
  be_rest m : ~ in_log m -> d m = d0 m
}.
Record committed (d : Z -> list Z) : Prop := {
  cm_homes : hdr_homes (d start) = homes;
  cm_len : (4 <= length (d start))%nat;
  cm_log i h : homes !! i = Some h -> d (start + Z.of_nat i + 1) = data h;
  cm_rest m : ~ in_log m -> m ∉ homes -> d m = d0 m
}.
Definition new_disk (m : Z) : list Z := if bool_decide (m ∈ homes) then data m else d0 m.
Record complete (d : Z -> list Z) : Prop := {
  cp_hdr : hdr_n (d start) = 0;
  cp_len : (4 <= length (d start))%nat;
  cp_rest m : ~ in_log m -> d m = new_disk m
}.

Record protocol_ok : Prop := {
  po_nodup : NoDup homes;
  po_len : Z.of_nat (length homes) <= LOGBLOCKS;
  po_out h : h ∈ homes -> ~ in_log h;
  po_hdr : hdr_homes hdr = homes;
  po_hdr_len : (4 <= length hdr)%nat;
  po_hdr0 : hdr_n hdr0 = 0;
  po_hdr0_len : (4 <= length hdr0)%nat;
  po_d0 : hdr_n (d0 start) = 0;
  po_d0_len : (4 <= length (d0 start))%nat
}.
Hypothesis Hok : protocol_ok.

Lemma start_in_log : in_log start.
Proof. unfold in_log, LOGBLOCKS, MAXOPBLOCKS. lia. Qed.

Lemma log_copies_keys k x : (k, x) ∈ log_copies ->
  exists i h, homes !! i = Some h /\ k = start + Z.of_nat i + 1 /\ x = data h /\ in_log k /\ k <> start.
Proof using Hok.
  intros (i & Hi)%list_elem_of_lookup. unfold log_copies in Hi. rewrite list_lookup_imap in Hi.
  destruct (homes !! i) as [h|] eqn:E; [|done]. injection Hi as <- <-. exists i, h.
  apply lookup_lt_Some in E as Hl. pose proof (po_len Hok). unfold in_log. split_and!; [done|done|done|lia..].
Qed.

Lemma log_copies_nodup : NoDup log_copies.*1.
Proof using Hok.
  assert (log_copies.*1 = (fun i => start + Z.of_nat i + 1) <$> seq 0 (length homes)) as ->.
  { unfold log_copies. apply list_eq. intros i. rewrite !list_lookup_fmap, list_lookup_imap.
    destruct (homes !! i) eqn:E; cbn.
    - apply lookup_lt_Some in E. by rewrite lookup_seq_lt by lia.
    - apply lookup_ge_None in E. by rewrite lookup_seq_ge by lia. }
  apply NoDup_fmap_2; [intros x y; lia|apply NoDup_seq].
Qed.

Lemma take_keys {A B} (l : list (A * B)) j k : k ∈ (take j l).*1 -> k ∈ l.*1.
Proof. rewrite fmap_take. intros (i & Hi)%list_elem_of_lookup. eapply list_elem_of_lookup_2. by apply lookup_take_Some in Hi as [? _]. Qed.

Lemma log_copies_out m j : ~ in_log m \/ m = start -> m ∉ (take j log_copies).*1.
Proof using Hok.
  intros Hm ([k x] & -> & (i & h & _ & _ & _ & H1 & H2)%log_copies_keys)%take_keys%list_elem_of_fmap.
  cbn in *. destruct Hm; done.
Qed.

(** Before the header is written, the log blocks do not count. *)
Lemma prefix_before j : before (apply_writes d0 (take j log_copies)).
Proof using Hok.
  split; intros; rewrite ?apply_writes_out by (apply log_copies_out; auto);
    [apply Hok..|done].
Qed.

Lemma header_committed : committed (apply_writes d0 (log_copies ++ [(start, hdr)])).
Proof using Hok.
  rewrite apply_writes_snoc. pose proof start_in_log as Hs. split.
  - rewrite upd_eq. apply Hok.
  - rewrite upd_eq. apply Hok.
  - intros i h Hi. assert ((start + Z.of_nat i + 1, data h) ∈ log_copies) as Hin.
    { apply list_elem_of_lookup. exists i. unfold log_copies. rewrite list_lookup_imap, Hi. done. }
    rewrite upd_ne by lia. by apply apply_writes_in; [apply log_copies_nodup|].
  - intros m Hm _. rewrite upd_ne by (intros ->; done). apply apply_writes_out.
    rewrite <- (take_ge log_copies (length log_copies)) by done. apply log_copies_out. auto.
Qed.

(** Writing home blocks keeps it committed; clearing the header when all are
    written completes it. *)
Lemma home_writes_committed d (ws : list (Z * list Z)) :
  committed d -> (forall k, k ∈ ws.*1 -> k ∈ homes) -> committed (apply_writes d ws).
Proof using Hok.
  intros [H1 H2 H3 H4] Hk. assert (forall m, in_log m -> m ∉ ws.*1) as Hlog
    by (intros m Hm Hin; by apply (po_out Hok m), Hm; apply Hk).
  pose proof start_in_log as Hs. split.
  - by rewrite apply_writes_out by auto.
  - by rewrite apply_writes_out by auto.
  - intros i h Hi. rewrite apply_writes_out; [by apply H3|]. apply Hlog.
    apply lookup_lt_Some in Hi. pose proof (po_len Hok). unfold in_log. lia.
  - intros m Hm Hmh. rewrite apply_writes_out; [by apply H4|]. auto.
Qed.

Lemma homes_written_complete d h0 :
  committed d -> hdr_n h0 = 0 -> (4 <= length h0)%nat ->
  complete (apply_writes d (home_copies ++ [(start, h0)])).
Proof using Hok.
  intros [H1 H2 H3 H4] Hh Hl. rewrite apply_writes_snoc. pose proof start_in_log as Hs.
  assert (home_copies.*1 = homes) as Ek.
  { unfold home_copies. rewrite <- list_fmap_compose. by apply list_fmap_id. }
  split; [by rewrite upd_eq..|]. intros m Hm. rewrite upd_ne by (intros ->; done). unfold new_disk.
  case_bool_decide as Hmh.
  - apply apply_writes_in; [by rewrite Ek; apply Hok|]. unfold home_copies.
    apply list_elem_of_fmap. by exists m.
  - rewrite apply_writes_out by (by rewrite Ek). by apply H4.
Qed.

Lemma length_log_copies : length log_copies = length homes.
Proof. apply length_imap. Qed.

Lemma home_copies_keys j k : k ∈ (take j home_copies).*1 -> k ∈ homes.
Proof.
  intros Hk%take_keys. unfold home_copies in Hk. rewrite <- list_fmap_compose in Hk.
  apply list_elem_of_fmap in Hk as (h & -> & Hh). done.
Qed.

(** The disk after the first [k] writes of a commit. *)
Lemma commit_prefix k :
  let d := apply_writes d0 (take k commit_writes) in
  if decide (k <= length homes)%nat then before d else committed d \/ complete d.
Proof using Hok.
  intros d. unfold d, commit_writes. pose proof length_log_copies as Hl. clear d.
  destruct (decide (k <= length homes)%nat) as [Hk|Hk].
  { rewrite take_app_le by lia. apply prefix_before. }
  rewrite take_app_ge by lia. destruct (k - length log_copies)%nat as [|j] eqn:Ej; [lia|].
  change (take (S j) ([(start, hdr)] ++ ?x)) with ([(start, hdr)] ++ take j x).
  rewrite app_assoc, apply_writes_app. pose proof header_committed as Hc.
  destruct (decide (j <= length home_copies)%nat) as [Hj|Hj].
  - left. rewrite take_app_le by lia. apply home_writes_committed; [done|apply home_copies_keys].
  - right. rewrite take_ge by (rewrite length_app; cbn; lia). apply homes_written_complete; [done|apply Hok..].
Qed.

Lemma commit_complete : complete (apply_writes d0 commit_writes).
Proof using Hok.
  unfold commit_writes. rewrite app_assoc, apply_writes_app.
  apply homes_written_complete; [apply header_committed|apply Hok..].
Qed.

(** Recovery. *)
Lemma recovery_writes_empty d :
  hdr_n (d start) = 0 -> recovery_writes start d = [(start, put_int (d start) 0 0)].
Proof. intros H. unfold recovery_writes, hdr_homes. by rewrite H. Qed.

Lemma recovery_writes_committed d :
  committed d -> recovery_writes start d = home_copies ++ [(start, put_int (d start) 0 0)].
Proof.
  intros [H1 H2 H3 H4]. unfold recovery_writes. f_equal. rewrite H1. unfold home_copies.
  apply list_eq. intros i. rewrite list_lookup_imap, list_lookup_fmap.
  destruct (homes !! i) as [h|] eqn:E; [|done]. cbn. by rewrite (H3 i h E).
Qed.

(** A disk with an empty header stays as it is outside the log. *)
Lemma empty_cut_short d j :
  hdr_n (d start) = 0 -> (4 <= length (d start))%nat ->
  let d' := apply_writes d (take j (recovery_writes start d)) in
  hdr_n (d' start) = 0 /\ (4 <= length (d' start))%nat /\ forall m, ~ in_log m -> d' m = d m.
Proof.
  intros H Hl d'. unfold d'. rewrite recovery_writes_empty by done. destruct j as [|j]; [done|].
  change (take (S j) [(start, put_int (d start) 0 0)]) with ([(start, put_int (d start) 0 0)] ++ take j []).
  rewrite take_nil. change (apply_writes d _) with (upd d start (put_int (d start) 0 0)).
  rewrite upd_eq. split; [by apply hdr_n_cleared|]. split; [by rewrite length_put_int by lia|].
  intros m Hm. rewrite upd_ne; [done|]. intros ->. by apply Hm, start_in_log.
Qed.

Lemma cut_short_before d j : before d -> before (apply_writes d (take j (recovery_writes start d))).
Proof.
  intros [H1 H2 H3]. destruct (empty_cut_short d j H1 H2) as (E1 & E2 & E3).
  split; [done|done|]. intros m Hm. rewrite E3 by done. by apply H3.
Qed.
Lemma cut_short_complete d j : complete d -> complete (apply_writes d (take j (recovery_writes start d))).
Proof.
  intros [H1 H2 H3]. destruct (empty_cut_short d j H1 H2) as (E1 & E2 & E3).
  split; [done|done|]. intros m Hm. rewrite E3 by done. by apply H3.
Qed.

Lemma recovered_committed d : committed d -> complete (recovered start d).
Proof using Hok.
  intros Hc. unfold recovered. rewrite recovery_writes_committed by done. pose proof (cm_len _ Hc).
  apply homes_written_complete; [done|by apply hdr_n_cleared|by rewrite length_put_int by lia].
Qed.

Lemma cut_short_committed d j :
  committed d -> let d' := apply_writes d (take j (recovery_writes start d)) in committed d' \/ complete d'.
Proof using Hok.
  intros Hc d'. unfold d'. destruct (decide (j <= length home_copies)%nat) as [Hj|Hj].
  - left. rewrite recovery_writes_committed, take_app_le by (done || lia).
    apply home_writes_committed; [done|apply home_copies_keys].
  - right. rewrite take_ge; [by apply recovered_committed|].
    rewrite recovery_writes_committed, length_app by done. cbn. lia.
Qed.

(** All or nothing, after any number of recoveries that were cut short. *)
Lemma crashes_before d d' : rtc (cut_short start) d d' -> before d -> before d'.
Proof. induction 1 as [|d d1 d2 [j ->] _ IH]; [done|]. intros H. by apply IH, cut_short_before. Qed.

Lemma crashes_after d d' :
  rtc (cut_short start) d d' -> committed d \/ complete d -> committed d' \/ complete d'.
Proof using Hok.
  induction 1 as [|d d1 d2 [j ->] _ IH]; [done|]. intros H. apply IH.
  destruct H as [H|H]; [by apply cut_short_committed|right; by apply cut_short_complete].
Qed.

Lemma recovered_full d : recovered start d = apply_writes d (take (length (recovery_writes start d)) (recovery_writes start d)).
Proof. by rewrite take_ge. Qed.

Lemma crash_atomic k d :
  rtc (cut_short start) (apply_writes d0 (take k commit_writes)) d ->
  forall m, ~ in_log m ->
  recovered start d m = if decide (k <= length homes)%nat then d0 m else new_disk m.
Proof using Hok.
  intros Hr m Hm. pose proof (commit_prefix k) as Hp. cbv zeta in Hp. destruct (decide _).
  - apply crashes_before in Hr; [|done]. rewrite recovered_full. by apply cut_short_before.
  - apply crashes_after in Hr; [|done]. destruct Hr as [Hr|Hr].
    + by apply recovered_committed.
    + rewrite recovered_full. by apply cut_short_complete.
Qed.
End protocol.

(** ** What the kernel writes *)
Section kernel.
Context {DISK : BlockDev} (dev : Z) (R : cview -> kst -> Prop) {BC : BlockCache dev R}.

(** The cache shows view [v], the log is [l], and printk() works. *)
Record ls (v : cview) (l : log) (s : kst) : Prop := {
  ls_R : R v s;
  ls_log : k_log s = l;
  ls_panicking : k_panicking s = 0;
  ls_panicked : k_panicked s = 0;
  ls_pr : lock_free LK_pr s
}.

Lemma ls_frame v l s v' s' : ls v l s -> R v' s' -> bio_frame s s' -> ls v' l s'.
Proof.
  intros [_ Hl Hp Hq Hf] HR (Hs & El & _ & Ep & Eq & _). split; [done|congruence..|by eapply lock_free_settled].
Qed.

Lemma ls_set_log v l l' s : ls v l s -> ls v l' (set_k_log l' s).
Proof.
  intros [HR Hl Hp Hq Hf]. split; [|done..]. eapply (bc_ext (dev := dev)); [exact HR|by apply settled_hw|done..].
Qed.

Lemma ls_bread v l s n :
  ls v l s -> cv_held v !! n = None -> n ∈ cv_pins v \/ (size (dom (cv_held v) ∪ cv_pins v) < NBUF)%nat ->
  exists b s', bread dev n s = Done b s' /\ ls (hold n b v) l s'.
Proof using BC.
  intros H H1 H2. destruct (bc_bread v s n (ls_R _ _ _ H) H1 H2) as (b & s' & E & HR & Hf).
  exists b, s'. split; [done|by eapply ls_frame].
Qed.

Lemma ls_put v l s n b d :
  ls v l s -> cv_held v !! n = Some b ->
  ls (put_data n d v) l (set_k_bufs (alter (set_b_data d) b (k_bufs s)) s).
Proof using BC.
  intros H H1. destruct (bc_put (dev := dev) v s n b d (ls_R _ _ _ H) H1) as [HR Hf]. by eapply ls_frame.
Qed.

Lemma ls_bwrite v l s n b :
  ls v l s -> cv_held v !! n = Some b -> exists s', bwrite b s = Done tt s' /\ ls (written n v) l s'.
Proof using BC.
  intros H H1. destruct (bc_bwrite v s n b (ls_R _ _ _ H) H1) as (s' & E & HR & Hf).
  exists s'. split; [done|by eapply ls_frame].
Qed.

Lemma ls_bunpin v l s n b :
  ls v l s -> cv_held v !! n = Some b -> n ∈ cv_pins v ->
  exists s', bunpin b s = Done tt s' /\ ls (unpin n v) l s'.
Proof using BC.
  intros H H1 H2. destruct (bc_bunpin (dev := dev) v s n b (ls_R _ _ _ H) H1 H2) as (s' & E & HR & Hf).
  exists s'. split; [done|by eapply ls_frame].
Qed.

Lemma ls_brelse v l s n b :
  ls v l s -> cv_held v !! n = Some b -> n ∈ cv_pins v \/ cv_data v n = cv_disk v n ->
  exists s', brelse b s = Done tt s' /\ ls (unhold n v) l s'.
Proof using BC.
  intros H H1 H2. destruct (bc_brelse (dev := dev) v s n b (ls_R _ _ _ H) H1 H2) as (s' & E & HR & Hf).
  exists s'. split; [done|by eapply ls_frame].
Qed.

Lemma ls_printk v l s fmt args :
  ls v l s -> exists s', printk fmt args s = Done 0 s' /\ ls v l s'.
Proof using BC.
  intros [HR Hl Hp Hq Hf]. destruct (bc_idle (dev := dev) v s HR) as [Hc Hn].
  destruct (printk_out fmt args s) as (u & E & _); [done|done|lia|].
  eexists. split; [exact E|]. assert (settled s (set_k_uart u (touch s))) as Hs by by apply settled_touch.
  split; [|done..|by eapply lock_free_settled]. eapply (bc_ext (dev := dev)); [exact HR|done..].
Qed.

(** Block [n] gets contents [d], in the cache and on the disk. *)
Definition copied (n : Z) (d : list Z) (v : cview) : cview :=
  mkCview (upd (cv_data v) n d) (upd (cv_disk v) n d) (cv_writes v ++ [(n, d)]) (cv_held v) (cv_pins v).

Lemma written_put n d v : written n (put_data n d v) = copied n d v.
Proof. unfold written, put_data, copied. cbn. by rewrite upd_eq. Qed.

(** *** write_head() *)
Record log_cfg (l : log) : Prop := {
  lc_dev : u32 (l_dev l) = dev;
  lc_start : 0 <= l_start l;
  lc_end : l_start l + LOGBLOCKS < 2 ^ 31
}.

Lemma log_block_u32 l k : log_cfg l -> 0 <= k <= LOGBLOCKS -> u32 (l_start l + k) = l_start l + k.
Proof. intros [_ H1 H2] Hk. apply u32_small. lia. Qed.

Lemma log_head_u32 l : log_cfg l -> u32 (l_start l) = l_start l.
Proof. intros [_ H1 H2]. apply u32_small. unfold LOGBLOCKS, MAXOPBLOCKS in H2. lia. Qed.

Lemma write_head_ok v l s :
  ls v l s -> log_cfg l -> cv_held v = ∅ -> (size (cv_pins v) < NBUF)%nat -> l_start l ∉ cv_pins v ->
  exists s', write_head s = Done tt s'
    /\ ls (copied (l_start l) (write_header l (cv_disk v (l_start l))) v) l s'.
Proof using BC.
  intros H Hc Hh Hsz Hnp. unfold write_head, getlog. rewrite bind_gets, (ls_log _ _ _ H), (lc_dev _ Hc).
  rewrite (log_head_u32 l Hc).
  destruct (ls_bread v l s (l_start l)) as (b & s1 & E1 & H1); [done|by rewrite Hh|right; by rewrite Hh, dom_empty_L, union_empty_l_L|].
  assert (cv_data v (l_start l) = cv_disk v (l_start l)) as Ed
    by (apply (bc_clean (dev := dev) v s); [apply H|by rewrite Hh|done]).
  erewrite bind_Done by exact E1. rewrite bind_gets, (ls_log _ _ _ H1).
  assert (cv_held (hold (l_start l) b v) !! l_start l = Some b) as Hb by apply lookup_insert_eq.
  assert (b_data (buf_at s1 b) = cv_disk v (l_start l)) as Ebd.
  { rewrite (bc_data (dev := dev) _ s1 _ b (ls_R _ _ _ H1) Hb). exact Ed. }
  set (d := write_header l (cv_disk v (l_start l))).
  assert (updb b (fun x => set_b_data (write_header l (b_data x)) x) s1
          = Done tt (set_k_bufs (alter (set_b_data d) b (k_bufs s1)) s1)) as E2.
  { unfold updb, modify. do 2 f_equal. unfold d. rewrite <- Ebd. unfold buf_at. apply list_eq. intros j.
    destruct (decide (b = j)) as [<-|]; [|by rewrite !list_lookup_alter_ne]. rewrite !list_lookup_alter_eq.
    destruct (k_bufs s1 !! b) as [x|] eqn:Ex; [|done]. cbn. by rewrite (list_lookup_total_correct _ _ _ Ex). }
  erewrite bind_Done by exact E2. pose proof (ls_put _ _ _ _ _ d H1 Hb) as H2.
  destruct (ls_bwrite _ _ _ _ _ H2 Hb) as (s3 & E3 & H3). erewrite bind_Done by exact E3.
  rewrite written_put in H3.
  destruct (ls_brelse _ _ _ (l_start l) b H3 Hb) as (s4 & E4 & H4); [right; cbn; by rewrite !upd_eq|].
  exists s4. split; [done|]. change (copied (l_start l) d (hold (l_start l) b v))
    with (hold (l_start l) b (copied (l_start l) d v)) in H4. by rewrite unhold_hold in H4 by (cbn; by rewrite Hh).
Qed.

(** *** Copying one block *)

(** Two blocks held at once, released in either order. *)
Lemma unhold_two_1 n m b c v :
  n <> m -> cv_held v = ∅ -> unhold n (unhold m (hold m c (hold n b v))) = v.
Proof.
  intros Hne Hh. rewrite unhold_hold; [|cbn; rewrite Hh; by rewrite lookup_insert_ne].
  apply unhold_hold. by rewrite Hh.
Qed.
Lemma unhold_two_2 n m b c v :
  n <> m -> cv_held v = ∅ -> unhold m (unhold n (hold m c (hold n b v))) = v.
Proof.
  intros Hne Hh. rewrite <- (unhold_two_1 n m b c v Hne Hh) at 2. unfold unhold. cbn. by rewrite delete_delete.
Qed.

Lemma room_one n b v :
  cv_held v = ∅ -> (size (cv_pins v) + 1 < NBUF)%nat -> (size (dom (cv_held (hold n b v)) ∪ cv_pins v) < NBUF)%nat.
Proof.
  intros Hh Hsz. cbn. rewrite Hh, insert_empty, dom_singleton_L.
  rewrite size_union_alt, size_singleton.
  pose proof (subseteq_size (cv_pins v ∖ {[n]}) (cv_pins v) ltac:(set_solver)). lia.
Qed.

Lemma write_log_round_ok v l s k :
  ls v l s -> log_cfg l -> cv_held v = ∅ -> (size (cv_pins v) < NBUF)%nat ->
  Z.of_nat k < LOGBLOCKS -> 0 <= lh_at l k < 2 ^ 31 -> lh_at l k ∈ cv_pins v ->
  l_start l + Z.of_nat k + 1 <> lh_at l k ->
  exists s', write_log_round k s = Done tt s'
    /\ ls (copied (l_start l + Z.of_nat k + 1) (cv_data v (lh_at l k)) v) l s'.
Proof using BC.
  intros H Hc Hh Hsz Hk Hb Hp Hne. set (L := l_start l + Z.of_nat k + 1) in *. set (h := lh_at l k) in *.
  unfold write_log_round, getlog. rewrite bind_gets, (ls_log _ _ _ H), (lc_dev _ Hc). fold L.
  assert (u32 L = L) as -> by (unfold L; rewrite <- Z.add_assoc; apply log_block_u32; [done|lia]).
  destruct (ls_bread v l s L) as (b1 & s1 & E1 & H1); [done|by rewrite Hh|right; by rewrite Hh, dom_empty_L, union_empty_l_L|].
  erewrite bind_Done by exact E1. rewrite bind_gets, (ls_log _ _ _ H1), (lc_dev _ Hc). fold h.
  rewrite (u32_small h) by lia.
  destruct (ls_bread _ l s1 h H1) as (b2 & s2 & E2 & H2); [cbn; rewrite Hh; by rewrite lookup_insert_ne|by left|].
  erewrite bind_Done by exact E2. unfold getb. rewrite bind_gets.
  set (v2 := hold h b2 (hold L b1 v)) in *.
  assert (cv_held v2 !! h = Some b2) as Hh2 by apply lookup_insert_eq.
  assert (cv_held v2 !! L = Some b1) as HL2 by (cbn; rewrite lookup_insert_ne by done; apply lookup_insert_eq).
  rewrite (bc_data (dev := dev) _ s2 _ b2 (ls_R _ _ _ H2) Hh2). change (cv_data v2 h) with (cv_data v h).
  unfold updb. rewrite bind_modify. pose proof (ls_put _ _ _ _ _ (cv_data v h) H2 HL2) as H3.
  destruct (ls_bwrite _ _ _ _ _ H3 HL2) as (s4 & E4 & H4). erewrite bind_Done by exact E4.
  rewrite written_put in H4.
  destruct (ls_brelse _ _ _ h b2 H4 Hh2) as (s5 & E5 & H5); [by left|]. erewrite bind_Done by exact E5.
  destruct (ls_brelse _ _ _ L b1 H5) as (s6 & E6 & H6).
  { cbn. rewrite lookup_delete_ne by done. exact HL2. }
  { right. cbn. by rewrite !upd_eq. }
  exists s6. split; [done|].
  change (copied L (cv_data v h) v2) with (hold h b2 (hold L b1 (copied L (cv_data v h) v))) in H6.
  by rewrite unhold_two_1 in H6.
Qed.

(** install_trans() takes the pin off when it is not recovering. *)
Definition uninstalled (recovering : bool) (h : Z) (v : cview) : cview :=
  if recovering then v else unpin h v.

Lemma install_round_ok (rec : bool) v l s k :
  ls v l s -> log_cfg l -> cv_held v = ∅ ->
  (if rec then cv_pins v = ∅ else (size (cv_pins v) < NBUF)%nat /\ lh_at l k ∈ cv_pins v) ->
  Z.of_nat k < LOGBLOCKS -> 0 <= lh_at l k < 2 ^ 31 ->
  l_start l + Z.of_nat k + 1 <> lh_at l k -> l_start l + Z.of_nat k + 1 ∉ cv_pins v ->
  exists s', install_round rec k s = Done tt s'
    /\ ls (uninstalled rec (lh_at l k) (copied (lh_at l k) (cv_disk v (l_start l + Z.of_nat k + 1)) v)) l s'.
Proof using BC.
  intros H Hc Hh Hp Hk Hb Hne HLp. set (L := l_start l + Z.of_nat k + 1) in *. set (h := lh_at l k) in *.
  assert (size (cv_pins v) < NBUF)%nat as Hsz by (destruct rec; [rewrite Hp, size_empty; unfold NBUF; lia|apply Hp]).
  assert (cv_data v L = cv_disk v L) as Ed by (apply (bc_clean (dev := dev) v s); [apply H|by rewrite Hh|done]).
  unfold install_round, getlog. rewrite bind_gets, (ls_log _ _ _ H), (lc_dev _ Hc). fold L h.
  assert (exists s0, when rec (printk (str "recovering tail %d dst %d" ++ [10]) [AInt (Z.of_nat k); AInt h] ;; mret tt) s
     = Done tt s0 /\ ls v l s0) as (s0 & E0 & H0).
  { destruct rec; cbn [when]; [|by exists s].
    destruct (ls_printk v l s (str "recovering tail %d dst %d" ++ [10]) [AInt (Z.of_nat k); AInt h] H) as (s0 & E0 & H0).
    exists s0. split; [|done]. by erewrite bind_Done by exact E0. }
  erewrite bind_Done by exact E0.
  assert (u32 L = L) as -> by (unfold L; rewrite <- Z.add_assoc; apply log_block_u32; [done|lia]).
  destruct (ls_bread v l s0 L) as (b1 & s1 & E1 & H1); [done|by rewrite Hh|right; by rewrite Hh, dom_empty_L, union_empty_l_L|].
  erewrite bind_Done by exact E1. rewrite bind_gets, (ls_log _ _ _ H1), (lc_dev _ Hc). fold h.
  rewrite (u32_small h) by lia.
  destruct (ls_bread _ l s1 h H1) as (b2 & s2 & E2 & H2); [cbn; rewrite Hh; by rewrite lookup_insert_ne| |].
  { destruct rec; [right|by left; apply Hp]. apply (room_one L b1 v); [done|]. rewrite Hp, size_empty. unfold NBUF. lia. }
  erewrite bind_Done by exact E2. unfold getb. rewrite bind_gets.
  set (v2 := hold h b2 (hold L b1 v)) in *.
  assert (cv_held v2 !! h = Some b2) as Hh2 by apply lookup_insert_eq.
  assert (cv_held v2 !! L = Some b1) as HL2 by (cbn; rewrite lookup_insert_ne by done; apply lookup_insert_eq).
  rewrite (bc_data (dev := dev) _ s2 _ b1 (ls_R _ _ _ H2) HL2). change (cv_data v2 L) with (cv_data v L). rewrite Ed.
  unfold updb. rewrite bind_modify. pose proof (ls_put _ _ _ _ _ (cv_disk v L) H2 Hh2) as H3.
  destruct (ls_bwrite _ _ _ _ _ H3 Hh2) as (s4 & E4 & H4). erewrite bind_Done by exact E4.
  rewrite written_put in H4.
  assert (exists s5, when (negb rec) (bunpin b2) s4 = Done tt s5
     /\ ls (uninstalled rec h (copied h (cv_disk v L) v2)) l s5) as (s5 & E5 & H5).
  { destruct rec; cbn [when negb]; [by exists s4|]. eapply ls_bunpin; [exact H4|exact Hh2|apply Hp]. }
  erewrite bind_Done by exact E5.
  assert (forall v', cv_held (uninstalled rec h v') = cv_held v' /\ cv_data (uninstalled rec h v') = cv_data v'
     /\ cv_disk (uninstalled rec h v') = cv_disk v') as Hun by (intros v'; by destruct rec).
  destruct (ls_brelse _ _ _ L b1 H5) as (s6 & E6 & H6).
  { destruct (Hun (copied h (cv_disk v L) v2)) as (-> & _). exact HL2. }
  { right. destruct (Hun (copied h (cv_disk v L) v2)) as (_ & -> & ->). cbn. by rewrite !upd_ne. }
  erewrite bind_Done by exact E6.
  destruct (ls_brelse _ _ _ h b2 H6) as (s7 & E7 & H7).
  { cbn. rewrite lookup_delete_ne by done. destruct (Hun (copied h (cv_disk v L) v2)) as (-> & _). exact Hh2. }
  { right. cbn. destruct (Hun (copied h (cv_disk v L) v2)) as (_ & -> & ->). cbn. by rewrite !upd_eq. }
  exists s7. split; [done|].
  assert (uninstalled rec h (copied h (cv_disk v L) v2)
    = hold h b2 (hold L b1 (uninstalled rec h (copied h (cv_disk v L) v)))) as Ev by by destruct rec.
  rewrite Ev, unhold_two_2 in H7; [done|done|]. destruct (Hun (copied h (cv_disk v L) v)) as (-> & _). done.
Qed.

(** *** The loops *)

(** View [v] comes from [v0] by the disk writes [ws], and nothing is held. *)
Record progress (v0 v : cview) (ws : list (Z * list Z)) : Prop := {
  pr_held : cv_held v = ∅;
  pr_writes : cv_writes v = cv_writes v0 ++ ws;
  pr_disk : cv_disk v = apply_writes (cv_disk v0) ws
}.

Lemma progress_nil v : cv_held v = ∅ -> progress v v [].
Proof. intros H. split; [done|by rewrite app_nil_r|done]. Qed.

Lemma progress_copied v0 v ws n d : progress v0 v ws -> progress v0 (copied n d v) (ws ++ [(n, d)]).
Proof.
  intros [H1 H2 H3]. split; cbn; [done|by rewrite H2, app_assoc|]. by rewrite H3, apply_writes_snoc.
Qed.

Lemma progress_trans v0 v1 v2 ws1 ws2 :
  progress v0 v1 ws1 -> progress v1 v2 ws2 -> progress v0 v2 (ws1 ++ ws2).
Proof.
  intros [H1 H2 H3] [H4 H5 H6]. split; [done|by rewrite H5, H2, app_assoc|]. by rewrite H6, H3, apply_writes_app.
Qed.

(** The transaction in memory: block numbers outside the log. *)
Record txn_ok (l : log) (homes : list Z) : Prop := {
  tx_cfg : log_cfg l;
  tx_n : lh_n l = Z.of_nat (length homes);
  tx_len : Z.of_nat (length homes) <= LOGBLOCKS;
  tx_at k h : homes !! k = Some h -> lh_at l k = h;
  tx_range h : h ∈ homes -> 0 <= h < 2 ^ 31;
  tx_out h : h ∈ homes -> ~ in_log (l_start l) h
}.

Section loops.
Context (v0 : cview) (l : log) (homes : list Z) (Htx : txn_ok l homes).

Lemma log_block_out k h : (k < length homes)%nat -> h ∈ homes -> l_start l + Z.of_nat k + 1 <> h.
Proof using Htx.
  intros Hk Hh <-. apply (tx_out _ _ Htx _ Hh). pose proof (tx_len _ _ Htx). unfold in_log. lia.
Qed.

Lemma write_log_ok s :
  ls v0 l s -> cv_held v0 = ∅ -> cv_pins v0 = list_to_set homes -> (length homes < NBUF)%nat ->
  exists v s', write_log s = Done tt s' /\ ls v l s'
    /\ progress v0 v (log_copies (l_start l) homes (cv_data v0)) /\ cv_pins v = cv_pins v0.
Proof using Htx BC.
  intros H Hh Hp Hlt. unfold write_log, getlog. rewrite bind_gets, (ls_log _ _ _ H), (tx_n _ _ Htx), Nat2Z.id.
  set (C := log_copies (l_start l) homes (cv_data v0)).
  assert (length C = length homes) as HlC by apply length_log_copies.
  destruct (foreach_seq write_log_round (fun k s => exists v, ls v l s /\ progress v0 v (take k C)
    /\ cv_pins v = cv_pins v0 /\ forall m, ~ in_log (l_start l) m -> cv_data v m = cv_data v0 m) 0 (length homes) s)
    as (s' & E & v & H1 & H2 & H3 & _).
  - intros k s1 Hk (v & H1 & H2 & H3 & H4).
    destruct (lookup_lt_is_Some_2 homes k) as [h Hkh]; [lia|]. apply list_elem_of_lookup_2 in Hkh as Hin.
    pose proof (tx_at _ _ Htx _ _ Hkh) as Eh. pose proof (tx_len _ _ Htx) as Hlen.
    assert (size (cv_pins v) < NBUF)%nat as Hsz.
    { rewrite H3, Hp. eapply Nat.le_lt_trans; [apply size_list_to_set_le|done]. }
    destruct (write_log_round_ok v l s1 k) as (s2 & E2 & H5); rewrite ?Eh; try done.
    + apply Htx.
    + apply H2.
    + lia.
    + by apply (tx_range _ _ Htx).
    + rewrite H3, Hp. by apply elem_of_list_to_set.
    + apply log_block_out; [lia|done].
    + exists s2. split; [done|]. eexists. rewrite Eh in H5. split; [exact H5|].
      rewrite (H4 h) by by apply (tx_out _ _ Htx). split; [|split].
      * rewrite (take_S_r C k (l_start l + Z.of_nat k + 1, cv_data v0 h)); [by apply progress_copied|].
        unfold C, log_copies. by rewrite list_lookup_imap, Hkh.
      * exact H3.
      * intros m Hm. cbn. rewrite upd_ne; [by apply H4|]. intros ->. apply Hm. unfold in_log. lia.
  - exists v0. split; [done|]. split; [by apply progress_nil|done].
  - exists v, s'. rewrite Nat.add_0_l, take_ge in H2 by lia. done.
Qed.

(** The home writes of install_trans(). *)
Definition installs (d : Z -> list Z) : list (Z * list Z) :=
  imap (fun i h => (h, d (l_start l + Z.of_nat i + 1))) homes.

Lemma installs_key d k m : m ∈ (take k (installs d)).*1 -> m ∈ homes.
Proof.
  intros Hm%take_keys. apply list_elem_of_fmap in Hm as ([h x] & -> & (i & Hi)%list_elem_of_lookup).
  unfold installs in Hi. rewrite list_lookup_imap in Hi. destruct (homes !! i) as [h'|] eqn:E; [|done].
  injection Hi as <- _. by eapply list_elem_of_lookup_2.
Qed.

Lemma install_trans_ok (rec : bool) s :
  ls v0 l s -> cv_held v0 = ∅ ->
  (if rec then cv_pins v0 = ∅ else cv_pins v0 = list_to_set homes /\ NoDup homes /\ (length homes < NBUF)%nat) ->
  exists v s', install_trans rec s = Done tt s' /\ ls v l s'
    /\ progress v0 v (installs (cv_disk v0)) /\ cv_pins v = ∅.
Proof using Htx BC.
  intros H Hh Hp. unfold install_trans, getlog. rewrite bind_gets, (ls_log _ _ _ H), (tx_n _ _ Htx), Nat2Z.id.
  set (C := installs (cv_disk v0)).
  assert (length C = length homes) as HlC by apply length_imap.
  destruct (foreach_seq (install_round rec) (fun k s => exists v, ls v l s /\ progress v0 v (take k C)
    /\ cv_pins v = if rec then ∅ else list_to_set (drop k homes)) 0 (length homes) s)
    as (s' & E & v & H1 & H2 & H3).
  - intros k s1 Hk (v & H1 & H2 & H3).
    destruct (lookup_lt_is_Some_2 homes k) as [h Hkh]; [lia|]. apply list_elem_of_lookup_2 in Hkh as Hin.
    pose proof (tx_at _ _ Htx _ _ Hkh) as Eh. pose proof (tx_len _ _ Htx) as Hlen.
    assert (drop k homes = h :: drop (S k) homes) as Edrop by (by apply drop_S).
    assert (forall m, m ∈ cv_pins v -> m ∈ homes) as Hpins.
    { intros m. rewrite H3. destruct rec; [set_solver|]. rewrite elem_of_list_to_set. intros Hm.
      apply list_elem_of_lookup in Hm as [j Hj]. rewrite lookup_drop in Hj. by eapply list_elem_of_lookup_2. }
    destruct (install_round_ok rec v l s1 k) as (s2 & E2 & H5); rewrite ?Eh; try done.
    + apply Htx.
    + apply H2.
    + destruct rec; [done|]. rewrite H3. split.
      * eapply Nat.le_lt_trans; [apply size_list_to_set_le|]. rewrite length_drop. lia.
      * rewrite Edrop. set_solver.
    + lia.
    + by apply (tx_range _ _ Htx).
    + apply log_block_out; [lia|done].
    + intros Hm%Hpins. by apply (log_block_out k _ ltac:(lia) Hm).
    + exists s2. split; [done|]. eexists. rewrite Eh in H5. split; [exact H5|].
      assert (cv_disk v (l_start l + Z.of_nat k + 1) = cv_disk v0 (l_start l + Z.of_nat k + 1)) as Ed.
      { rewrite (pr_disk _ _ _ H2). apply apply_writes_out. intros Hm%installs_key.
        by apply (log_block_out k _ ltac:(lia) Hm). }
      rewrite Ed. set (d := cv_disk v0 _) in *. split.
      * rewrite (take_S_r C k (h, d)) by (unfold C, installs; by rewrite list_lookup_imap, Hkh).
        apply (progress_copied _ _ _ h d) in H2. by destruct rec; destruct H2; split.
      * destruct rec; [exact H3|]. cbn. rewrite H3, Edrop. destruct Hp as (_ & Hnd & _).
        assert (h ∉ drop (S k) homes) as Hn.
        { rewrite <- (take_drop k homes), Edrop in Hnd. apply NoDup_app in Hnd as (_ & _ & Hnd).
          by apply NoDup_cons in Hnd as [? _]. }
        rewrite list_to_set_cons. apply leibniz_equiv. set_solver.
  - exists v0. split; [done|]. split; [by apply progress_nil|]. destruct rec; [done|]. by destruct Hp as [-> _].
  - exists v, s'. rewrite Nat.add_0_l, take_ge in H2 by lia. split; [done|]. split; [done|]. split; [done|].
    rewrite H3. destruct rec; [done|]. by rewrite Nat.add_0_l, drop_ge by lia.
Qed.
End loops.

(** *** commit() *)
Definition commit_hdr (l : log) (d : Z -> list Z) : list Z := write_header l (d (l_start l)).
Definition clear_hdr (l : log) (d : Z -> list Z) : list Z := write_header (set_lh_n 0 l) (commit_hdr l d).
Definition txn_writes (l : log) (v : cview) : list (Z * list Z) :=
  commit_writes (l_start l) (logged l) (cv_data v) (commit_hdr l (cv_disk v)) (clear_hdr l (cv_disk v)).

Lemma write_header_empty l d : write_header (set_lh_n 0 l) d = put_int d 0 0.
Proof. done. Qed.

Lemma write_header_homes l d :
  log_ok l -> (128 <= length d)%nat -> length (write_header l d) = length d /\ hdr_homes (write_header l d) = logged l.
Proof.
  intros Hl Hd. pose proof (length_logged l Hl) as Hlen. destruct Hl as [Hb Hn Hr _].
  unfold LOGBLOCKS, MAXOPBLOCKS in *.
  destruct (write_header_prefix l d (Z.to_nat (lh_n l))) as (H1 & H2 & H3); [lia|].
  fold (write_header l d) in H1, H2, H3. rewrite s32_small in H2 by lia. split; [done|].
  unfold hdr_homes. rewrite H2. apply list_eq. intros i. rewrite list_lookup_fmap.
  destruct (decide (i < Z.to_nat (lh_n l))%nat) as [Hi|Hi].
  - rewrite lookup_seq_lt by done. destruct (lookup_lt_is_Some_2 (logged l) i) as [x Hx]; [lia|].
    rewrite Hx. cbn. rewrite H3 by done. f_equal. rewrite Forall_lookup in Hr. specialize (Hr i x Hx). cbn in Hr.
    unfold logged in Hx. rewrite lookup_take_lt in Hx by lia.
    unfold lh_at. rewrite (list_lookup_total_correct _ _ _ Hx). apply s32_small. lia.
  - rewrite lookup_seq_ge by lia. rewrite lookup_ge_None_2 by lia. done.
Qed.

Lemma logged_txn l :
  log_cfg l -> log_ok l -> (forall h, h ∈ logged l -> ~ in_log (l_start l) h) -> txn_ok l (logged l).
Proof.
  intros Hc Hl Ho. pose proof (length_logged l Hl) as Hlen. destruct Hl as [Hb Hn Hr _].
  split; [done|lia|lia| | |done].
  - intros k h Hk. apply lookup_lt_Some in Hk as Hkl. unfold logged in Hk. rewrite lookup_take_lt in Hk by lia.
    by apply list_lookup_total_correct.
  - rewrite Forall_forall in Hr. exact Hr.
Qed.

Section commit.
Context (v : cview) (l : log) (Hc : log_cfg l) (Hl : log_ok l).
Context (Hout : forall h, h ∈ logged l -> ~ in_log (l_start l) h).
Context (Hd0 : hdr_n (cv_disk v (l_start l)) = 0) (Hlen0 : Z.of_nat (length (cv_disk v (l_start l))) = BSIZE).

Lemma commit_protocol :
  protocol_ok (l_start l) (cv_disk v) (logged l) (commit_hdr l (cv_disk v)) (clear_hdr l (cv_disk v)).
Proof using Hl Hout Hd0 Hlen0.
  unfold BSIZE in Hlen0. destruct (write_header_homes l (cv_disk v (l_start l)) Hl) as [H1 H2]; [lia|].
  pose proof (length_logged l Hl) as Hlen. pose proof (lo_n _ Hl).
  split; [apply Hl|lia|exact Hout|exact H2|unfold commit_hdr; lia| | |exact Hd0|lia];
    unfold clear_hdr; rewrite write_header_empty; unfold commit_hdr.
  - apply hdr_n_cleared. lia.
  - rewrite length_put_int by lia. lia.
Qed.

Lemma commit_ok s :
  ls v l s -> cv_held v = ∅ -> cv_pins v = list_to_set (logged l) -> 0 < lh_n l < Z.of_nat NBUF ->
  exists v' s', commit s = Done tt s' /\ ls v' (set_lh_n 0 l) s'
    /\ progress v v' (txn_writes l v) /\ cv_pins v' = ∅.
Proof using BC Hc Hl Hout Hd0 Hlen0.
  intros H Hh Hp Hn. pose proof commit_protocol as Hpo. pose proof (logged_txn l Hc Hl Hout) as Htx.
  pose proof (length_logged l Hl) as Hlen.
  assert (forall m, m ∈ logged l -> m <> l_start l) as Hns.
  { intros m Hm ->. apply (Hout _ Hm), start_in_log. }
  unfold commit, getlog. rewrite bind_gets, (ls_log _ _ _ H). destruct (Z.ltb_spec 0 (lh_n l)); [|lia]. cbn [when].
  destruct (write_log_ok v l _ Htx s) as (v1 & s1 & E1 & H1 & P1 & Q1); [done|done|done|lia|].
  erewrite bind_Done by exact E1.
  assert (cv_disk v1 (l_start l) = cv_disk v (l_start l)) as D1.
  { rewrite (pr_disk _ _ _ P1). apply apply_writes_out.
    rewrite <- (take_ge (log_copies (l_start l) (logged l) (cv_data v)) _ (Nat.le_refl _)).
    eapply log_copies_out; [exact Hpo|by right]. }
  destruct (write_head_ok v1 l s1) as (s2 & E2 & H2); [done|done|apply P1| | |].
  { rewrite Q1, Hp. eapply Nat.le_lt_trans; [apply size_list_to_set_le|lia]. }
  { rewrite Q1, Hp, elem_of_list_to_set. intros Hm. by apply (Hns _ Hm). }
  erewrite bind_Done by exact E2. rewrite D1 in H2. fold (commit_hdr l (cv_disk v)) in H2.
  apply (progress_copied _ _ _ (l_start l) (commit_hdr l (cv_disk v))) in P1. set (v2 := copied _ _ v1) in *.
  assert (committed (l_start l) (cv_disk v) (logged l) (cv_data v) (cv_disk v2)) as C2.
  { rewrite (pr_disk _ _ _ P1). by eapply header_committed. }
  destruct (install_trans_ok v2 l _ Htx false s2) as (v3 & s3 & E3 & H3 & P3 & Q3); [done|apply P1| |].
  { split; [exact (eq_trans Q1 Hp)|]. split; [apply Hl|lia]. }
  erewrite bind_Done by exact E3.
  assert (installs l (logged l) (cv_disk v2) = home_copies (logged l) (cv_data v)) as Ei.
  { pose proof (recovery_writes_committed _ _ _ _ _ C2) as Er. unfold recovery_writes in Er.
    rewrite (cm_homes _ _ _ _ _ C2) in Er. apply app_inj_tail in Er as [Er _]. exact Er. }
  rewrite Ei in P3.
  assert (cv_disk v3 (l_start l) = commit_hdr l (cv_disk v)) as D3.
  { rewrite (pr_disk _ _ _ P3), apply_writes_out; [apply upd_eq|].
    rewrite <- (take_ge (home_copies (logged l) (cv_data v)) _ (Nat.le_refl _)).
    intros Hm%home_copies_keys. by apply (Hns _ Hm). }
  unfold upd_log. rewrite bind_modify, (ls_log _ _ _ H3).
  apply (ls_set_log _ _ (set_lh_n 0 l)) in H3.
  destruct (write_head_ok v3 (set_lh_n 0 l) _ H3) as (s4 & E4 & H4).
  { by destruct Hc. }
  { apply P3. }
  { rewrite Q3, size_empty. unfold NBUF. lia. }
  { rewrite Q3. set_solver. }
  eexists _, s4. split; [exact E4|]. split; [exact H4|]. split; [|exact Q3].
  change (l_start (set_lh_n 0 l)) with (l_start l). rewrite D3. fold (clear_hdr l (cv_disk v)).
  unfold txn_writes, commit_writes. rewrite app_assoc.
  apply (progress_trans _ v2); [exact P1|]. by apply progress_copied.
Qed.
End commit.

(** *** recover_from_log() *)
Lemma recover_ok v l s :
  let h := cv_disk v (l_start l) in
  ls v l s -> log_cfg l -> cv_held v = ∅ -> cv_pins v = ∅ ->
  Z.of_nat (length (lh_block l)) = LOGBLOCKS -> 0 <= hdr_n h <= LOGBLOCKS ->
  (forall b, b ∈ hdr_homes h -> 0 <= b < 2 ^ 31 /\ ~ in_log (l_start l) b) ->
  exists v' l' s', recover_from_log s = Done tt s' /\ ls v' l' s' /\ lh_n l' = 0
    /\ progress v v' (recovery_writes (l_start l) (cv_disk v)) /\ cv_pins v' = ∅.
Proof using BC.
  intros h H Hc Hh Hp Hlen Hn Hhomes.
  assert (size (cv_pins v) < NBUF)%nat as Hsz by (rewrite Hp, size_empty; unfold NBUF; lia).
  unfold recover_from_log, read_head, getlog.
  (* read_head *)
  destruct (ls_bread v l s (l_start l)) as (b & s1 & E1 & H1); [done|by rewrite Hh|right; by rewrite Hh, dom_empty_L, union_empty_l_L|].
  assert (cv_held (hold (l_start l) b v) !! l_start l = Some b) as Hb by apply lookup_insert_eq.
  assert (b_data (buf_at s1 b) = h) as Eb.
  { rewrite (bc_data (dev := dev) _ s1 _ b (ls_R _ _ _ H1) Hb).
    apply (bc_clean (dev := dev) v s); [apply H|by rewrite Hh|by rewrite Hp]. }
  set (l1 := set_lh_block (read_header h (lh_block l)) (set_lh_n (hdr_n h) l)).
  assert (exists s2, read_head s = Done tt s2 /\ ls v l1 s2) as (s2 & E2 & H2).
  { unfold read_head, getlog. rewrite bind_gets, (ls_log _ _ _ H), (lc_dev _ Hc), (log_head_u32 l Hc).
    erewrite bind_Done by exact E1. unfold getb. rewrite bind_gets, Eb. unfold upd_log. rewrite !bind_modify.
    cbn [k_log set_k_log]. rewrite (ls_log _ _ _ H1). fold l1.
    apply (ls_set_log _ _ (set_lh_n (hdr_n h) l)), (ls_set_log _ _ l1) in H1.
    destruct (ls_brelse _ _ _ _ _ H1 Hb) as (s2 & E2 & H2).
    { right. cbn. apply (bc_clean (dev := dev) v s); [apply H|by rewrite Hh|by rewrite Hp]. }
    exists s2. split; [exact E2|]. by rewrite unhold_hold in H2 by (by rewrite Hh). }
  fold getlog. fold read_head. erewrite bind_Done by exact E2.
  (* install_trans *)
  assert (txn_ok l1 (hdr_homes h)) as Htx.
  { assert (length (hdr_homes h) = Z.to_nat (hdr_n h)) as Hhl by (unfold hdr_homes; by rewrite length_fmap, length_seq).
    destruct (read_header_prefix h (lh_block l) (Z.to_nat (hdr_n h))) as [_ Hrd]; [lia|].
    split; [by destruct Hc|cbn; lia|lia| |intros m Hm; by apply Hhomes|intros m Hm; by apply Hhomes].
    intros k m Hk. unfold hdr_homes in Hk. rewrite list_lookup_fmap in Hk.
    destruct (seq 0 _ !! k) as [k'|] eqn:Es; [|done]. apply lookup_seq in Es as [-> Hk']. injection Hk as <-.
    apply list_lookup_total_correct. exact (Hrd (0 + k)%nat Hk'). }
  destruct (install_trans_ok v l1 _ Htx true s2) as (v3 & s3 & E3 & H3 & P3 & Q3); [done|done|done|].
  erewrite bind_Done by exact E3. unfold upd_log. rewrite bind_modify, (ls_log _ _ _ H3).
  apply (ls_set_log _ _ (set_lh_n 0 l1)) in H3.
  (* write_head *)
  destruct (write_head_ok v3 (set_lh_n 0 l1) _ H3) as (s4 & E4 & H4).
  { by destruct Hc. }
  { apply P3. }
  { rewrite Q3, size_empty. unfold NBUF. lia. }
  { rewrite Q3. set_solver. }
  assert (cv_disk v3 (l_start l) = h) as D3.
  { rewrite (pr_disk _ _ _ P3), apply_writes_out; [done|].
    rewrite <- (take_ge (installs l1 (hdr_homes h) (cv_disk v)) _ (Nat.le_refl _)).
    intros Hm%installs_key. apply Hhomes in Hm as [_ Hm]. apply Hm, start_in_log. }
  eexists _, _, s4. split; [exact E4|]. split; [exact H4|]. split; [done|]. split; [|exact Q3].
  rewrite write_header_empty. change (l_start (set_lh_n 0 l1)) with (l_start l). rewrite D3.
  by apply (progress_copied _ _ _ (l_start l) (put_int h 0 0)) in P3.
Qed.
End kernel.

(** ** Crash safety of the kernel's log *)

(** What a disk reached by crashes in the middle of a commit says in its
    header. *)
Lemma crash_header start d0 homes data hdr hdr0 k d :
  protocol_ok start d0 homes hdr hdr0 -> (0 < length homes)%nat ->
  rtc (cut_short start) (apply_writes d0 (take k (commit_writes start homes data hdr hdr0))) d ->
  0 <= hdr_n (d start) <= LOGBLOCKS /\ (forall b, b ∈ hdr_homes (d start) -> b ∈ homes).
Proof.
  intros Hpo Hne Hr. pose proof (commit_prefix start d0 homes data hdr hdr0 Hpo k) as Hp. cbv zeta in Hp.
  assert (hdr_n (d start) = 0 \/ hdr_homes (d start) = homes) as [E|E].
  { destruct (decide _).
    - apply (crashes_before _ d0) in Hr; [|done]. left. apply Hr.
    - eapply crashes_after in Hr; [|exact Hpo|exact Hp]. destruct Hr as [Hr|Hr]; [right|left]; apply Hr. }
  - unfold hdr_homes. rewrite E. unfold LOGBLOCKS, MAXOPBLOCKS. split; [lia|]. by intros b ?%not_elem_of_nil.
  - pose proof (po_len _ _ _ _ _ Hpo) as Hl. rewrite <- E in Hne, Hl. rewrite E. split; [|done].
    unfold hdr_homes in Hne, Hl. rewrite length_fmap, length_seq in Hne, Hl. lia.
Qed.

Section crash_safety.
Context {DISK : BlockDev} {SYNC : SyncDisk} (i : nat) (dev : Z).
#[local] Abbreviation logst := (ls (cache_ok i dev)).

(** C9: a transaction is atomic across crashes.  commit() of a transaction
    with fewer than NBUF blocks returns, having written exactly: the new
    contents of each block to the log, the header that names the blocks, the
    blocks to their homes, and an empty header; every block outside the log
    then has its new contents on the disk.  If instead the machine stops
    after any number [k] of these writes, and recoveries are themselves cut
    short any number of times, then the next recover_from_log() returns and
    every block outside the log holds what it held before the commit when the
    header had not been written ([k] at most the number of blocks), and its
    new contents otherwise. *)
Theorem commit_crash_safe v l s :
  logst v l s -> cv_held v = ∅ -> cv_pins v = list_to_set (logged l) ->
  log_cfg dev l -> log_ok l -> 0 < lh_n l < Z.of_nat NBUF ->
  (forall h, h ∈ logged l -> ~ in_log (l_start l) h) ->
  hdr_n (k_disk s (l_start l)) = 0 -> Z.of_nat (length (k_disk s (l_start l))) = BSIZE ->
  let ws := txn_writes l v in
  (exists s', commit s = Done tt s' /\ k_dwrites s' = k_dwrites s ++ ws /\ k_disk s' = apply_writes (k_disk s) ws
     /\ forall m, ~ in_log (l_start l) m -> k_disk s' m = cv_data v m)
  /\ forall k d lr r, rtc (cut_short (l_start l)) (apply_writes (k_disk s) (take k ws)) d ->
     logst (empty_view r) lr r -> k_disk r = d -> log_cfg dev lr -> l_start lr = l_start l ->
     Z.of_nat (length (lh_block lr)) = LOGBLOCKS ->
     exists r', recover_from_log r = Done tt r' /\ k_dwrites r' = k_dwrites r ++ recovery_writes (l_start l) d
       /\ forall m, ~ in_log (l_start l) m ->
            k_disk r' m = if decide (k <= length (logged l))%nat then k_disk s m else cv_data v m.
Proof using SYNC.
  intros H Hh Hp Hc Hl Hn Hout Hd0 Hl0 ws. destruct (bc_disk (dev := dev) v s (ls_R _ _ _ _ H)) as [Ed Ew].
  rewrite Ed in *. pose proof (commit_protocol v l Hl Hout Hd0 Hl0) as Hpo.
  pose proof (length_logged l Hl) as Hlen.
  assert (forall m, new_disk (cv_disk v) (logged l) (cv_data v) m = cv_data v m) as Hnew.
  { intros m. unfold new_disk. case_bool_decide as Hm; [done|]. symmetry.
    apply (bc_clean (dev := dev) v s); [apply H|by rewrite Hh|]. by rewrite Hp, elem_of_list_to_set. }
  split.
  - destruct (commit_ok dev (cache_ok i dev) v l Hc Hl Hout Hd0 Hl0 s H Hh Hp Hn) as (v' & s' & E & H' & P & _).
    exists s'. split; [done|]. destruct (bc_disk (dev := dev) v' s' (ls_R _ _ _ _ H')) as [-> ->]. rewrite Ew.
    split; [apply P|]. split; [apply P|]. intros m Hm. rewrite (pr_disk _ _ _ P), <- Hnew.
    by apply (commit_complete _ _ _ _ _ _ Hpo).
  - intros k d lr r Hr Hlr Hd Hcr Est Hlb.
    destruct (crash_header _ _ _ _ _ _ _ _ Hpo ltac:(lia) Hr) as [Hhn Hhh].
    destruct (recover_ok dev (cache_ok i dev) (empty_view r) lr r) as (v' & l' & r' & E & H' & _ & P & _);
      rewrite ?Est in *; try done.
    { cbn. by rewrite Hd. }
    { cbn. rewrite Hd. intros b Hb%Hhh. split; [|by apply Hout].
      pose proof (lo_blocks _ Hl) as Hbl. rewrite Forall_forall in Hbl. by apply Hbl. }
    exists r'. split; [done|]. destruct (bc_disk (dev := dev) v' r' (ls_R _ _ _ _ H')) as [-> ->].
    rewrite (pr_writes _ _ _ P), (pr_disk _ _ _ P). cbn [empty_view cv_disk cv_writes]. rewrite Hd. split; [done|].
    intros m Hm. rewrite <- Hnew. by apply (crash_atomic _ _ _ _ _ _ Hpo).
Qed.

(** C39: a full log cannot be committed.  begin_op() admits transactions of up
    to LOGBLOCKS blocks, but every logged block is pinned in the cache, which
    has NBUF = LOGBLOCKS buffers: with LOGBLOCKS distinct blocks logged, the
    first thing commit() does, reading a log block, panics with "bget: no
    buffers". *)
Theorem commit_full_log_panics v l s :
  logst v l s -> cv_held v = ∅ -> cv_pins v = list_to_set (logged l) ->
  log_cfg dev l -> log_ok l -> lh_n l = LOGBLOCKS ->
  (forall h, h ∈ logged l -> ~ in_log (l_start l) h) ->
  exists s', commit s = Panic "bget: no buffers" s'.
Proof using.
  intros H Hh Hp Hc Hl Hn Hout. pose proof (length_logged l Hl) as Hlen.
  assert (size (cv_pins v) = NBUF) as Hsz.
  { rewrite Hp, size_list_to_set by apply Hl. unfold LOGBLOCKS, MAXOPBLOCKS in Hn. unfold NBUF. lia. }
  destruct (bread_full i dev v s (l_start l + 1) (ls_R _ _ _ _ H) Hsz) as [s' E].
  { rewrite Hp, elem_of_list_to_set. intros Hm. apply (Hout _ Hm). unfold in_log, LOGBLOCKS, MAXOPBLOCKS. lia. }
  assert (write_log_round 0 s = Panic "bget: no buffers" s') as E1.
  { unfold write_log_round, getlog. rewrite bind_gets, (ls_log _ _ _ _ H), (lc_dev _ _ Hc).
    replace (l_start l + Z.of_nat 0 + 1) with (l_start l + 1) by lia.
    rewrite (log_block_u32 dev l 1 Hc) by (unfold LOGBLOCKS, MAXOPBLOCKS; lia).
    by erewrite bind_Panic by exact E. }
  assert (write_log s = Panic "bget: no buffers" s') as E2.
  { unfold write_log, getlog. rewrite bind_gets, (ls_log _ _ _ _ H), Hn.
    change (seq 0 (Z.to_nat LOGBLOCKS)) with (0%nat :: seq 1 29). cbn [foreach_].
    by erewrite bind_Panic by exact E1. }
  exists s'. unfold commit, getlog. rewrite bind_gets, (ls_log _ _ _ _ H), Hn.
  change (0 <? LOGBLOCKS) with true. cbn [when]. by erewrite bind_Panic by exact E2.
Qed.
End crash_safety.

(** A transaction of one block, ready to commit. *)
Definition demo_log : log := mkLog 2 0 1 1 0 1 (45 :: replicate 29 0).
Definition full_log : log := mkLog 2 0 1 1 0 30 (Z.of_nat <$> seq 45 30).

Lemma demo_log_cfg : log_cfg 1 demo_log.
Proof. split; vm_compute; [reflexivity|discriminate|reflexivity]. Qed.

Lemma demo_boot l : exists s, ls (cache_ok 0 1) (empty_view s) l s
  /\ k_disk s = k_disk idle_kst.
Proof.
  destruct (binit_cache 0 1 idle_kst) as (s & E & Hc & Hd & _); [done|done|apply idle_running|].
  exists (set_k_log l s). split; [|exact Hd].
  assert (bio_pr : exists bs ls sls, s = set_k_bufs bs (set_k_locks ls (set_k_slocks sls idle_kst))
    /\ lock_free LK_pr s).
  { destruct (binit_ok idle_kst eq_refl) as (s' & E' & Hinv). rewrite E in E'. injection E' as <-.
    destruct (bi_rest _ _ _ Hinv) as (bs & ls & sls & Es). exists bs, ls, sls. split; [exact Es|].
    apply (bi_free _ _ _ Hinv). by eexists. }
  clear E. destruct bio_pr as (bs & lks & sls & Es & Hpr).
  split; [|done|by rewrite Es|by rewrite Es|exact Hpr].
  apply (cache_ext 0 1 _ s); [exact Hc|by apply settled_hw|done..].
Qed.

Lemma ls_cop {DISK : BlockDev} {SYNC : SyncDisk} i dev o v l s :
  ls (cache_ok i dev) v l s -> allowed o v ->
  exists b s', cop_run dev o v s = Done b s' /\ ls (cache_ok i dev) (after o b v) l s'.
Proof.
  intros H Ha. destruct (cop_ok dev _ o v s (ls_R _ _ _ _ H) Ha) as (b & s' & E & HR & Hf).
  exists b, s'. split; [exact E|]. by eapply ls_frame.
Qed.

(** Blocks read, changed, pinned and released one after the other. *)
Lemma staged l bl :
  NoDup bl -> (length bl <= NBUF)%nat ->
  exists v s, ls (cache_ok 0 1) v l s /\ cv_held v = ∅ /\ cv_pins v = list_to_set bl
    /\ (forall n, n ∈ bl -> cv_data v n = [1]) /\ cv_disk v = k_disk idle_kst.
Proof.
  induction bl as [|n bl IH]; intros Hnd Hlen.
  - destruct (demo_boot l) as (s & H & Hd). eexists _, s. split; [exact H|]. split_and!; [done|done| |done].
    by intros n ?%not_elem_of_nil.
  - apply NoDup_cons in Hnd as [Hn Hnd]. cbn in Hlen.
    destruct IH as (v & s & H & Hh & Hp & Hd & Hk); [done|lia|].
    assert (n ∉ cv_pins v) as Hnp by (by rewrite Hp, elem_of_list_to_set).
    destruct (@ls_cop sync_disk sync_disk_sync 0 1 (CRead n) v l s H) as (b & s1 & _ & H1).
    { split; [by rewrite Hh|right]. rewrite Hh, dom_empty_L, union_empty_l_L, Hp.
      eapply Nat.le_lt_trans; [apply size_list_to_set_le|lia]. }
    destruct (@ls_cop sync_disk sync_disk_sync 0 1 (CPut n [1]) _ l s1 H1) as (b1 & s2 & _ & H2).
    { eexists. cbn. apply lookup_insert_eq. }
    destruct (@ls_cop sync_disk sync_disk_sync 0 1 (CPin n) _ l s2 H2) as (b2 & s3 & _ & H3).
    { split; [eexists; cbn; apply lookup_insert_eq|done]. }
    destruct (@ls_cop sync_disk sync_disk_sync 0 1 (CRelease n) _ l s3 H3) as (b3 & s4 & _ & H4).
    { split; [eexists; cbn; apply lookup_insert_eq|]. left. cbn. set_solver. }
    eexists _, s4. split; [exact H4|]. cbn. split; [by rewrite Hh, delete_insert_id|].
    split; [by rewrite Hp|]. split; [|done]. intros m [->|Hm]%elem_of_cons; [apply upd_eq|].
    rewrite upd_ne; [by apply Hd|]. by intros ->.
Qed.

Lemma commit_crash_safe_witness :
  exists v s, (exists s', @commit sync_disk s = Done tt s' /\ k_disk s' 45 = [1])
    /\ k_disk s 45 = replicate 1024 0
    /\ forall r, ls (cache_ok 0 1) (empty_view r) demo_log r ->
       k_disk r = apply_writes (k_disk s) (take 1 (txn_writes demo_log v)) ->
       exists r', @recover_from_log sync_disk r = Done tt r' /\ k_disk r' 45 = replicate 1024 0.
Proof.
  destruct (staged demo_log [45]) as (v & s & H & Hh & Hp & Hd & Hk);
    [apply NoDup_singleton|cbn; unfold NBUF; lia|]. exists v, s.
  destruct (@bc_disk sync_disk 1 _ (cache_laws (SYNC := sync_disk_sync) 0 1) v s (ls_R _ _ _ _ H)) as [Ek _].
  rewrite Hk in Ek.
  assert (~ in_log 2 45) as Hin by (unfold in_log, LOGBLOCKS, MAXOPBLOCKS; lia).
  destruct (@commit_crash_safe sync_disk sync_disk_sync 0 1 v demo_log s) as [(s' & E & _ & _ & Hs) Hr].
  - exact H.
  - exact Hh.
  - rewrite Hp. reflexivity.
  - exact demo_log_cfg.
  - destruct (log_ok_small 0); by split.
  - vm_compute. split; reflexivity.
  - change (logged demo_log) with [45]. intros h Hh'. apply list_elem_of_singleton in Hh' as ->. exact Hin.
  - rewrite Ek. vm_compute. reflexivity.
  - rewrite Ek. vm_compute. reflexivity.
  - split; [exists s'; split; [exact E|]; rewrite (Hs 45 Hin); apply Hd; by apply list_elem_of_singleton|].
    split; [rewrite Ek; reflexivity|]. intros r Hlr Hdr.
    destruct (Hr 1%nat _ demo_log r (rtc_refl _ _) Hlr Hdr demo_log_cfg eq_refl eq_refl) as (r' & Er & _ & Hm).
    exists r'. split; [exact Er|]. rewrite (Hm 45 Hin), Ek. reflexivity.
Defined.

Lemma full_logged : logged full_log = Z.of_nat <$> seq 45 30.
Proof. reflexivity. Qed.
Lemma full_log_ok : log_ok full_log.
Proof.
  split; [reflexivity|vm_compute; split; discriminate| |]; rewrite full_logged.
  - apply Forall_forall. intros b (k & -> & Hk%elem_of_seq)%list_elem_of_fmap. lia.
  - apply NoDup_fmap_2; [intros x y; lia|apply NoDup_seq].
Qed.

Lemma commit_full_log_panics_witness :
  exists s s', @commit sync_disk s = Panic "bget: no buffers" s'.
Proof.
  destruct (staged full_log (logged full_log)) as (v & s & H & Hh & Hp & _);
    [apply full_log_ok|rewrite full_logged; cbn; unfold NBUF; lia|]. exists s.
  destruct (@commit_full_log_panics sync_disk 0 1 v full_log s H Hh Hp) as [s' E].
  - split; vm_compute; [reflexivity|discriminate|reflexivity].
  - exact full_log_ok.
  - reflexivity.
  - rewrite full_logged. intros h (k & -> & Hk%elem_of_seq)%list_elem_of_fmap.
    unfold in_log, LOGBLOCKS, MAXOPBLOCKS. cbn. lia.
  - exists s'. exact E.
Defined.
