(* ===== verification/Fs.v ===== *)
(** * Fs: blocks, inodes, directories and paths (kernel/fs.c)

    An inode pointer is an index into [k_inodes]; a null result is [None].
    A [struct dirent] local lives on the process's kernel stack, in [k_mem]. *)

From S2P Require Import Prelude Params Machine Spinlock Strings Kalloc Uart Printk Sched Vm Sleeplock Blockdev Bio Log.

Definition inode_at (s : kst) (ip : nat) : inode := k_inodes s !!! ip.
Definition geti (ip : nat) : K inode := gets (fun s => inode_at s ip).
Definition updi (ip : nat) (f : inode -> inode) : K unit :=
  modify (fun s => set_k_inodes (alter f ip (k_inodes s)) s).
Definition getsb : K superblock := gets k_sb.

(** Address of a local variable of the running kernel thread. *)
Definition local_addr (off : Z) : K Z :=
  gets (fun s => match c_proc (k_cpu s) with
                 | Some i => p_kstack (proc_at s i) + off
                 | None => off
                 end).

(** ** The layout of the structures in a block *)
Definition u16_at (data : list Z) (off : nat) : Z := le_val (bytes_at data off 2).
Definition s16_at (data : list Z) (off : nat) : Z := s16 (u16_at data off).
Definition u32_at (data : list Z) (off : nat) : Z := le_val (bytes_at data off 4).
Definition put16 (data : list Z) (off : nat) (v : Z) : list Z := put_bytes data off (le_bytes 2 v).
Definition put32 (data : list Z) (off : nat) (v : Z) : list Z := put_bytes data off (le_bytes 4 v).

Definition IBLOCK (i : Z) (sb : superblock) : Z := u32 (i / IPB + sb_inodestart sb).
Definition BBLOCK (b : Z) (sb : superblock) : Z := u32 (b / BPB + sb_bmapstart sb).

(** Byte offset of entry [inum % IPB] of the dinodes in a block. *)
Definition dinode_off (inum : Z) : nat := Z.to_nat (DINODE_SIZE * (inum mod IPB)).

Record dinode := mkDinode {
  di_type : Z; di_major : Z; di_minor : Z; di_nlink : Z; di_size : Z; di_addrs : list Z
}.

Definition read_dinode (data : list Z) (o : nat) : dinode :=
  mkDinode (s16_at data o) (s16_at data (o + 2)) (s16_at data (o + 4)) (s16_at data (o + 6))
    (u32_at data (o + 8)) ((fun i => u32_at data (o + 12 + 4 * i)) <$> seq 0 13).

Definition write_dinode (data : list Z) (o : nat) (d : dinode) : list Z :=
  put_bytes data o
    (le_bytes 2 (di_type d) ++ le_bytes 2 (di_major d) ++ le_bytes 2 (di_minor d) ++
     le_bytes 2 (di_nlink d) ++ le_bytes 4 (di_size d) ++ mjoin (le_bytes 4 <$> di_addrs d)).

Definition read_superblock (data : list Z) : superblock :=
  mkSb (u32_at data 0) (u32_at data 4) (u32_at data 8) (u32_at data 12)
    (u32_at data 16) (u32_at data 20) (u32_at data 24) (u32_at data 28).

Definition set_data (f : list Z -> list Z) (b : buf) : buf := set_b_data (f (b_data b)) b.

Section fs.
Context {DISK : BlockDev}.

(** ** Blocks *)
Definition readsb (dev : Z) : K unit :=
  bp ← bread dev 1;
  b ← getb bp;
  modify (set_k_sb (read_superblock (b_data b))) ;;
  brelse bp.

Definition bzero (dev bno : Z) : K unit :=
  bp ← bread dev bno;
  updb bp (set_b_data (replicate (Z.to_nat BSIZE) 0)) ;;
  log_write bp ;;
  brelse bp.

(** [bp->data[bi / 8] & (1 << (bi % 8))] *)
Definition bit_set (data : list Z) (bi : Z) : bool :=
  truthy (Z.land (data !!! Z.to_nat (bi / 8)) (Z.shiftl 1 (bi mod 8))).
Definition set_bit (bi : Z) (data : list Z) : list Z :=
  alter (fun x => Z.lor x (Z.shiftl 1 (bi mod 8))) (Z.to_nat (bi / 8)) data.
Definition clear_bit (bi : Z) (data : list Z) : list Z :=
  alter (fun x => Z.ldiff x (Z.shiftl 1 (bi mod 8))) (Z.to_nat (bi / 8)) data.

(** The inner loop of balloc(): the first free bit from [bi] on, among the
    [n] that are left of this bitmap block. *)
Fixpoint find_free (data : list Z) (b size : Z) (n : nat) (bi : Z) : option Z :=
  match n with
  | O => None
  | S n' =>
      if negb (b + bi <? size) then None else
      if negb (bit_set data bi) then Some bi
      else find_free data b size n' (bi + 1)
  end.

Definition balloc (dev : Z) : K Z :=
  sb ← getsb;
  loop (S (Z.to_nat (sb_size sb / BPB + 1))) (fun b =>
    sb ← getsb;
    if negb (b <? sb_size sb) then
      printk (str "balloc: out of blocks" ++ [10]) [] ;;
      mret (inr 0)
    else
    bp ← bread dev (BBLOCK b sb);
    bf ← getb bp;
    match find_free (b_data bf) b (sb_size sb) (Z.to_nat BPB) 0 with
    | Some bi => (* Is block free? *)
        updb bp (set_data (set_bit bi)) ;; (* Mark block in use. *)
        log_write bp ;;
        brelse bp ;;
        bzero dev (b + bi) ;;
        mret (inr (b + bi))
    | None =>
        brelse bp ;;
        mret (inl (b + BPB))
    end) 0.

Definition bfree (dev b : Z) : K unit :=
  sb ← getsb;
  bp ← bread dev (BBLOCK b sb);
  let bi := b mod BPB in
  bf ← getb bp;
  if negb (bit_set (b_data bf) bi) then panic "freeing free block" else
  updb bp (set_data (clear_bit bi)) ;;
  log_write bp ;;
  brelse bp.

(** ** Inodes *)
Definition iinit : K unit :=
  initlock LK_itable "itable" ;;
  foreach_ (seq 0 NINODE) (fun i => initsleeplock (SL_inode i) "inode").

(** The table scan of iget(): the entry of the inode, or the first free one. *)
Fixpoint iget_scan (dev inum : Z) (l : list nat) (empty : option nat) : K (nat + option nat) :=
  match l with
  | [] => mret (inr empty)
  | i :: r =>
      ip ← geti i;
      if (0 <? i_ref ip) && (i_dev ip =? dev) && (i_inum ip =? inum) then mret (inl i)
      else iget_scan dev inum r
        (match empty with
         | None => if i_ref ip =? 0 then Some i else None (* Remember empty slot. *)
         | Some e => Some e
         end)
  end.

Definition iget (dev inum : Z) : K nat :=
  acquire LK_itable ;;
  r ← iget_scan dev inum (seq 0 NINODE) None;
  match r with
  | inl i =>
      updi i (fun ip => set_i_ref (s32 (i_ref ip + 1)) ip) ;;
      release LK_itable ;;
      mret i
  | inr None => panic "iget: no inodes"
  | inr (Some i) =>
      (* Recycle an inode entry. *)
      updi i (set_i_dev dev) ;;
      updi i (set_i_inum inum) ;;
      updi i (set_i_ref 1) ;;
      updi i (set_i_valid 0) ;;
      release LK_itable ;;
      mret i
  end.

Definition idup (ip : nat) : K nat :=
  acquire LK_itable ;;
  updi ip (fun i => set_i_ref (s32 (i_ref i + 1)) i) ;;
  release LK_itable ;;
  mret ip.

Definition ialloc (dev type : Z) : K (option nat) :=
  sb ← getsb;
  loop (S (Z.to_nat (sb_ninodes sb))) (fun inum =>
    sb ← getsb;
    if negb (inum <? sb_ninodes sb) then
      printk (str "ialloc: no inodes" ++ [10]) [] ;;
      mret (inr None)
    else
    bp ← bread dev (IBLOCK inum sb);
    bf ← getb bp;
    let o := dinode_off inum in
    if s16_at (b_data bf) o =? 0 then (* a free inode *)
      updb bp (set_data (fun d => put_bytes d o (replicate (Z.to_nat DINODE_SIZE) 0))) ;;
      updb bp (set_data (fun d => put16 d o type)) ;;
      log_write bp ;; (* mark it allocated on the disk *)
      brelse bp ;;
      ip ← iget dev inum;
      mret (inr (Some ip))
    else
      brelse bp ;;
      mret (inl (inum + 1))) 1.

Definition iupdate (ip : nat) : K unit :=
  i ← geti ip;
  sb ← getsb;
  bp ← bread (i_dev i) (IBLOCK (i_inum i) sb);
  i ← geti ip;
  updb bp (set_data (fun d => write_dinode d (dinode_off (i_inum i))
    (mkDinode (i_type i) (i_major i) (i_minor i) (i_nlink i) (i_size i) (i_addrs i)))) ;;
  log_write bp ;;
  brelse bp.

Definition ilock (ip : nat) : K unit :=
  i ← geti ip;
  if i_ref i <? 1 then panic "ilock" else
  acquiresleep (SL_inode ip) ;;
  i ← geti ip;
  when (i_valid i =? 0)
    (sb ← getsb;
     bp ← bread (i_dev i) (IBLOCK (i_inum i) sb);
     bf ← getb bp;
     let d := read_dinode (b_data bf) (dinode_off (i_inum i)) in
     updi ip (set_i_type (di_type d)) ;;
     updi ip (set_i_major (di_major d)) ;;
     updi ip (set_i_minor (di_minor d)) ;;
     updi ip (set_i_nlink (di_nlink d)) ;;
     updi ip (set_i_size (di_size d)) ;;
     updi ip (set_i_addrs (di_addrs d)) ;;
     brelse bp ;;
     updi ip (set_i_valid 1) ;;
     i ← geti ip;
     when (i_type i =? 0) (panic "ilock: no type")).

Definition iunlock (ip : nat) : K unit :=
  h ← holdingsleep (SL_inode ip);
  i ← geti ip;
  if negb h || (i_ref i <? 1) then panic "iunlock" else
  releasesleep (SL_inode ip).

(** Slot [k] of [ip->addrs]. *)
Definition addr_at (i : inode) (k : nat) : Z := i_addrs i !!! k.
Definition set_addr (k : nat) (a : Z) (i : inode) : inode := set_i_addrs (<[k := a]> (i_addrs i)) i.
Definition IND : nat := 12.

Definition itrunc (ip : nat) : K unit :=
  foreach_ (seq 0 IND) (fun k =>
    i ← geti ip;
    when (truthy (addr_at i k))
      (bfree (i_dev i) (addr_at i k) ;;
       updi ip (set_addr k 0))) ;;
  i ← geti ip;
  when (truthy (addr_at i IND))
    (bp ← bread (i_dev i) (addr_at i IND);
     foreach_ (seq 0 (Z.to_nat NINDIRECT)) (fun j =>
       bf ← getb bp;
       let a := u32_at (b_data bf) (4 * j) in
       i ← geti ip;
       when (truthy a) (bfree (i_dev i) a)) ;;
     brelse bp ;;
     i ← geti ip;
     bfree (i_dev i) (addr_at i IND) ;;
     updi ip (set_addr IND 0)) ;;
  updi ip (set_i_size 0) ;;
  iupdate ip.

Definition iput (ip : nat) : K unit :=
  acquire LK_itable ;;
  i ← geti ip;
  when ((i_ref i =? 1) && truthy (i_valid i) && (i_nlink i =? 0))
    (* inode has no links and no other references: truncate and free. *)
    (acquiresleep (SL_inode ip) ;;
     release LK_itable ;;
     itrunc ip ;;
     updi ip (set_i_type 0) ;;
     iupdate ip ;;
     updi ip (set_i_valid 0) ;;
     releasesleep (SL_inode ip) ;;
     acquire LK_itable) ;;
  updi ip (fun i => set_i_ref (s32 (i_ref i - 1)) i) ;;
  release LK_itable.

Definition iunlockput (ip : nat) : K unit :=
  iunlock ip ;;
  iput ip.

Definition ireclaim (dev : Z) : K unit :=
  sb ← getsb;
  foreach_ (seqZ 1 (sb_ninodes sb - 1)) (fun inum =>
    sb ← getsb;
    bp ← bread dev (IBLOCK inum sb);
    bf ← getb bp;
    let d := read_dinode (b_data bf) (dinode_off inum) in
    ip ← (if negb (di_type d =? 0) && (di_nlink d =? 0) then (* is an orphaned inode *)
        printk (str "ireclaim: orphaned inode %d" ++ [10]) [AInt inum] ;;
        ip ← iget dev inum;
        mret (Some ip)
      else mret None);
    brelse bp ;;
    match ip with
    | Some ip =>
        begin_op ;;
        ilock ip ;;
        iunlock ip ;;
        iput ip ;;
        end_op
    | None => mret tt
    end).

Definition fsinit (dev : Z) : K unit :=
  readsb dev ;;
  sb ← getsb;
  if negb (sb_magic sb =? FSMAGIC) then panic "invalid file system" else
  initlog dev sb ;;
  ireclaim dev.

(** ** Inode content *)
Definition bmap (ip : nat) (bn : Z) : K Z :=
  i ← geti ip;
  if bn <? NDIRECT then
    let k := Z.to_nat bn in
    if negb (addr_at i k =? 0) then mret (addr_at i k) else
    addr ← balloc (i_dev i);
    if addr =? 0 then mret 0 else
    updi ip (set_addr k addr) ;;
    mret addr
  else
  let bn := bn - NDIRECT in
  if bn <? NINDIRECT then
    (* Load indirect block, allocating if necessary. *)
    ind ← (if negb (addr_at i IND =? 0) then mret (addr_at i IND) else
      addr ← balloc (i_dev i);
      when (negb (addr =? 0)) (updi ip (set_addr IND addr)) ;;
      mret addr);
    if ind =? 0 then mret 0 else
    bp ← bread (i_dev i) ind;
    bf ← getb bp;
    let a := u32_at (b_data bf) (4 * Z.to_nat bn) in
    addr ← (if negb (a =? 0) then mret a else
      addr ← balloc (i_dev i);
      when (truthy addr)
        (updb bp (set_data (fun d => put32 d (4 * Z.to_nat bn) addr)) ;;
         log_write bp) ;;
      mret addr);
    brelse bp ;;
    mret addr
  else panic "bmap: out of range".

(** [struct stat], as kernel/stat.h lays it out. *)
Definition stati (ip : nat) : K (list Z) :=
  i ← geti ip;
  mret (le_bytes 4 (i_dev i) ++ le_bytes 4 (i_inum i) ++ le_bytes 2 (i_type i) ++
        le_bytes 2 (i_nlink i) ++ replicate 4 0 ++ le_bytes 8 (i_size i)).

End fs.

Section content.
Context {SYM : Symbols} {DISK : BlockDev}.

(** The loops touch [n / BSIZE + 2] blocks at most. *)
Definition rw_fuel (n : Z) : nat := Z.to_nat (n / BSIZE + 3).

Definition readi (ip : nat) (user_dst : bool) (dst off n : Z) : K Z :=
  i ← geti ip;
  if (off >? i_size i) || (u32 (off + n) <? off) then mret 0 else
  let n := if u32 (off + n) >? i_size i then i_size i - off else n in
  r ← loop (rw_fuel n) (fun '(tot, off, dst) =>
    if negb (tot <? n) then mret (inr tot) else
    addr ← bmap ip (off / BSIZE);
    if addr =? 0 then mret (inr tot) else
    i ← geti ip;
    bp ← bread (i_dev i) addr;
    let m := Z.min (n - tot) (BSIZE - off mod BSIZE) in
    bf ← getb bp;
    c ← either_copyout user_dst dst
          (take (Z.to_nat m) (drop (Z.to_nat (off mod BSIZE)) (b_data bf)));
    if c =? -1 then
      brelse bp ;;
      mret (inr (u32 (-1)))
    else
      brelse bp ;;
      mret (inl (tot + m, off + m, u64 (dst + m)))) (0, off, dst);
  mret (s32 r).

Definition writei (ip : nat) (user_src : bool) (src off n : Z) : K Z :=
  i ← geti ip;
  if (off >? i_size i) || (u32 (off + n) <? off) then mret (-1) else
  if u32 (off + n) >? MAXFILE * BSIZE then mret (-1) else
  r ← loop (rw_fuel n) (fun '(tot, off, src) =>
    if negb (tot <? n) then mret (inr (tot, off)) else
    addr ← bmap ip (off / BSIZE);
    if addr =? 0 then mret (inr (tot, off)) else
    i ← geti ip;
    bp ← bread (i_dev i) addr;
    let m := Z.min (n - tot) (BSIZE - off mod BSIZE) in
    c ← either_copyin user_src src m;
    updb bp (set_data (fun d => put_bytes d (Z.to_nat (off mod BSIZE)) c.2)) ;;
    if c.1 =? -1 then
      brelse bp ;;
      mret (inr (tot, off))
    else
      log_write bp ;;
      brelse bp ;;
      mret (inl (tot + m, off + m, u64 (src + m)))) (0, off, src);
  let '(tot, off) := r in
  i ← geti ip;
  when (off >? i_size i) (updi ip (set_i_size off)) ;;
  (* write the i-node back to disk even if the size didn't change *)
  iupdate ip ;;
  mret (s32 tot).

(** ** Directories *)
Definition namecmp (s t : list Z) : Z := strncmp (Z.to_nat DIRSIZ) s t.

(** [struct dirent] in memory: inum, then the DIRSIZ bytes of the name. *)
Definition de_inum (m : mem) (de : Z) : Z := le_val (mem_load m de 2).
Definition de_name (m : mem) (de : Z) : list Z := mem_load m (de + 2) (Z.to_nat DIRSIZ).

(** Directory entries of a directory of [size] bytes. *)
Definition dir_fuel (size : Z) : nat := S (Z.to_nat (size / DIRENT_SIZE + 1)).

(** Returns the inode and the entry's offset ([*poff]). *)
Definition dirlookup (dp : nat) (name : list Z) : K (option (nat * Z)) :=
  d ← geti dp;
  if negb (i_type d =? T_DIR) then panic "dirlookup not DIR" else
  de ← local_addr 0;
  loop (dir_fuel (i_size d)) (fun off =>
    d ← geti dp;
    if negb (off <? i_size d) then mret (inr None) else
    r ← readi dp false de off DIRENT_SIZE;
    if negb (r =? DIRENT_SIZE) then panic "dirlookup read" else
    inum ← gets (fun s => de_inum (k_mem s) de);
    nm ← gets (fun s => de_name (k_mem s) de);
    if inum =? 0 then mret (inl (off + DIRENT_SIZE)) else
    if namecmp name nm =? 0 then
      (* entry matches path element *)
      d ← geti dp;
      ip ← iget (i_dev d) inum;
      mret (inr (Some (ip, off)))
    else mret (inl (off + DIRENT_SIZE))) 0.

Definition dirlink (dp : nat) (name : list Z) (inum : Z) : K Z :=
  (* Check that name is not present. *)
  r ← dirlookup dp name;
  match r with
  | Some (ip, _) =>
      iput ip ;;
      mret (-1)
  | None =>
      (* Look for an empty dirent. *)
      de ← local_addr 64;
      d ← geti dp;
      off ← loop (dir_fuel (i_size d)) (fun off =>
        d ← geti dp;
        if negb (off <? i_size d) then mret (inr off) else
        r ← readi dp false de off DIRENT_SIZE;
        if negb (r =? DIRENT_SIZE) then panic "dirlink read" else
        n ← gets (fun s => de_inum (k_mem s) de);
        if n =? 0 then mret (inr off) else mret (inl (off + DIRENT_SIZE))) 0;
      upd_mem (fun m => mem_store m (de + 2) (strncpy (de_name m de) name DIRSIZ)) ;;
      upd_mem (fun m => mem_store m de (le_bytes 2 inum)) ;;
      r ← writei dp false de off DIRENT_SIZE;
      if negb (r =? DIRENT_SIZE) then mret (-1) else
      mret 0
  end.
End content.

(** ** Paths *)
Definition SLASH : Z := 47.

Fixpoint skip_slashes (path : list Z) : list Z :=
  match path with
  | c :: r => if c =? SLASH then skip_slashes r else path
  | [] => []
  end.

(** The longest prefix without '/' or NUL, and what follows it. *)
Fixpoint span_elem (path : list Z) : list Z * list Z :=
  match path with
  | [] => ([], [])
  | c :: r =>
      if (c =? SLASH) || (c =? 0) then ([], path)
      else let '(e, rest) := span_elem r in (c :: e, rest)
  end.

(** [name] is the array of DIRSIZ bytes that skipelem() fills. *)
Definition skipelem (path name : list Z) : option (list Z * list Z) :=
  let path := skip_slashes path in
  if hd0 path =? 0 then None else
  let '(s, path) := span_elem path in
  let len := Z.of_nat (length s) in
  let name :=
    if len >=? DIRSIZ then put_bytes name 0 (take (Z.to_nat DIRSIZ) s)
    else put_bytes name 0 (s ++ [0]) in
  Some (skip_slashes path, name).

Section paths.
Context {SYM : Symbols} {DISK : BlockDev}.

(** Each round consumes at least one byte of the path. *)
Definition namex (path : list Z) (nameiparent : bool) (name : list Z)
  : K (option nat * list Z) :=
  ip ← (if hd0 path =? SLASH then iget ROOTDEV ROOTINO
        else
          p ← curproc;
          pr ← getp p;
          match p_cwd pr with Some c => idup c | None => null_deref end);
  loop (S (length path)) (fun '(ip, path, name) =>
    match skipelem path name with
    | None =>
        if nameiparent then
          iput ip ;;
          mret (inr (None, name))
        else mret (inr (Some ip, name))
    | Some (path, name) =>
        ilock ip ;;
        i ← geti ip;
        if negb (i_type i =? T_DIR) then
          iunlockput ip ;;
          mret (inr (None, name))
        else if nameiparent && (hd0 path =? 0) then
          (* Stop one level early. *)
          iunlock ip ;;
          mret (inr (Some ip, name))
        else
        next ← dirlookup ip name;
        match next with
        | None =>
            iunlockput ip ;;
            mret (inr (None, name))
        | Some (next, _) =>
            iunlockput ip ;;
            mret (inl (next, path, name))
        end
    end) (ip, path, name).

Definition name_zero : list Z := replicate (Z.to_nat DIRSIZ) 0.

Definition namei (path : list Z) : K (option nat) :=
  r ← namex path false name_zero;
  mret r.1.

Definition nameiparent (path name : list Z) : K (option nat * list Z) := namex path true name.
End paths.

(** ** The dinodes of a block *)
Record dinode_ok (d : dinode) : Prop := {
  do_type : - 2 ^ 15 <= di_type d < 2 ^ 15;
  do_major : - 2 ^ 15 <= di_major d < 2 ^ 15;
  do_minor : - 2 ^ 15 <= di_minor d < 2 ^ 15;
  do_nlink : - 2 ^ 15 <= di_nlink d < 2 ^ 15;
  do_size : 0 <= di_size d < 2 ^ 32;
  do_addrs : length (di_addrs d) = 13%nat /\ Forall (fun a => 0 <= a < 2 ^ 32) (di_addrs d)
}.

Definition dinode_bytes (d : dinode) : list Z :=
  le_bytes 2 (di_type d) ++ le_bytes 2 (di_major d) ++ le_bytes 2 (di_minor d) ++
  le_bytes 2 (di_nlink d) ++ le_bytes 4 (di_size d) ++ mjoin (le_bytes 4 <$> di_addrs d).

Lemma length_dinode_bytes d : dinode_ok d -> length (dinode_bytes d) = 64%nat.
Proof.
  intros [_ _ _ _ _ [Hl _]]. unfold dinode_bytes.
  rewrite !length_app, !le_bytes_length, length_array, Hl. done.
Qed.

Lemma s16_le_bytes v : - 2 ^ 15 <= v < 2 ^ 15 -> s16 (le_val (le_bytes 2 v)) = v.
Proof.
  intros Hv. rewrite le_val_le_bytes. change (8 * Z.of_nat 2) with 16.
  unfold s16, wrap_s. rewrite Zplus_mod_idemp_l. rewrite Z.mod_small; lia.
Qed.

Lemma u32_le_bytes v : 0 <= v < 2 ^ 32 -> le_val (le_bytes 4 v) = v.
Proof. intros Hv. rewrite le_val_le_bytes. apply Z.mod_small. done. Qed.

(** Dinodes on disk.  iupdate() and ialloc() store a dinode in its slot of
    a block and ilock() reads it back: every field returns as it was stored,
    and the other slots of the block are unchanged. *)
Lemma dinode_roundtrip data d i j :
  dinode_ok d -> Z.of_nat (length data) = BSIZE -> 0 <= i -> 0 <= j ->
  let data' := write_dinode data (dinode_off i) d in
  length data' = length data
  /\ read_dinode data' (dinode_off i) = d
  /\ (i mod IPB <> j mod IPB -> read_dinode data' (dinode_off j) = read_dinode data (dinode_off j)).
Proof.
  intros Hd Hlen Hi Hj data'. pose proof (length_dinode_bytes d Hd) as Hb.
  pose proof (Z.mod_pos_bound i IPB) as Hmi. pose proof (Z.mod_pos_bound j IPB) as Hmj.
  change IPB with 16 in *. change BSIZE with 1024 in *.
  assert (dinode_off i + 64 <= length data)%nat as Hfit by (unfold dinode_off, DINODE_SIZE; change IPB with 16; lia).
  change data' with (put_bytes data (dinode_off i) (dinode_bytes d)). split_and!.
  - apply length_put_bytes. lia.
  - destruct Hd as [H1 H2 H3 H4 H5 [H6 H7]].
    transitivity (mkDinode (di_type d) (di_major d) (di_minor d) (di_nlink d) (di_size d) (di_addrs d));
      [|by destruct d].
    set (o := dinode_off i) in *. unfold read_dinode, s16_at, u16_at, u32_at.
    rewrite <- (Nat.add_0_r o) at 2. rewrite !bytes_at_put by (rewrite Hb; lia). f_equal.
    + by apply s16_le_bytes.
    + by apply s16_le_bytes.
    + by apply s16_le_bytes.
    + by apply s16_le_bytes.
    + by apply u32_le_bytes.
    + apply list_eq. intros k. destruct (decide (k < 13)%nat) as [Hk|Hk].
      2:{ rewrite !lookup_ge_None_2; [done|lia|rewrite length_fmap, length_seq; lia]. }
      rewrite list_lookup_fmap, lookup_seq_lt by done. cbn [fmap option_fmap option_map Nat.add].
      destruct (lookup_lt_is_Some_2 (di_addrs d) k) as [x Hx]; [lia|]. rewrite Hx. f_equal.
      replace (o + 12 + 4 * k)%nat with (o + (12 + 4 * k))%nat by lia. rewrite bytes_at_put by (rewrite Hb; lia).
      transitivity (le_val (bytes_at (mjoin (le_bytes 4 <$> di_addrs d)) (4 * k) 4)); [reflexivity|].
      rewrite (bytes_at_array 4 (di_addrs d) k x) by done. apply u32_le_bytes.
      by apply (Forall_lookup_1 _ _ _ _ H7 Hx).
  - intros Hne. unfold read_dinode, s16_at, u16_at, u32_at.
    assert (dinode_off j + 64 <= dinode_off i \/ dinode_off i + 64 <= dinode_off j)%nat as Hsep
      by (unfold dinode_off, DINODE_SIZE; change IPB with 16; lia).
    rewrite !bytes_at_put_ne by (rewrite ?Hb; lia). f_equal. apply list_fmap_ext. intros k x [-> Hk]%lookup_seq.
    rewrite bytes_at_put_ne by (rewrite ?Hb; lia). done.
Qed.

Lemma dinode_roundtrip_witness :
  read_dinode (write_dinode (replicate 1024 7) (dinode_off 3)
    (mkDinode 2 0 0 1 5000 (300 :: 301 :: replicate 11 0))) (dinode_off 3)
  = mkDinode 2 0 0 1 5000 (300 :: 301 :: replicate 11 0).
Proof.
  refine (proj1 (proj2 (dinode_roundtrip (replicate 1024 7)
    (mkDinode 2 0 0 1 5000 (300 :: 301 :: replicate 11 0)) 3 4 _ eq_refl _ _))); [|lia|lia].
  split; cbn; try lia. split; [reflexivity|]. repeat constructor; lia.
Defined.

(** ** The block bitmap *)
Definition bitmap_ok (data : list Z) : Prop := Forall is_byte data.

Lemma bit_set_testbit data bi : 0 <= bi -> bit_set data bi = Z.testbit (data !!! Z.to_nat (bi / 8)) (bi mod 8).
Proof. intros H. apply truthy_land_bit. pose proof (Z.mod_pos_bound bi 8). lia. Qed.

Lemma byte_of_bit bi : 0 <= bi -> 0 <= bi mod 8 < 8 /\ 0 <= bi / 8 /\ bi = 8 * (bi / 8) + bi mod 8.
Proof. intros H. pose proof (Z.mod_pos_bound bi 8). pose proof (Z.div_mod bi 8). pose proof (Z.div_pos bi 8). lia. Qed.

(** Altering one bit of the bitmap. *)
Lemma bit_set_alter data f v bi j :
  0 <= bi < 8 * Z.of_nat (length data) -> 0 <= j ->
  (forall x k, 0 <= k -> Z.testbit (f x) k = if bi mod 8 =? k then v else Z.testbit x k) ->
  bit_set (alter f (Z.to_nat (bi / 8)) data) j = if bi =? j then v else bit_set data j.
Proof.
  intros Hb Hj Hf. rewrite !bit_set_testbit by done.
  destruct (byte_of_bit bi) as (B1 & B2 & B3); [lia|]. destruct (byte_of_bit j) as (J1 & J2 & J3); [lia|].
  destruct (decide (bi / 8 = j / 8)) as [E|E].
  - rewrite <- E. assert (Z.to_nat (bi / 8) < length data)%nat as Hlt by lia.
    apply lookup_lt_is_Some in Hlt as [x Hx].
    rewrite (list_lookup_total_correct _ _ x Hx).
    rewrite (list_lookup_total_correct _ _ (f x)) by (rewrite list_lookup_alter_eq, Hx; done).
    rewrite Hf by lia. destruct (Z.eqb_spec (bi mod 8) (j mod 8)), (Z.eqb_spec bi j); try done; lia.
  - rewrite list_lookup_total_alt, list_lookup_alter_ne, <- list_lookup_total_alt by lia.
    destruct (Z.eqb_spec bi j); [congruence|done].
Qed.

Lemma bit_set_set data bi j :
  0 <= bi < 8 * Z.of_nat (length data) -> 0 <= j ->
  bit_set (set_bit bi data) j = if bi =? j then true else bit_set data j.
Proof.
  intros Hb Hj. apply bit_set_alter; [done|done|]. intros x k Hk.
  pose proof (Z.mod_pos_bound bi 8). rewrite Z.lor_spec, Z.shiftl_1_l, Z.pow2_bits_eqb by lia.
  by destruct (Z.eqb_spec (bi mod 8) k); [rewrite orb_true_r|rewrite orb_false_r].
Qed.

Lemma bit_set_clear data bi j :
  0 <= bi < 8 * Z.of_nat (length data) -> 0 <= j ->
  bit_set (clear_bit bi data) j = if bi =? j then false else bit_set data j.
Proof.
  intros Hb Hj. apply bit_set_alter; [done|done|]. intros x k Hk.
  pose proof (Z.mod_pos_bound bi 8). rewrite Z.ldiff_spec, Z.shiftl_1_l, Z.pow2_bits_eqb by lia.
  by destruct (Z.eqb_spec (bi mod 8) k); [rewrite andb_false_r|rewrite andb_true_r].
Qed.

Lemma find_free_spec data b size n bi0 :
  match find_free data b size n bi0 with
  | Some bi => bi0 <= bi < bi0 + Z.of_nat n /\ b + bi < size /\ bit_set data bi = false
               /\ forall j, bi0 <= j < bi -> bit_set data j = true
  | None => forall j, bi0 <= j < bi0 + Z.of_nat n -> b + j < size -> bit_set data j = true
  end.
Proof.
  revert bi0. induction n as [|n IH]; intros bi0; cbn [find_free]; [lia|].
  destruct (Z.ltb_spec (b + bi0) size); cbn [negb]; [|intros; lia].
  destruct (bit_set data bi0) eqn:E; cbn [negb].
  - specialize (IH (bi0 + 1)). destruct (find_free data b size n (bi0 + 1)) as [bi|].
    + destruct IH as (H1 & H2 & H3 & H4). split_and!; [lia|lia|done|done|].
      intros j Hj. destruct (decide (j = bi0)) as [->|]; [done|]. apply H4. lia.
    + intros j Hj Hs. destruct (decide (j = bi0)) as [->|]; [done|]. apply IH; lia.
  - split_and!; [lia|lia|done|done|lia].
Qed.

(** The block bitmap.  In a bitmap block, balloc() picks the first clear
    bit below the file system's size, or none if all of them are set;
    marking it changes that bit only, and bfree() of the block puts every
    bit back. *)
Lemma bitmap_alloc_free data b size :
  Z.of_nat (length data) = BSIZE ->
  match find_free data b size (Z.to_nat BPB) 0 with
  | Some bi =>
      0 <= bi < BPB /\ b + bi < size /\ bit_set data bi = false
      /\ (forall j, 0 <= j < bi -> bit_set data j = true)
      /\ (forall j, 0 <= j < BPB -> bit_set (set_bit bi data) j = if bi =? j then true else bit_set data j)
      /\ (forall j, 0 <= j < BPB -> bit_set (clear_bit bi (set_bit bi data)) j = bit_set data j)
  | None => forall j, 0 <= j < BPB -> b + j < size -> bit_set data j = true
  end.
Proof.
  intros Hl. change BSIZE with 1024 in Hl. change BPB with 8192.
  pose proof (find_free_spec data b size (Z.to_nat 8192) 0) as H.
  destruct (find_free data b size (Z.to_nat 8192) 0) as [bi|]; rewrite Z2Nat.id in H by lia; [|exact H].
  destruct H as (H1 & H2 & H3 & H4). split_and!; try (done || lia).
  - intros j Hj. apply bit_set_set; lia.
  - intros j Hj. rewrite bit_set_clear by (unfold set_bit; rewrite ?length_alter; lia).
    rewrite bit_set_set by lia. destruct (Z.eqb_spec bi j) as [<-|]; done.
Qed.

Lemma bitmap_alloc_free_witness :
  find_free (255 :: 5 :: replicate 1022 0) 0 2000 (Z.to_nat BPB) 0 = Some 9
  /\ bit_set (255 :: 5 :: replicate 1022 0) 9 = false.
Proof.
  pose proof (bitmap_alloc_free (255 :: 5 :: replicate 1022 0) 0 2000 eq_refl) as H.
  assert (find_free (255 :: 5 :: replicate 1022 0) 0 2000 (Z.to_nat BPB) 0 = Some 9) as E
    by (vm_compute; reflexivity).
  rewrite E in H. split; [exact E|]. exact (proj1 (proj2 (proj2 H))).
Defined.

(** ** Path names *)

(** A run of slashes. *)
Definition slashes (k : nat) : list Z := replicate k SLASH.
Definition is_elem (e : list Z) : Prop := e <> [] /\ Forall (fun c => c <> SLASH /\ c <> 0) e.

(** What skipelem() leaves in [name]. *)
Definition elem_name (e name : list Z) : list Z :=
  if Z.of_nat (length e) >=? DIRSIZ then put_bytes name 0 (take (Z.to_nat DIRSIZ) e)
  else put_bytes name 0 (e ++ [0]).

(** A path with the elements [es], each after one or more slashes (the first
    may follow none), with [m] slashes at the end, and its terminator. *)
Fixpoint path_of (es : list (nat * list Z)) (m : nat) : list Z :=
  match es with
  | [] => slashes m ++ [0]
  | (k, e) :: r => slashes k ++ e ++ path_of r m
  end.

(** The elements the loop of namex() goes through, at most [fuel] of them. *)
Fixpoint path_walk (fuel : nat) (path name : list Z) : list (list Z) :=
  match fuel with
  | O => []
  | S n => match skipelem path name with
           | None => []
           | Some (rest, name) => name :: path_walk n rest name
           end
  end.

Lemma skip_slashes_app k p : hd0 p <> SLASH -> skip_slashes (slashes k ++ p) = p.
Proof.
  intros Hp. induction k as [|k IH]; cbn; [|done]. destruct p as [|c p]; [done|]. cbn in *.
  by destruct (Z.eqb_spec c SLASH).
Qed.

Lemma span_elem_app e p :
  Forall (fun c => c <> SLASH /\ c <> 0) e -> hd0 p = SLASH \/ hd0 p = 0 -> p <> [] ->
  span_elem (e ++ p) = (e, p).
Proof.
  intros He Hp Hne. induction He as [|c e [H1 H2] _ IH]; cbn [app span_elem].
  - destruct p as [|c p]; [done|]. cbn in *. destruct Hp as [->| ->]; done.
  - destruct (Z.eqb_spec c SLASH), (Z.eqb_spec c 0); try done. cbn. by rewrite IH.
Qed.

Definition path_wf (es : list (nat * list Z)) : Prop :=
  Forall (fun ke => is_elem ke.2) es /\ Forall (fun ke => ke.1 <> 0%nat) (drop 1 es).

Lemma path_wf_cons ke r : path_wf (ke :: r) -> path_wf r /\ is_elem ke.2 /\ Forall (fun ke => ke.1 <> 0%nat) r.
Proof.
  intros [H1 H2]. inversion H1; subst. cbn in H2. rewrite drop_0 in H2. split_and!; try done.
  split; [done|]. destruct r; [constructor|]. inversion H2; subst. cbn. by rewrite drop_0.
Qed.

(** The rest of a path starts at a slash or at the terminator. *)
Lemma path_of_head r m :
  Forall (fun ke => ke.1 <> 0%nat) r -> path_of r m <> [] /\ (hd0 (path_of r m) = SLASH \/ hd0 (path_of r m) = 0).
Proof.
  intros Hr. destruct r as [|[[|k] e] r].
  - destruct m; cbn; auto.
  - inversion Hr; subst. done.
  - cbn. auto.
Qed.

Lemma skip_slashes_path es m :
  path_wf es ->
  skip_slashes (path_of es m) = match es with [] => [0] | (k, e) :: r => e ++ path_of r m end.
Proof.
  intros [He _]. destruct es as [|[k e] r]; cbn [path_of]; [by apply skip_slashes_app|].
  apply skip_slashes_app. inversion He as [|? ? [Hne Hc] _]; subst. cbn in *.
  destruct e as [|c e]; [done|]. inversion Hc; subst. cbn. naive_solver.
Qed.

(** skipelem() on the first element of a path: the rest is the path without
    it and without the slashes that follow. *)
Lemma skipelem_path k e r m name :
  path_wf ((k, e) :: r) ->
  skipelem (path_of ((k, e) :: r) m) name
  = Some (skip_slashes (path_of r m), elem_name e name).
Proof.
  intros Hwf. pose proof (skip_slashes_path _ m Hwf) as Hs.
  destruct (path_wf_cons _ _ Hwf) as (_ & [Hne He] & Hr). cbn in Hne, He.
  destruct (path_of_head r m Hr) as [Hn Hh].
  unfold skipelem. rewrite Hs. rewrite span_elem_app by done.
  destruct e as [|c e]; [done|]. inversion He as [|? ? [_ Hc] _]; subst.
  change (hd0 ((c :: e) ++ path_of r m)) with c.
  destruct (Z.eqb_spec c 0); [done|]. unfold elem_name. reflexivity.
Qed.

Lemma cstr_app_nul e p : Forall (fun c => c <> 0) e -> cstr (e ++ 0 :: p) = e.
Proof.
  induction 1 as [|c e Hc _ IH]; [done|]. cbn [app cstr]. rewrite (proj2 (truthy_true c) Hc).
  by rewrite IH.
Qed.

Lemma cstr_all e : Forall (fun c => c <> 0) e -> cstr e = e.
Proof. induction 1 as [|c e Hc _ IH]; [done|]. cbn [cstr]. rewrite (proj2 (truthy_true c) Hc). by rewrite IH. Qed.

(** The name array holds the element, truncated to DIRSIZ bytes. *)
Lemma elem_name_cstr e name :
  is_elem e -> Z.of_nat (length name) = DIRSIZ ->
  Z.of_nat (length (elem_name e name)) = DIRSIZ /\ cstr (elem_name e name) = take (Z.to_nat DIRSIZ) e.
Proof.
  intros [_ He] Hn. change DIRSIZ with 14 in *. unfold elem_name. change DIRSIZ with 14.
  assert (Forall (fun c => c <> 0) e) as H0 by (eapply Forall_impl; [exact He|naive_solver]).
  rewrite Z.geb_leb. destruct (Z.leb_spec 14 (Z.of_nat (length e))).
  - assert (length (take (Z.to_nat 14) e) = 14%nat) as Hl by (rewrite length_take; lia).
    rewrite length_put_bytes by lia. split; [done|]. unfold put_bytes.
    rewrite take_0, drop_ge, app_nil_r by lia. apply cstr_all. by apply Forall_take.
  - rewrite length_put_bytes by (rewrite length_app; cbn; lia). split; [done|].
    rewrite (take_ge e) by lia. unfold put_bytes. rewrite take_0, app_nil_l, <- app_assoc. cbn [app].
    by apply cstr_app_nul.
Qed.

Lemma skip_slashes_rest r m :
  path_wf r -> exists r' m', skip_slashes (path_of r m) = path_of r' m'
    /\ path_wf r' /\ r'.*2 = r.*2 /\ length r' = length r.
Proof.
  intros Hwf. rewrite skip_slashes_path by done. destruct r as [|[k e] r].
  - by exists [], 0%nat.
  - exists ((0%nat, e) :: r), m. split_and!; try done. destruct Hwf as [H1 H2]. split; [|exact H2].
    inversion H1; subst. by constructor.
Qed.

(** Path names.  Following a path with skipelem(), as namex() does, goes
    through exactly its elements from left to right, whatever runs of
    slashes precede, separate and follow them; each is left in [name] as a C
    string truncated to DIRSIZ bytes, and the walk ends at the terminator. *)
Lemma path_elements es m name :
  path_wf es -> Z.of_nat (length name) = DIRSIZ ->
  cstr <$> path_walk (S (length es)) (path_of es m) name = take (Z.to_nat DIRSIZ) <$> es.*2.
Proof.
  revert m name. remember (length es) as n eqn:Hn. symmetry in Hn. revert es Hn.
  induction n as [|n IH]; intros es Hn m name Hwf Hl.
  - destruct es; [|done]. cbn [path_walk]. unfold skipelem.
    rewrite (skip_slashes_path [] m Hwf). done.
  - destruct es as [|[k e] r]; [done|]. injection Hn as Hn.
    destruct (path_wf_cons _ _ Hwf) as (Hr & He & _). cbn in He.
    destruct (elem_name_cstr e name He Hl) as [Hl' Hc].
    destruct (skip_slashes_rest r m Hr) as (r' & m' & Hs & Hwf' & H2 & Hlen).
    remember (S n) as n1. cbn [path_walk]. rewrite skipelem_path by done. subst n1.
    rewrite fmap_cons, Hc, Hs, (IH r') by (done || lia). rewrite H2. done.
Qed.

Lemma path_elements_witness :
  cstr <$> path_walk 3 (str "//usr/bin/" ++ [0]) name_zero = [str "usr"; str "bin"].
Proof.
  refine (path_elements [(2%nat, str "usr"); (1%nat, str "bin")] 1 name_zero _ eq_refl).
  split; repeat constructor; discriminate.
Defined.
