(* ===== verification/Inode.v ===== *)
(** * Inode: the contents of files (kernel/fs.c)

    The blocks of an inode, through its direct addresses and its indirect
    block, make up one sequence of bytes; readi() reads from it and writei()
    overwrites it.  The proofs use the interface [BlockCache] only, so they
    hold for every cache and driver behind it. *)

From S2P Require Import Prelude Params Machine Spinlock Strings Kalloc Uart Printk Sched Vm Sleeplock Blockdev Bio Bcache Log Fs.

Section inode.
Context {SYM : Symbols} {DISK : BlockDev} (dev : Z) (R : cview -> kst -> Prop) {BC : BlockCache dev R}.

(** ** A file as a sequence of bytes *)

(** The disk block that holds block [bn] of the file, 0 for none. *)
Definition fblock (v : cview) (i : inode) (bn : Z) : Z :=
  if bn <? NDIRECT then addr_at i (Z.to_nat bn)
  else u32_at (cv_data v (addr_at i IND)) (4 * Z.to_nat (bn - NDIRECT)).

(** Block [bn] has been allocated. *)
Definition mapped (v : cview) (i : inode) (bn : Z) : Prop :=
  0 <= bn < MAXFILE /\ (NDIRECT <= bn -> addr_at i IND <> 0) /\ fblock v i bn <> 0 /\
  Z.of_nat (length (cv_data v (fblock v i bn))) = BSIZE.

(** The byte at an offset. *)
Definition file (v : cview) (i : inode) : mem := fun off =>
  cv_data v (fblock v i (off / BSIZE)) !!! Z.to_nat (off mod BSIZE).

Definition allocated (v : cview) (i : inode) (off n : Z) : Prop :=
  forall x, off <= x < off + n -> mapped v i (x / BSIZE).

(** Nothing is locked, and a buffer is left for reading. *)
Definition quiet (v : cview) : Prop := cv_held v = ∅ /\ (size (cv_pins v) < NBUF)%nat.

Lemma bio_frame_trans s1 s2 s3 : bio_frame s1 s2 -> bio_frame s2 s3 -> bio_frame s1 s3.
Proof.
  intros (H1 & H2 & H3 & H4 & H5 & H6 & H7 & H8 & H9) (G1 & G2 & G3 & G4 & G5 & G6 & G7 & G8 & G9).
  split; [by etrans|]. split_and!; [congruence..|]. by apply (same_stack_trans s1 s2 s3).
Qed.

(** Reading a block and letting go of it. *)
Lemma read_held v s n : R v s -> cv_held v !! n = None -> (size (dom (cv_held v) ∪ cv_pins v) < NBUF)%nat ->
  exists b s1, bread dev n s = Done b s1 /\ R (hold n b v) s1 /\ bio_frame s s1 /\
    b_data (buf_at s1 b) = cv_data v n /\
    (forall s2, R (hold n b v) s2 -> exists s3, brelse b s2 = Done tt s3 /\ R v s3 /\ bio_frame s2 s3).
Proof using BC.
  intros HR Hn Hsz. destruct (bc_bread v s n HR Hn) as (b & s1 & E & HR1 & Hf); [by right|].
  assert (cv_held (hold n b v) !! n = Some b) as Hb by apply lookup_insert_eq.
  exists b, s1. split_and!; try done; [by apply (bc_data (dev := dev) (hold n b v))|].
  intros s2 HR2. destruct (bc_brelse (dev := dev) (hold n b v) s2 n b HR2 Hb) as (s3 & E3 & HR3 & Hf3).
  { cbn. destruct (decide (n ∈ cv_pins v)); [by left|right]. by apply (bc_clean (dev := dev) v s). }
  rewrite unhold_hold in HR3 by done. eauto.
Qed.

Lemma read_block v s n : R v s -> quiet v ->
  exists b s1, bread dev n s = Done b s1 /\ R (hold n b v) s1 /\ bio_frame s s1 /\
    b_data (buf_at s1 b) = cv_data v n /\
    (forall s2, R (hold n b v) s2 -> exists s3, brelse b s2 = Done tt s3 /\ R v s3 /\ bio_frame s2 s3).
Proof using BC.
  intros HR [Hh Hsz]. apply read_held; [done|by rewrite Hh|]. by rewrite Hh, dom_empty_L, (left_id_L ∅ _).
Qed.

(** ** bmap() *)
Lemma bmap_mapped v s ip i bn :
  R v s -> quiet v -> inode_at s ip = i -> i_dev i = dev -> mapped v i bn ->
  exists s', bmap ip bn s = Done (fblock v i bn) s' /\ R v s' /\ bio_frame s s'.
Proof using BC.
  intros HR Hq Hi Hd (Hbn & Hind & Hb & _). unfold bmap, geti. rewrite bind_gets, Hi.
  unfold fblock in *. destruct (Z.ltb_spec bn NDIRECT).
  { rewrite (proj2 (Z.eqb_neq _ _) Hb). exists s. by split_and!. }
  unfold MAXFILE in Hbn. destruct (Z.ltb_spec (bn - NDIRECT) NINDIRECT); [|lia].
  rewrite (proj2 (Z.eqb_neq _ _) (Hind ltac:(lia))). cbn [negb]. rewrite bind_ret.
  rewrite (proj2 (Z.eqb_neq _ _) (Hind ltac:(lia))). cbv iota. rewrite Hd.
  destruct (read_block v s (addr_at i IND) HR Hq) as (b & s1 & E1 & HR1 & Hf1 & Ed & Hrel).
  rewrite (bind_Done _ _ _ _ _ E1). unfold getb. rewrite bind_gets, Ed.
  rewrite (proj2 (Z.eqb_neq _ _) Hb). cbn [negb]. rewrite bind_ret.
  destruct (Hrel s1 HR1) as (s3 & E3 & HR3 & Hf3). rewrite (bind_Done _ _ _ _ _ E3).
  exists s3. split_and!; [done|done|by eapply bio_frame_trans].
Qed.

(** What a block contributes to a read that starts inside it. *)
Lemma chunk_file v i off m :
  mapped v i (off / BSIZE) -> 0 <= m <= BSIZE - off mod BSIZE ->
  take (Z.to_nat m) (drop (Z.to_nat (off mod BSIZE)) (cv_data v (fblock v i (off / BSIZE))))
  = mem_load (file v i) off (Z.to_nat m).
Proof.
  intros (_ & _ & _ & Hlen) Hm. pose proof (Z.mod_pos_bound off BSIZE ltac:(done)) as Hmod.
  apply list_eq. intros k. destruct (decide (k < Z.to_nat m)%nat) as [Hk|Hk].
  - rewrite lookup_take_lt, lookup_drop, mem_load_lookup by done. unfold file.
    assert ((off + Z.of_nat k) / BSIZE = off / BSIZE /\ (off + Z.of_nat k) mod BSIZE = off mod BSIZE + Z.of_nat k)
      as [-> ->].
    { pose proof (Z.div_mod off BSIZE ltac:(done)) as Hdm.
      assert (off + Z.of_nat k = BSIZE * (off / BSIZE) + (off mod BSIZE + Z.of_nat k)) as E by lia.
      split; [symmetry; eapply Z.div_unique|symmetry; eapply Z.mod_unique]; [|exact E| |exact E]; lia. }
    replace (Z.to_nat (off mod BSIZE + Z.of_nat k)) with (Z.to_nat (off mod BSIZE) + k)%nat by lia.
    apply list_lookup_lookup_total_lt. lia.
  - rewrite lookup_take_ge, lookup_ge_None_2; [done|rewrite mem_load_length; lia|lia].
Qed.

(** ** Memory after consecutive copies *)
Lemma mem_store_app m a l1 l2 x :
  mem_store (mem_store m a l1) (a + Z.of_nat (length l1)) l2 x = mem_store m a (l1 ++ l2) x.
Proof.
  destruct (decide (a <= x < a + Z.of_nat (length l1))).
  - rewrite mem_store_out by lia. rewrite !mem_store_in by (rewrite ?length_app; lia).
    rewrite lookup_total_app_l by lia. done.
  - destruct (decide (a <= x < a + Z.of_nat (length (l1 ++ l2)))); rewrite length_app in *.
    + rewrite !mem_store_in by (rewrite ?length_app; lia). rewrite lookup_total_app_r by lia. f_equal. lia.
    + rewrite !mem_store_out by (rewrite ?length_app; lia). done.
Qed.

Lemma mem_load_app m a j k : mem_load m a (j + k) = mem_load m a j ++ mem_load m (a + Z.of_nat j) k.
Proof.
  apply list_eq. intros q. destruct (decide (q < j)%nat).
  - rewrite lookup_app_l by (rewrite mem_load_length; lia). by rewrite !mem_load_lookup by lia.
  - rewrite lookup_app_r, mem_load_length by (rewrite mem_load_length; lia).
    destruct (decide (q < j + k)%nat).
    + rewrite !mem_load_lookup by lia. do 2 f_equal. lia.
    + rewrite !lookup_ge_None_2; rewrite ?mem_load_length; try done; lia.
Qed.

(** The cache does not depend on memory. *)
Lemma R_set_mem v s m : R v s -> R v (set_k_mem m (touch s)).
Proof using BC. intros HR. apply (bc_ext (dev := dev) v s); try done. by apply settled_touch. Qed.

Lemma copyout_kernel v s dst src :
  R v s -> either_copyout false dst src s = Done 0 (set_k_mem (mem_store (k_mem s) dst src) (touch s)).
Proof using BC.
  intros HR. destruct (bc_proc (dev := dev) v s HR) as [p Hp]. destruct (bc_idle (dev := dev) v s HR) as [Hc _].
  unfold either_copyout. erewrite bind_Done by by apply curproc_eq.
  unfold upd_mem. rewrite bind_modify. done.
Qed.

(** ** readi() *)

(** What is left alone while a file is read: all of it but the memory. *)
Definition read_frame (s s' : kst) : Prop :=
  settled s s' /\ k_log s' = k_log s /\ k_inodes s' = k_inodes s /\ k_sb s' = k_sb s /\ same_stack s s'.

Lemma read_frame_trans s1 s2 s3 : read_frame s1 s2 -> read_frame s2 s3 -> read_frame s1 s3.
Proof.
  intros (H1 & H2 & H3 & H4 & H5) (G1 & G2 & G3 & G4 & G5). split; [by etrans|].
  split_and!; [congruence..|]. by apply (same_stack_trans s1 s2 s3).
Qed.
Lemma bio_read_frame s s' : bio_frame s s' -> read_frame s s'.
Proof. intros (H1 & H2 & _ & _ & _ & H3 & H4 & _ & H5). by split_and!. Qed.

(** One round of the loop of readi(). *)
Definition read_round (ip : nat) (user_dst : bool) (n : Z) : Z * Z * Z -> K (Z * Z * Z + Z) :=
  fun '(tot, off, dst) =>
    if negb (tot <? n) then mret (inr tot) else
    addr ← bmap ip (off / BSIZE);
    if addr =? 0 then mret (inr tot) else
    i ← geti ip;
    bp ← bread (i_dev i) addr;
    let m := Z.min (n - tot) (BSIZE - off mod BSIZE) in
    bf ← getb bp;
    c ← either_copyout user_dst dst
          (take (Z.to_nat m) (drop (Z.to_nat (off mod BSIZE)) (b_data bf)));
    if c =? -1 then
      brelse bp ;;
      mret (inr (u32 (-1)))
    else
      brelse bp ;;
      mret (inl (tot + m, off + m, u64 (dst + m))).

Lemma read_round_ok v s ip i n tot off dst :
  R v s -> quiet v -> inode_at s ip = i -> i_dev i = dev -> mapped v i (off / BSIZE) ->
  0 <= tot < n -> 0 <= dst -> dst + (n - tot) < 2 ^ 64 ->
  let m := Z.min (n - tot) (BSIZE - off mod BSIZE) in
  exists s', read_round ip false n (tot, off, dst) s = Done (inl (tot + m, off + m, dst + m)) s' /\
    R v s' /\ read_frame s s' /\
    k_mem s' = mem_store (k_mem s) dst (mem_load (file v i) off (Z.to_nat m)).
Proof using BC.
  intros HR Hq Hi Hd Hmap Htot Hdst Hwrap m.
  pose proof (Z.mod_pos_bound off BSIZE ltac:(done)) as Hmod.
  unfold read_round. destruct (Z.ltb_spec tot n); [|lia]. cbn [negb].
  destruct (bmap_mapped v s ip i _ HR Hq Hi Hd Hmap) as (s1 & E1 & HR1 & Hf1).
  rewrite (bind_Done _ _ _ _ _ E1), (proj2 (Z.eqb_neq _ _) (proj1 (proj2 (proj2 Hmap)))).
  unfold geti. rewrite bind_gets.
  assert (inode_at s1 ip = i) as Hi1 by (destruct Hf1 as (_ & _ & _ & _ & _ & Hin & _); unfold inode_at; by rewrite Hin).
  rewrite Hi1, Hd.
  destruct (read_block v s1 (fblock v i (off / BSIZE)) HR1 Hq) as (b & s2 & E2 & HR2 & Hf2 & Ed & Hrel).
  rewrite (bind_Done _ _ _ _ _ E2). unfold getb. rewrite bind_gets, Ed. fold m.
  assert (0 <= m <= BSIZE - off mod BSIZE) as Hm by lia. rewrite chunk_file by done.
  rewrite (bind_Done _ _ _ _ _ (copyout_kernel _ s2 _ _ HR2)). change (0 =? -1) with false. cbv iota.
  destruct (Hrel _ (R_set_mem _ s2 (mem_store (k_mem s2) dst (mem_load (file v i) off (Z.to_nat m))) HR2)) as (s3 & E3 & HR3 & Hf3).
  rewrite (bind_Done _ _ _ _ _ E3). rewrite u64_small by lia.
  exists s3. split; [done|]. split; [done|].
  assert (read_frame s2 (set_k_mem (mem_store (k_mem s2) dst (mem_load (file v i) off (Z.to_nat m))) (touch s2))) as Hf.
  { split; [by apply settled_touch|]. split_and!; [done..|by apply same_stack_procs]. }
  split.
  - do 2 (eapply read_frame_trans; [apply bio_read_frame; eassumption|]).
    eapply read_frame_trans; [exact Hf|by apply bio_read_frame].
  - destruct Hf1 as (_ & _ & _ & _ & _ & _ & _ & F5 & _), Hf2 as (_ & _ & _ & _ & _ & _ & _ & G5 & _),
      Hf3 as (_ & _ & _ & _ & _ & _ & _ & J5 & _). rewrite J5. cbn. congruence.
Qed.

(** The number of blocks that [k] bytes from [off] touch. *)
Definition rounds (off k : Z) : Z := if 0 <? k then (off + k - 1) / BSIZE - off / BSIZE + 1 else 0.

Lemma rounds_nonneg off k : 0 <= rounds off k.
Proof.
  unfold rounds. destruct (Z.ltb_spec 0 k); [|lia].
  pose proof (Z.div_le_mono off (off + k - 1) BSIZE ltac:(done) ltac:(lia)). lia.
Qed.

Lemma rounds_step off k :
  0 < k -> let m := Z.min k (BSIZE - off mod BSIZE) in rounds (off + m) (k - m) + 1 <= rounds off k.
Proof.
  intros Hk m. pose proof (Z.mod_pos_bound off BSIZE ltac:(done)) as Hmod.
  pose proof (Z.div_mod off BSIZE ltac:(done)) as Hdm. unfold rounds.
  destruct (Z.ltb_spec 0 k); [|lia].
  pose proof (Z.div_le_mono off (off + k - 1) BSIZE ltac:(done) ltac:(lia)).
  destruct (Z.ltb_spec 0 (k - m)); [|lia].
  replace (off + m + (k - m) - 1) with (off + k - 1) by lia.
  assert ((off + m) / BSIZE = off / BSIZE + 1) as ->; [|lia].
  symmetry. apply (Z.div_unique _ _ _ 0); unfold BSIZE in *; lia.
Qed.

Lemma rounds_fuel off k : 0 <= off -> 0 <= k -> rounds off k + 1 <= k / BSIZE + 3.
Proof.
  intros Hoff Hk. pose proof (Z.div_pos k BSIZE Hk ltac:(done)). unfold rounds. destruct (Z.ltb_spec 0 k); [|lia].
  pose proof (Z.mod_pos_bound off BSIZE ltac:(done)). pose proof (Z.mod_pos_bound k BSIZE ltac:(done)).
  pose proof (Z.div_mod off BSIZE ltac:(done)). pose proof (Z.div_mod k BSIZE ltac:(done)).
  assert ((off + k - 1) / BSIZE < off / BSIZE + k / BSIZE + 2); [|lia].
  apply Z.div_lt_upper_bound; unfold BSIZE in *; lia.
Qed.

Section reading.
Context (v : cview) (ip : nat) (i : inode) (n off dst : Z).
Context (QUIET : quiet v) (DEV : i_dev i = dev) (ALLOC : allocated v i off n).
Context (DST : 0 <= dst /\ dst + n < 2 ^ 64).

Lemma read_loop_ok fuel : forall tot s,
  R v s -> inode_at s ip = i -> 0 <= tot <= n -> rounds (off + tot) (n - tot) + 1 <= Z.of_nat fuel ->
  exists s', loop fuel (read_round ip false n) (tot, off + tot, dst + tot) s = Done n s' /\
    R v s' /\ read_frame s s' /\
    forall x, k_mem s' x = mem_store (k_mem s) (dst + tot) (mem_load (file v i) (off + tot) (Z.to_nat (n - tot))) x.
Proof using BC QUIET DEV ALLOC DST.
  induction fuel as [|fuel IH]; intros tot s HR Hi Htot Hf.
  { pose proof (rounds_nonneg (off + tot) (n - tot)). lia. }
  destruct (decide (tot = n)) as [->|Hne].
  - exists s. split; [|split_and!; try done].
    + apply loop_done; [lia|]. unfold read_round. by rewrite Z.ltb_irrefl.
    + intros x. rewrite Z.sub_diag. rewrite mem_store_out; [done|]. rewrite mem_load_length. lia.
  - destruct (read_round_ok v s ip i n tot (off + tot) (dst + tot) HR QUIET Hi DEV) as (s1 & E & HR1 & Hf1 & Hm1);
      [apply ALLOC; lia|lia..|].
    pose proof (Z.mod_pos_bound (off + tot) BSIZE ltac:(done)) as Hmod.
    pose proof (rounds_step (off + tot) (n - tot) ltac:(lia)) as Hstep. cbv zeta in Hstep.
    set (m := Z.min (n - tot) (BSIZE - (off + tot) mod BSIZE)) in *.
    assert (0 < m <= n - tot) as Hmb by lia.
    destruct (IH (tot + m) s1) as (s2 & E2 & HR2 & Hf2 & Hm2).
    { done. }
    { destruct Hf1 as (_ & _ & Hin & _). unfold inode_at. by rewrite Hin. }
    { lia. }
    { replace (off + (tot + m)) with (off + tot + m) by lia.
      replace (n - (tot + m)) with (n - tot - m) by lia. lia. }
    exists s2. split; [|split_and!; [done|by eapply read_frame_trans|]].
    + rewrite (loop_next _ _ _ _ _ _ E). replace (off + tot + m) with (off + (tot + m)) by lia.
      by replace (dst + tot + m) with (dst + (tot + m)) by lia.
    + intros x. rewrite Hm2, Hm1.
      replace (Z.to_nat (n - tot)) with (Z.to_nat m + Z.to_nat (n - (tot + m)))%nat by lia.
      rewrite mem_load_app, <- mem_store_app, mem_load_length, !Z2Nat.id by lia.
      replace (off + (tot + m)) with (off + tot + m) by lia. by replace (dst + (tot + m)) with (dst + tot + m) by lia.
Qed.

End reading.

(** readi() into kernel memory: it returns how much of the request lies in the
    file and has copied exactly those bytes. *)
Lemma readi_ok v s ip i dst off n :
  R v s -> quiet v -> inode_at s ip = i -> i_dev i = dev ->
  0 <= off -> 0 <= n -> off + n < 2 ^ 31 -> 0 <= i_size i < 2 ^ 31 -> 0 <= dst -> dst + n < 2 ^ 64 ->
  let r := Z.max 0 (Z.min n (i_size i - off)) in
  allocated v i off r ->
  exists s', readi ip false dst off n s = Done r s' /\ R v s' /\ read_frame s s' /\
    forall x, k_mem s' x = mem_store (k_mem s) dst (mem_load (file v i) off (Z.to_nat r)) x.
Proof using BC.
  intros HR Hq Hi Hd Hoff Hn Hsum Hsz Hdst Hwrap r Hall. unfold readi, geti. rewrite bind_gets, Hi.
  rewrite (u32_small (off + n)) by lia. rewrite !Z.gtb_ltb.
  destruct (Z.ltb_spec (i_size i) off).
  { exists s. split_and!; [subst r; by replace (Z.max 0 _) with 0 by lia|done|done|].
    intros x. subst r. replace (Z.max 0 _) with 0 by lia. rewrite mem_store_out; [done|rewrite mem_load_length; lia]. }
  destruct (Z.ltb_spec (off + n) off); [lia|]. cbn [orb]. cbv zeta.
  replace (if i_size i <? off + n then i_size i - off else n) with r by (subst r; zcases).
  destruct (read_loop_ok v ip i r off dst Hq Hd Hall ltac:(lia) (rw_fuel r) 0 s) as (s' & E & HR' & Hf & Hm);
    [done|done|lia| |].
  { rewrite Z.add_0_r, Z.sub_0_r. unfold rw_fuel. pose proof (rounds_fuel off r Hoff ltac:(lia)).
    pose proof (Z.div_pos r BSIZE ltac:(lia) ltac:(done)). lia. }
  rewrite !Z.add_0_r, Z.sub_0_r in *. exists s'.
  split; [|done]. erewrite bind_Done by exact E. rewrite s32_small by lia. done.
Qed.

(** ** Writing inside a transaction *)

(** A transaction is open, the pinned blocks are those it has logged, and the
    buffers of [hd] are locked. *)
Record txh (hd : gmap Z nat) (v : cview) (s : kst) : Prop := {
  tx_R : R v s;
  tx_held : cv_held v = hd;
  tx_log : log_ok (k_log s);
  tx_open : 1 <= l_outstanding (k_log s);
  tx_pins : cv_pins v = list_to_set (logged (k_log s));
  tx_lock : lock_free LK_log s
}.
(** None is. *)
Definition tx : cview -> kst -> Prop := txh ∅.

(** The view after block [n] has been given contents [d] and logged. *)
Definition logged_put (n : Z) (d : list Z) (v : cview) : cview := pin n (put_data n d v).

(** [k] more blocks are logged; memory, inodes and superblock stay. *)
Definition write_frame (k : Z) (s s' : kst) : Prop :=
  settled s s' /\ k_inodes s' = k_inodes s /\ k_sb s' = k_sb s /\ k_mem s' = k_mem s /\
  lh_n (k_log s') <= lh_n (k_log s) + k /\ same_stack s s'.

Lemma tx_quiet v s : tx v s -> lh_n (k_log s) < Z.of_nat NBUF -> quiet v.
Proof.
  intros [HR Hh Hl _ Hp _] Hn. split; [done|]. rewrite Hp.
  pose proof (size_list_to_set_le (logged (k_log s))). pose proof (length_logged _ Hl). lia.
Qed.

(** A buffer is left for reading. *)
Lemma txh_room hd v s :
  txh hd v s -> Z.of_nat (size hd) + lh_n (k_log s) < Z.of_nat NBUF -> (size (dom (cv_held v) ∪ cv_pins v) < NBUF)%nat.
Proof.
  intros [HR Hh Hl _ Hp _] Hn. rewrite Hh, Hp.
  pose proof (size_list_to_set_le (logged (k_log s))). pose proof (length_logged _ Hl).
  rewrite size_union_alt, size_dom.
  pose proof (subseteq_size (list_to_set (C := gset Z) (logged (k_log s)) ∖ dom hd) (list_to_set (logged (k_log s))) ltac:(set_solver)).
  lia.
Qed.

(** Reading leaves the transaction as it is. *)
Lemma tx_read hd v s s' : txh hd v s -> R v s' -> read_frame s s' -> txh hd v s'.
Proof.
  intros [HR Hh Hl Ho Hp Hk] HR' (Hs & El & _). split; rewrite ?El; try done. by eapply lock_free_settled.
Qed.

Lemma updb_data s b f :
  (b < length (k_bufs s))%nat ->
  alter (set_data f) b (k_bufs s) = alter (set_b_data (f (b_data (buf_at s b)))) b (k_bufs s).
Proof.
  intros Hb. destruct (lookup_lt_is_Some_2 _ _ Hb) as [x Hx].
  unfold buf_at. rewrite (list_lookup_total_correct _ _ _ Hx).
  apply list_eq. intros j. destruct (decide (j = b)) as [->|Hj].
  - by rewrite !list_lookup_alter_eq, Hx.
  - by rewrite !list_lookup_alter_ne.
Qed.

(** log_write() on a held block, as a step on views. *)
Lemma log_write_view v s n b :
  R v s -> cv_held v !! n = Some b -> 0 <= n < 2 ^ 31 -> log_ok (k_log s) -> lh_n (k_log s) < LOGBLOCKS ->
  1 <= l_outstanding (k_log s) -> lock_free LK_log s -> cv_pins v = list_to_set (logged (k_log s)) ->
  exists s', log_write b s = Done tt s' /\ R (pin n v) s' /\ k_log s' = log_add n (k_log s) /\
    settled s s' /\ k_inodes s' = k_inodes s /\ k_sb s' = k_sb s /\ k_mem s' = k_mem s /\ k_procs s' = k_procs s.
Proof using BC.
  intros HR Hh Hn Hlog Hlt Hout Hlk Hpins.
  destruct (bc_idle (dev := dev) v s HR) as [Hc H0]. pose proof (bc_lock (dev := dev) v s HR) as Hbl.
  destruct (bc_blockno (dev := dev) v s n b HR Hh) as [Hb Hbn].
  exists (log_written s b). rewrite log_write_eq by done. unfold log_written. rewrite Hbn.
  assert (n ∈ cv_pins v <-> n ∈ logged (k_log s)) as Hin by (rewrite Hpins; apply elem_of_list_to_set).
  split_and!; try done; [|by apply settled_touch].
  case_bool_decide as Hl.
  - assert (pin n v = v) as ->.
    { unfold pin. destruct v. cbn in *. f_equal. apply Hin in Hl. set_solver. }
    apply (bc_ext (dev := dev) v s); try done. by apply settled_touch.
  - destruct (bc_bpin (dev := dev) v s n b HR Hh) as (s' & E & HR' & _); [by rewrite Hin|].
    rewrite bpin_eq in E by done. injection E as <-.
    apply (bc_ext (dev := dev) _ _ _ HR'); try done.
Qed.

(** Changing a locked block, logging it and letting go of it. *)
Lemma update_held hd v s n b f :
  txh (<[n := b]> hd) (hold n b v) s -> cv_held v = hd -> hd !! n = None ->
  lh_n (k_log s) < Z.of_nat NBUF -> 0 <= n < 2 ^ 31 ->
  let s2 := set_k_bufs (alter (set_data f) b (k_bufs s)) s in
  exists s3 s4, log_write b s2 = Done tt s3 /\ brelse b s3 = Done tt s4 /\
    txh hd (logged_put n (f (cv_data v n)) v) s4 /\ write_frame 1 s s4.
Proof using BC.
  intros [HR1 _ Hlog Hout Hpins Hlk] Hheld Hnd Hroom Hn s2.
  assert (cv_held (hold n b v) !! n = Some b) as Hb by apply lookup_insert_eq.
  destruct (bc_blockno (dev := dev) _ s n b HR1 Hb) as [Hlen _].
  assert (R (put_data n (f (cv_data v n)) (hold n b v)) s2 /\ bio_frame s s2) as [HR2 Hf2].
  { unfold s2. rewrite updb_data by done. rewrite (bc_data (dev := dev) _ s n b HR1 Hb). by apply bc_put. }
  assert (k_log s2 = k_log s) as Hl2 by done.
  destruct (log_write_view (put_data n (f (cv_data v n)) (hold n b v)) s2 n b)
    as (s3 & E3 & HR3 & El3 & Hs3 & Hi3 & Hsb3 & Hm3 & Hp3); rewrite ?Hl2; try done.
  destruct (bc_brelse (dev := dev) _ s3 n b HR3) as (s4 & E4 & HR4 & Hf4); [done|cbn; left; set_solver|].
  exists s3, s4. split; [done|]. split; [done|].
  destruct (log_add_logged n (k_log s) Hlog Hroom Hn) as [Hok' Hlogged'].
  destruct (log_add_n n (k_log s)) as (Hn1 & Ho1 & _).
  destruct Hf2 as (S2 & _ & _ & _ & _ & I2 & B2 & M2 & K2), Hf4 as (S4 & L4 & _ & _ & _ & I4 & B4 & M4 & K4).
  rewrite Hl2 in El3.
  assert (unhold n (pin n (put_data n (f (cv_data v n)) (hold n b v))) = logged_put n (f (cv_data v n)) v) as Ev.
  { destruct v. unfold unhold, pin, put_data, hold, logged_put. cbn in *. subst. by rewrite delete_insert_id. }
  rewrite Ev in HR4. split.
  - split; rewrite ?L4, ?El3; try done.
    + lia.
    + cbn in *. rewrite Hlogged', Hpins. case_bool_decide; [|rewrite list_to_set_app_L]; set_solver.
    + eapply lock_free_settled; [|exact Hlk]. etrans; [exact S2|]. by etrans.
  - split; [etrans; [exact S2|]; by etrans|]. split_and!; try congruence.
    apply (same_stack_trans _ s2); [done|done|]. apply (same_stack_trans _ s3); [done|by apply same_stack_procs|done].
Qed.

(** A block is locked by reading it. *)
Lemma tx_hold hd v s s1 n b :
  txh hd v s -> R (hold n b v) s1 -> settled s s1 -> k_log s1 = k_log s -> txh (<[n := b]> hd) (hold n b v) s1.
Proof.
  intros [HR Hheld Hlog Hout Hpins Hlk] HR1 Hs1 El. split; rewrite ?El; try done; [cbn; by rewrite Hheld|].
  by eapply lock_free_settled.
Qed.

(** Changing a block that has been read. *)
Lemma update_block hd v s s1 n b f :
  txh hd v s -> lh_n (k_log s) < Z.of_nat NBUF -> hd !! n = None -> 0 <= n < 2 ^ 31 ->
  R (hold n b v) s1 -> settled s s1 -> k_log s1 = k_log s ->
  let s2 := set_k_bufs (alter (set_data f) b (k_bufs s1)) s1 in
  exists s3 s4, log_write b s2 = Done tt s3 /\ brelse b s3 = Done tt s4 /\
    txh hd (logged_put n (f (cv_data v n)) v) s4 /\ write_frame 1 s1 s4.
Proof using BC.
  intros T Hroom Hnd Hn HR1 Hs1 Hl1. apply update_held; try done; [by apply (tx_hold hd v s)|apply T|by rewrite Hl1].
Qed.

(** ** What changing one block does to a file *)

(** Different blocks of the file are in different places, none of them where
    the addresses are kept. *)
Record sane (v : cview) (i : inode) : Prop := {
  sane_inj a b : mapped v i a -> mapped v i b -> fblock v i a = fblock v i b -> a = b;
  sane_ind a : mapped v i a -> fblock v i a <> addr_at i IND;
  sane_range a : mapped v i a -> 0 <= fblock v i a < 2 ^ 31
}.

Lemma fblock_put v i n d a :
  (NDIRECT <= a -> n <> addr_at i IND) -> fblock (logged_put n d v) i a = fblock v i a.
Proof.
  intros H. unfold fblock. destruct (Z.ltb_spec a NDIRECT); [done|]. cbn. rewrite upd_ne; [done|].
  intros E. by apply H; [lia|].
Qed.

Lemma mapped_put v i n d a :
  n <> addr_at i IND -> length d = length (cv_data v n) ->
  mapped (logged_put n d v) i a <-> mapped v i a.
Proof.
  intros Hn Hd. unfold mapped. rewrite fblock_put by done. cbn.
  destruct (decide (fblock v i a = n)) as [->|Hne]; [rewrite upd_eq, Hd|rewrite upd_ne by done]; done.
Qed.

Lemma sane_put v i n d :
  n <> addr_at i IND -> length d = length (cv_data v n) -> sane v i -> sane (logged_put n d v) i.
Proof.
  intros Hn Hd [H1 H2 H3]. split; intros a; [intros b|..]; rewrite !mapped_put, !fblock_put by done; auto.
Qed.

(** Elsewhere in the file nothing changes. *)
Lemma file_put_other v i n d x :
  n <> addr_at i IND -> fblock v i (x / BSIZE) <> n -> file (logged_put n d v) i x = file v i x.
Proof. intros Hn Hx. unfold file. rewrite fblock_put by done. cbn. by rewrite upd_ne. Qed.

Lemma put_bytes_total data o bs k :
  (o + length bs <= length data)%nat ->
  put_bytes data o bs !!! k =
    if bool_decide (o <= k < o + length bs)%nat then bs !!! (k - o)%nat else data !!! k.
Proof.
  intros Hfit. unfold put_bytes. case_bool_decide.
  - rewrite lookup_total_app_r by (rewrite length_take; lia). rewrite length_take, Nat.min_l by lia.
    by rewrite lookup_total_app_l by lia.
  - destruct (decide (k < o)%nat).
    + rewrite lookup_total_app_l by (rewrite length_take; lia). by rewrite lookup_total_take_lt by lia.
    + rewrite lookup_total_app_r by (rewrite length_take; lia). rewrite length_take, Nat.min_l by lia.
      rewrite lookup_total_app_r by lia. rewrite lookup_total_drop. f_equal. lia.
Qed.

(** [v'] is [v] with [bytes] written to the file at [off] and nothing else. *)
Record written_to (i : inode) (off : Z) (bytes : list Z) (v v' : cview) : Prop := {
  wt_fblock a : fblock v' i a = fblock v i a;
  wt_mapped a : mapped v' i a <-> mapped v i a;
  wt_sane : sane v i -> sane v' i;
  wt_file x : mapped v i (x / BSIZE) -> file v' i x = mem_store (file v i) off bytes x;
  wt_other n : (forall x, off <= x < off + Z.of_nat (length bytes) -> n <> fblock v i (x / BSIZE)) ->
    cv_data v' n = cv_data v n
}.

Lemma written_to_chunk v i off bytes :
  sane v i -> mapped v i (off / BSIZE) -> bytes <> [] -> Z.of_nat (length bytes) <= BSIZE - off mod BSIZE ->
  let n := fblock v i (off / BSIZE) in
  written_to i off bytes v (logged_put n (put_bytes (cv_data v n) (Z.to_nat (off mod BSIZE)) bytes) v).
Proof.
  intros Hs Hm Hne Hlen n. pose proof (Z.mod_pos_bound off BSIZE ltac:(done)) as Hmod.
  pose proof (Z.div_mod off BSIZE ltac:(done)) as Hdm.
  assert (n <> addr_at i IND) as Hn by by apply (sane_ind _ _ Hs).
  assert (Z.of_nat (length (cv_data v n)) = BSIZE) as HB by apply Hm.
  assert (length (put_bytes (cv_data v n) (Z.to_nat (off mod BSIZE)) bytes) = length (cv_data v n)) as Hd
    by (apply length_put_bytes; lia).
  split; [intros; by apply fblock_put|intros; by apply mapped_put|by apply sane_put| |].
  - intros x Hx. pose proof (Z.mod_pos_bound x BSIZE ltac:(done)) as Hmx.
    pose proof (Z.div_mod x BSIZE ltac:(done)) as Hdx.
    destruct (decide (x / BSIZE = off / BSIZE)) as [E|E].
    + unfold file at 1. rewrite fblock_put, E by done. cbn. rewrite upd_eq, put_bytes_total by lia.
      unfold mem_store, file. rewrite E. fold n. unfold BSIZE in *.
      case_bool_decide; zcases; try done; [f_equal; lia|exfalso; lia..].
    + rewrite file_put_other; [|done|intros E'; apply E; by apply (sane_inj _ _ Hs)].
      rewrite mem_store_out; [done|]. intros Hin. apply E. unfold BSIZE in *. lia.
  - intros m Hm'. cbn. apply upd_ne. apply (Hm' off). destruct bytes; [done|cbn; lia].
Qed.

Lemma written_to_nil v i off : written_to i off [] v v.
Proof. split; try done. intros x _. by rewrite mem_store_out by (cbn; lia). Qed.

Lemma written_to_app v v1 v2 i off b1 b2 :
  written_to i off b1 v v1 -> written_to i (off + Z.of_nat (length b1)) b2 v1 v2 ->
  written_to i off (b1 ++ b2) v v2.
Proof.
  intros [F1 M1 S1 C1 O1] [F2 M2 S2 C2 O2]. split.
  - intros a. by rewrite F2.
  - intros a. by rewrite M2.
  - auto.
  - intros x Hx. rewrite C2 by by apply M1. rewrite <- mem_store_app.
    unfold mem_store at 1 2. by rewrite C1.
  - intros n Hn. rewrite length_app in Hn. rewrite O2, O1; [done|intros x Hx; apply Hn; lia|].
    intros x Hx. rewrite F1. apply Hn. lia.
Qed.

(** ** writei() *)

(** One round of the loop of writei(): the block [addr] is written. *)
Definition write_chunk (ip : nat) (user_src : bool) (n addr : Z) : Z * Z * Z -> K (Z * Z * Z + Z * Z) :=
  fun '(tot, off, src) =>
    i ← geti ip;
    bp ← bread (i_dev i) addr;
    let m := Z.min (n - tot) (BSIZE - off mod BSIZE) in
    c ← either_copyin user_src src m;
    updb bp (set_data (fun d => put_bytes d (Z.to_nat (off mod BSIZE)) c.2)) ;;
    if c.1 =? -1 then
      brelse bp ;;
      mret (inr (tot, off))
    else
      log_write bp ;;
      brelse bp ;;
      mret (inl (tot + m, off + m, u64 (src + m))).

Definition write_round (ip : nat) (user_src : bool) (n : Z) : Z * Z * Z -> K (Z * Z * Z + Z * Z) :=
  fun '(tot, off, src) =>
    if negb (tot <? n) then mret (inr (tot, off)) else
    addr ← bmap ip (off / BSIZE);
    if addr =? 0 then mret (inr (tot, off)) else
    write_chunk ip user_src n addr (tot, off, src).

Lemma copyin_kernel v s src len :
  R v s -> either_copyin false src len s = Done (0, mem_load (k_mem s) src (Z.to_nat len)) (touch s).
Proof using BC.
  intros HR. destruct (bc_proc (dev := dev) v s HR) as [p Hp]. destruct (bc_idle (dev := dev) v s HR) as [Hc _].
  unfold either_copyin. erewrite bind_Done by by apply curproc_eq. rewrite bind_gets. done.
Qed.

Lemma write_frame_trans j k s1 s2 s3 : write_frame j s1 s2 -> write_frame k s2 s3 -> write_frame (j + k) s1 s3.
Proof.
  intros (H1 & H2 & H3 & H4 & H5 & H6) (G1 & G2 & G3 & G4 & G5 & G6). split; [by etrans|].
  split_and!; [congruence..|lia|]. by apply (same_stack_trans s1 s2 s3).
Qed.
Lemma bio_write_frame s s' : bio_frame s s' -> write_frame 0 s s'.
Proof. intros (H1 & H2 & _ & _ & _ & H3 & H4 & H5 & H6). split_and!; try done. rewrite H2. lia. Qed.

Lemma write_chunk_ok v s ip i n tot off src :
  tx v s -> lh_n (k_log s) < Z.of_nat NBUF -> inode_at s ip = i -> i_dev i = dev -> sane v i ->
  mapped v i (off / BSIZE) -> 0 <= tot < n -> 0 <= src -> src + (n - tot) < 2 ^ 64 ->
  let m := Z.min (n - tot) (BSIZE - off mod BSIZE) in
  let blk := fblock v i (off / BSIZE) in
  let bytes := mem_load (k_mem s) src (Z.to_nat m) in
  let v' := logged_put blk (put_bytes (cv_data v blk) (Z.to_nat (off mod BSIZE)) bytes) v in
  exists s', write_chunk ip false n blk (tot, off, src) s = Done (inl (tot + m, off + m, src + m)) s' /\
    tx v' s' /\ write_frame 1 s s' /\ written_to i off bytes v v'.
Proof using BC.
  intros T Hroom Hi Hd Hsane Hmap Htot Hsrc Hwrap m blk bytes v'. pose proof (tx_quiet v s T Hroom) as Hq.
  pose proof (Z.mod_pos_bound off BSIZE ltac:(done)) as Hmod. pose proof (tx_R _ _ _ T) as HR.
  unfold write_chunk, geti. rewrite bind_gets, Hi, Hd.
  destruct (read_block v s blk HR Hq) as (b & s2 & E2 & HR2 & Hf & _).
  rewrite (bind_Done _ _ _ _ _ E2). fold m.
  rewrite (bind_Done _ _ _ _ _ (copyin_kernel _ s2 _ _ HR2)).
  assert (k_mem s2 = k_mem s) as Hmem by apply Hf. rewrite Hmem. fold bytes.
  unfold updb. rewrite bind_modify. cbn [fst snd]. change (0 =? -1) with false. cbv iota.
  destruct (update_block ∅ v s (touch s2) blk b (fun d => put_bytes d (Z.to_nat (off mod BSIZE)) bytes) T Hroom ltac:(done))
    as (s3 & s4 & E3 & E4 & T4 & Hf4).
  { apply (sane_range _ _ Hsane). done. }
  { apply (bc_ext (dev := dev) _ s2); try done. by apply settled_touch. }
  { etrans; [apply Hf|]. by apply settled_touch. }
  { apply Hf. }
  rewrite (bind_Done _ _ _ _ _ E3), (bind_Done _ _ _ _ _ E4), u64_small by lia.
  exists s4. split; [done|]. split; [exact T4|]. split.
  - apply (write_frame_trans 0 1 s s2); [by apply bio_write_frame|].
    apply (write_frame_trans 0 1 s2 (touch s2)); [|done].
    split; [by apply settled_touch|]. split_and!; [done..|cbn; lia|by apply same_stack_procs].
  - apply written_to_chunk; try done; subst bytes.
    + intros E%(f_equal length). rewrite mem_load_length in E. cbn in E. lia.
    + rewrite mem_load_length. lia.
Qed.

Lemma write_round_ok v s ip i n tot off src :
  tx v s -> lh_n (k_log s) < Z.of_nat NBUF -> inode_at s ip = i -> i_dev i = dev -> sane v i ->
  mapped v i (off / BSIZE) -> 0 <= tot < n -> 0 <= src -> src + (n - tot) < 2 ^ 64 ->
  let m := Z.min (n - tot) (BSIZE - off mod BSIZE) in
  exists v' s', write_round ip false n (tot, off, src) s = Done (inl (tot + m, off + m, src + m)) s' /\
    tx v' s' /\ write_frame 1 s s' /\ written_to i off (mem_load (k_mem s) src (Z.to_nat m)) v v'.
Proof using BC.
  intros T Hroom Hi Hd Hsane Hmap Htot Hsrc Hwrap m. pose proof (tx_quiet v s T Hroom) as Hq.
  unfold write_round. destruct (Z.ltb_spec tot n); [|lia]. cbn [negb].
  destruct (bmap_mapped v s ip i _ (tx_R _ _ _ T) Hq Hi Hd Hmap) as (s1 & E1 & HR1 & Hf1).
  rewrite (bind_Done _ _ _ _ _ E1), (proj2 (Z.eqb_neq _ _) (proj1 (proj2 (proj2 Hmap)))).
  pose proof Hf1 as (_ & L1 & _ & _ & _ & I1 & _ & M1 & _).
  destruct (write_chunk_ok v s1 ip i n tot off src) as (s2 & E2 & T2 & Hf2 & W); rewrite ?L1; try done.
  { apply (tx_read ∅ v s); [done|done|by apply bio_read_frame]. } { unfold inode_at. by rewrite I1. }
  eexists _, s2. rewrite M1 in *. split_and!; [exact E2|exact T2| |exact W].
  apply (write_frame_trans 0 1 s s1); [by apply bio_write_frame|done].
Qed.

Section writing.
Context (ip : nat) (i : inode) (n off src : Z) (m0 : mem).
Context (DEV : i_dev i = dev) (SRC : 0 <= src /\ src + n < 2 ^ 64).

Lemma write_loop_ok fuel : forall v tot s,
  tx v s -> inode_at s ip = i -> k_mem s = m0 -> sane v i -> allocated v i off n -> 0 <= tot <= n ->
  lh_n (k_log s) + rounds (off + tot) (n - tot) <= Z.of_nat NBUF ->
  rounds (off + tot) (n - tot) + 1 <= Z.of_nat fuel ->
  exists v' s', loop fuel (write_round ip false n) (tot, off + tot, src + tot) s = Done (n, off + n) s' /\
    tx v' s' /\ write_frame (rounds (off + tot) (n - tot)) s s' /\
    written_to i (off + tot) (mem_load m0 (src + tot) (Z.to_nat (n - tot))) v v'.
Proof using BC DEV SRC.
  induction fuel as [|fuel IH]; intros v tot s T Hi Hmem Hs Hall Htot Hroom Hf.
  { pose proof (rounds_nonneg (off + tot) (n - tot)). lia. }
  destruct (decide (tot = n)) as [->|Hne].
  - exists v, s. rewrite Z.sub_diag. change (rounds (off + n) 0) with 0.
    split; [|split_and!; [done| |apply written_to_nil]].
    + apply loop_done; [lia|]. unfold write_round. by rewrite Z.ltb_irrefl.
    + split_and!; try done. lia.
  - pose proof (rounds_step (off + tot) (n - tot) ltac:(lia)) as Hstep. cbv zeta in Hstep.
    pose proof (Z.mod_pos_bound (off + tot) BSIZE ltac:(done)) as Hmod.
    destruct (write_round_ok v s ip i n tot (off + tot) (src + tot)) as (v1 & s1 & E & T1 & Hf1 & W1);
      try done; [|apply Hall; lia|lia..|].
    { pose proof (rounds_nonneg (off + tot + Z.min (n - tot) (BSIZE - (off + tot) mod BSIZE))
        (n - tot - Z.min (n - tot) (BSIZE - (off + tot) mod BSIZE))). lia. }
    set (m := Z.min (n - tot) (BSIZE - (off + tot) mod BSIZE)) in *.
    assert (0 < m <= n - tot) as Hmb by lia.
    replace (off + tot + m) with (off + (tot + m)) in * by lia.
    replace (n - tot - m) with (n - (tot + m)) in * by lia.
    pose proof Hf1 as (_ & Hin1 & _ & Hm1 & Hn1).
    destruct (IH v1 (tot + m) s1) as (v2 & s2 & E2 & T2 & Hf2 & W2); try done; [..|lia|lia|lia|].
    { unfold inode_at. by rewrite Hin1. }
    { congruence. }
    { by apply (wt_sane _ _ _ _ _ W1). }
    { intros x Hx. apply (wt_mapped _ _ _ _ _ W1). by apply Hall. }
    exists v2, s2. split; [|split_and!; [done| |]].
    + rewrite (loop_next _ _ _ _ _ _ E). by replace (src + tot + m) with (src + (tot + m)) by lia.
    + destruct (write_frame_trans _ _ _ _ _ Hf1 Hf2) as (? & ? & ? & ? & ? & ?). split_and!; try done. lia.
    + replace (Z.to_nat (n - tot)) with (Z.to_nat m + Z.to_nat (n - (tot + m)))%nat by lia.
      rewrite mem_load_app. eapply written_to_app; [by rewrite Hmem in W1|].
      rewrite mem_load_length, Z2Nat.id by lia. replace (off + tot + m) with (off + (tot + m)) by lia.
      by replace (src + tot + m) with (src + (tot + m)) by lia.
Qed.

End writing.

Lemma tx_ext hd v s s' :
  txh hd v s -> settled s s' -> k_procs s' = k_procs s -> k_slocks s' = k_slocks s -> k_bufs s' = k_bufs s ->
  k_disk s' = k_disk s -> k_dwrites s' = k_dwrites s -> k_log s' = k_log s -> txh hd v s'.
Proof using BC.
  intros [HR Hh Hl Ho Hp Hk] Hs H1 H2 H3 H4 H5 H6. split; rewrite ?H6; try done.
  - by apply (bc_ext (dev := dev) v s).
  - by eapply lock_free_settled.
Qed.

(** The block of the inode on disk, and what iupdate() makes of it. *)
Definition dinode_of (i : inode) : dinode :=
  mkDinode (i_type i) (i_major i) (i_minor i) (i_nlink i) (i_size i) (i_addrs i).

Lemma iupdate_ok v s ip :
  let i := inode_at s ip in let nb := IBLOCK (i_inum i) (k_sb s) in
  tx v s -> lh_n (k_log s) < Z.of_nat NBUF -> i_dev i = dev -> nb < 2 ^ 31 ->
  exists s', iupdate ip s = Done tt s' /\ write_frame 1 s s' /\
    tx (logged_put nb (write_dinode (cv_data v nb) (dinode_off (i_inum i)) (dinode_of i)) v) s'.
Proof using BC.
  intros i nb T Hroom Hd Hnb. pose proof (tx_quiet v s T Hroom) as Hq. pose proof (tx_R _ _ _ T) as HR.
  assert (0 <= nb) as Hnb0 by (apply u32_range).
  unfold iupdate, geti, getsb. rewrite !bind_gets. fold i. fold nb. rewrite Hd.
  destruct (read_block v s nb HR Hq) as (b & s1 & E1 & HR1 & Hf1 & _).
  rewrite (bind_Done _ _ _ _ _ E1). rewrite bind_gets. unfold updb. rewrite bind_modify.
  assert (inode_at s1 ip = i) as -> by (destruct Hf1 as (_ & _ & _ & _ & _ & Hin & _); unfold inode_at; by rewrite Hin).
  destruct (update_block ∅ v s s1 nb b (fun d => write_dinode d (dinode_off (i_inum i)) (dinode_of i)) T Hroom ltac:(done))
    as (s3 & s4 & E3 & E4 & T4 & Hf4); [lia|done|apply Hf1|apply Hf1|].
  unfold dinode_of in E3. rewrite (bind_Done _ _ _ _ _ E3). exists s4. split; [done|]. split; [|exact T4].
  replace 1 with (0 + 1) by lia. eapply write_frame_trans; [by apply bio_write_frame|done].
Qed.

(** What has to hold of an inode for a write of [n] bytes at [off]. *)
Record writable (v : cview) (s : kst) (ip : nat) (off n : Z) : Prop := {
  wr_slot : (ip < length (k_inodes s))%nat;
  wr_dev : i_dev (inode_at s ip) = dev;
  wr_sane : sane v (inode_at s ip);
  wr_alloc : allocated v (inode_at s ip) off n;
  wr_range : 0 <= off <= i_size (inode_at s ip) /\ 0 <= n /\ off + n <= MAXFILE * BSIZE;
  wr_size : i_size (inode_at s ip) <= MAXFILE * BSIZE;
  wr_room : lh_n (k_log s) + rounds off n < Z.of_nat NBUF;
  wr_iblock : IBLOCK (i_inum (inode_at s ip)) (k_sb s) < 2 ^ 31;
  wr_apart a : mapped v (inode_at s ip) a -> fblock v (inode_at s ip) a <> IBLOCK (i_inum (inode_at s ip)) (k_sb s);
  wr_apart_ind : addr_at (inode_at s ip) IND <> IBLOCK (i_inum (inode_at s ip)) (k_sb s)
}.

(** The size after the write, set if the file has grown. *)
Definition grown (off n : Z) (i : inode) : inode :=
  if off + n >? i_size i then set_i_size (off + n) i else i.

Lemma inode_at_alter s ip f :
  (ip < length (k_inodes s))%nat -> inode_at (set_k_inodes (alter f ip (k_inodes s)) s) ip = f (inode_at s ip).
Proof.
  intros [x Hx]%lookup_lt_is_Some. unfold inode_at. cbn. rewrite !list_lookup_total_alt.
  by rewrite list_lookup_alter_eq, Hx.
Qed.

(** The end of writei(): the size, and the inode on disk. *)
Definition write_end (ip : nat) (off : Z) : K unit :=
  i ← geti ip;
  when (off >? i_size i) (updi ip (set_i_size off)) ;;
  iupdate ip.

Lemma write_end_ret ip off (r : Z) s s' :
  write_end ip off s = Done tt s' ->
  (i ← geti ip; when (off >? i_size i) (updi ip (set_i_size off)) ;; iupdate ip ;; mret r) s = Done r s'.
Proof.
  unfold write_end, geti. rewrite !bind_gets. rewrite !bind_as_res. generalize (when (off >? i_size (inode_at s ip)) (updi ip (set_i_size off)) s). intros q E.
  pose proof (res_bind_bind (fun _ : unit => iupdate ip) (fun _ => mret r) q) as H. rewrite E in H. exact (eq_sym H).
Qed.

Lemma write_end_ok v s ip off n :
  let i := inode_at s ip in let nb := IBLOCK (i_inum i) (k_sb s) in
  tx v s -> (ip < length (k_inodes s))%nat -> lh_n (k_log s) < Z.of_nat NBUF -> i_dev i = dev -> nb < 2 ^ 31 ->
  exists s', write_end ip (off + n) s = Done tt s' /\
    tx (logged_put nb (write_dinode (cv_data v nb) (dinode_off (i_inum i)) (dinode_of (grown off n i))) v) s' /\
    inode_at s' ip = grown off n i /\ k_mem s' = k_mem s /\ k_sb s' = k_sb s /\
    lh_n (k_log s') <= lh_n (k_log s) + 1 /\ settled s s' /\ same_stack s s' /\
    length (k_inodes s') = length (k_inodes s).
Proof using BC.
  intros i nb T Hslot Hroom Hd Hib. unfold write_end, geti. rewrite bind_gets. fold i. rewrite Z.gtb_ltb.
  set (s2 := if i_size i <? off + n then set_k_inodes (alter (set_i_size (off + n)) ip (k_inodes s)) s else s).
  assert (when (i_size i <? off + n) (updi ip (set_i_size (off + n))) s = Done tt s2) as ->%(bind_Done _ _ _ _ _).
  { unfold s2, when, updi. by destruct (i_size i <? off + n). }
  assert (tx v s2) as T2 by (unfold s2; destruct (i_size i <? off + n); [|done]; by apply (tx_ext ∅ v s)).
  assert (inode_at s2 ip = grown off n i) as Hi2.
  { unfold s2, grown. rewrite Z.gtb_ltb. destruct (i_size i <? off + n); [|done]. by rewrite inode_at_alter. }
  assert (k_log s2 = k_log s /\ k_sb s2 = k_sb s /\ k_mem s2 = k_mem s) as (L2 & B2 & M2)
    by (unfold s2; by destruct (i_size i <? off + n)).
  assert (i_inum (grown off n i) = i_inum i /\ i_dev (grown off n i) = i_dev i) as [Gn Gd]
    by (unfold grown; by case_match).
  destruct (iupdate_ok v s2 ip T2) as (s3 & E3 & Hf3 & T3); rewrite ?L2, ?Hi2, ?B2, ?Gn, ?Gd in *; [lia|done|done|].
  destruct Hf3 as (S3 & I3 & B3 & M3 & N3 & K3). exists s3. split; [done|]. split; [exact T3|].
  assert (settled s s2 /\ same_stack s s2 /\ length (k_inodes s2) = length (k_inodes s)) as (S2 & K2 & Hl2).
  { unfold s2. destruct (i_size i <? off + n); [|done]. cbn. by rewrite length_alter. }
  split_and!; [|congruence|congruence|rewrite L2 in N3; lia|by etrans| |by rewrite I3].
  - unfold inode_at. rewrite I3. exact Hi2.
  - by apply (same_stack_trans s s2).
Qed.

(** writei() is its loop and this end. *)
Lemma writei_run ip src off n s s1 s2 :
  0 <= off <= i_size (inode_at s ip) -> 0 <= n -> off + n <= MAXFILE * BSIZE ->
  loop (rw_fuel n) (write_round ip false n) (0, off, src) s = Done (n, off + n) s1 ->
  write_end ip (off + n) s1 = Done tt s2 -> writei ip false src off n s = Done n s2.
Proof.
  intros Hoff Hn Hmax E E2. assert (MAXFILE * BSIZE = 274432) as HM by done.
  unfold writei, geti. rewrite bind_gets. rewrite (u32_small (off + n)) by lia. rewrite !Z.gtb_ltb.
  destruct (Z.ltb_spec (i_size (inode_at s ip)) off); [lia|]. destruct (Z.ltb_spec (off + n) off); [lia|]. cbn [orb].
  destruct (Z.ltb_spec (MAXFILE * BSIZE) (off + n)); [lia|].
  erewrite bind_Done by exact E. cbv beta iota. rewrite s32_small by lia. by apply write_end_ret.
Qed.

Lemma writei_ok v s ip src off n :
  tx v s -> writable v s ip off n -> 0 <= src -> src + n < 2 ^ 64 ->
  let i := inode_at s ip in let nb := IBLOCK (i_inum i) (k_sb s) in
  exists v1 v' s', writei ip false src off n s = Done n s' /\ tx v' s' /\
    inode_at s' ip = grown off n i /\ k_mem s' = k_mem s /\
    written_to i off (mem_load (k_mem s) src (Z.to_nat n)) v v1 /\
    v' = logged_put nb (write_dinode (cv_data v1 nb) (dinode_off (i_inum i)) (dinode_of (grown off n i))) v1 /\
    lh_n (k_log s') <= lh_n (k_log s) + rounds off n + 1 /\ settled s s' /\ same_stack s s' /\
    length (k_inodes s') = length (k_inodes s).
Proof using BC.
  intros T [Hslot Hd Hs Hall Hr Hsz Hroom Hib _ _] Hsrc Hwrap i nb.
  pose proof (rounds_fuel off n ltac:(lia) ltac:(lia)) as Hfuel. pose proof (rounds_nonneg off n) as Hnn.
  destruct (write_loop_ok ip i n off src (k_mem s) Hd (conj Hsrc Hwrap) (rw_fuel n) v 0 s) as (v1 & s1 & E & T1 & Hf1 & W);
    rewrite ?Z.add_0_r, ?Z.sub_0_r in *; try done; [lia|lia|unfold rw_fuel; lia|].
  destruct Hf1 as (S1 & I1 & B1 & M1 & N1 & K1).
  assert (inode_at s1 ip = i) as Hi1 by (unfold inode_at; by rewrite I1).
  destruct (write_end_ok v1 s1 ip off n T1) as (s3 & E3 & T3 & I3 & M3 & B3 & N3 & S3 & K3 & L3);
    rewrite ?I1, ?Hi1, ?B1 in *; try done; [lia|].
  eexists v1, _, s3. split; [apply (writei_run ip src off n s s1); (done || lia)|]. split; [exact T3|].
  split_and!; [done|congruence|done|done|lia|by etrans|by apply (same_stack_trans s s1)|congruence].
Qed.

Lemma mapped_put_other v i n d a :
  n <> addr_at i IND -> fblock v i a <> n -> mapped (logged_put n d v) i a <-> mapped v i a.
Proof. intros Hn Hb. unfold mapped. rewrite fblock_put by done. cbn. by rewrite upd_ne. Qed.

(** Growing a file does not move its blocks. *)
Lemma grown_addrs off n i : i_addrs (grown off n i) = i_addrs i.
Proof. unfold grown. by case_match. Qed.
Lemma fblock_grown v off n i a : fblock v (grown off n i) a = fblock v i a.
Proof. unfold fblock, addr_at. by rewrite grown_addrs. Qed.
Lemma mapped_grown v off n i a : mapped v (grown off n i) a <-> mapped v i a.
Proof. unfold mapped. rewrite fblock_grown. unfold addr_at. by rewrite grown_addrs. Qed.
Lemma file_grown v off n i x : file v (grown off n i) x = file v i x.
Proof. unfold file. by rewrite fblock_grown. Qed.

(** What writei() does to the file, and to nothing else. *)
Lemma writei_file v s ip src off n :
  tx v s -> writable v s ip off n -> 0 <= src -> src + n < 2 ^ 64 ->
  let i := inode_at s ip in
  let bytes := mem_load (k_mem s) src (Z.to_nat n) in
  exists v' s', writei ip false src off n s = Done n s' /\ tx v' s' /\
    inode_at s' ip = grown off n i /\ k_mem s' = k_mem s /\
    (forall a, mapped v i a -> mapped v' (grown off n i) a) /\
    (forall x, mapped v i (x / BSIZE) -> file v' (grown off n i) x = mem_store (file v i) off bytes x) /\
    (forall b, b <> IBLOCK (i_inum i) (k_sb s) -> (forall x, off <= x < off + n -> b <> fblock v i (x / BSIZE)) ->
       cv_data v' b = cv_data v b) /\
    lh_n (k_log s') <= lh_n (k_log s) + rounds off n + 1 /\ settled s s' /\ same_stack s s'.
Proof using BC.
  intros T W Hsrc Hsw i bytes.
  destruct (writei_ok v s ip src off n T W Hsrc Hsw) as (v1 & v' & s' & E & T' & Hi & Hm & Wt & Ev & Hn & Hst & Hk & _).
  fold i in Hi, Wt, Ev. fold bytes in Wt. set (nb := IBLOCK (i_inum i) (k_sb s)) in *.
  destruct W as [_ _ _ _ Hr _ _ _ Hap Hai]. fold i in Hr, Hap, Hai. fold nb in Hap, Hai.
  assert (forall a, mapped v i a -> fblock v1 i a <> nb) as Hap1
    by (intros a Ha; rewrite (wt_fblock _ _ _ _ _ Wt); by apply Hap).
  exists v', s'. split_and!; try done.
  - intros a Ha. rewrite mapped_grown, Ev, mapped_put_other by auto. by apply (wt_mapped _ _ _ _ _ Wt).
  - intros x Hx. rewrite file_grown, Ev, file_put_other by auto. by apply (wt_file _ _ _ _ _ Wt).
  - intros b Hb Hx. rewrite Ev. cbn. rewrite upd_ne by done. apply (wt_other _ _ _ _ _ Wt).
    unfold bytes. rewrite mem_load_length, Z2Nat.id by lia. exact Hx.
Qed.

(** C10: writing to a file and reading it back.  In an open transaction with
    room in the log, for an inode whose blocks in the range are allocated:
    writei() from kernel memory returns [n]; the file is the old one with the
    [n] bytes from memory put at [off] (its size grown if needed), through
    direct and indirect blocks; no block outside that range and the inode's
    own block changes, so no other file does; and readi() of the same range
    then returns [n] and copies back exactly the bytes that were written. *)
Theorem writei_readi v s ip src dst off n :
  tx v s -> writable v s ip off n -> lh_n (k_log s) + rounds off n + 1 < Z.of_nat NBUF ->
  0 <= src -> src + n < 2 ^ 64 -> 0 <= dst -> dst + n < 2 ^ 64 ->
  let i := inode_at s ip in
  let bytes := mem_load (k_mem s) src (Z.to_nat n) in
  exists v' s', writei ip false src off n s = Done n s' /\ tx v' s' /\
    inode_at s' ip = grown off n i /\
    (forall x, mapped v i (x / BSIZE) -> file v' (inode_at s' ip) x = mem_store (file v i) off bytes x) /\
    (forall b, b <> IBLOCK (i_inum i) (k_sb s) -> (forall x, off <= x < off + n -> b <> fblock v i (x / BSIZE)) ->
       cv_data v' b = cv_data v b) /\
    (exists s'', readi ip false dst off n s' = Done n s'' /\
       forall x, k_mem s'' x = mem_store (k_mem s) dst bytes x).
Proof using BC.
  intros T W Hroom Hsrc Hsw Hdst Hdw i bytes.
  destruct (writei_file v s ip src off n T W Hsrc Hsw) as (v' & s' & E & T' & Hi & Hm & Hmap & Hfile & Hoth & Hn & _).
  fold i in Hi, Hmap, Hfile, Hoth. fold bytes in Hfile. rewrite <- Hi in Hfile.
  destruct W as [_ Hd _ Hall Hr Hsz _ _ _ _]. fold i in Hd, Hall, Hr, Hsz.
  assert (MAXFILE * BSIZE = 274432) as HM by done.
  exists v', s'. split_and!; try done.
  - assert (off + n <= i_size (grown off n i) <= MAXFILE * BSIZE) as Hgs.
    { unfold grown. rewrite Z.gtb_ltb. destruct (Z.ltb_spec (i_size i) (off + n)); cbn; lia. }
    assert (Z.max 0 (Z.min n (i_size (grown off n i) - off)) = n) as Hmin by lia.
    destruct (readi_ok v' s' ip (grown off n i) dst off n) as (s'' & E' & _ & _ & Hm'); try done; try lia.
    { apply (tx_R _ _ _ T'). } { apply (tx_quiet _ _ T'). lia. }
    { unfold grown. by case_match. } { rewrite Hmin. intros x Hx. by apply Hmap, Hall. }
    rewrite Hmin in *. exists s''. split; [done|]. intros x. rewrite Hm', Hm.
    assert (mem_load (file v' (grown off n i)) off (Z.to_nat n) = bytes) as ->; [|done].
    rewrite <- (mem_load_store_same (file v i) off bytes). unfold bytes at 2. rewrite mem_load_length.
    apply mem_load_ext. intros y Hy. rewrite <- Hfile, Hi; [done|]. apply Hall. lia.
Qed.

End inode.

(** ** An example: a file of 100 bytes in block 50 *)
Definition demo_inode : inode := mkInode 1 1 1 1 2 0 0 1 100 (50 :: replicate 12 0).
Definition demo_sb : superblock := mkSb 0x10203040 2000 1954 200 31 2 33 46.
Definition open_log : log := mkLog 2 1 0 1 0 0 (replicate 30 0).

(** Only the first block of such an inode is there. *)
Lemma demo_mapped v ino a : i_addrs ino = 50 :: replicate 12 0 -> mapped v ino a -> a = 0.
Proof.
  intros Hino (Ha & Hind & Hb & _). unfold fblock, addr_at in *. rewrite Hino in *.
  assert (forall k, (k < 12)%nat -> replicate 12 0 !!! k = 0) as Hz
    by (intros k Hk; by apply lookup_total_replicate_2).
  unfold fblock in Hb. destruct (Z.ltb_spec a NDIRECT) as [Hlt|Hge]; [|by destruct (Hind Hge (Hz 11%nat ltac:(lia)))].
  unfold addr_at in Hb. destruct (Z.to_nat a) as [|k] eqn:E; [lia|]. unfold NDIRECT in Hlt.
  by destruct (Hb (Hz k ltac:(lia))).
Qed.

(** A kernel with the cache initialised over disk [d], the file's inode in
    slot 0 and a transaction open. *)
Definition demo_on (d : Z -> list Z) (ino : inode) (s : kst) : Prop :=
  tx (cache_ok 0 1) (empty_view s) s /\ k_disk s = d /\ k_inodes s = [ino] /\ k_sb s = demo_sb /\
  k_log s = open_log /\ k_mem s = k_mem idle_kst /\ k_procs s = k_procs idle_kst /\ c_proc (k_cpu s) = Some 0%nat.
Definition demo_state : inode -> kst -> Prop := demo_on (k_disk idle_kst).

Lemma demo_on_tx d ino : exists s, demo_on d ino s.
Proof.
  destruct (binit_ok (set_k_disk d idle_kst) eq_refl) as (s & E & Hinv).
  destruct (binit_cache 0 1 (set_k_disk d idle_kst)) as (s1 & E1 & Hc & Hd & _);
    [done|done|split; [done|unfold NPROC; lia|done|done|apply idle_procs_free]|].
  rewrite E in E1. injection E1 as <-. clear E.
  pose proof (bi_free _ _ _ Hinv LK_log ltac:(by eexists)) as Hlk.
  destruct (bi_rest _ _ _ Hinv) as (bs & ls & sls & Es).
  exists (set_k_sb demo_sb (set_k_inodes [ino] (set_k_log open_log s))).
  split; [|split_and!; [done..| | |]; by rewrite Es].
  split; try done.
  - apply (cache_ext 0 1 _ s); [exact Hc|by apply settled_hw|done..].
  - split; [reflexivity|cbn; unfold LOGBLOCKS, MAXOPBLOCKS; lia|by cbn|by cbn; apply NoDup_nil_2].
Qed.
Lemma demo_tx ino : exists s, demo_state ino s.
Proof. apply demo_on_tx. Qed.

(** The first block can be written. *)
Lemma demo_writable ino s off n :
  demo_state ino s -> i_dev ino = 1 -> i_inum ino = 1 -> i_addrs ino = 50 :: replicate 12 0 ->
  0 <= off <= i_size ino -> i_size ino <= 1024 -> 0 < n -> off + n <= 1024 ->
  writable 1 (empty_view s) s 0 off n /\ inode_at s 0 = ino.
Proof.
  intros (T & Hd & Hi & Hsb & Hl & _) Hdev Hnum Ha Hoff Hsz Hn Hon.
  assert (inode_at s 0 = ino) as Hi0 by (unfold inode_at; by rewrite Hi). split; [|done].
  assert (IBLOCK 1 demo_sb = 33) as HB by reflexivity.
  assert (forall v, fblock v ino 0 = 50) as Hf by (intros v; unfold fblock, addr_at; by rewrite Ha).
  assert (addr_at ino IND = 0) as Hind by (unfold addr_at; rewrite Ha; reflexivity).
  assert (rounds off n = 1) as Hr.
  { unfold rounds. rewrite (proj2 (Z.ltb_lt 0 n)) by lia. unfold BSIZE. rewrite !Z.div_small by lia. done. }
  assert (MAXFILE * BSIZE = 274432) as HM by done.
  split; rewrite ?Hi0, ?Hsb, ?Hnum, ?HB, ?Hl, ?Hr, ?HM; try done; try lia.
  - rewrite Hi. cbn. lia.
  - split; [intros a b ->%demo_mapped ->%demo_mapped; done|intros a ->%demo_mapped|intros a ->%demo_mapped];
      rewrite ?Hf, ?Hind; done.
  - intros x Hx. replace (x / BSIZE) with 0 by (unfold BSIZE; apply Z.div_unique with x; lia).
    split_and!; [done|done|intros H; by vm_compute in H|by rewrite Hf|]. rewrite Hf. cbn. by rewrite Hd.
  - intros a ->%demo_mapped; [|done]. by rewrite Hf.
Qed.

Lemma writei_readi_witness :
  exists s v' s', tx (cache_ok 0 1) v' s' /\ @writei built_kernel sync_disk 0 false 0x1000 90 20 s = Done 20 s' /\
    exists s'', @readi built_kernel sync_disk 0 false 0x2000 90 20 s' = Done 20 s''.
Proof.
  destruct (demo_tx demo_inode) as (s & Hdemo). exists s. pose proof Hdemo as (T & _ & _ & _ & Hl & _).
  destruct (demo_writable demo_inode s 90 20 Hdemo) as [W _]; [done..|cbn; lia|cbn; lia|lia|lia|].
  destruct (@writei_readi built_kernel sync_disk 1 (cache_ok 0 1) (cache_laws (SYNC := sync_disk_sync) 0 1)
    (empty_view s) s 0 0x1000 0x2000 90 20 T W) as (v' & s' & E & T' & _ & _ & _ & s'' & E' & _); try lia.
  - rewrite Hl. vm_compute. reflexivity.
  - exists v', s'. split; [exact T'|]. split; [exact E|]. exists s''. exact E'.
Defined.
