(* ===== verification/Balloc.v ===== *)
(** * Balloc: the block bitmap and the blocks of an inode (kernel/fs.c)

    balloc() takes the first block whose bit is clear, marks it and clears
    its contents; bfree() gives it back; bmap() gives an inode the blocks it
    lacks.  As in [Inode] the proofs use the interface [BlockCache] only. *)

From S2P Require Import Prelude Params Machine Spinlock Strings Kalloc Uart Printk Sched Vm Sleeplock Blockdev Bio Bcache Log Fs Inode.

Section balloc.
Context {SYM : Symbols} {DISK : BlockDev} (dev : Z) (R : cview -> kst -> Prop) {BC : BlockCache dev R}.

(** ** The bitmap *)

(** The bit of block [b]. *)
Definition used (v : cview) (sb : superblock) (b : Z) : bool :=
  bit_set (cv_data v (BBLOCK b sb)) (b mod BPB).

(** The bitmap has a place on disk, away from the blocks it hands out. *)
Record bitmap_ok (v : cview) (sb : superblock) : Prop := {
  bm_size : 0 <= sb_size sb < 2 ^ 31;
  bm_start : 0 < sb_bmapstart sb /\ sb_bmapstart sb + sb_size sb / BPB < 2 ^ 31;
  bm_len b : 0 <= b < sb_size sb -> Z.of_nat (length (cv_data v (BBLOCK b sb))) = BSIZE;
  bm_used b : 0 <= b < sb_size sb -> BBLOCK b sb < sb_size sb -> used v sb (BBLOCK b sb) = true;
  bm_zero : 0 < sb_size sb -> used v sb 0 = true
}.

Lemma BBLOCK_eq v sb b : bitmap_ok v sb -> 0 <= b < sb_size sb -> BBLOCK b sb = b / BPB + sb_bmapstart sb.
Proof.
  intros [Hs [Hp Hb] _ _ _] H. unfold BBLOCK. pose proof (Z.div_pos b BPB ltac:(lia) ltac:(done)).
  pose proof (Z.div_le_mono b (sb_size sb) BPB ltac:(done) ltac:(lia)). apply u32_small. lia.
Qed.

(** The view after block [a] has been allocated, or freed. *)
Definition zeroes : list Z := replicate (Z.to_nat BSIZE) 0.
Definition alloc_view (sb : superblock) (a : Z) (v : cview) : cview :=
  logged_put a zeroes
    (logged_put (BBLOCK a sb) (set_bit (a mod BPB) (cv_data v (BBLOCK a sb))) v).
Definition free_view (sb : superblock) (a : Z) (v : cview) : cview :=
  logged_put (BBLOCK a sb) (clear_bit (a mod BPB) (cv_data v (BBLOCK a sb))) v.

(** The first free block. *)
Definition first_clear (v : cview) (sb : superblock) (a : Z) : Prop :=
  0 <= a < sb_size sb /\ used v sb a = false /\ forall b, 0 <= b < a -> used v sb b = true.

(** The locked blocks are neither free nor part of the bitmap. *)
Definition away (hd : gmap Z nat) (v : cview) (sb : superblock) : Prop :=
  forall n, is_Some (hd !! n) ->
    (0 <= n < sb_size sb -> used v sb n = true) /\ forall b, 0 <= b < sb_size sb -> BBLOCK b sb <> n.

Lemma away_empty v sb : away ∅ v sb.
Proof. intros n [x Hx]. by rewrite lookup_empty in Hx. Qed.
Lemma away_bitmap hd v sb b : away hd v sb -> 0 <= b < sb_size sb -> hd !! BBLOCK b sb = None.
Proof. intros H Hb. apply eq_None_not_Some. intros Hs. by destruct (proj2 (H _ Hs) b Hb). Qed.
Lemma away_free hd v sb a : away hd v sb -> 0 <= a < sb_size sb -> used v sb a = false -> hd !! a = None.
Proof. intros H Ha Hu. apply eq_None_not_Some. intros Hs. rewrite (proj1 (H _ Hs) Ha) in Hu. done. Qed.

Section held.
Context (hd : gmap Z nat).
Let room (k : Z) (s : kst) : Prop := Z.of_nat (size hd) + lh_n (k_log s) + k <= Z.of_nat NBUF.

Lemma read_tx v s n :
  txh R hd v s -> room 1 s -> hd !! n = None ->
  exists b s1, bread dev n s = Done b s1 /\ R (hold n b v) s1 /\ bio_frame s s1 /\
    b_data (buf_at s1 b) = cv_data v n /\
    (forall s2, R (hold n b v) s2 -> exists s3, brelse b s2 = Done tt s3 /\ R v s3 /\ bio_frame s2 s3).
Proof using BC.
  intros T Hr Hn. apply (read_held dev R); [apply (tx_R _ _ _ _ T)|by rewrite (tx_held _ _ _ _ T)|].
  apply (txh_room dev R hd v s T). unfold room in Hr. lia.
Qed.

(** *** bzero() *)
Lemma bzero_ok v s n :
  txh R hd v s -> room 1 s -> hd !! n = None -> 0 <= n < 2 ^ 31 ->
  exists s', bzero dev n s = Done tt s' /\ txh R hd (logged_put n zeroes v) s' /\ write_frame 1 s s'.
Proof using BC.
  intros T Hroom Hnd Hn.
  destruct (read_tx v s n T Hroom Hnd) as (b & s1 & E1 & HR1 & Hf1 & _).
  destruct (update_block dev R hd v s s1 n b (fun _ => zeroes) T ltac:(unfold room in Hroom; lia) Hnd Hn HR1) as (s3 & s4 & E3 & E4 & T4 & Hf4).
  { apply Hf1. } { apply Hf1. }
  exists s4. unfold bzero. rewrite (bind_Done _ _ _ _ _ E1). unfold updb. rewrite bind_modify.
  change (set_b_data (replicate (Z.to_nat BSIZE) 0)) with (set_data (fun _ => zeroes)).
  rewrite (bind_Done _ _ _ _ _ E3). split; [exact E4|]. split; [exact T4|].
  apply (write_frame_trans 0 1 s s1); [by apply bio_write_frame|done].
Qed.

(** *** balloc() *)
Definition balloc_round (b : Z) : K (Z + Z) :=
  sb ← getsb;
  if negb (b <? sb_size sb) then
    printk (str "balloc: out of blocks" ++ [10]) [] ;;
    mret (inr 0)
  else
  bp ← bread dev (BBLOCK b sb);
  bf ← getb bp;
  match find_free (b_data bf) b (sb_size sb) (Z.to_nat BPB) 0 with
  | Some bi =>
      updb bp (set_data (set_bit bi)) ;;
      log_write bp ;;
      brelse bp ;;
      bzero dev (b + bi) ;;
      mret (inr (b + bi))
  | None =>
      brelse bp ;;
      mret (inl (b + BPB))
  end.

(** Blocks of one bitmap block. *)
Lemma same_group v sb b j :
  bitmap_ok v sb -> b mod BPB = 0 -> 0 <= b -> 0 <= j < BPB -> b + j < sb_size sb ->
  BBLOCK (b + j) sb = BBLOCK b sb /\ (b + j) mod BPB = j.
Proof.
  intros H Hb Hb0 Hj Hs. pose proof (Z.div_mod b BPB ltac:(done)) as Hdm.
  assert ((b + j) / BPB = b / BPB) as Hd by (symmetry; apply Z.div_unique with j; lia).
  split; [rewrite !(BBLOCK_eq v) by (done || lia); lia|]. symmetry. apply Z.mod_unique with (b / BPB); lia.
Qed.

Lemma balloc_round_found v s b bi :
  let sb := k_sb s in
  txh R hd v s -> room 2 s -> away hd v sb -> bitmap_ok v sb -> 0 <= b < sb_size sb -> b mod BPB = 0 ->
  find_free (cv_data v (BBLOCK b sb)) b (sb_size sb) (Z.to_nat BPB) 0 = Some bi ->
  exists s', balloc_round b s = Done (inr (b + bi)) s' /\ txh R hd (alloc_view sb (b + bi) v) s' /\ write_frame 2 s s'.
Proof using BC.
  intros sb T Hroom Haw Hbm Hb Hmod Hff. unfold room in Hroom.
  pose proof (find_free_spec (cv_data v (BBLOCK b sb)) b (sb_size sb) (Z.to_nat BPB) 0) as Hs. rewrite Hff in Hs.
  destruct Hs as (Hbi & Hlt & Hclr & _). change (Z.of_nat (Z.to_nat BPB)) with BPB in Hbi.
  destruct (same_group v sb b bi Hbm Hmod) as [Hg Hm]; [lia..|].
  pose proof (bm_size _ _ Hbm) as Hsz. pose proof (BBLOCK_eq v sb b Hbm Hb) as HB.
  assert (0 <= BBLOCK b sb < 2 ^ 31) as HBr.
  { rewrite HB. pose proof (bm_start _ _ Hbm). pose proof (Z.div_pos b BPB ltac:(lia) ltac:(done)).
    pose proof (Z.div_le_mono b (sb_size sb) BPB ltac:(done) ltac:(lia)). lia. }
  assert (used v sb (b + bi) = false) as Hu by (unfold used; by rewrite Hg, Hm).
  assert (hd !! BBLOCK b sb = None) as Hnd by (by apply (away_bitmap hd v)).
  destruct (read_tx v s (BBLOCK b sb) T ltac:(unfold room; lia) Hnd) as (bp & s1 & E1 & HR1 & Hf1 & Hd & _).
  destruct (update_block dev R hd v s s1 (BBLOCK b sb) bp (set_bit bi) T ltac:(lia) Hnd HBr HR1) as (s3 & s4 & E3 & E4 & T4 & Hf4).
  { apply Hf1. } { apply Hf1. }
  pose proof (write_frame_trans 0 1 s s1 s4 (bio_write_frame _ _ Hf1) Hf4) as Hf.
  destruct (bzero_ok _ s4 (b + bi) T4) as (s5 & E5 & T5 & Hf5);
    [unfold room; destruct Hf as (_ & _ & _ & _ & ? & _); lia|apply (away_free hd v sb); [done|lia|done]|lia|].
  exists s5. unfold balloc_round, getsb. rewrite bind_gets. fold sb.
  rewrite (proj2 (Z.ltb_lt b (sb_size sb))) by lia. cbn [negb].
  rewrite (bind_Done _ _ _ _ _ E1). unfold getb. rewrite bind_gets, Hd, Hff. unfold updb. rewrite bind_modify.
  rewrite (bind_Done _ _ _ _ _ E3), (bind_Done _ _ _ _ _ E4), (bind_Done _ _ _ _ _ E5).
  split; [done|]. split; [unfold alloc_view; by rewrite Hg, Hm|]. by apply (write_frame_trans 1 1 s s4).
Qed.

Lemma balloc_round_full v s b :
  let sb := k_sb s in
  txh R hd v s -> room 1 s -> away hd v sb -> 0 <= b < sb_size sb ->
  find_free (cv_data v (BBLOCK b sb)) b (sb_size sb) (Z.to_nat BPB) 0 = None ->
  exists s', balloc_round b s = Done (inl (b + BPB)) s' /\ txh R hd v s' /\ bio_frame s s'.
Proof using BC.
  intros sb T Hroom Haw Hb Hff.
  destruct (read_tx v s (BBLOCK b sb) T Hroom ltac:(by apply (away_bitmap hd v))) as (bp & s1 & E1 & HR1 & Hf1 & Hd & Hrel).
  destruct (Hrel s1 HR1) as (s2 & E2 & HR2 & Hf2).
  exists s2. unfold balloc_round, getsb. rewrite bind_gets. fold sb.
  rewrite (proj2 (Z.ltb_lt b (sb_size sb))) by lia. cbn [negb].
  rewrite (bind_Done _ _ _ _ _ E1). unfold getb. rewrite bind_gets, Hd, Hff, (bind_Done _ _ _ _ _ E2).
  pose proof (bio_frame_trans _ _ _ Hf1 Hf2) as Hf. split; [done|]. split; [|done].
  apply (tx_read R hd v s); [done|done|by apply bio_read_frame].
Qed.

(** The bits of one bitmap block. *)
Lemma group_bits v sb b j :
  bitmap_ok v sb -> b mod BPB = 0 -> 0 <= b -> 0 <= j < BPB -> b + j < sb_size sb ->
  bit_set (cv_data v (BBLOCK b sb)) j = used v sb (b + j).
Proof. intros H Hb Hb0 Hj Hs. unfold used. by destruct (same_group v sb b j H Hb Hb0 Hj Hs) as [-> ->]. Qed.

Lemma find_free_first v sb a b :
  bitmap_ok v sb -> first_clear v sb a -> 0 <= b <= a -> b mod BPB = 0 ->
  find_free (cv_data v (BBLOCK b sb)) b (sb_size sb) (Z.to_nat BPB) 0 = if a <? b + BPB then Some (a - b) else None.
Proof.
  intros Hbm (Ha & Hu & Hall) Hb Hmod.
  pose proof (find_free_spec (cv_data v (BBLOCK b sb)) b (sb_size sb) (Z.to_nat BPB) 0) as Hs.
  change (0 + Z.of_nat (Z.to_nat BPB)) with BPB in Hs.
  destruct (find_free _ _ _ _ _) as [bi|].
  - destruct Hs as (Hbi & Hlt & Hf & Hbefore). rewrite (group_bits v) in Hf by (done || lia).
    assert (b + bi = a); [|destruct (Z.ltb_spec a (b + BPB)); [f_equal|]; lia].
    destruct (Z.lt_trichotomy (b + bi) a) as [Hc|[Hc|Hc]]; [rewrite Hall in Hf by lia; done|done|].
    assert (bit_set (cv_data v (BBLOCK b sb)) (a - b) = true) as Hx by (apply Hbefore; lia).
    rewrite (group_bits v) in Hx by (done || lia). replace (b + (a - b)) with a in Hx by lia. congruence.
  - destruct (Z.ltb_spec a (b + BPB)); [|done].
    assert (bit_set (cv_data v (BBLOCK b sb)) (a - b) = true) as Hx by (apply Hs; lia).
    rewrite (group_bits v) in Hx by (done || lia). replace (b + (a - b)) with a in Hx by lia. congruence.
Qed.

Lemma balloc_loop v a : forall fuel b s,
  txh R hd v s -> room 2 s -> away hd v (k_sb s) -> bitmap_ok v (k_sb s) -> first_clear v (k_sb s) a ->
  0 <= b <= a -> b mod BPB = 0 -> a / BPB - b / BPB < Z.of_nat fuel ->
  exists s', loop fuel balloc_round b s = Done a s' /\ txh R hd (alloc_view (k_sb s) a v) s' /\ write_frame 2 s s'.
Proof using BC.
  induction fuel as [|fuel IH]; intros b s T Hroom Haw Hbm Hfc Hb Hmod Hf.
  { pose proof (Z.div_le_mono b a BPB ltac:(done) ltac:(lia)). lia. }
  pose proof (find_free_first v (k_sb s) a b Hbm Hfc Hb Hmod) as Hff. pose proof (proj1 Hfc) as Ha.
  destruct (Z.ltb_spec a (b + BPB)) as [Hlt|Hge].
  - destruct (balloc_round_found v s b (a - b) T Hroom Haw Hbm) as (s' & E & T' & Hf'); [lia|done|done|].
    replace (b + (a - b)) with a in * by lia. exists s'. split; [|done]. apply loop_done; [lia|done].
  - unfold room in Hroom. destruct (balloc_round_full v s b T ltac:(unfold room; lia) Haw) as (s1 & E & T1 & Hf1); [lia|done|].
    pose proof Hf1 as (_ & El & _ & _ & _ & _ & Eb & _).
    destruct (IH (b + BPB) s1 T1) as (s' & E' & T' & Hf'); unfold room; rewrite ?El, ?Eb; try done; [unfold BPB, BSIZE in *; lia| | |].
    + rewrite <- Z.add_mod_idemp_r, Z.mod_same, Z.add_0_r by done. done.
    + rewrite <- (Z.mul_1_l BPB) at 2. rewrite Z.div_add by done. lia.
    + exists s'. rewrite (loop_next _ _ _ _ _ _ E). rewrite Eb in T'. split; [done|]. split; [done|].
      apply (write_frame_trans 0 2 s s1); [by apply bio_write_frame|done].
Qed.

Lemma balloc_ok v s a :
  txh R hd v s -> room 2 s -> away hd v (k_sb s) -> bitmap_ok v (k_sb s) -> first_clear v (k_sb s) a ->
  exists s', balloc dev s = Done a s' /\ txh R hd (alloc_view (k_sb s) a v) s' /\ write_frame 2 s s'.
Proof using BC.
  intros T Hroom Haw Hbm Hfc. pose proof (proj1 Hfc) as Ha. unfold balloc, getsb. rewrite bind_gets.
  apply (balloc_loop v a _ 0 s T Hroom Haw Hbm Hfc); [lia|done|]. change (0 / BPB) with 0.
  pose proof (Z.div_le_mono a (sb_size (k_sb s)) BPB ltac:(done) ltac:(lia)). pose proof (Z.div_pos a BPB ltac:(lia) ltac:(done)). lia.
Qed.

(** *** bfree() *)
Lemma bfree_held v s b :
  let sb := k_sb s in
  txh R hd v s -> room 1 s -> hd !! BBLOCK b sb = None -> bitmap_ok v sb -> 0 <= b < sb_size sb -> used v sb b = true ->
  exists s', bfree dev b s = Done tt s' /\ txh R hd (free_view sb b v) s' /\ write_frame 1 s s'.
Proof using BC.
  intros sb T Hroom Hnd Hbm Hb Hu. pose proof (BBLOCK_eq v sb b Hbm Hb) as HB.
  destruct (read_tx v s (BBLOCK b sb) T Hroom Hnd) as (bp & s1 & E1 & HR1 & Hf1 & Hd & _).
  destruct (update_block dev R hd v s s1 (BBLOCK b sb) bp (clear_bit (b mod BPB)) T ltac:(unfold room in Hroom; lia) Hnd)
    as (s3 & s4 & E3 & E4 & T4 & Hf4).
  { rewrite HB. pose proof (bm_start _ _ Hbm). pose proof (Z.div_pos b BPB ltac:(lia) ltac:(done)).
    pose proof (Z.div_le_mono b (sb_size sb) BPB ltac:(done) ltac:(lia)). lia. }
  { done. } { apply Hf1. } { apply Hf1. }
  exists s4. unfold bfree, getsb. rewrite bind_gets. fold sb. rewrite (bind_Done _ _ _ _ _ E1). unfold getb.
  rewrite bind_gets, Hd. change (bit_set (cv_data v (BBLOCK b sb)) (b mod BPB)) with (used v sb b). rewrite Hu. cbn [negb].
  unfold updb. rewrite bind_modify, (bind_Done _ _ _ _ _ E3). split; [exact E4|]. split; [exact T4|].
  apply (write_frame_trans 0 1 s s1); [by apply bio_write_frame|done].
Qed.
End held.

Lemma bfree_ok v s b :
  let sb := k_sb s in
  tx R v s -> lh_n (k_log s) < Z.of_nat NBUF -> bitmap_ok v sb -> 0 <= b < sb_size sb -> used v sb b = true ->
  exists s', bfree dev b s = Done tt s' /\ tx R (free_view sb b v) s' /\ write_frame 1 s s'.
Proof using BC. intros sb T Hroom. apply bfree_held; [done|rewrite map_size_empty; lia|done]. Qed.

(** ** What happens to the bitmap *)

Lemma BBLOCK_inj v sb a b :
  bitmap_ok v sb -> 0 <= a < sb_size sb -> 0 <= b < sb_size sb -> BBLOCK a sb = BBLOCK b sb -> a mod BPB = b mod BPB -> a = b.
Proof.
  intros H Ha Hb. rewrite !(BBLOCK_eq v) by done. intros Hd Hm.
  rewrite (Z.div_mod a BPB), (Z.div_mod b BPB) by done. f_equal; [f_equal; lia|done].
Qed.

(** One bit of the bitmap is changed: [f] sets it to [x]. *)
Definition one_bit (f : Z -> list Z -> list Z) (x : bool) : Prop :=
  (forall i d, length (f i d) = length d) /\
  forall i j d, 0 <= i < BPB -> 0 <= j < BPB -> Z.of_nat (length d) = BSIZE ->
    bit_set (f i d) j = if i =? j then x else bit_set d j.

Lemma one_bit_set : one_bit set_bit true.
Proof.
  split; [intros; apply length_alter|]. intros i j d Hi Hj Hl. change BPB with 8192 in *. change BSIZE with 1024 in *.
  apply bit_set_set; lia.
Qed.
Lemma one_bit_clear : one_bit clear_bit false.
Proof.
  split; [intros; apply length_alter|]. intros i j d Hi Hj Hl. change BPB with 8192 in *. change BSIZE with 1024 in *.
  apply bit_set_clear; lia.
Qed.

Section one_bit.
Context (f : Z -> list Z -> list Z) (x : bool) (Hf : one_bit f x).
Context (v : cview) (sb : superblock) (a : Z) (Hbm : bitmap_ok v sb) (Ha : 0 <= a < sb_size sb).
Let v' := logged_put (BBLOCK a sb) (f (a mod BPB) (cv_data v (BBLOCK a sb))) v.

Lemma used_one_bit b : 0 <= b < sb_size sb -> used v' sb b = if b =? a then x else used v sb b.
Proof using Hf Hbm Ha.
  intros Hb. unfold used, v'. cbn. destruct (decide (BBLOCK b sb = BBLOCK a sb)) as [E|Hne].
  - rewrite E, upd_eq. rewrite (proj2 Hf) by first [apply Z.mod_pos_bound; done|by apply (bm_len _ _ Hbm)].
    destruct (Z.eqb_spec b a) as [->|Hab]; [by rewrite Z.eqb_refl|].
    destruct (Z.eqb_spec (a mod BPB) (b mod BPB)) as [Em|]; [|done].
    destruct Hab. symmetry. by apply (BBLOCK_inj v sb).
  - rewrite upd_ne by done. destruct (Z.eqb_spec b a) as [->|]; done.
Qed.

Lemma len_one_bit n : length (cv_data v' n) = length (cv_data v n).
Proof using Hf. unfold v'. cbn. destruct (decide (n = BBLOCK a sb)) as [->|]; [rewrite upd_eq; apply Hf|by rewrite upd_ne]. Qed.
End one_bit.

Section alloc.
Context (v : cview) (sb : superblock) (a : Z) (Hbm : bitmap_ok v sb) (Ha : 0 <= a < sb_size sb).
Context (Hfree : used v sb a = false).

Lemma alloc_apart b : 0 <= b < sb_size sb -> BBLOCK b sb <> a.
Proof using Hbm Ha Hfree.
  intros Hb E. pose proof (bm_used _ _ Hbm b Hb) as H. rewrite E in H. rewrite H in Hfree by lia. done.
Qed.

Lemma alloc_used b : 0 <= b < sb_size sb -> used (alloc_view sb a v) sb b = if b =? a then true else used v sb b.
Proof using Hbm Ha Hfree.
  intros Hb. rewrite <- (used_one_bit set_bit true one_bit_set v sb a Hbm Ha b Hb).
  unfold used at 1, alloc_view. cbn. rewrite upd_ne by by apply alloc_apart. done.
Qed.

Lemma alloc_data n : n <> a -> n <> BBLOCK a sb -> cv_data (alloc_view sb a v) n = cv_data v n.
Proof. intros H1 H2. unfold alloc_view. cbn. by rewrite !upd_ne. Qed.

Lemma alloc_zero : cv_data (alloc_view sb a v) a = zeroes.
Proof. unfold alloc_view. cbn. by rewrite upd_eq. Qed.

Lemma alloc_bitmap : bitmap_ok (alloc_view sb a v) sb.
Proof using Hbm Ha Hfree.
  pose proof Hbm as [H1 H2 H3 H4 H5]. split; [done|done| | |].
  - intros b Hb. rewrite <- (H3 b Hb), <- (len_one_bit set_bit true one_bit_set v sb a (BBLOCK b sb)).
    unfold alloc_view. cbn. by rewrite (upd_ne _ a) by by apply alloc_apart.
  - intros b Hb Hlt. pose proof (u32_range (b / BPB + sb_bmapstart sb)) as Hr.
    rewrite alloc_used by (unfold BBLOCK in *; lia). destruct (_ =? _); [done|by apply H4].
  - intros Hs. rewrite alloc_used by lia. destruct (_ =? _); [done|by apply H5].
Qed.
End alloc.

(** The free blocks, in the order balloc() hands them out. *)
Definition frees (v : cview) (sb : superblock) : list Z :=
  filter (fun b => used v sb b = false) (seqZ 0 (sb_size sb)).

Lemma filter_first (P : Z -> Prop) `{!forall x, Decision (P x)} (l0 : list Z) a l :
  filter P l0 = a :: l ->
  exists l1 l2, l0 = l1 ++ a :: l2 /\ P a /\ Forall (fun x => ~ P x) l1 /\ filter P l2 = l.
Proof.
  induction l0 as [|x l0 IH]; [done|]. rewrite filter_cons. destruct (decide (P x)) as [Hx|Hx].
  - intros [= <- <-]. by exists [], l0.
  - intros (l1 & l2 & -> & Ha & Hl1 & E)%IH. exists (x :: l1), l2. split_and!; [done|done|by constructor|done].
Qed.

Lemma filter_ext_in (P Q : Z -> Prop) `{!forall x, Decision (P x), !forall x, Decision (Q x)} (l : list Z) :
  (forall x, x ∈ l -> P x <-> Q x) -> filter P l = filter Q l.
Proof.
  induction l as [|x l IH]; intros HPQ; [done|]. rewrite !filter_cons, IH by (intros y Hy; apply HPQ; by right).
  pose proof (HPQ x ltac:(by left)). destruct (decide (P x)), (decide (Q x)); tauto.
Qed.

Lemma filter_none (P : Z -> Prop) `{!forall x, Decision (P x)} (l : list Z) : Forall (fun x => ~ P x) l -> filter P l = [].
Proof. induction 1 as [|x l Hx _ IH]; [done|]. rewrite filter_cons. by destruct (decide (P x)). Qed.

Lemma frees_first v sb a l : frees v sb = a :: l -> first_clear v sb a.
Proof.
  intros (l1 & l2 & E & Ha & Hl1 & _)%filter_first.
  assert (forall j x, (l1 ++ a :: l2) !! j = Some x -> x = Z.of_nat j /\ 0 <= x < sb_size sb) as Hat.
  { intros j x Hx. rewrite <- E in Hx. apply lookup_seqZ in Hx. lia. }
  destruct (Hat (length l1) a) as [Ea Hr]; [by apply list_lookup_middle|].
  split; [done|]. split; [done|]. intros b Hb. rewrite Forall_lookup in Hl1.
  destruct (lookup_lt_is_Some_2 l1 (Z.to_nat b)) as [x Hx]; [lia|].
  destruct (Hat (Z.to_nat b) x) as [Ex _]; [by rewrite lookup_app_l by lia|].
  specialize (Hl1 _ _ Hx). replace b with x by lia. by destruct (used v sb x).
Qed.

Lemma elem_of_frees v sb a : a ∈ frees v sb <-> 0 <= a < sb_size sb /\ used v sb a = false.
Proof. unfold frees. rewrite list_elem_of_filter, elem_of_seqZ. naive_solver lia. Qed.

(** Taking the first free block leaves the others free. *)
Lemma frees_taken v v' sb a l :
  frees v sb = a :: l ->
  (forall b, 0 <= b < sb_size sb -> used v' sb b = if b =? a then true else used v sb b) ->
  frees v' sb = l.
Proof using.
  clear BC R dev DISK SYM. intros E Hu. apply filter_first in E as (l1 & l2 & E & Ha & Hl1 & <-).
  assert (forall b, b ∈ l1 ++ a :: l2 -> 0 <= b < sb_size sb) as Hin by (intros b; rewrite <- E, elem_of_seqZ; lia).
  pose proof (NoDup_seqZ 0 (sb_size sb)) as Hnd. unfold frees. rewrite E in *.
  apply NoDup_app in Hnd as (_ & _ & Hnd). apply NoDup_cons in Hnd as [Hnd _].
  rewrite filter_app, filter_cons.
  destruct (decide (used v' sb a = false)) as [Hd|_]; [rewrite Hu, Z.eqb_refl in Hd by (apply Hin; set_solver); done|].
  rewrite filter_none.
  - apply filter_ext_in. intros x Hx. rewrite Hu by (apply Hin; set_solver).
    destruct (Z.eqb_spec x a) as [->|]; [by destruct Hnd|done].
  - rewrite Forall_forall in *. intros x Hx Hf. apply (Hl1 x Hx).
    rewrite Hu in Hf by (apply Hin; set_solver). by destruct (x =? a).
Qed.

Lemma frees_nil v sb b : frees v sb = [] -> 0 <= b < sb_size sb -> used v sb b = true.
Proof.
  intros E Hb. destruct (used v sb b) eqn:Hu; [done|]. exfalso.
  assert (b ∈ frees v sb) as Hin by by apply elem_of_frees. rewrite E in Hin. by apply elem_of_nil in Hin.
Qed.

(** *** balloc() when no block is left *)
Section full.
Context (hd : gmap Z nat) (v : cview).
Let room (k : Z) (s : kst) : Prop := Z.of_nat (size hd) + lh_n (k_log s) + k <= Z.of_nat NBUF.

(** The console can be printed to. *)
Definition can_print (s : kst) : Prop := k_panicking s = 0 /\ k_panicked s = 0 /\ lock_free LK_pr s.

Lemma find_free_full sb b :
  bitmap_ok v sb -> frees v sb = [] -> 0 <= b -> b mod BPB = 0 ->
  find_free (cv_data v (BBLOCK b sb)) b (sb_size sb) (Z.to_nat BPB) 0 = None.
Proof.
  intros Hbm Hfr Hb Hmod.
  pose proof (find_free_spec (cv_data v (BBLOCK b sb)) b (sb_size sb) (Z.to_nat BPB) 0) as Hs.
  change (0 + Z.of_nat (Z.to_nat BPB)) with BPB in Hs. destruct (find_free _ _ _ _ _) as [bi|]; [|done].
  destruct Hs as (Hbi & Hlt & Hf & _). rewrite (group_bits v), (frees_nil v) in Hf by (done || lia). done.
Qed.

Lemma full_loop : forall fuel b s,
  txh R hd v s -> room 1 s -> away hd v (k_sb s) -> bitmap_ok v (k_sb s) -> frees v (k_sb s) = [] -> can_print s ->
  0 <= b -> b mod BPB = 0 -> b / BPB <= sb_size (k_sb s) / BPB + 1 -> sb_size (k_sb s) / BPB + 2 - b / BPB <= Z.of_nat fuel ->
  exists s', loop fuel balloc_round b s = Done 0 s' /\ txh R hd v s' /\ write_frame 0 s s' /\
    u_out (k_uart s') = u_out (k_uart s) ++ str "balloc: out of blocks" ++ [10].
Proof using BC.
  induction fuel as [|fuel IH]; intros b s T Hroom Haw Hbm Hfr Hpr Hb Hmod Hle Hf; [lia|].
  destruct (Z.lt_ge_cases b (sb_size (k_sb s))) as [Hlt|Hge].
  - destruct (balloc_round_full hd v s b T Hroom Haw) as (s1 & E & T1 & Hf1); [lia|by apply find_free_full|].
    pose proof Hf1 as (Hst & El & Eu & Ep & Eq & _ & Eb & _).
    assert ((b + BPB) / BPB = b / BPB + 1) as Hd by (rewrite <- (Z.mul_1_l BPB) at 1; by rewrite Z.div_add).
    pose proof (Z.div_le_mono b (sb_size (k_sb s)) BPB ltac:(done) ltac:(lia)).
    destruct (IH (b + BPB) s1 T1) as (s' & E' & T' & Hf' & Ho); unfold room, can_print in *; rewrite ?El, ?Eb, ?Ep, ?Eq, ?Hd; try done; try lia.
    + split_and!; try apply Hpr. eapply lock_free_settled; [exact Hst|apply Hpr].
    + unfold BPB, BSIZE. lia.
    + rewrite <- Z.add_mod_idemp_r, Z.mod_same, Z.add_0_r by done. done.
    + exists s'. rewrite (loop_next _ _ _ _ _ _ E). rewrite Eu in Ho. split_and!; [done|done| |done].
      apply (write_frame_trans 0 0 s s1); [by apply bio_write_frame|done].
  - destruct Hpr as (Hp & Hq & Hlk). destruct (bc_idle (dev := dev) v s (tx_R _ _ _ _ T)) as [Hc Hz].
    destruct (printk_out (str "balloc: out of blocks" ++ [10]) [] s) as (u & E & Ho & _); [done|done|lia|].
    exists (set_k_uart u (touch s)). split; [|split_and!].
    + apply loop_done; [lia|]. unfold balloc_round, getsb. rewrite bind_gets.
      rewrite (proj2 (Z.ltb_ge _ _) Hge). cbn [negb]. rewrite (bind_Done _ _ _ _ _ E). reflexivity.
    + apply (tx_ext dev R hd v s); try done. by apply settled_touch.
    + split; [by apply settled_touch|]. split_and!; [done..|cbn; lia|by apply same_stack_procs].
    + cbn. rewrite Ho. f_equal.
Qed.

Lemma balloc_full s :
  txh R hd v s -> room 1 s -> away hd v (k_sb s) -> bitmap_ok v (k_sb s) -> frees v (k_sb s) = [] -> can_print s ->
  exists s', balloc dev s = Done 0 s' /\ txh R hd v s' /\ write_frame 0 s s' /\
    u_out (k_uart s') = u_out (k_uart s) ++ str "balloc: out of blocks" ++ [10].
Proof using BC.
  intros T Hroom Haw Hbm Hfr Hpr. unfold balloc, getsb. rewrite bind_gets.
  pose proof (bm_size _ _ Hbm). pose proof (Z.div_pos (sb_size (k_sb s)) BPB ltac:(lia) ltac:(done)).
  apply full_loop; try done; change (0 / BPB) with 0; lia.
Qed.
End full.

(** The block allocator.  In an open transaction with room in the log, and
    with a bitmap that marks its own blocks, balloc() returns the first block
    that is not in use, marks it in use and no other, fills it with zeroes
    and changes no block but it and its bitmap block, so that the list of free
    blocks loses its head; bfree() of that block afterwards puts every bit of
    the bitmap, and so the list, back. *)
Lemma balloc_bfree v s a l :
  let sb := k_sb s in
  tx R v s -> lh_n (k_log s) + 3 <= Z.of_nat NBUF -> bitmap_ok v sb -> frees v sb = a :: l ->
  exists v' s', balloc dev s = Done a s' /\ tx R v' s' /\ bitmap_ok v' sb /\ cv_data v' a = zeroes /\
    used v sb a = false /\ (forall b, 0 <= b < a -> used v sb b = true) /\ frees v' sb = l /\
    (forall b, 0 <= b < sb_size sb -> used v' sb b = if b =? a then true else used v sb b) /\
    (forall n, n <> a -> n <> BBLOCK a sb -> cv_data v' n = cv_data v n) /\
    exists v'' s'', bfree dev a s' = Done tt s'' /\ tx R v'' s'' /\ frees v'' sb = a :: l /\
      (forall n, n <> BBLOCK a sb -> cv_data v'' n = cv_data v' n).
Proof using BC.
  intros sb T Hroom Hbm Hfr. pose proof (frees_first _ _ _ _ Hfr) as Hfc. pose proof Hfc as (Ha & Hu & Hall).
  destruct (balloc_ok ∅ v s a T ltac:(rewrite map_size_empty; lia) (away_empty v sb) Hbm Hfc) as (s' & E & T' & (_ & _ & Hsb & _ & Hn & _)). fold sb in T'.
  pose proof (alloc_bitmap v sb a Hbm Ha Hu) as Hbm'. pose proof (alloc_used v sb a Hbm Ha Hu) as Hu'.
  exists (alloc_view sb a v), s'.
  split_and!; [done|done|done|apply alloc_zero|done|done|by apply (frees_taken v _ sb a l)|done|apply alloc_data|].
  destruct (bfree_ok (alloc_view sb a v) s' a T') as (s'' & E2 & T2 & _); rewrite ?Hsb; [lia|done|done|..].
  { by rewrite Hu', Z.eqb_refl. }
  fold sb in T2. rewrite Hsb in T2. fold sb in T2.
  exists (free_view sb a (alloc_view sb a v)), s''. split_and!; [done|done| |].
  - rewrite <- Hfr. apply filter_ext_in. intros b Hb%elem_of_seqZ. unfold free_view.
    rewrite (used_one_bit clear_bit false one_bit_clear _ sb a Hbm' Ha b), Hu' by lia.
    destruct (Z.eqb_spec b a) as [->|]; [by rewrite Hu|done].
  - intros n Hne. unfold free_view. cbn. by rewrite upd_ne.
Qed.
End balloc.

(** ** An example: the blocks up to 46 and block 50 are in use *)
Definition demo_bitmap : list Z := [255; 255; 255; 255; 255; 127; 4] ++ replicate 1017 0.
Definition demo_disk (n : Z) : list Z := if n =? 46 then demo_bitmap else replicate 1024 0.

Lemma demo_BBLOCK b : 0 <= b < 2000 -> BBLOCK b demo_sb = 46.
Proof. intros H. unfold BBLOCK. rewrite Z.div_small by (change BPB with 8192; lia). reflexivity. Qed.

Lemma demo_bitmap_ok v : cv_data v = demo_disk -> bitmap_ok v demo_sb.
Proof.
  intros E. split; unfold used; rewrite ?E; cbn [sb_size demo_sb].
  - lia.
  - split; [|reflexivity]. cbn. lia.
  - intros b Hb. by rewrite demo_BBLOCK.
  - intros b Hb _. rewrite (demo_BBLOCK b) by done. vm_compute. reflexivity.
  - intros _. vm_compute. reflexivity.
Qed.

Definition demo_frees : list Z := [47; 48; 49] ++ seqZ 51 1949.
Lemma demo_frees_ok v : cv_data v = demo_disk -> frees v demo_sb = demo_frees.
Proof.
  intros E. transitivity (frees (mkCview demo_disk demo_disk [] ∅ ∅) demo_sb); [|vm_compute; reflexivity].
  apply filter_ext_in. intros x _. unfold used. by rewrite E.
Qed.

Lemma balloc_bfree_witness :
  exists s s' s'', @balloc sync_disk 1 s = Done 47 s' /\ @bfree sync_disk 1 47 s' = Done tt s''.
Proof.
  destruct (demo_on_tx demo_disk demo_inode) as (s & T & Hd & _ & Hsb & Hl & _). exists s.
  assert (cv_data (empty_view s) = demo_disk) as Ev by exact Hd.
  destruct (@balloc_bfree sync_disk 1 (cache_ok 0 1) (cache_laws (SYNC := sync_disk_sync) 0 1) (empty_view s) s
    47 (tail demo_frees) T) as (v' & s' & E & _ & _ & _ & _ & _ & _ & _ & _ & v'' & s'' & E' & _); rewrite ?Hsb, ?Hl.
  - vm_compute. discriminate.
  - by apply demo_bitmap_ok.
  - by apply demo_frees_ok.
  - exists s', s''. split; [exact E|exact E'].
Defined.
