(* ===== verification/Bmap.v ===== *)
(** * Bmap: giving an inode the blocks it lacks (kernel/fs.c)

    bmap() looks a block of a file up and allocates it, and the block of
    addresses that leads to it, if it is missing.  A file is seen through its
    slots: the 268 places of block numbers and, as slot [-1], the place of the
    indirect block.  Over the interface [BlockCache], as in [Balloc]. *)

From S2P Require Import Prelude Params Machine Spinlock Strings Kalloc Uart Printk Sched Vm Sleeplock Blockdev Bio Bcache Log Fs Inode Balloc.

(** ** The slots of an inode *)
Definition slot (v : cview) (i : inode) (a : Z) : Z :=
  if a <? 0 then addr_at i IND
  else if a <? NDIRECT then addr_at i (Z.to_nat a)
  else if addr_at i IND =? 0 then 0
  else u32_at (cv_data v (addr_at i IND)) (4 * Z.to_nat (a - NDIRECT)).
Definition in_file (a : Z) : Prop := -1 <= a < MAXFILE.

(** A block that has been handed out: inside the disk, marked in use, and no
    block of the bitmap. *)
Record data_block (v : cview) (sb : superblock) (n : Z) : Prop := {
  db_range : 0 < n < sb_size sb;
  db_used : used v sb n = true;
  db_len : Z.of_nat (length (cv_data v n)) = BSIZE;
  db_bitmap b : 0 <= b < sb_size sb -> BBLOCK b sb <> n
}.

(** The blocks of an inode are handed out to it, each for one slot. *)
Record owns (v : cview) (sb : superblock) (i : inode) : Prop := {
  ow_bm : bitmap_ok v sb;
  ow_addrs : length (i_addrs i) = 13%nat;
  ow_block a : in_file a -> slot v i a <> 0 -> data_block v sb (slot v i a);
  ow_inj a b : in_file a -> in_file b -> slot v i a <> 0 -> slot v i a = slot v i b -> a = b
}.

(** Slots are what [Inode] calls the blocks of the file. *)
Lemma slot_mapped v sb i a : owns v sb i -> 0 <= a < MAXFILE -> slot v i a <> 0 <-> mapped v i a.
Proof.
  intros H Ha. unfold mapped. split.
  - intros Hs. pose proof (db_len _ _ _ (ow_block _ _ _ H a ltac:(unfold in_file; lia) Hs)) as Hl.
    unfold slot, fblock in *. destruct (Z.ltb_spec a 0); [lia|]. destruct (Z.ltb_spec a NDIRECT).
    + split_and!; try done; lia.
    + destruct (Z.eqb_spec (addr_at i IND) 0); [done|]. split_and!; try done; lia.
  - intros (_ & Hi & Hf & _). unfold slot, fblock in *. destruct (Z.ltb_spec a 0); [lia|].
    destruct (Z.ltb_spec a NDIRECT); [done|]. by rewrite (proj2 (Z.eqb_neq _ _) (Hi ltac:(lia))).
Qed.
Lemma mapped_slot v i a : mapped v i a -> fblock v i a = slot v i a.
Proof.
  intros (Ha & Hi & _). unfold slot, fblock. destruct (Z.ltb_spec a 0); [lia|].
  destruct (Z.ltb_spec a NDIRECT); [done|]. by rewrite (proj2 (Z.eqb_neq _ _) (Hi ltac:(lia))).
Qed.

Lemma mapped_in_file v i a : mapped v i a -> in_file a /\ slot v i a <> 0.
Proof. intros H. rewrite <- (mapped_slot _ _ _ H). destruct H as (? & _ & ? & _). unfold in_file. split; [lia|done]. Qed.

Lemma owns_sane v sb i : owns v sb i -> sane v i.
Proof.
  intros H. pose proof (bm_size _ _ (ow_bm _ _ _ H)) as Hsz. split.
  - intros a b Ha Hb. rewrite !mapped_slot by done. apply mapped_in_file in Ha as [? ?], Hb as [? ?].
    by apply (ow_inj _ _ _ H).
  - intros a Ha. rewrite mapped_slot by done. pose proof (proj1 Ha) as Hr. apply mapped_in_file in Ha as [? ?].
    intros E. assert (a = -1); [|lia]. by apply (ow_inj _ _ _ H).
  - intros a Ha. rewrite mapped_slot by done. apply mapped_in_file in Ha as [? ?].
    pose proof (db_range _ _ _ (ow_block _ _ _ H a ltac:(done) ltac:(done))). lia.
Qed.

(** *** Words of a block *)
Lemma u32_at_put d o x : (o + 4 <= length d)%nat -> 0 <= x < 2 ^ 32 -> u32_at (put32 d o x) o = x.
Proof.
  intros Hl Hx. unfold u32_at, put32. rewrite <- (Nat.add_0_r o) at 2.
  rewrite bytes_at_put by (rewrite le_bytes_length; lia). unfold bytes_at. rewrite drop_0.
  rewrite take_ge by (rewrite le_bytes_length; lia). by apply u32_le_bytes.
Qed.
Lemma u32_at_put_ne d o o' x :
  (o + 4 <= length d)%nat -> (o' + 4 <= o \/ o + 4 <= o')%nat -> u32_at (put32 d o x) o' = u32_at d o'.
Proof. intros Hl Ho. unfold u32_at, put32. rewrite bytes_at_put_ne; [done|rewrite le_bytes_length; lia..]. Qed.
Lemma length_put32 d o x : (o + 4 <= length d)%nat -> length (put32 d o x) = length d.
Proof. intros Hl. apply length_put_bytes. rewrite le_bytes_length. lia. Qed.
Lemma u32_at_zeroes o : (o + 4 <= 1024)%nat -> u32_at zeroes o = 0.
Proof.
  intros H. unfold u32_at, bytes_at, zeroes. change (Z.to_nat BSIZE) with 1024%nat.
  rewrite drop_replicate, take_replicate, Nat.min_l by lia. done.
Qed.

(** ** Giving out one block *)

(** Slot [a] of [i], empty until now, gets the free block [n]. *)
Record grant (sb : superblock) (a n : Z) (v : cview) (i : inode) (v' : cview) (i' : inode) : Prop := {
  gr_in : in_file a;
  gr_was : slot v i a = 0;
  gr_free : 0 <= n < sb_size sb /\ used v sb n = false;
  gr_bm : bitmap_ok v' sb;
  gr_addrs : length (i_addrs i') = 13%nat;
  gr_slot b : in_file b -> slot v' i' b = if b =? a then n else slot v i b;
  gr_used b : 0 <= b < sb_size sb -> used v' sb b = if b =? n then true else used v sb b;
  gr_zero : cv_data v' n = zeroes;
  gr_len m : m <> n -> length (cv_data v' m) = length (cv_data v m);
  gr_data m : m <> n -> m <> BBLOCK n sb -> (slot v i (-1) <> 0 -> m <> slot v i (-1)) -> cv_data v' m = cv_data v m
}.

Section grant.
Context (sb : superblock) (a n : Z) (v : cview) (i : inode) (v' : cview) (i' : inode).
Context (OW : owns v sb i) (GR : grant sb a n v i v' i').

(** The new block is none of the old ones. *)
Lemma grant_fresh b : in_file b -> slot v i b <> n.
Proof using OW GR.
  intros Hb E. destruct (gr_free _ _ _ _ _ _ _ GR) as [Hn Hu].
  destruct (decide (slot v i b = 0)) as [E0|Hne].
  - pose proof (bm_zero _ _ (ow_bm _ _ _ OW)) as Hz. rewrite <- E, E0, Hz in Hu by lia. done.
  - pose proof (db_used _ _ _ (ow_block _ _ _ OW b Hb Hne)) as Hd. rewrite E in Hd. congruence.
Qed.

Lemma grant_block : data_block v' sb n.
Proof using OW GR.
  destruct (gr_free _ _ _ _ _ _ _ GR) as [Hn Hu]. pose proof (ow_bm _ _ _ OW) as Hbm. split.
  - split; [|lia]. destruct (decide (n = 0)) as [->|]; [|lia]. rewrite (bm_zero _ _ Hbm) in Hu by lia. done.
  - rewrite (gr_used _ _ _ _ _ _ _ GR) by done. by rewrite Z.eqb_refl.
  - rewrite (gr_zero _ _ _ _ _ _ _ GR). done.
  - intros b Hb. by apply (alloc_apart v).
Qed.

Lemma grant_old m : data_block v sb m -> data_block v' sb m.
Proof using GR.
  intros [Hr Hu Hl Hb]. destruct (gr_free _ _ _ _ _ _ _ GR) as [Hn Hf]. assert (m <> n) as Hne by (intros ->; congruence).
  split; [done| | |done].
  - rewrite (gr_used _ _ _ _ _ _ _ GR) by lia. by destruct (m =? n).
  - by rewrite (gr_len _ _ _ _ _ _ _ GR).
Qed.

Lemma grant_owns : owns v' sb i'.
Proof using OW GR.
  pose proof (gr_slot _ _ _ _ _ _ _ GR) as Hs. split; [apply GR|apply GR| |].
  - intros b Hb. rewrite Hs by done. destruct (Z.eqb_spec b a); intros Hne; [apply grant_block|].
    by apply grant_old, (ow_block _ _ _ OW).
  - intros b c Hb Hc. rewrite !Hs by done. destruct (Z.eqb_spec b a), (Z.eqb_spec c a); intros Hne E; [congruence|..].
    + by destruct (grant_fresh c Hc).
    + by destruct (grant_fresh b Hb).
    + by apply (ow_inj _ _ _ OW).
Qed.
End grant.

(** *** The three places a block can go *)
Section places.
Context (sb : superblock) (n : Z) (v : cview) (i : inode).
Context (OW : owns v sb i) (FREE : 0 <= n < sb_size sb /\ used v sb n = false).

Lemma addr_at_set k j : (k < 13)%nat -> addr_at (set_addr k n i) j = if decide (j = k) then n else addr_at i j.
Proof using OW.
  intros Hk. pose proof (ow_addrs _ _ _ OW) as Hl. unfold addr_at, set_addr. cbn. rewrite !list_lookup_total_alt.
  destruct (decide (j = k)) as [->|Hj]; [by rewrite list_lookup_insert_eq by lia|by rewrite list_lookup_insert_ne].
Qed.

Lemma alloc_ind : addr_at i IND <> 0 -> cv_data (alloc_view sb n v) (addr_at i IND) = cv_data v (addr_at i IND).
Proof using OW FREE.
  intros Hi. destruct (ow_block _ _ _ OW (-1) ltac:(done) Hi) as [_ Hu _ Hb]. change (slot v i (-1)) with (addr_at i IND) in *.
  apply alloc_data; [|apply not_eq_sym, Hb; lia]. intros E. rewrite E in Hu. destruct FREE. congruence.
Qed.

Lemma alloc_slot b : slot (alloc_view sb n v) i b = slot v i b.
Proof using OW FREE.
  unfold slot. destruct (b <? 0), (b <? NDIRECT); [done..|]. destruct (Z.eqb_spec (addr_at i IND) 0); [done|]. by rewrite alloc_ind.
Qed.

(** A block number in the inode itself: slot [k], or [-1] for the last one. *)
Definition addr_slot (k : nat) : Z := if decide (k = IND) then -1 else Z.of_nat k.

Lemma grant_addr k :
  (k <= IND)%nat -> addr_at i k = 0 -> grant sb (addr_slot k) n v i (alloc_view sb n v) (set_addr k n i).
Proof using OW FREE.
  intros Hk H0. pose proof (ow_bm _ _ _ OW) as Hbm. destruct FREE as [Hn Hf]. unfold addr_slot, IND in *.
  pose proof (alloc_used v sb n Hbm Hn Hf) as Hu. split.
  - unfold in_file. change MAXFILE with 268. case_decide; lia.
  - unfold slot. destruct (decide (k = 12%nat)) as [->|]; [done|]. rewrite Nat2Z.id. unfold NDIRECT. zcases; lia || done.
  - done.
  - by apply alloc_bitmap.
  - unfold set_addr. cbn. rewrite length_insert. apply OW.
  - intros b Hb. unfold in_file in Hb. rewrite <- (alloc_slot b). unfold slot at 1 2. rewrite !addr_at_set by lia. unfold IND, NDIRECT.
    destruct (decide (12%nat = k)) as [<-|Hk'].
    + rewrite (decide_True (P := 12%nat = 12%nat)) by done. destruct (Z.eqb_spec b (-1)) as [->|Hb1]; [done|].
      destruct (Z.ltb_spec b 0); [lia|]. destruct (Z.ltb_spec b 12); [by rewrite decide_False by lia|].
      rewrite H0. change (0 =? 0) with true. cbv iota. destruct (n =? 0); [done|].
      rewrite alloc_zero. apply u32_at_zeroes. change MAXFILE with 268 in Hb. lia.
    + rewrite (decide_False (P := k = 12%nat)) by done.
      destruct (Z.ltb_spec b 0); [destruct (Z.eqb_spec b (Z.of_nat k)); [lia|done]|].
      destruct (Z.ltb_spec b 12); [|destruct (Z.eqb_spec b (Z.of_nat k)); [lia|done]].
      destruct (Z.eqb_spec b (Z.of_nat k)); case_decide; try done; lia.
  - done.
  - apply alloc_zero.
  - intros m Hm. rewrite <- (len_one_bit set_bit true one_bit_set v sb n m). unfold alloc_view. cbn. by rewrite (upd_ne _ n).
  - intros m H1 H2 _. by apply alloc_data.
Qed.

(** A block number in the indirect block. *)
Definition entry_view (j : Z) : cview :=
  logged_put (addr_at i IND) (put32 (cv_data v (addr_at i IND)) (4 * Z.to_nat j) n) (alloc_view sb n v).

Lemma grant_entry j :
  0 <= j < NINDIRECT -> addr_at i IND <> 0 -> slot v i (NDIRECT + j) = 0 ->
  grant sb (NDIRECT + j) n v i (entry_view j) i.
Proof using OW FREE.
  intros Hj Hi H0. pose proof (ow_bm _ _ _ OW) as Hbm. destruct FREE as [Hn Hf].
  pose proof (bm_size _ _ Hbm) as Hsz. change NINDIRECT with 256 in Hj.
  destruct (ow_block _ _ _ OW (-1) ltac:(done) Hi) as [Hr Hu Hl Hb]. change (slot v i (-1)) with (addr_at i IND) in *.
  change BSIZE with 1024 in Hl. set (ind := addr_at i IND) in *.
  assert (ind <> n) as Hin by (intros E; rewrite E in Hu; congruence).
  assert (forall m, m <> ind -> cv_data (entry_view j) m = cv_data (alloc_view sb n v) m) as Hother
    by (intros m Hm; unfold entry_view; fold ind; cbn; by rewrite upd_ne).
  assert (cv_data (entry_view j) ind = put32 (cv_data v ind) (4 * Z.to_nat j) n) as Hat
    by (unfold entry_view; fold ind; cbn; by rewrite upd_eq).
  assert (forall b, 0 <= b < sb_size sb -> used (entry_view j) sb b = used (alloc_view sb n v) sb b) as Hus
    by (intros b Hbb; unfold used; by rewrite Hother by by apply Hb).
  pose proof (alloc_used v sb n Hbm Hn Hf) as Hu2. pose proof (alloc_bitmap v sb n Hbm Hn Hf) as Hbm'. split.
  - unfold in_file. change MAXFILE with 268. change NDIRECT with 12. lia.
  - done.
  - done.
  - destruct Hbm' as [B1 B2 B3 B4 B5]. split; [done|done| | |].
    + intros b Hbb. rewrite Hother by by apply Hb. by apply B3.
    + intros b Hbb Hlt. rewrite Hus; [by apply B4|]. split; [apply u32_range|done].
    + intros Hs. rewrite Hus by lia. by apply B5.
  - apply OW.
  - intros b Hbb. unfold in_file in Hbb. change MAXFILE with 268 in Hbb. unfold slot. fold ind. change NDIRECT with 12.
    rewrite (proj2 (Z.eqb_neq _ _) Hi), Hat.
    destruct (Z.eqb_spec b (12 + j)) as [->|Hne].
    + destruct (Z.ltb_spec (12 + j) 0), (Z.ltb_spec (12 + j) 12); try lia.
      replace (12 + j - 12) with j by lia. apply u32_at_put; lia.
    + destruct (Z.ltb_spec b 0), (Z.ltb_spec b 12); try done. apply u32_at_put_ne; lia.
  - intros b Hbb. by rewrite Hus, Hu2.
  - rewrite Hother by done. apply alloc_zero.
  - intros m Hm. destruct (decide (m = ind)) as [->|Hm']; [rewrite Hat; apply length_put32; lia|].
    rewrite Hother by done. rewrite <- (len_one_bit set_bit true one_bit_set v sb n m).
    unfold alloc_view. cbn. by rewrite (upd_ne _ n).
  - intros m H1 H2 H3. rewrite Hother by by apply H3. by apply alloc_data.
Qed.
End places.

(** ** Giving out several blocks *)

(** The file with its holes read as zeroes. *)
Definition content (v : cview) (i : inode) : mem := fun x =>
  if slot v i (x / BSIZE) =? 0 then 0 else file v i x.

(** [taken] is a prefix of the free blocks, and went to empty slots. *)
Record extends (sb : superblock) (v : cview) (i : inode) (taken : list Z) (v' : cview) (i' : inode) : Prop := {
  ex_owns : owns v' sb i';
  ex_frees : frees v sb = taken ++ frees v' sb;
  ex_slot a : in_file a -> slot v i a <> 0 -> slot v' i' a = slot v i a;
  ex_new a : in_file a -> slot v i a = 0 -> slot v' i' a <> 0 ->
    slot v' i' a ∈ taken /\ (0 <= a -> cv_data v' (slot v' i' a) = zeroes);
  ex_data m : data_block v sb m -> m <> slot v i (-1) -> cv_data v' m = cv_data v m;
  ex_block m : data_block v sb m -> data_block v' sb m;
  ex_other m : m ∉ taken -> (slot v i (-1) <> 0 -> m <> slot v i (-1)) -> (forall b, 0 <= b < sb_size sb -> BBLOCK b sb <> m) ->
    cv_data v' m = cv_data v m
}.

Section extends.
Context (sb : superblock).

Lemma extends_refl v i : owns v sb i -> extends sb v i [] v i.
Proof. intros H. split; try done. Qed.

Lemma extends_grant a n l v i v' i' :
  owns v sb i -> frees v sb = n :: l -> grant sb a n v i v' i' -> extends sb v i [n] v' i'.
Proof.
  intros OW Hfr GR. pose proof (grant_owns _ _ _ _ _ _ _ OW GR) as OW'.
  destruct (frees_first _ _ _ _ Hfr) as (Hn & Hu & _).
  assert (forall b, 0 <= b < sb_size sb -> BBLOCK b sb <> n) as Hbn
    by (intros b; by apply (alloc_apart v _ _ (ow_bm _ _ _ OW))).
  split.
  - done.
  - rewrite Hfr. cbn. f_equal. symmetry. apply (frees_taken v _ _ n); [done|]. apply GR.
  - intros b Hb Hs. rewrite (gr_slot _ _ _ _ _ _ _ GR) by done. destruct (Z.eqb_spec b a) as [->|]; [|done].
    by rewrite (gr_was _ _ _ _ _ _ _ GR) in Hs.
  - intros b Hb H0. rewrite (gr_slot _ _ _ _ _ _ _ GR) by done. destruct (Z.eqb_spec b a) as [->|]; [|done].
    intros _. split; [by left|]. intros _. apply GR.
  - intros m [Hr Hm Hl Hb] Hi. apply (gr_data _ _ _ _ _ _ _ GR); [congruence|apply not_eq_sym, Hb; lia|done].
  - intros m. by apply (grant_old _ _ _ _ _ _ _ GR).
  - intros m Hm Hi Hb. apply (gr_data _ _ _ _ _ _ _ GR); [set_solver|apply not_eq_sym, Hb; lia|done].
Qed.

Lemma extends_trans v1 i1 t1 v2 i2 t2 v3 i3 :
  owns v1 sb i1 -> extends sb v1 i1 t1 v2 i2 -> extends sb v2 i2 t2 v3 i3 -> extends sb v1 i1 (t1 ++ t2) v3 i3.
Proof.
  intros OW [O1 F1 S1 N1 D1 B1 X1] [O2 F2 S2 N2 D2 B2 X2].
  assert (forall a, in_file a -> slot v1 i1 a <> 0 -> slot v2 i2 a <> 0) as Hnz by (intros a Ha Hs; by rewrite S1).
  assert (forall m, m ∈ t2 -> used v2 sb m = false) as Ht2.
  { intros m Hm. apply (elem_of_frees v2 sb). rewrite F2. set_solver. }
  split.
  - done.
  - by rewrite F1, F2, app_assoc.
  - intros a Ha Hs. rewrite S2 by auto. by apply S1.
  - intros a Ha H0 Hs. destruct (decide (slot v2 i2 a = 0)) as [E|Hne].
    + destruct (N2 a Ha E Hs). set_solver.
    + destruct (N1 a Ha H0 Hne) as [Hin Hz]. rewrite S2 by done. split; [set_solver|]. intros H. rewrite D2, Hz; [done..| |].
      * by apply O1.
      * intros E. assert (a = -1); [|lia]. by apply (ow_inj _ _ _ O1).
  - intros m Hm Hi. rewrite D2, D1; [done..|by apply B1|].
    destruct (decide (slot v1 i1 (-1) = 0)) as [E|Hne]; [|by rewrite S1].
    intros ->. destruct (decide (slot v2 i2 (-1) = 0)) as [E2|Hne2]; [by rewrite E2, E in Hi|].
    destruct (N1 (-1) ltac:(done) E Hne2) as [Hin _]. pose proof (db_used _ _ _ Hm) as Hu.
    assert (slot v2 i2 (-1) ∈ frees v1 sb) as [_ Hf]%elem_of_frees by (rewrite F1; set_solver). congruence.
  - auto.
  - intros m Hm Hi Hb. rewrite X2, X1; [done|set_solver|done|done|set_solver| |done].
    intros Hne. destruct (decide (slot v1 i1 (-1) = 0)) as [E|Hne1]; [|rewrite S1 by done; auto].
    destruct (N1 (-1) ltac:(done) E Hne) as [Hin _]. intros ->. set_solver.
Qed.

Context (v : cview) (i : inode) (t : list Z) (v' : cview) (i' : inode).
Context (OW : owns v sb i) (EX : extends sb v i t v' i').

(** What is in the file stays. *)
Lemma extends_content x : 0 <= x < MAXFILE * BSIZE -> content v' i' x = content v i x.
Proof using OW EX.
  intros Hx. assert (0 <= x / BSIZE < MAXFILE) as Ha
    by (split; [apply Z.div_pos; [lia|done]|apply Z.div_lt_upper_bound; [done|lia]]).
  assert (in_file (x / BSIZE)) as Hin by (unfold in_file; lia).
  pose proof (Z.mod_pos_bound x BSIZE ltac:(done)) as Hmod. pose proof (ex_owns _ _ _ _ _ _ EX) as OW'.
  unfold content. destruct (Z.eqb_spec (slot v i (x / BSIZE)) 0) as [E|Hne].
  - destruct (Z.eqb_spec (slot v' i' (x / BSIZE)) 0) as [|Hne']; [done|].
    unfold file. rewrite mapped_slot by by apply (slot_mapped _ _ _ _ OW').
    rewrite (proj2 (ex_new _ _ _ _ _ _ EX _ Hin E Hne')) by lia. apply lookup_total_replicate_2.
    change BSIZE with 1024 in *. lia.
  - pose proof (ex_slot _ _ _ _ _ _ EX _ Hin Hne) as Es.
    rewrite Es, (proj2 (Z.eqb_neq _ _) Hne). unfold file.
    rewrite !mapped_slot by (apply (slot_mapped _ _ _ _ OW) || apply (slot_mapped _ _ _ _ OW'); [done|congruence]).
    rewrite Es, (ex_data _ _ _ _ _ _ EX); [done|by apply OW|].
    intros E. assert (x / BSIZE = -1); [|lia]. by apply (ow_inj _ _ _ OW).
Qed.
End extends.

Lemma size_union_list (X Y : gset Z) (l : list Z) :
  Y ⊆ X ∪ list_to_set l -> Z.of_nat (size Y) <= Z.of_nat (size X) + Z.of_nat (length l).
Proof.
  intros H%subseteq_size. rewrite size_union_alt in H. pose proof (size_list_to_set_le l).
  pose proof (subseteq_size (list_to_set (C := gset Z) l ∖ X) (list_to_set l) ltac:(set_solver)). lia.
Qed.

(** What one block of a file costs: blocks to allocate, and room in the log. *)
Definition hole (v : cview) (i : inode) (a : Z) : Z := if slot v i a =? 0 then 1 else 0.
Definition need (v : cview) (i : inode) (a : Z) : Z :=
  if slot v i a =? 0 then if (NDIRECT <=? a) && (slot v i (-1) =? 0) then 2 else 1 else 0.
Definition ind_cost (v : cview) (i : inode) : Z :=
  if slot v i (-1) =? 0 then 2 else if decide (slot v i (-1) ∈ cv_pins v) then 0 else 1.

Lemma ind_cost_range w j : 0 <= ind_cost w j <= 2.
Proof. unfold ind_cost. repeat case_match; lia. Qed.

(** ** bmap() *)
Section bmap.
Context {SYM : Symbols} {DISK : BlockDev} (dev : Z) (R : cview -> kst -> Prop) {BC : BlockCache dev R}.

(** The log's counter is the number of pinned blocks. *)
Lemma tx_size hd v s : txh R hd v s -> lh_n (k_log s) = Z.of_nat (size (cv_pins v)).
Proof.
  intros [_ _ Hl _ Hp _]. rewrite Hp, size_list_to_set by apply Hl. by rewrite length_logged.
Qed.

(** The second half of bmap(): an entry of the indirect block. *)
Definition bmap_entry (ind bn : Z) : K Z :=
  if ind =? 0 then mret 0 else
  bp ← bread dev ind;
  bf ← getb bp;
  let a := u32_at (b_data bf) (4 * Z.to_nat bn) in
  addr ← (if negb (a =? 0) then mret a else
    addr ← balloc dev;
    when (truthy addr)
      (updb bp (set_data (fun d => put32 d (4 * Z.to_nat bn) addr)) ;;
       log_write bp) ;;
    mret addr);
  brelse bp ;;
  mret addr.

Lemma free_nonzero v sb n : bitmap_ok v sb -> first_clear v sb n -> n <> 0.
Proof. intros Hbm (Hn & Hu & _) ->. rewrite (bm_zero _ _ Hbm) in Hu by lia. done. Qed.

Lemma bmap_entry_new v s i j n l :
  let sb := k_sb s in
  tx R v s -> owns v sb i -> 0 <= j < NINDIRECT -> addr_at i IND <> 0 -> slot v i (NDIRECT + j) = 0 ->
  frees v sb = n :: l -> lh_n (k_log s) + 3 <= Z.of_nat NBUF ->
  exists s', bmap_entry (addr_at i IND) j s = Done n s' /\ tx R (entry_view sb n v i j) s' /\ write_frame 3 s s'.
Proof using BC.
  intros sb T OW Hj Hi H0 Hfr Hroom. set (ind := addr_at i IND) in *.
  pose proof (frees_first _ _ _ _ Hfr) as Hfc. pose proof Hfc as (Hn & Hu & _).
  pose proof (ow_bm _ _ _ OW) as Hbm. pose proof (free_nonzero _ _ _ Hbm Hfc) as Hnz.
  destruct (ow_block _ _ _ OW (-1) ltac:(done) Hi) as [Hr Hui Hl Hb]. change (slot v i (-1)) with ind in *.
  pose proof (bm_size _ _ Hbm) as Hsz.
  destruct (read_block dev R v s ind (tx_R _ _ _ _ T) (tx_quiet R v s T ltac:(lia))) as (b & s1 & E1 & HR1 & Hf1 & Ed & _).
  pose proof Hf1 as (S1 & L1 & _ & _ & _ & _ & B1 & _).
  pose proof (tx_hold R ∅ v s s1 ind b T HR1 S1 L1) as T1.
  destruct (balloc_ok dev R (<[ind := b]> ∅) (hold ind b v) s1 n T1) as (s2 & E2 & T2 & Hf2); rewrite ?B1; try done.
  { rewrite insert_empty, map_size_singleton, L1. lia. }
  { intros m [x Hx]. rewrite insert_empty in Hx. apply lookup_singleton_Some in Hx as [<- _]. done. }
  { destruct Hbm. by split. }
  rewrite B1 in T2. change (alloc_view (k_sb s) n (hold ind b v)) with (hold ind b (alloc_view sb n v)) in T2.
  destruct (update_held dev R ∅ (alloc_view sb n v) s2 ind b (fun d => put32 d (4 * Z.to_nat j) n) T2)
    as (s3 & s4 & E3 & E4 & T4 & Hf4); [apply T|done| |lia|].
  { destruct Hf2 as (_ & _ & _ & _ & Hn2 & _). rewrite L1 in Hn2. lia. }
  exists s4. split_and!.
  - unfold bmap_entry. rewrite (proj2 (Z.eqb_neq _ _) Hi), (bind_Done _ _ _ _ _ E1). unfold getb. rewrite bind_gets, Ed.
    assert (u32_at (cv_data v ind) (4 * Z.to_nat j) = 0) as ->.
    { unfold slot in H0. fold ind in H0. change NDIRECT with 12 in H0.
      destruct (Z.ltb_spec (12 + j) 0), (Z.ltb_spec (12 + j) 12); try lia.
      rewrite (proj2 (Z.eqb_neq _ _) Hi) in H0. by replace (12 + j - 12) with j in H0 by lia. }
    change (0 =? 0) with true. cbn [negb].
    erewrite bind_Done by (rewrite (bind_Done _ _ _ _ _ E2); unfold truthy;
      rewrite (proj2 (Z.eqb_neq _ _) Hnz); cbn [negb when]; unfold updb;
      erewrite bind_Done by (rewrite bind_modify; exact E3); reflexivity).
    rewrite (bind_Done _ _ _ _ _ E4). reflexivity.
  - pose proof (alloc_ind sb n v i OW (conj Hn Hu) Hi) as Ea. fold ind in Ea. rewrite Ea in T4. exact T4.
  - pose proof (write_frame_trans 2 1 _ _ _ Hf2 Hf4) as Hf. by apply (write_frame_trans 0 3 s s1); [apply bio_write_frame|].
Qed.

(** Only the block numbers of inode [ip] change. *)
Definition inode_frame (ip : nat) (s s' : kst) : Prop :=
  settled s s' /\ k_inodes s' = <[ip := inode_at s' ip]> (k_inodes s) /\
  inode_at s' ip = set_i_addrs (i_addrs (inode_at s' ip)) (inode_at s ip) /\
  k_sb s' = k_sb s /\ k_mem s' = k_mem s /\ same_stack s s'.

(** What bmap() of block [bn] does: it allocates what the file needs, and logs
    no more than one block, two if [bn] is new, and those for the indirect
    block. *)
Record bmapped (ip : nat) (bn : Z) (v : cview) (s : kst) (v' : cview) (s' : kst) : Prop := {
  bd_tx : tx R v' s';
  bd_frame : inode_frame ip s s';
  bd_slot : slot v' (inode_at s' ip) bn <> 0;
  bd_extends : exists t, extends (k_sb s) v (inode_at s ip) t v' (inode_at s' ip) /\
    Z.of_nat (length t) = need v (inode_at s ip) bn /\
    (forall x, x ∈ t -> x = slot v' (inode_at s' ip) (-1) \/ x = slot v' (inode_at s' ip) bn);
  bd_cost : Z.of_nat (size (cv_pins v' ∪ {[slot v' (inode_at s' ip) bn]})) + ind_cost v' (inode_at s' ip)
    <= Z.of_nat (size (cv_pins v)) + 1 + hole v (inode_at s ip) bn + ind_cost v (inode_at s ip)
}.

Lemma inode_frame_same k ip s s' :
  (ip < length (k_inodes s))%nat -> write_frame k s s' -> inode_frame ip s s' /\ inode_at s' ip = inode_at s ip.
Proof.
  intros Hip (H1 & H2 & H3 & H4 & _ & H5). assert (inode_at s' ip = inode_at s ip) as E by (unfold inode_at; by rewrite H2).
  split; [|done]. split_and!; try done; rewrite E.
  - rewrite H2. unfold inode_at. destruct (lookup_lt_is_Some_2 _ _ Hip) as [x Hx].
    rewrite (list_lookup_total_correct _ _ _ Hx). by rewrite list_insert_id.
  - by destruct (inode_at s ip).
Qed.

(** A block number has been stored in the inode. *)
Lemma inode_frame_addr j ip s s1 k n :
  (ip < length (k_inodes s))%nat -> write_frame j s s1 ->
  let s2 := set_k_inodes (alter (set_addr k n) ip (k_inodes s1)) s1 in
  inode_frame ip s s2 /\ inode_at s2 ip = set_addr k n (inode_at s ip).
Proof.
  intros Hip (H1 & H2 & H3 & H4 & _ & H5) s2.
  assert (inode_at s2 ip = set_addr k n (inode_at s ip)) as E.
  { unfold s2. rewrite inode_at_alter by by rewrite H2. unfold inode_at. by rewrite H2. }
  split; [|done]. split_and!; try done; rewrite E.
  - unfold s2, inode_at. cbn. rewrite H2. apply list_eq. intros x. destruct (decide (x = ip)) as [->|Hne].
    + rewrite list_lookup_alter_eq, list_lookup_insert_eq by done.
      destruct (lookup_lt_is_Some_2 _ _ Hip) as [y Hy]. by rewrite Hy, (list_lookup_total_correct _ _ _ Hy).
    + by rewrite list_lookup_alter_ne, list_lookup_insert_ne.
  - done.
Qed.

Lemma inode_frame_trans ip s1 s2 s3 : inode_frame ip s1 s2 -> inode_frame ip s2 s3 -> inode_frame ip s1 s3.
Proof.
  intros (H1 & H2 & H3 & H4 & H5 & H6) (G1 & G2 & G3 & G4 & G5 & G6). split; [by etrans|]. split_and!.
  - by rewrite G2, H2, list_insert_insert_eq.
  - rewrite G3 at 1. rewrite H3. by destruct (inode_at s1 ip).
  - congruence.
  - congruence.
  - by apply (same_stack_trans s1 s2 s3).
Qed.

Section cases.
Context (ip : nat) (bn : Z) (v : cview) (s : kst).
Let i := inode_at s ip.
Let sb := k_sb s.
Context (TX : tx R v s) (SLOT : (ip < length (k_inodes s))%nat) (DEV : i_dev i = dev).
Context (OW : owns v sb i) (BN : 0 <= bn < MAXFILE).
Context (ROOM : lh_n (k_log s) + 1 + hole v i bn + ind_cost v i < Z.of_nat NBUF).

(** The block is there. *)
Lemma bmap_there : slot v i bn <> 0 ->
  exists s', bmap ip bn s = Done (slot v i bn) s' /\ bmapped ip bn v s v s' /\ inode_at s' ip = i.
Proof using BC TX SLOT DEV OW BN ROOM.
  intros Hs. pose proof (proj1 (slot_mapped v sb i bn OW BN) Hs) as Hm. pose proof (ind_cost_range v i).
  assert (hole v i bn = 0) as Hh by (unfold hole; by rewrite (proj2 (Z.eqb_neq _ _) Hs)).
  destruct (bmap_mapped dev R v s ip i bn (tx_R _ _ _ _ TX) (tx_quiet R v s TX ltac:(lia)) eq_refl DEV Hm) as (s' & E & HR & Hf).
  rewrite (mapped_slot _ _ _ Hm) in E. exists s'. split; [done|].
  destruct (inode_frame_same 0 ip s s' SLOT (bio_write_frame _ _ Hf)) as [Hfr Hi]. split; [|done].
  split; rewrite ?Hi; fold i; fold sb.
  - apply (tx_read R ∅ v s); [done|done|by apply bio_read_frame].
  - done.
  - done.
  - exists []. split_and!; [by apply extends_refl|unfold need; by rewrite (proj2 (Z.eqb_neq _ _) Hs)|set_solver].
  - pose proof (size_union_list (cv_pins v) (cv_pins v ∪ {[slot v i bn]}) [slot v i bn] ltac:(set_solver)). cbn in *. lia.
Qed.

(** One block has been given out, for slot [bn]. *)
Lemma bmapped_grant n l v' s' :
  tx R v' s' -> inode_frame ip s s' -> frees v sb = n :: l -> grant sb bn n v i v' (inode_at s' ip) -> need v i bn = 1 ->
  Z.of_nat (size (cv_pins v' ∪ {[n]})) + ind_cost v' (inode_at s' ip) <= Z.of_nat (size (cv_pins v)) + 2 + ind_cost v i ->
  slot v' (inode_at s' ip) bn = n /\ bmapped ip bn v s v' s'.
Proof using OW SLOT.
  intros T Hf Hfr G Hneed Hcost. pose proof (frees_first _ _ _ _ Hfr) as Hfc.
  assert (slot v' (inode_at s' ip) bn = n) as Es by (rewrite (gr_slot _ _ _ _ _ _ _ G), Z.eqb_refl by apply G; done).
  assert (hole v i bn = 1) as Hh by (unfold hole; by rewrite (gr_was _ _ _ _ _ _ _ G)).
  split; [done|]. split; [done|done| | |]; fold i; fold sb.
  - rewrite Es. by apply (free_nonzero v sb); [apply OW|].
  - exists [n]. split_and!; [by apply (extends_grant sb bn n l)|done|].
    intros x ->%list_elem_of_singleton. by right.
  - rewrite Es. lia.
Qed.

Lemma room_hole : slot v i bn = 0 -> lh_n (k_log s) + 2 + ind_cost v i < Z.of_nat NBUF.
Proof using ROOM SLOT. intros E. unfold hole in ROOM. rewrite E in ROOM. change (0 =? 0) with true in ROOM. lia. Qed.

(** A direct block is missing. *)
Lemma bmap_direct n l : slot v i bn = 0 -> bn < NDIRECT -> frees v sb = n :: l ->
  exists v' s', bmap ip bn s = Done n s' /\ slot v' (inode_at s' ip) bn = n /\ bmapped ip bn v s v' s'.
Proof using BC TX SLOT DEV OW BN ROOM.
  intros H0 Hlt Hfr. pose proof (room_hole H0) as Hroom. pose proof (ind_cost_range v i) as Hic.
  pose proof (frees_first _ _ _ _ Hfr) as Hfc. pose proof (free_nonzero _ _ _ (ow_bm _ _ _ OW) Hfc) as Hnz.
  assert (addr_at i (Z.to_nat bn) = 0) as Ha.
  { unfold slot in H0. destruct (Z.ltb_spec bn 0); [lia|]. by rewrite (proj2 (Z.ltb_lt _ _) Hlt) in H0. }
  assert (addr_slot (Z.to_nat bn) = bn) as Ea by (unfold addr_slot, IND; unfold NDIRECT in Hlt; case_decide; lia).
  destruct (balloc_ok dev R ∅ v s n TX ltac:(rewrite map_size_empty; lia) (away_empty v sb) (ow_bm _ _ _ OW) Hfc)
    as (s1 & E1 & T1 & Hf1).
  destruct (inode_frame_addr 2 ip s s1 (Z.to_nat bn) n SLOT Hf1) as [Hfr2 Hi2].
  pose (s2 := set_k_inodes (alter (set_addr (Z.to_nat bn) n) ip (k_inodes s1)) s1). fold s2 in Hfr2, Hi2.
  pose proof (grant_addr sb n v i OW (conj (proj1 Hfc) (proj1 (proj2 Hfc))) (Z.to_nat bn)
    ltac:(unfold IND; unfold NDIRECT in Hlt; lia) Ha) as G. rewrite Ea in G.
  exists (alloc_view sb n v), s2. split; [|apply (bmapped_grant n l)]; rewrite ?Hi2; fold i; try done.
  - unfold bmap, geti. rewrite bind_gets. fold i. rewrite (proj2 (Z.ltb_lt _ _) Hlt), Ha. change (0 =? 0) with true.
    cbn [negb]. rewrite DEV, (bind_Done _ _ _ _ _ E1), (proj2 (Z.eqb_neq _ _) Hnz). reflexivity.
  - by apply (tx_ext dev R ∅ _ s1).
  - unfold need. rewrite H0. destruct (Z.leb_spec NDIRECT bn); [lia|done].
  - pose proof (size_union_list (cv_pins v) (cv_pins (alloc_view sb n v) ∪ {[n]}) [n; BBLOCK n sb] ltac:(cbn; set_solver)) as Hsz.
    assert (ind_cost (alloc_view sb n v) (set_addr (Z.to_nat bn) n i) <= ind_cost v i); [|cbn [length] in Hsz; lia].
    unfold ind_cost. rewrite (gr_slot _ _ _ _ _ _ _ G (-1)) by done. destruct (Z.eqb_spec (-1) bn); [lia|].
    destruct (_ =? 0); [done|]. cbn [cv_pins alloc_view logged_put pin put_data]. repeat case_decide; try lia. set_solver.
Qed.

(** An entry of the indirect block is missing. *)
Lemma bmap_far : NDIRECT <= bn ->
  bmap ip bn s = ((if negb (addr_at i IND =? 0) then mret (addr_at i IND) else
    addr ← balloc dev;
    when (negb (addr =? 0)) (updi ip (set_addr IND addr)) ;;
    mret addr) ≫= fun ind => bmap_entry ind (bn - NDIRECT)) s.
Proof using DEV BN SLOT.
  intros H. unfold bmap, geti. rewrite bind_gets. fold i. unfold MAXFILE in BN.
  destruct (Z.ltb_spec bn NDIRECT); [lia|]. destruct (Z.ltb_spec (bn - NDIRECT) NINDIRECT); [|lia]. by rewrite DEV.
Qed.

Lemma bmap_indirect n l : slot v i bn = 0 -> NDIRECT <= bn -> slot v i (-1) <> 0 -> frees v sb = n :: l ->
  exists v' s', bmap ip bn s = Done n s' /\ slot v' (inode_at s' ip) bn = n /\ bmapped ip bn v s v' s'.
Proof using BC TX SLOT DEV OW BN ROOM.
  intros H0 Hge Hi Hfr. pose proof (room_hole H0) as Hroom. pose proof (ind_cost_range v i) as Hic.
  pose proof (frees_first _ _ _ _ Hfr) as (Hn & Hu & _). unfold MAXFILE in BN. change (slot v i (-1)) with (addr_at i IND) in Hi.
  assert (0 <= bn - NDIRECT < NINDIRECT) as Hj by lia.
  assert (slot v i (NDIRECT + (bn - NDIRECT)) = 0) as Hs by by replace (NDIRECT + (bn - NDIRECT)) with bn by lia.
  destruct (bmap_entry_new v s i (bn - NDIRECT) n l TX OW Hj Hi Hs Hfr) as (s1 & E1 & T1 & Hf1); [lia|].
  fold sb in T1. pose proof (grant_entry sb n v i OW (conj Hn Hu) (bn - NDIRECT) Hj Hi Hs) as G.
  replace (NDIRECT + (bn - NDIRECT)) with bn in G by lia.
  destruct (inode_frame_same 3 ip s s1 SLOT Hf1) as [Hfr1 Hi1].
  exists (entry_view sb n v i (bn - NDIRECT)), s1. split; [|apply (bmapped_grant n l)]; rewrite ?Hi1; fold i; try done.
  - rewrite bmap_far by done. rewrite (proj2 (Z.eqb_neq _ _) Hi). cbn [negb]. rewrite bind_ret. exact E1.
  - unfold need. rewrite H0. change (slot v i (-1)) with (addr_at i IND). rewrite (proj2 (Z.eqb_neq _ _) Hi), andb_false_r. done.
  - unfold ind_cost. rewrite (gr_slot _ _ _ _ _ _ _ G (-1)) by done. destruct (Z.eqb_spec (-1) bn); [unfold NDIRECT in *; lia|].
    change (slot v i (-1)) with (addr_at i IND). rewrite (proj2 (Z.eqb_neq _ _) Hi).
    set (ind := addr_at i IND) in *. rewrite decide_True by (cbn; set_solver).
    destruct (decide (ind ∈ cv_pins v)).
    + pose proof (size_union_list (cv_pins v) (cv_pins (entry_view sb n v i (bn - NDIRECT)) ∪ {[n]}) [n; BBLOCK n sb]
        ltac:(cbn; fold ind; set_solver)). cbn [length] in *. lia.
    + pose proof (size_union_list (cv_pins v) (cv_pins (entry_view sb n v i (bn - NDIRECT)) ∪ {[n]}) [n; BBLOCK n sb; ind]
        ltac:(cbn; fold ind; set_solver)). cbn [length] in *. lia.
Qed.

(** The indirect block is missing as well. *)
Lemma indirect_new n1 l : slot v i (-1) = 0 -> lh_n (k_log s) + 2 <= Z.of_nat NBUF -> frees v sb = n1 :: l ->
  exists s', (addr ← balloc dev; when (negb (addr =? 0)) (updi ip (set_addr IND addr)) ;; mret addr) s = Done n1 s' /\
    tx R (alloc_view sb n1 v) s' /\ inode_frame ip s s' /\ inode_at s' ip = set_addr IND n1 i /\
    lh_n (k_log s') <= lh_n (k_log s) + 2.
Proof using BC TX SLOT DEV OW.
  intros Hi Hroom Hfr. pose proof (frees_first _ _ _ _ Hfr) as Hfc.
  pose proof (free_nonzero _ _ _ (ow_bm _ _ _ OW) Hfc) as Hnz.
  destruct (balloc_ok dev R ∅ v s n1 TX ltac:(rewrite map_size_empty; lia) (away_empty v sb) (ow_bm _ _ _ OW) Hfc)
    as (s1 & E1 & T1 & Hf1). fold sb in T1.
  destruct (inode_frame_addr 2 ip s s1 IND n1 SLOT Hf1) as [Hfr2 Hi2].
  exists (set_k_inodes (alter (set_addr IND n1) ip (k_inodes s1)) s1). split_and!; [|by apply (tx_ext dev R ∅ _ s1)|done|done|apply Hf1].
  rewrite (bind_Done _ _ _ _ _ E1), (proj2 (Z.eqb_neq _ _) Hnz). reflexivity.
Qed.

Lemma both_cost n1 n v2 i2 :
  cv_pins v2 ⊆ cv_pins v ∪ list_to_set [n; BBLOCK n sb; n1; BBLOCK n1 sb] -> slot v2 i2 (-1) = n1 -> n1 <> 0 ->
  n1 ∈ cv_pins v2 -> slot v i (-1) = 0 -> slot v i bn = 0 ->
  Z.of_nat (size (cv_pins v2 ∪ {[n]})) + ind_cost v2 i2 <= Z.of_nat (size (cv_pins v)) + 1 + hole v i bn + ind_cost v i.
Proof using BC TX SLOT DEV OW BN ROOM.
  intros Hsub E1 Hnz Hin Hi H0. unfold hole, ind_cost. rewrite E1, Hi, H0, (proj2 (Z.eqb_neq _ _) Hnz), decide_True by done.
  pose proof (size_union_list (cv_pins v) (cv_pins v2 ∪ {[n]}) [n; BBLOCK n sb; n1; BBLOCK n1 sb]) as Hsz.
  change (0 =? 0) with true. cbv iota. cbn [length] in Hsz. specialize (Hsz ltac:(set_solver)). lia.
Qed.

Lemma bmap_both n1 n l : NDIRECT <= bn -> slot v i (-1) = 0 -> frees v sb = n1 :: n :: l ->
  exists v' s', bmap ip bn s = Done n s' /\ slot v' (inode_at s' ip) bn = n /\ bmapped ip bn v s v' s'.
Proof using BC TX SLOT DEV OW BN ROOM.
  intros Hge Hi Hfr.
  assert (slot v i bn = 0) as H0.
  { change (slot v i (-1)) with (addr_at i IND) in Hi. unfold slot.
    destruct (Z.ltb_spec bn 0); [lia|]. destruct (Z.ltb_spec bn NDIRECT); [lia|]. by rewrite Hi. }
  pose proof (room_hole H0) as Hroom. assert (ind_cost v i = 2) as Hic by (unfold ind_cost; by rewrite Hi). rewrite Hic in Hroom.
  pose proof (frees_first _ _ _ _ Hfr) as Hfc. pose proof (free_nonzero _ _ _ (ow_bm _ _ _ OW) Hfc) as Hnz.
  destruct (indirect_new n1 (n :: l) Hi ltac:(lia) Hfr) as (s2 & E2 & T2 & Hfr2 & Hi2 & Hn2).
  pose (v1 := alloc_view sb n1 v). pose (i1 := set_addr IND n1 i).
  pose proof (grant_addr sb n1 v i OW (conj (proj1 Hfc) (proj1 (proj2 Hfc))) IND ltac:(done) Hi) as G1.
  change (addr_slot IND) with (-1) in G1. fold v1 i1 in G1. fold i1 in Hi2.
  pose proof (grant_owns _ _ _ _ _ _ _ OW G1) as OW1.
  pose proof (frees_taken v v1 sb n1 (n :: l) Hfr (gr_used _ _ _ _ _ _ _ G1)) as Hfr1.
  pose proof (frees_first _ _ _ _ Hfr1) as (Hn & Hu & _).
  assert (addr_at i1 IND = n1) as Hind by (change (addr_at i1 IND) with (slot v1 i1 (-1)); by rewrite (gr_slot _ _ _ _ _ _ _ G1)).
  assert (k_sb s2 = sb) as Hsb by apply Hfr2.
  assert (0 <= bn - NDIRECT < NINDIRECT) as Hj by (unfold MAXFILE in BN; lia).
  assert (slot v1 i1 (NDIRECT + (bn - NDIRECT)) = 0) as Hs1.
  { replace (NDIRECT + (bn - NDIRECT)) with bn by lia. rewrite (gr_slot _ _ _ _ _ _ _ G1) by (unfold in_file; lia).
    destruct (Z.eqb_spec bn (-1)); [lia|done]. }
  destruct (bmap_entry_new v1 s2 i1 (bn - NDIRECT) n l) as (s3 & E3 & T3 & Hf3); rewrite ?Hsb, ?Hind; try done; [lia|].
  rewrite Hsb in T3. rewrite Hind in E3.
  pose proof (grant_entry sb n v1 i1 OW1 (conj Hn Hu) (bn - NDIRECT) Hj ltac:(by rewrite Hind) Hs1) as G2.
  replace (NDIRECT + (bn - NDIRECT)) with bn in G2 by lia.
  destruct (inode_frame_same 3 ip s2 s3) as [Hfr3 Hi3]; [by rewrite (proj1 (proj2 Hfr2)), length_insert|done|].
  rewrite Hi2 in Hi3. pose proof (inode_frame_trans _ _ _ _ Hfr2 Hfr3) as HF.
  set (v2 := entry_view sb n v1 i1 (bn - NDIRECT)) in *.
  assert (slot v2 i1 bn = n) as Es by (rewrite (gr_slot _ _ _ _ _ _ _ G2), Z.eqb_refl by (unfold in_file; lia); done).
  assert (slot v2 i1 (-1) = n1) as Es1 by exact Hind.
  exists v2, s3. split; [|split; [by rewrite Hi3|]].
  - rewrite bmap_far by done. change (slot v i (-1)) with (addr_at i IND) in Hi. rewrite Hi. change (0 =? 0) with true.
    cbn [negb]. rewrite (bind_Done _ _ _ _ _ E2). exact E3.
  - split; rewrite ?Hi3; fold i; fold sb.
    + exact T3.
    + done.
    + rewrite Es. intros ->. pose proof (bm_zero _ _ (ow_bm _ _ _ OW1)) as Hz. rewrite Hz in Hu by lia. done.
    + exists ([n1] ++ [n]). split_and!.
      * apply (extends_trans sb v i [n1] v1 i1); [done|by apply (extends_grant sb (-1) n1 (n :: l))|].
        by apply (extends_grant sb bn n l).
      * unfold need. rewrite H0, Hi. destruct (Z.leb_spec NDIRECT bn); [done|lia].
      * rewrite Es, Es1. cbn [app]. intros x. rewrite !elem_of_cons, elem_of_nil. tauto.
    + rewrite Es. apply (both_cost n1); try done; unfold v2, entry_view; rewrite Hind; cbn; set_solver.
Qed.

(** All the cases together. *)
Lemma bmap_ok : need v i bn <= Z.of_nat (length (frees v sb)) ->
  exists v' s', bmap ip bn s = Done (slot v' (inode_at s' ip) bn) s' /\ bmapped ip bn v s v' s'.
Proof using BC TX SLOT DEV OW BN ROOM.
  unfold need. destruct (Z.eqb_spec (slot v i bn) 0) as [E|Hne]; intros Hn.
  2:{ destruct (bmap_there Hne) as (s' & E & Hb & Hi). exists v, s'. by rewrite Hi. }
  assert (exists v' s' n, bmap ip bn s = Done n s' /\ slot v' (inode_at s' ip) bn = n /\ bmapped ip bn v s v' s')
    as (v' & s' & n & Hb & <- & H); [|by eauto].
  destruct (Z.leb_spec NDIRECT bn) as [Hge|Hlt]; cbn [andb] in Hn.
  - destruct (Z.eqb_spec (slot v i (-1)) 0) as [Ei|Hi].
    + destruct (frees v sb) as [|n1 [|n l]] eqn:Hfr; cbn in Hn; [lia..|].
      destruct (bmap_both n1 n l Hge Ei Hfr) as (v' & s' & ?). by exists v', s', n.
    + destruct (frees v sb) as [|n l] eqn:Hfr; cbn in Hn; [lia|].
      destruct (bmap_indirect n l E Hge Hi Hfr) as (v' & s' & ?). by exists v', s', n.
  - destruct (frees v sb) as [|n l] eqn:Hfr; cbn in Hn; [lia|].
    destruct (bmap_direct n l E Hlt Hfr) as (v' & s' & ?). by exists v', s', n.
Qed.

(** *** No block is left *)
Definition complained (s s' : kst) : Prop :=
  u_out (k_uart s') = u_out (k_uart s) ++ str "balloc: out of blocks" ++ [10].

Lemma bmap_entry_full : NDIRECT <= bn -> slot v i bn = 0 -> frees v sb = [] -> can_print s ->
  exists s', bmap_entry (addr_at i IND) (bn - NDIRECT) s = Done 0 s' /\ tx R v s' /\ write_frame 0 s s' /\
    (addr_at i IND <> 0 -> complained s s').
Proof using BC TX SLOT DEV OW BN ROOM.
  intros Hge H0 Hfr Hpr. pose proof (room_hole H0) as Hroom. pose proof (ind_cost_range v i) as Hic.
  unfold bmap_entry. destruct (Z.eqb_spec (addr_at i IND) 0) as [Ei|Hi].
  { exists s. split_and!; try done. split_and!; try done. lia. }
  pose proof (ow_bm _ _ _ OW) as Hbm.
  destruct (ow_block _ _ _ OW (-1) ltac:(done) Hi) as [Hr Hui Hl Hb]. change (slot v i (-1)) with (addr_at i IND) in *.
  set (ind := addr_at i IND) in *.
  destruct (read_block dev R v s ind (tx_R _ _ _ _ TX) (tx_quiet R v s TX ltac:(lia))) as (b & s1 & E1 & HR1 & Hf1 & Ed & Hrel).
  pose proof Hf1 as (S1 & L1 & U1 & P1 & Q1 & _ & B1 & _).
  destruct (balloc_full dev R (<[ind := b]> ∅) (hold ind b v) s1 (tx_hold R ∅ v s s1 ind b TX HR1 S1 L1))
    as (s2 & E2 & T2 & Hf2 & Ho); rewrite ?B1; try done.
  { rewrite insert_empty, map_size_singleton, L1. lia. }
  { intros m [x Hx]. rewrite insert_empty in Hx. apply lookup_singleton_Some in Hx as [<- _]. done. }
  { destruct Hbm. by split. }
  { unfold can_print in *. rewrite P1, Q1. split_and!; try apply Hpr. by eapply lock_free_settled; [|apply Hpr]. }
  destruct (bc_brelse (dev := dev) (hold ind b v) s2 ind b (tx_R _ _ _ _ T2)) as (s3 & E3 & HR3 & Hf3); [apply lookup_insert_eq| |].
  { cbn. destruct (decide (ind ∈ cv_pins v)); [by left|right].
    apply (bc_clean (dev := dev) v s _ (tx_R _ _ _ _ TX)); [by rewrite (tx_held _ _ _ _ TX)|done]. }
  exists s3. rewrite (bind_Done _ _ _ _ _ E1). unfold getb. rewrite bind_gets, Ed.
  assert (u32_at (cv_data v ind) (4 * Z.to_nat (bn - NDIRECT)) = 0) as ->.
  { unfold slot in H0. fold ind in H0. destruct (Z.ltb_spec bn 0), (Z.ltb_spec bn NDIRECT); try lia.
    by rewrite (proj2 (Z.eqb_neq _ _) Hi) in H0. }
  change (0 =? 0) with true. cbn [negb].
  erewrite bind_Done by (rewrite (bind_Done _ _ _ _ _ E2); reflexivity). rewrite (bind_Done _ _ _ _ _ E3).
  rewrite unhold_hold in HR3 by by rewrite (tx_held _ _ _ _ TX).
  pose proof (write_frame_trans 0 0 _ _ _ (bio_write_frame _ _ Hf1) (write_frame_trans 0 0 _ _ _ Hf2 (bio_write_frame _ _ Hf3))) as Hf.
  split; [done|]. split_and!; [|done|].
  - destruct T2 as [_ _ Hlog Hout Hp Hk]. destruct Hf3 as (S3 & L3 & _). split; rewrite ?L3; try done; [apply TX|].
    by eapply lock_free_settled.
  - intros _. unfold complained. destruct Hf3 as (_ & _ & U3 & _). by rewrite U3, Ho, U1.
Qed.

Lemma bmap_full : slot v i bn = 0 -> frees v sb = [] -> can_print s ->
  exists s', bmap ip bn s = Done 0 s' /\ tx R v s' /\ write_frame 0 s s' /\ complained s s'.
Proof using BC TX SLOT DEV OW BN ROOM.
  intros H0 Hfr Hpr. pose proof (room_hole H0) as Hroom. pose proof (ind_cost_range v i) as Hic.
  destruct (balloc_full dev R ∅ v s TX ltac:(rewrite map_size_empty; lia) (away_empty v sb) (ow_bm _ _ _ OW) Hfr Hpr)
    as (s1 & E1 & T1 & Hf1 & Ho).
  destruct (Z.lt_ge_cases bn NDIRECT) as [Hlt|Hge].
  - exists s1. split_and!; try done. unfold bmap, geti. rewrite bind_gets. fold i. rewrite (proj2 (Z.ltb_lt _ _) Hlt).
    unfold slot in H0. destruct (Z.ltb_spec bn 0); [lia|]. rewrite (proj2 (Z.ltb_lt _ _) Hlt) in H0.
    rewrite H0. change (0 =? 0) with true. cbn [negb]. rewrite DEV, (bind_Done _ _ _ _ _ E1). reflexivity.
  - rewrite bmap_far by done. destruct (Z.eqb_spec (addr_at i IND) 0) as [Ei|Hi]; cbn [negb].
    + exists s1. split_and!; try done. rewrite (bind_Done _ _ _ 0 s1); [reflexivity|].
      rewrite (bind_Done _ _ _ _ _ E1). reflexivity.
    + destruct (bmap_entry_full Hge H0 Hfr Hpr) as (s' & E & T & Hf & Hc). exists s'. rewrite bind_ret. auto.
Qed.
End cases.

(** C11: growing a file.  For an inode whose blocks are marked in the bitmap
    and all different, and an open transaction with room in the log, bmap()
    of any block of the file returns a block and leaves such an inode: a
    block that was there is returned and nothing is logged or allocated; for
    a missing one it takes the first free blocks, one for the data and one
    for the indirect block if that is missing too, and stores their numbers,
    so that the contents of the file (a missing block counts as zeroes), its
    other blocks, and every block of other files stay as they are; at most
    one block, one bitmap block and those of the indirect block are logged.
    With no free block a missing one gives 0, the message of balloc() on the
    console, and no change to a block or an inode. *)
Theorem bmap_grows ip bn v s :
  let i := inode_at s ip in
  let sb := k_sb s in
  tx R v s -> (ip < length (k_inodes s))%nat -> i_dev i = dev -> owns v sb i -> 0 <= bn < MAXFILE ->
  lh_n (k_log s) + 1 + hole v i bn + ind_cost v i < Z.of_nat NBUF ->
  (need v i bn <= Z.of_nat (length (frees v sb)) ->
    exists v' s', bmap ip bn s = Done (slot v' (inode_at s' ip) bn) s' /\ bmapped ip bn v s v' s' /\
      owns v' sb (inode_at s' ip) /\
      (forall x, 0 <= x < MAXFILE * BSIZE -> content v' (inode_at s' ip) x = content v i x) /\
      (slot v i bn <> 0 -> v' = v)) /\
  (frees v sb = [] -> slot v i bn = 0 -> can_print s ->
    exists s', bmap ip bn s = Done 0 s' /\ tx R v s' /\ k_inodes s' = k_inodes s /\ complained s s').
Proof using BC.
  intros i sb T Hip Hd OW Hbn Hroom. split.
  - intros Hn. destruct (decide (slot v i bn = 0)) as [E|Hne].
    + destruct (bmap_ok ip bn v s T Hip Hd OW Hbn Hroom Hn) as (v' & s' & E' & Hb). exists v', s'.
      destruct (bd_extends _ _ _ _ _ _ Hb) as (t & EX & _). split_and!; [done|done|by apply (ex_owns _ _ _ _ _ _ EX)| |done].
      intros x Hx. by apply (extends_content _ _ _ _ _ _ OW EX).
    + destruct (bmap_there ip bn v s T Hip Hd OW Hbn Hroom Hne) as (s' & E & Hb & Hi). exists v, s'. rewrite Hi. by split_and!.
  - intros Hfr H0 Hpr. destruct (bmap_full ip bn v s T Hip Hd OW Hbn Hroom H0 Hfr Hpr) as (s' & E & T' & Hf & Hc).
    exists s'. split_and!; [done|done|apply Hf|done].
Qed.
End bmap.

(** ** An example: a file with one block *)
Lemma demo_slot v a : in_file a -> slot v demo_inode a = if a =? 0 then 50 else 0.
Proof.
  intros Ha. unfold in_file, slot in *. change NDIRECT with 12. destruct (Z.ltb_spec a 0); [destruct (Z.eqb_spec a 0); [lia|reflexivity]|].
  destruct (Z.ltb_spec a 12); [|destruct (Z.eqb_spec a 0); [lia|reflexivity]].
  destruct (Z.eqb_spec a 0) as [->|Hne]; [reflexivity|]. unfold addr_at, demo_inode. cbn [i_addrs].
  destruct (Z.to_nat a) as [|k] eqn:E; [lia|]. change (replicate 12 0 !!! k = 0). apply lookup_total_replicate_2. lia.
Qed.

Lemma demo_owns v : cv_data v = demo_disk -> owns v demo_sb demo_inode.
Proof.
  intros E. split; [by apply demo_bitmap_ok|reflexivity| |].
  - intros a Ha. rewrite demo_slot by done. destruct (Z.eqb_spec a 0); [intros _|done].
    split; rewrite ?E; [done|unfold used; rewrite E; vm_compute; reflexivity|reflexivity|].
    intros b Hb. rewrite demo_BBLOCK by done. discriminate.
  - intros a b Ha Hb. rewrite !demo_slot by done. destruct (Z.eqb_spec a 0), (Z.eqb_spec b 0); congruence.
Qed.

(** Block 20 of the file: a block for the data and one for the addresses. *)
Lemma bmap_grows_witness :
  exists s v' s', @bmap sync_disk 0 20 s = Done (slot v' (inode_at s' 0) 20) s' /\ slot v' (inode_at s' 0) 20 <> 0 /\
    slot (empty_view s) (inode_at s 0) 20 = 0.
Proof.
  destruct (demo_on_tx demo_disk demo_inode) as (s & T & Hd & Hi & Hsb & Hl & _). exists s.
  assert (cv_data (empty_view s) = demo_disk) as Ev by exact Hd.
  assert (inode_at s 0 = demo_inode) as Hi0 by (unfold inode_at; by rewrite Hi).
  destruct (@bmap_grows sync_disk 1 (cache_ok 0 1) (cache_laws (SYNC := sync_disk_sync) 0 1) 0 20 (empty_view s) s T)
    as [Hok _]; rewrite ?Hsb, ?Hl, ?Hi0.
  - rewrite Hi. cbn. lia.
  - reflexivity.
  - by apply demo_owns.
  - done.
  - unfold hole, ind_cost. rewrite !demo_slot by done. vm_compute. reflexivity.
  - rewrite Hi0, Hsb in Hok. destruct Hok as (v' & s' & E & Hb & _).
    { rewrite demo_frees_ok by done. unfold need. rewrite !demo_slot by done. vm_compute. discriminate. }
    exists v', s'. split; [exact E|]. split; [apply (bd_slot _ _ _ _ _ _ _ Hb)|]. by rewrite demo_slot.
Defined.
