(* ===== verification/Dir.v ===== *)
(** * Dir: directories (dirlookup() and dirlink() of kernel/fs.c)

    A directory is a file of 16-byte entries, an inode number and a name.
    dirlookup() finds the first entry in use with a given name; dirlink()
    puts a new entry into the first free place or at the end, and leaves all
    other entries alone. *)

From S2P Require Import Prelude Params Machine Spinlock Strings Kalloc Sched Vm Sleeplock Blockdev Bio Bcache Log Fs Inode.

Section dir.
Context {SYM : Symbols} {DISK : BlockDev} (dev : Z) (R : cview -> kst -> Prop) {BC : BlockCache dev R}.

(** ** The entries *)
Definition entry (v : cview) (i : inode) (k : nat) : list Z := mem_load (file v i) (16 * Z.of_nat k) 16.
Definition ent_inum (e : list Z) : Z := le_val (take 2 e).
Definition ent_name (e : list Z) : list Z := drop 2 e.

(** A directory of [N] entries, all of them in allocated blocks. *)
Record directory (v : cview) (s : kst) (dp N : nat) : Prop := {
  d_type : i_type (inode_at s dp) = T_DIR;
  d_dev : i_dev (inode_at s dp) = dev;
  d_size : i_size (inode_at s dp) = 16 * Z.of_nat N;
  d_max : 16 * Z.of_nat N <= MAXFILE * BSIZE;
  d_alloc : allocated v (inode_at s dp) 0 (16 * Z.of_nat N)
}.

(** The running process has its kernel stack in the address space. *)
Definition stack_ok (s : kst) : Prop :=
  forall j, c_proc (k_cpu s) = Some j -> 0 <= p_kstack (proc_at s j) < 2 ^ 63.

Lemma stack_ok_same s s' : settled s s' -> same_stack s s' -> stack_ok s -> stack_ok s'.
Proof.
  intros (_ & Hc & _)%settled_fields Hs H j Hj. rewrite Hc in Hj. rewrite (Hs j Hj). by apply H.
Qed.

Lemma local_addr_ok v s o :
  R v s -> stack_ok s -> 0 <= o < 2 ^ 62 -> exists a, local_addr o s = Done a s /\ 0 <= a < 2 ^ 63 + 2 ^ 62.
Proof using BC.
  intros HR Hs Ho. destruct (bc_proc (dev := dev) v s HR) as [j Hj]. unfold local_addr, gets. rewrite Hj.
  eexists. split; [reflexivity|]. specialize (Hs j Hj). lia.
Qed.

Lemma read_frame_refl s : read_frame s s.
Proof. split; [done|]. split_and!; [done..|by apply same_stack_procs]. Qed.
Lemma frame_inode s s' ip : read_frame s s' -> inode_at s' ip = inode_at s ip.
Proof. intros (_ & _ & Hi & _). unfold inode_at. by rewrite Hi. Qed.

Lemma directory_frame v s s' dp N : read_frame s s' -> directory v s dp N -> directory v s' dp N.
Proof.
  intros Hf [H1 H2 H3 H4 H5]. split; rewrite ?(frame_inode _ _ dp Hf); done.
Qed.

(** Reading entry [k] into a struct dirent at [de]. *)
Lemma read_entry v s dp N de k :
  R v s -> quiet v -> directory v s dp N -> (k < N)%nat -> 0 <= de -> de + 16 < 2 ^ 64 ->
  let e := entry v (inode_at s dp) k in
  exists s', readi dp false de (16 * Z.of_nat k) 16 s = Done 16 s' /\ R v s' /\ read_frame s s' /\
    de_inum (k_mem s') de = ent_inum e /\ de_name (k_mem s') de = ent_name e.
Proof using BC.
  intros HR Hq [Ht Hd Hs Hmx Ha] Hk Hde Hde2 e. change (MAXFILE * BSIZE) with 274432 in Hmx.
  assert (Z.max 0 (Z.min 16 (i_size (inode_at s dp) - 16 * Z.of_nat k)) = 16) as Hm by lia.
  destruct (readi_ok dev R v s dp _ de (16 * Z.of_nat k) 16 HR Hq eq_refl Hd) as (s' & E & HR' & Hf & Hmem); try lia.
  { rewrite Hm. intros x Hx. apply Ha. lia. }
  rewrite Hm in E, Hmem. exists s'.
  assert (mem_load (k_mem s') de 16 = e) as He.
  { unfold e, entry. rewrite <- (mem_load_store_same (k_mem s) de (mem_load (file v (inode_at s dp)) (16 * Z.of_nat k) 16)).
    rewrite mem_load_length. apply mem_load_ext. intros x _. apply Hmem. }
  split_and!; [done..| |]; rewrite <- He; unfold de_inum, de_name, ent_inum, ent_name.
  - by rewrite (mem_load_app _ de 2 14), take_app_length' by by rewrite mem_load_length.
  - by rewrite (mem_load_app _ de 2 14), drop_app_length' by by rewrite mem_load_length.
Qed.

(** ** dirlookup() *)

(** Two names are the same to namecmp(). *)
Lemma namecmp_zero a b : namecmp a b = 0 <-> take 14 (cstr a) = take 14 (cstr b).
Proof. apply strncmp_zero. Qed.

Definition in_use (name e : list Z) : Prop := ent_inum e <> 0 /\ namecmp name (ent_name e) = 0.

(** Entry [k] is the one that [name] stands for. *)
Definition found (v : cview) (i : inode) (N : nat) (name : list Z) (k : nat) : Prop :=
  (k < N)%nat /\ in_use name (entry v i k) /\ forall j, (j < k)%nat -> ~ in_use name (entry v i j).

Definition lookup_round (dp : nat) (name : list Z) (de off : Z) : K (Z + option (nat * Z)) :=
  d ← geti dp;
  if negb (off <? i_size d) then mret (inr None) else
  r ← readi dp false de off DIRENT_SIZE;
  if negb (r =? DIRENT_SIZE) then panic "dirlookup read" else
  inum ← gets (fun s => de_inum (k_mem s) de);
  nm ← gets (fun s => de_name (k_mem s) de);
  if inum =? 0 then mret (inl (off + DIRENT_SIZE)) else
  if namecmp name nm =? 0 then
    d ← geti dp;
    ip ← iget (i_dev d) inum;
    mret (inr (Some (ip, off)))
  else mret (inl (off + DIRENT_SIZE)).

(** The call that ends a successful lookup. *)
Definition get_entry (k : nat) (e : list Z) : K (option (nat * Z)) :=
  ip ← iget dev (ent_inum e); mret (Some (ip, 16 * Z.of_nat k)).

Lemma lookup_loop v i dp N name de n : forall fuel k s,
  R v s -> quiet v -> directory v s dp N -> inode_at s dp = i -> 0 <= de -> de + 16 < 2 ^ 64 ->
  (k + n = N)%nat -> (n < fuel)%nat -> (forall j, (j < k)%nat -> ~ in_use name (entry v i j)) ->
  exists s', R v s' /\ read_frame s s' /\
    ((exists m, found v i N name m /\
        loop fuel (lookup_round dp name de) (16 * Z.of_nat k) s = get_entry m (entry v i m) s')
     \/ (forall j, (j < N)%nat -> ~ in_use name (entry v i j)) /\
        loop fuel (lookup_round dp name de) (16 * Z.of_nat k) s = Done None s').
Proof using BC.
  induction n as [|n IH]; intros fuel k s HR Hq Hdir Hi Hde Hde2 Hk Hf Hno; destruct fuel as [|fuel]; try lia.
  - exists s. split; [done|]. split; [by apply read_frame_refl|]. right.
    replace N with k by lia. split; [done|]. apply loop_done; [lia|]. unfold lookup_round, geti. rewrite bind_gets.
    rewrite (d_size _ _ _ _ Hdir), (proj2 (Z.ltb_ge _ _)) by lia. done.
  - destruct (read_entry v s dp N de k) as (s1 & E & HR1 & Hf1 & Hin & Hnm); try done; [lia|]. rewrite Hi in Hin, Hnm.
    assert (inode_at s1 dp = i) as Hi1 by (by rewrite (frame_inode _ _ _ Hf1)).
    pose proof (directory_frame _ _ _ _ _ Hf1 Hdir) as Hdir1.
    assert (lookup_round dp name de (16 * Z.of_nat k) s =
      (if ent_inum (entry v i k) =? 0 then mret (inl (16 * Z.of_nat k + DIRENT_SIZE)) else
       if namecmp name (ent_name (entry v i k)) =? 0 then
         d ← geti dp; ip ← iget (i_dev d) (ent_inum (entry v i k)); mret (inr (Some (ip, 16 * Z.of_nat k)))
       else mret (inl (16 * Z.of_nat k + DIRENT_SIZE))) s1) as Er.
    { unfold lookup_round, geti. rewrite bind_gets, (d_size _ _ _ _ Hdir), (proj2 (Z.ltb_lt _ _)) by lia. cbn [negb].
      erewrite bind_Done by exact E. change (16 =? DIRENT_SIZE) with true. cbn [negb].
      by rewrite !bind_gets, Hin, Hnm. }
    assert (in_use name (entry v i k) \/ ~ in_use name (entry v i k) /\
      lookup_round dp name de (16 * Z.of_nat k) s = Done (inl (16 * Z.of_nat (S k))) s1) as [Hu|[Hu Er']].
    { unfold in_use. replace (16 * Z.of_nat (S k)) with (16 * Z.of_nat k + DIRENT_SIZE) by (unfold DIRENT_SIZE; lia).
      rewrite Er. destruct (Z.eqb_spec (ent_inum (entry v i k)) 0); [right; split; [tauto|done]|].
      destruct (Z.eqb_spec (namecmp name (ent_name (entry v i k))) 0); [by left|right; split; [tauto|done]]. }
    + exists s1. split; [done|]. split; [done|]. left. exists k. split; [split_and!; [lia|done|done]|].
      destruct Hu as [Hu1 Hu2]. rewrite (proj2 (Z.eqb_neq _ _) Hu1), Hu2 in Er. change (0 =? 0) with true in Er.
      unfold geti in Er. rewrite bind_gets, Hi1 in Er. rewrite <- Hi, (d_dev _ _ _ _ Hdir), Hi in Er.
      cbn [loop]. rewrite bind_as_res, Er. unfold get_entry. rewrite !bind_as_res, res_bind_bind. reflexivity.
    + destruct (IH fuel (S k) s1) as (s' & HR' & Hf' & Hres); try done; [lia|lia|..].
      { intros j Hj. destruct (decide (j = k)) as [->|]; [done|]. apply Hno. lia. }
      exists s'. split; [done|]. split; [by eapply read_frame_trans|]. by rewrite (loop_next _ _ _ _ _ _ Er').
Qed.

(** dirlookup() implements the search. *)
Lemma dirlookup_ok v s dp N name :
  let i := inode_at s dp in
  R v s -> quiet v -> directory v s dp N -> stack_ok s ->
  exists s', R v s' /\ read_frame s s' /\
    ((exists m, found v i N name m /\ dirlookup dp name s = get_entry m (entry v i m) s')
     \/ (forall j, (j < N)%nat -> ~ in_use name (entry v i j)) /\ dirlookup dp name s = Done None s').
Proof using BC.
  intros i HR Hq Hdir Hst. destruct (local_addr_ok v s 0 HR Hst) as (de & Ede & Hde); [lia|].
  unfold dirlookup, geti. rewrite bind_gets, (d_type _ _ _ _ Hdir). change (T_DIR =? T_DIR) with true. cbn [negb].
  erewrite bind_Done by exact Ede. rewrite (d_size _ _ _ _ Hdir).
  apply (lookup_loop v i dp N name de N (dir_fuel (16 * Z.of_nat N)) 0 s); try done; try lia.
  unfold dir_fuel, DIRENT_SIZE. rewrite Z.mul_comm, Z.div_mul by done. lia.
Qed.

(** ** dirlink() *)

(** The place of a new entry: the first free one, or the end. *)
Definition first_free (v : cview) (i : inode) (N k : nat) : Prop :=
  (k <= N)%nat /\ ((k < N)%nat -> ent_inum (entry v i k) = 0) /\
  forall j, (j < k)%nat -> ent_inum (entry v i j) <> 0.

Lemma first_free_unique v i N k k' : first_free v i N k -> first_free v i N k' -> k = k'.
Proof.
  intros (H1 & H2 & H3) (G1 & G2 & G3). destruct (lt_eq_lt_dec k k') as [[Hl|?]|Hl]; [|done|].
  - destruct (G3 k Hl). apply H2. lia.
  - destruct (H3 k' Hl). apply G2. lia.
Qed.

Definition free_round (dp : nat) (de off : Z) : K (Z + Z) :=
  d ← geti dp;
  if negb (off <? i_size d) then mret (inr off) else
  r ← readi dp false de off DIRENT_SIZE;
  if negb (r =? DIRENT_SIZE) then panic "dirlink read" else
  n ← gets (fun s => de_inum (k_mem s) de);
  if n =? 0 then mret (inr off) else mret (inl (off + DIRENT_SIZE)).

Lemma free_loop v i dp N de n : forall fuel k s,
  R v s -> quiet v -> directory v s dp N -> inode_at s dp = i -> 0 <= de -> de + 16 < 2 ^ 64 ->
  (k + n = N)%nat -> (n < fuel)%nat -> (forall j, (j < k)%nat -> ent_inum (entry v i j) <> 0) ->
  exists s' k', R v s' /\ read_frame s s' /\ first_free v i N k' /\
    loop fuel (free_round dp de) (16 * Z.of_nat k) s = Done (16 * Z.of_nat k') s'.
Proof using BC.
  induction n as [|n IH]; intros fuel k s HR Hq Hdir Hi Hde Hde2 Hk Hf Hno; destruct fuel as [|fuel]; try lia.
  - exists s, k. split; [done|]. split; [apply read_frame_refl|]. split; [split_and!; [lia|lia|done]|].
    apply loop_done; [lia|]. unfold free_round, geti. rewrite bind_gets.
    rewrite (d_size _ _ _ _ Hdir), (proj2 (Z.ltb_ge _ _)) by lia. done.
  - destruct (read_entry v s dp N de k) as (s1 & E & HR1 & Hf1 & Hin & _); try done; [lia|]. rewrite Hi in Hin.
    assert (inode_at s1 dp = i) as Hi1 by (by rewrite (frame_inode _ _ _ Hf1)).
    pose proof (directory_frame _ _ _ _ _ Hf1 Hdir) as Hdir1.
    assert (free_round dp de (16 * Z.of_nat k) s =
      if ent_inum (entry v i k) =? 0 then Done (inr (16 * Z.of_nat k)) s1
      else Done (inl (16 * Z.of_nat k + DIRENT_SIZE)) s1) as Er.
    { unfold free_round, geti. rewrite bind_gets, (d_size _ _ _ _ Hdir), (proj2 (Z.ltb_lt _ _)) by lia. cbn [negb].
      erewrite bind_Done by exact E. change (16 =? DIRENT_SIZE) with true. cbn [negb].
      rewrite bind_gets, Hin. by destruct (_ =? 0). }
    destruct (Z.eqb_spec (ent_inum (entry v i k)) 0) as [H0|H0].
    + exists s1, k. split; [done|]. split; [done|]. split; [split_and!; [lia|done|done]|].
      apply loop_done; [lia|]. exact Er.
    + destruct (IH fuel (S k) s1) as (s' & k' & HR' & Hf' & Hff & E'); try done; [lia|lia|..].
      { intros j Hj. destruct (decide (j = k)) as [->|]; [done|]. apply Hno. lia. }
      exists s', k'. split; [done|]. split; [by eapply read_frame_trans|]. split; [done|].
      rewrite (loop_next _ _ _ _ _ _ Er). by replace (16 * Z.of_nat k + DIRENT_SIZE) with (16 * Z.of_nat (S k)) by (unfold DIRENT_SIZE; lia).
Qed.

(** The entry that dirlink() writes. *)
Definition padded (name : list Z) : list Z :=
  let n := take 14 (cstr name) in n ++ replicate (14 - length n) 0.
Definition new_entry (inum : Z) (name : list Z) : list Z := le_bytes 2 inum ++ padded name.

Lemma strncpy_padded old name : length old = 14%nat -> strncpy old name DIRSIZ = padded name.
Proof.
  intros Hl. unfold strncpy, padded. change (Z.to_nat DIRSIZ) with 14%nat.
  destruct (strncpy_loop_app 14 [] old name) as (k & E & Hk); [lia|]. cbn [app length] in E. rewrite E.
  rewrite drop_ge, app_nil_r by lia. f_equal. f_equal. lia.
Qed.

Lemma padded_length name : length (padded name) = 14%nat.
Proof. unfold padded. rewrite length_app, length_replicate, length_take. lia. Qed.

Lemma namecmp_padded nm name : namecmp nm (padded name) = 0 <-> namecmp nm name = 0.
Proof.
  rewrite !namecmp_zero. enough (take 14 (cstr (padded name)) = take 14 (cstr name)) as -> by done.
  unfold padded. rewrite cstr_app_nonzero by apply cstr_take_le. destruct (14 - _)%nat as [|k] eqn:E.
  - cbn [replicate cstr]. by rewrite app_nil_r, take_take.
  - rewrite <- (app_nil_r (replicate _ _)), cstr_pad, app_nil_r, take_take. done.
Qed.

Lemma new_entry_fields inum name :
  ent_inum (new_entry inum name) = u16 inum /\ ent_name (new_entry inum name) = padded name.
Proof.
  unfold ent_inum, ent_name, new_entry. rewrite take_app_length', drop_app_length' by by rewrite le_bytes_length.
  split; [apply le_val_le_bytes|done].
Qed.

(** The struct dirent is filled in, whatever it held. *)
Lemma fill_dirent m de inum name :
  let m1 := mem_store m (de + 2) (strncpy (de_name m de) name DIRSIZ) in
  mem_load (mem_store m1 de (le_bytes 2 inum)) de 16 = new_entry inum name.
Proof.
  intros m1. unfold new_entry. rewrite (mem_load_app _ de 2 14). f_equal.
  - pose proof (mem_load_store_same m1 de (le_bytes 2 inum)) as H. by rewrite le_bytes_length in H.
  - rewrite mem_load_store_other by (rewrite le_bytes_length; lia). change (Z.of_nat 2) with 2. unfold m1.
    rewrite strncpy_padded by (unfold de_name; by rewrite mem_load_length).
    pose proof (mem_load_store_same m (de + 2) (padded name)) as H. by rewrite padded_length in H.
Qed.

Lemma writable_ext v s s' ip off n :
  k_inodes s' = k_inodes s -> k_sb s' = k_sb s -> k_log s' = k_log s ->
  writable dev v s ip off n -> writable dev v s' ip off n.
Proof.
  intros Hi Hb Hl W. assert (inode_at s' ip = inode_at s ip) as E by (unfold inode_at; by rewrite Hi).
  destruct W. split; rewrite ?E, ?Hb, ?Hl, ?Hi; done.
Qed.

(** The directory after entry [k] has been written. *)
Definition linked (v v' : cview) (s s' : kst) (dp N k : nat) (e : list Z) : Prop :=
  let N' := Nat.max N (S k) in
  directory v' s' dp N' /\
  forall j, (j < N')%nat -> entry v' (inode_at s' dp) j = if decide (j = k) then e else entry v (inode_at s dp) j.

Lemma write_entry v s dp N k src :
  let off := 16 * Z.of_nat k in let e := mem_load (k_mem s) src 16 in
  tx R v s -> directory v s dp N -> (k <= N)%nat -> writable dev v s dp off 16 ->
  0 <= src -> src + 16 < 2 ^ 64 ->
  exists v' s', writei dp false src off 16 s = Done 16 s' /\ tx R v' s' /\ linked v v' s s' dp N k e /\
    lh_n (k_log s') <= lh_n (k_log s) + 2 /\ settled s s' /\ same_stack s s'.
Proof using BC.
  intros off e T Hdir Hk W Hsrc Hsw.
  destruct (writei_file dev R v s dp src off 16 T W Hsrc Hsw)
    as (v' & s' & E & T' & Hi & Hm & Hmap & Hfile & _ & Hn & Hst & Hks).
  set (i := inode_at s dp) in *. destruct Hdir as [Ht Hd Hs Hmx Ha]. fold i in Ht, Hd, Hs, Ha.
  pose proof (wr_range _ _ _ _ _ _ W) as Hr. fold i in Hr. pose proof (wr_alloc _ _ _ _ _ _ W) as Hal. fold i in Hal.
  assert (rounds off 16 = 1) as Hrd.
  { unfold rounds, off, BSIZE. change (0 <? 16) with true. cbv iota.
    enough ((16 * Z.of_nat k + 16 - 1) / 1024 = 16 * Z.of_nat k / 1024) by lia.
    pose proof (Z.div_mod (Z.of_nat k) 64 ltac:(done)). pose proof (Z.mod_pos_bound (Z.of_nat k) 64 ltac:(done)).
    transitivity (Z.of_nat k / 64).
    - symmetry. apply Z.div_unique with (16 * (Z.of_nat k mod 64) + 15); lia.
    - apply Z.div_unique with (16 * (Z.of_nat k mod 64)); lia. }
  assert (forall x, 0 <= x < 16 * Z.of_nat (Nat.max N (S k)) -> mapped v i (x / BSIZE)) as Hall.
  { intros x Hx. destruct (decide (x < 16 * Z.of_nat N)); [by apply Ha; lia|]. apply Hal. unfold off. lia. }
  exists v', s'. split_and!; [done|done| |lia|done|done]. split.
  - split; rewrite ?Hi.
    + unfold grown. by case_match.
    + unfold grown. by case_match.
    + unfold grown. rewrite Z.gtb_ltb. unfold off. destruct (Z.ltb_spec (i_size i) (16 * Z.of_nat k + 16)); cbn; lia.
    + unfold off in Hr. lia.
    + intros x Hx. by apply Hmap, Hall.
  - intros j Hj. rewrite Hi. unfold entry. case_decide as Hjk.
    + subst j. unfold e. rewrite <- (mem_load_store_same (file v i) off (mem_load (k_mem s) src 16)), mem_load_length.
      apply mem_load_ext. intros x Hx. apply Hfile, Hall. lia.
    + apply mem_load_ext. intros x Hx. rewrite Hfile by (apply Hall; lia).
      apply mem_store_out. unfold off. rewrite mem_load_length. lia.
Qed.

Lemma dirlink_ok v s dp N k name inum :
  let i := inode_at s dp in
  tx R v s -> directory v s dp N -> stack_ok s -> first_free v i N k ->
  writable dev v s dp (16 * Z.of_nat k) 16 -> (forall j, (j < N)%nat -> ~ in_use name (entry v i j)) ->
  exists v' s', dirlink dp name inum s = Done 0 s' /\ tx R v' s' /\
    linked v v' s s' dp N k (new_entry inum name) /\ lh_n (k_log s') <= lh_n (k_log s) + 2 /\ stack_ok s'.
Proof using BC.
  intros i T Hdir Hst Hk W Hno. pose proof (wr_room _ _ _ _ _ _ W) as Hroom.
  pose proof (rounds_nonneg (16 * Z.of_nat k) 16) as Hrn.
  assert (quiet v) as Hq by (apply (tx_quiet R v s T); lia).
  destruct (dirlookup_ok v s dp N name (tx_R _ _ _ _ T) Hq Hdir Hst) as (s1 & HR1 & Hf1 & [(m & (Hm & Hu & _) & _)|[_ E1]]).
  { by destruct (Hno m Hm). }
  assert (stack_ok s1) as Hst1 by (apply (stack_ok_same s); [apply Hf1|apply Hf1|done]).
  destruct (local_addr_ok v s1 64 HR1 Hst1) as (de & Ede & Hde); [lia|].
  pose proof (directory_frame _ _ _ _ _ Hf1 Hdir) as Hdir1.
  assert (inode_at s1 dp = i) as Hi1 by by apply frame_inode.
  destruct (free_loop v i dp N de N (dir_fuel (16 * Z.of_nat N)) 0 s1) as (s2 & k' & HR2 & Hf2 & Hk' & E2);
    try done; try lia.
  { unfold dir_fuel, DIRENT_SIZE. rewrite Z.mul_comm, Z.div_mul by done. lia. }
  rewrite (first_free_unique _ _ _ _ _ Hk' Hk) in E2. clear k' Hk'.
  pose proof (read_frame_trans _ _ _ Hf1 Hf2) as Hf. pose proof (tx_read R ∅ v s s2 T HR2 Hf) as T2.
  unfold dirlink. erewrite bind_Done by exact E1. cbv beta iota. erewrite bind_Done by exact Ede.
  unfold geti. rewrite bind_gets, (d_size _ _ _ _ Hdir1).
  erewrite bind_Done by exact E2. unfold upd_mem. rewrite !bind_modify.
  cbn [k_mem set_k_mem]. set (m2 := mem_store _ de (le_bytes 2 inum)).
  set (s3 := set_k_mem m2 _).
  assert (settled s2 s3) as Hs3 by by apply settled_hw.
  assert (tx R v s3) as T3 by by apply (tx_ext dev R ∅ v s2).
  assert (read_frame s s3) as Hf3.
  { eapply read_frame_trans; [exact Hf|]. split; [done|]. split_and!; [done..|by apply same_stack_procs]. }
  destruct (write_entry v s3 dp N k de T3) as (v' & s' & E & T' & HL & Hn & Hs' & Hk'); try lia.
  { by eapply directory_frame. } { apply Hk. }
  { destruct Hf3 as (_ & ? & ? & ? & _). by apply (writable_ext v s). }
  exists v', s'. change DIRENT_SIZE with 16. erewrite bind_Done by exact E. change (16 =? 16) with true. cbn [negb].
  split; [done|]. split; [done|]. destruct Hf3 as (Hst3 & El3 & Hi3 & _ & Hks3). split_and!.
  - unfold linked in *. cbn [k_mem set_k_mem s3] in HL. unfold m2 in HL. rewrite fill_dirent in HL.
    assert (inode_at s3 dp = inode_at s dp) as Ei by (unfold inode_at; by rewrite Hi3). by rewrite Ei in HL.
  - by rewrite El3 in Hn.
  - apply (stack_ok_same s3); [done|done|]. by apply (stack_ok_same s).
Qed.

Lemma in_use_new nm inum name :
  0 < inum < 2 ^ 16 -> in_use nm (new_entry inum name) <-> namecmp nm name = 0.
Proof.
  intros Hin. unfold in_use. destruct (new_entry_fields inum name) as [-> ->]. rewrite u16_small, namecmp_padded by lia.
  split; [tauto|]. split; [lia|done].
Qed.

Lemma found_unique v i N nm a b : found v i N nm a -> found v i N nm b -> a = b.
Proof.
  intros (_ & H1 & H2) (_ & G1 & G2). destruct (lt_eq_lt_dec a b) as [[Hl|?]|Hl]; [|done|].
  - by destruct (G2 a Hl).
  - by destruct (H2 b Hl).
Qed.

(** C14: directories.  In an open transaction with room in the log, dirlink() of
    a name that no entry in use has, to a directory whose first free place
    [k] (or its end) is in an allocated block, returns 0 and writes the new
    entry there and no other; afterwards dirlookup() of that name ends in
    iget() of the new inode number and gives the offset of entry [k], and for
    every other name it finds the entry it found before, or none if there
    was none. *)
Theorem dirlink_dirlookup v s dp N k name inum :
  let i := inode_at s dp in
  tx R v s -> lh_n (k_log s) + 2 < Z.of_nat NBUF -> directory v s dp N -> stack_ok s ->
  first_free v i N k -> writable dev v s dp (16 * Z.of_nat k) 16 ->
  (forall j, (j < N)%nat -> ~ in_use name (entry v i j)) -> 0 < inum < 2 ^ 16 ->
  exists v' s', dirlink dp name inum s = Done 0 s' /\ tx R v' s' /\
    linked v v' s s' dp N k (new_entry inum name) /\
    (exists s'', R v' s'' /\ dirlookup dp name s' = (ip ← iget dev inum; mret (Some (ip, 16 * Z.of_nat k))) s'') /\
    (forall nm, namecmp nm name <> 0 -> exists s'', R v' s'' /\
       ((forall m, found v i N nm m ->
           dirlookup dp nm s' = (ip ← iget dev (ent_inum (entry v i m)); mret (Some (ip, 16 * Z.of_nat m))) s'') /\
        ((forall j, (j < N)%nat -> ~ in_use nm (entry v i j)) -> dirlookup dp nm s' = Done None s''))).
Proof using BC.
  intros i T Hroom Hdir Hst Hk W Hno Hin.
  destruct (dirlink_ok v s dp N k name inum T Hdir Hst Hk W Hno) as (v' & s' & E & T' & HL & Hn & Hst').
  exists v', s'. split; [done|]. split; [done|]. split; [done|]. destruct HL as [Hdir' Hent]. fold i in Hent.
  set (i' := inode_at s' dp) in *. set (N' := Nat.max N (S k)) in *.
  assert (quiet v') as Hq' by (apply (tx_quiet R v' s' T'); lia).
  assert (forall nm j, (j < N')%nat -> in_use nm (entry v' i' j) <->
    if decide (j = k) then namecmp nm name = 0 else in_use nm (entry v i j)) as Hu.
  { intros nm j Hj. rewrite (Hent j Hj). case_decide; [by apply in_use_new|done]. }
  assert (forall nm, (k < N)%nat -> ~ in_use nm (entry v i k)) as Hold.
  { intros nm Hlt [Hz _]. apply Hz. by apply (proj1 (proj2 Hk)). }
  pose proof (proj1 Hk) as HkN. split.
  - destruct (dirlookup_ok v' s' dp N' name (tx_R _ _ _ _ T') Hq' Hdir' Hst') as (s'' & HR & _ & [(m & Hm & El)|[Hnone _]]).
    + exists s''. split; [done|]. destruct Hm as (Hm & Hum & _). fold i' in Hum. rewrite Hu in Hum by done.
      case_decide as Hd; [subst m|by destruct (Hno m ltac:(lia))].
      rewrite El. fold i'. rewrite (Hent k Hm), decide_True by done. unfold get_entry.
      rewrite (proj1 (new_entry_fields inum name)), u16_small by lia. reflexivity.
    + destruct (Hnone k); [lia|]. apply Hu; [lia|]. rewrite decide_True by done. by apply namecmp_zero.
  - intros nm Hnm. pose proof (Hold nm) as Hold'.
    destruct (dirlookup_ok v' s' dp N' nm (tx_R _ _ _ _ T') Hq' Hdir' Hst') as (s'' & HR & _ & Hres).
    exists s''. split; [done|]. fold i' in Hres.
    assert (forall j, (j < N)%nat -> in_use nm (entry v' i' j) <-> in_use nm (entry v i j)) as Hsame.
    { intros j Hj. rewrite Hu by lia. case_decide; [subst j; tauto|done]. }
    assert (forall j, (j < N')%nat -> (N <= j)%nat -> ~ in_use nm (entry v' i' j)) as Hend.
    { intros j Hj Hge. rewrite Hu by done. rewrite decide_True by lia. done. }
    destruct Hres as [(m' & (Hm1 & Hm2 & Hm3) & El)|[Hnone El]].
    + assert (m' < N)%nat as Hlt by (destruct (decide (m' < N)%nat) as [|Hge]; [done|]; destruct (Hend m' Hm1 ltac:(lia) Hm2)).
      assert (found v i N nm m') as Hfm.
      { split_and!; [done|by apply Hsame|]. intros j Hj. rewrite <- Hsame by lia. by apply Hm3. }
      split.
      * intros m Hm. rewrite (found_unique _ _ _ _ _ _ Hm Hfm), El. unfold get_entry.
        rewrite (Hent m' Hm1), decide_False; [reflexivity|]. intros ->. by apply (Hold' Hlt), Hsame.
      * intros Hno'. by destruct (Hno' m'); [|apply Hsame].
    + split; [|done]. intros m (Hm1 & Hm2 & _). destruct (Hnone m); [lia|]. by apply Hsame.
Qed.
End dir.

(** ** An example: an empty directory of two entries in block 50 *)
Definition demo_dir : inode := mkInode 1 1 1 1 T_DIR 0 0 1 32 (50 :: replicate 12 0).

Lemma demo_entries s k : demo_state demo_dir s -> (k < 2)%nat -> entry (empty_view s) demo_dir k = replicate 16 0.
Proof.
  intros (_ & Hd & _) Hk. unfold entry. apply list_eq. intros j.
  destruct (decide (j < 16)%nat); [|by rewrite !lookup_ge_None_2; rewrite ?mem_load_length, ?length_replicate; try lia].
  rewrite mem_load_lookup by done. rewrite lookup_replicate_2 by done. f_equal. unfold file, BSIZE.
  rewrite Z.div_small by lia. change (fblock (empty_view s) demo_dir 0) with 50. cbn [cv_data empty_view]. rewrite Hd.
  change (k_disk idle_kst 50) with (replicate 1024 0). apply lookup_total_replicate_2. rewrite Z.mod_small by lia. lia.
Qed.

Lemma dirlink_dirlookup_witness :
  exists s v' s' s'', @dirlink built_kernel sync_disk 0 (str "README") 7 s = Done 0 s' /\ cache_ok 0 1 v' s'' /\
    @dirlookup built_kernel sync_disk 0 (str "README") s' = (ip ← iget 1 7; mret (Some (ip, 0))) s''.
Proof.
  destruct (demo_tx demo_dir) as (s & Hdemo). exists s. pose proof Hdemo as (T & _ & Hi & _ & Hl & _ & Hps & Hc).
  destruct (demo_writable demo_dir s 0 16 Hdemo) as [W Hi0]; [done..|cbn; lia|cbn; lia|lia|lia|].
  assert (forall j, (j < 2)%nat -> ent_inum (entry (empty_view s) demo_dir j) = 0) as He
    by (intros j Hj; rewrite demo_entries; done).
  destruct (@dirlink_dirlookup built_kernel sync_disk 1 (cache_ok 0 1) (cache_laws (SYNC := sync_disk_sync) 0 1)
    (empty_view s) s 0 2 0 (str "README") 7 T) as (v' & s' & E & _ & _ & (s'' & HR & E') & _).
  - rewrite Hl. vm_compute. reflexivity.
  - split; rewrite ?Hi0; try done. intros x Hx.
    replace (x / BSIZE) with (0 / BSIZE) by (symmetry; unfold BSIZE; rewrite !Z.div_small; lia).
    pose proof (wr_alloc _ _ _ _ _ _ W 0 ltac:(lia)) as H. by rewrite Hi0 in H.
  - intros j Hj. rewrite Hc in Hj. injection Hj as <-. unfold proc_at. rewrite Hps. vm_compute. split; [discriminate|reflexivity].
  - rewrite Hi0. split; [lia|]. split; [intros _; apply He; lia|lia].
  - exact W.
  - intros j Hj [Hu _]. rewrite Hi0 in Hu. by rewrite He in Hu.
  - lia.
  - exists v', s', s''. split; [exact E|]. split; [exact HR|exact E'].
Defined.
