(* ===== verification/Console.v ===== *)
(** * Console: line input, and output through UART interrupts

    kernel/console.c, the interrupt side of kernel/uart.c (uartwrite,
    uartintr) and procdump() of kernel/proc.c, which ^P calls. *)

From S2P Require Import Prelude Params Ring Machine Spinlock Strings Kalloc Uart Printk Sched Vm.

Definition INPUT_BUF_SIZE : Z := 128.
(** Control-x: [C(x)] is [x - '@']. *)
Definition Ctl (x : Z) : Z := x - 64.
Definition CTL_D : Z := Ctl 68.
Definition CTL_H : Z := Ctl 72.
Definition CTL_P : Z := Ctl 80.
Definition CTL_U : Z := Ctl 85.
Definition DEL : Z := 0x7f.
Definition NL : Z := 10.
Definition CR : Z := 13.

Definition upd_cons (f : cons -> cons) : K unit := modify (fun s => set_k_cons (f (k_cons s)) s).
Definition getcons : K cons := gets k_cons.
(** [cons.buf[i % INPUT_BUF_SIZE]] *)
Definition cons_slot (i : Z) : nat := slot INPUT_BUF_SIZE i.
Definition cons_at (c : cons) (i : Z) : Z := cons_buf c !!! cons_slot i.

(** ** kernel/uart.c: uartwrite *)
Definition uartwrite (buf : list Z) (n : Z) : K unit :=
  acquire LK_tx ;;
  foreach_ (take (Z.to_nat n) buf) (fun c =>
    loop SLEEP_FUEL (fun _ =>
      u ← gets k_uart;
      if negb (u_tx_busy u =? 0) then
        (* wait for a UART transmit-complete interrupt to set tx_busy to 0. *)
        sleep CH_tx LK_tx ;;
        mret (inl tt)
      else mret (inr tt)) tt ;;
    write_THR c ;;
    upd_uart (set_u_tx_busy 1)) ;;
  release LK_tx.

(** ** kernel/proc.c: procdump *)
Definition state_name (st : procstate) : list Z :=
  match st with
  | UNUSED => str "unused" | USED => str "used" | SLEEPING => str "sleep "
  | RUNNABLE => str "runble" | RUNNING => str "run   " | ZOMBIE => str "zombie"
  end.

Definition procdump : K unit :=
  printk [NL] [] ;;
  foreach_ (seq 0 NPROC) (fun i =>
    p ← getp i;
    if decide (p_state p = UNUSED) then mret tt else
    printk (str "%d %s %s") [AInt (p_pid p); AStr (Some (state_name (p_state p))); AStr (Some (p_name p))] ;;
    printk [NL] [] ;;
    mret tt).

(** ** kernel/console.c *)
Section console.
Context {SYM : Symbols}.

(** Batches of [sizeof(buf)] = 32 bytes. *)
Definition consolewrite (user_src : bool) (src n : Z) : K Z :=
  loop (S (Z.to_nat n)) (fun i =>
    if negb (i <? n) then mret (inr i) else
    let nn := if 32 >? n - i then n - i else 32 in
    c ← either_copyin user_src (u64 (src + i)) nn;
    if c.1 =? -1 then mret (inr i) else
    uartwrite c.2 nn ;;
    mret (inl (i + nn))) 0.

(** [inr false] when the reader has been killed. *)
Definition wait_input : K bool :=
  loop SLEEP_FUEL (fun _ =>
    c ← getcons;
    if negb (cons_r c =? cons_w c) then mret (inr true) else
    p ← curproc;
    k ← killed p;
    if truthy k then
      release LK_cons ;;
      mret (inr false)
    else
      sleep CH_cons_r LK_cons ;;
      mret (inl tt)) tt.

Definition consoleread (user_dst : bool) (dst n : Z) : K Z :=
  let target := u32 n in
  acquire LK_cons ;;
  r ← loop (S (Z.to_nat n)) (fun '(dst, n) =>
    if negb (n >? 0) then mret (inr (Some n)) else
    (* wait until interrupt handler has put some input into cons.buffer. *)
    ok ← wait_input;
    if negb ok then mret (inr None) else
    cn ← getcons;
    let c := cons_at cn (cons_r cn) in
    upd_cons (set_cons_r (u32 (cons_r cn + 1))) ;;
    if c =? CTL_D then (* end-of-file *)
      (* Save ^D for next time, to make sure caller gets a 0-byte result. *)
      when (n <? target) (upd_cons (fun x => set_cons_r (u32 (cons_r x - 1)) x)) ;;
      mret (inr (Some n))
    else
    (* copy the input byte to the user-space buffer. *)
    e ← either_copyout user_dst dst [c];
    if e =? -1 then mret (inr (Some n)) else
    let n := n - 1 in
    if c =? NL then mret (inr (Some n)) (* a whole line has arrived *)
    else mret (inl (u64 (dst + 1), n))) (dst, n);
  match r with
  | None => mret (-1)
  | Some n =>
      release LK_cons ;;
      mret (s32 (target - n))
  end.

(** The erase loop of ^U removes at most what lies between [w] and [e]. *)
Definition kill_line_round : unit -> K (unit + unit) := fun _ =>
  c ← getcons;
  if negb (cons_e c =? cons_w c) && negb (cons_at c (u32 (cons_e c - 1)) =? NL) then
    upd_cons (set_cons_e (u32 (cons_e c - 1))) ;;
    consputc BACKSPACE ;;
    mret (inl tt)
  else mret (inr tt).

Definition kill_line : K unit :=
  c ← getcons;
  loop (S (Z.to_nat (u32 (cons_e c - cons_w c)))) kill_line_round tt.

Definition erase_char : K unit :=
  c ← getcons;
  when (negb (cons_e c =? cons_w c))
    (upd_cons (set_cons_e (u32 (cons_e c - 1))) ;;
     consputc BACKSPACE).

Definition type_char (c : Z) : K unit :=
  cn ← getcons;
  when (negb (c =? 0) && (u32 (cons_e cn - cons_r cn) <? INPUT_BUF_SIZE))
    (let c := if c =? CR then NL else c in
     (* echo back to the user. *)
     consputc c ;;
     (* store for consumption by consoleread(). *)
     cn ← getcons;
     upd_cons (fun x => set_cons_e (u32 (cons_e x + 1))
                          (set_cons_buf (<[cons_slot (cons_e cn) := u8 c]> (cons_buf x)) x)) ;;
     cn ← getcons;
     when ((c =? NL) || (c =? CTL_D) || (u32 (cons_e cn - cons_r cn) =? INPUT_BUF_SIZE))
       (* wake up consoleread() if a whole line (or end-of-file) has arrived. *)
       (upd_cons (set_cons_w (cons_e cn)) ;;
        wakeup CH_cons_r)).

Definition consoleintr (c : Z) : K unit :=
  acquire LK_cons ;;
  (if c =? CTL_P then procdump
   else if c =? CTL_U then kill_line
   else if (c =? CTL_H) || (c =? DEL) then erase_char
   else type_char c) ;;
  release LK_cons.

Definition consoleinit : K unit :=
  initlock LK_cons "cons" ;;
  uartinit ;;
  modify (fun s => set_k_devsw (<[Z.to_nat CONSOLE := Some DEV_console]> (k_devsw s)) s).

(** ** kernel/uart.c: uartintr *)
Definition uartintr : K unit :=
  acquire LK_tx ;;
  v ← read_LSR;
  when (truthy (Z.land v LSR_TX_IDLE))
    (* UART finished transmitting; wake up sending thread. *)
    (upd_uart (set_u_tx_busy 0) ;;
     wakeup CH_tx) ;;
  release LK_tx ;;
  (* read and process incoming characters, if any. *)
  fuel ← gets (fun s => S (length (u_rx (k_uart s))));
  loop fuel (fun _ =>
    c ← uartgetc;
    if c =? -1 then mret (inr tt) else
    consoleintr c ;;
    mret (inl tt)) tt.
End console.

(** ** Line editing as a function on the pending input

    [ready] is what a reader may take (whole lines, or a full buffer) and
    [line] the line being typed. *)
Definition cons_holds (c : cons) (ready line : list Z) : Prop :=
  ring INPUT_BUF_SIZE (cons_buf c) (cons_r c) (cons_e c) (ready ++ line)
  /\ cons_w c = u32 (cons_r c + Z.of_nat (length ready)) /\ NL ∉ line.

Definition RUBOUT : list Z := [8; 32; 8].

(** The input after character [c]: echo, [ready], [line], and whether the
    reader is woken. *)
Definition edit (c : Z) (ready line : list Z) : list Z * list Z * list Z * bool :=
  if c =? CTL_U then (mjoin (replicate (length line) RUBOUT), ready, [], false)
  else if (c =? CTL_H) || (c =? DEL) then
    if bool_decide (line = []) then ([], ready, line, false)
    else (RUBOUT, ready, removelast line, false)
  else if (c =? 0) || (Z.of_nat (length (ready ++ line)) =? INPUT_BUF_SIZE) then ([], ready, line, false)
  else
    let c := if c =? CR then NL else c in
    if (c =? NL) || (c =? CTL_D) || (Z.of_nat (length (ready ++ line)) + 1 =? INPUT_BUF_SIZE)
    then ([c], (ready ++ line) ++ [c], [], true)
    else ([c], ready, line ++ [c], false).

Definition edited (c : Z) (ready line : list Z) (s s' : kst) : Prop :=
  let '(echo, ready', line', wake) := edit c ready line in
  cons_holds (k_cons s') ready' line'
  /\ u_out (k_uart s') = u_out (k_uart s) ++ echo
  /\ k_procs s' = (if wake : bool then woken CH_cons_r s else k_procs s)
  /\ hw s' = hw s.

Lemma INPUT_ring : 0 < INPUT_BUF_SIZE < 2 ^ 32 /\ (INPUT_BUF_SIZE | 2 ^ 32).
Proof. split; [done|]. by exists (2 ^ 25). Qed.

(** The tests on the indices. *)
Lemma cons_e_w c ready line :
  cons_holds c ready line ->
  (cons_e c =? cons_w c) = bool_decide (line = [])
  /\ u32 (cons_e c - cons_w c) = Z.of_nat (length line).
Proof.
  intros (Hr & Hw & _). pose proof (ring_cap _ _ _ _ _ Hr) as Hc. pose proof (ring_e _ _ _ _ _ Hr) as He.
  rewrite length_app in *. unfold INPUT_BUF_SIZE in Hc.
  assert (u32 (cons_e c - cons_w c) = Z.of_nat (length line)) as Hk.
  { rewrite He, Hw, u32_sub_l. unfold u32, wrap_u. rewrite Zminus_mod_idemp_r.
    rewrite Z.mod_small; lia. }
  split; [|exact Hk]. case_bool_decide as Hl.
  - apply Z.eqb_eq. rewrite He, Hw, Hl. cbn. do 2 f_equal. lia.
  - apply Z.eqb_neq. intros E. rewrite E, Z.sub_diag in Hk. destruct line; [done|]. cbn in Hk.
    change (u32 0) with 0 in Hk. lia.
Qed.

Lemma cons_drop_last c ready line x :
  cons_holds c ready (line ++ [x]) ->
  cons_at c (u32 (cons_e c - 1)) = x
  /\ cons_holds (set_cons_e (u32 (cons_e c - 1)) c) ready line.
Proof.
  intros (Hr & Hw & Hnl). rewrite app_assoc in Hr.
  destruct (ring_drop INPUT_BUF_SIZE (proj1 INPUT_ring) (proj2 INPUT_ring) _ _ _ _ _ Hr) as [Hx Hr'].
  split; [exact Hx|]. split; [exact Hr'|]. split; [exact Hw|]. set_solver.
Qed.

Section editing.
Context {SYM : Symbols}.

Lemma erase_char_edits c ready line s :
  printing_ok s -> 0 < c_noff (k_cpu s) -> cons_holds (k_cons s) ready line ->
  c = CTL_H \/ c = DEL ->
  exists s', erase_char s = Done tt s' /\ edited c ready line s s'.
Proof.
  intros Hok Hn Hh Hc. unfold erase_char, getcons. rewrite bind_gets.
  destruct (cons_e_w _ _ _ Hh) as [Hew _]. rewrite Hew.
  assert (edit c ready line = if bool_decide (line = []) then ([], ready, line, false)
    else (RUBOUT, ready, removelast line, false)) as He by (by destruct Hc as [->| ->]).
  unfold edited. rewrite He. clear He. destruct (decide (line = [])) as [->|Hl].
  - rewrite bool_decide_true by done. exists s. cbn. rewrite app_nil_r. done.
  - rewrite bool_decide_false by done. cbn [negb when].
    destruct (exists_last Hl) as (l0 & x & ->). rewrite removelast_last.
    destruct (cons_drop_last _ _ _ _ Hh) as [_ Hd].
    unfold upd_cons. rewrite bind_modify. set (s1 := set_k_cons _ s).
    rewrite consputc_locked by done.
    destruct (sent_all_uart (cons_bytes BACKSPACE) s1) as (u & -> & Ho & _).
    eexists. split; [reflexivity|]. cbn. rewrite Ho. done.
Qed.

Lemma kill_line_loop fuel ready line s :
  (length line < fuel)%nat ->
  printing_ok s -> 0 < c_noff (k_cpu s) -> cons_holds (k_cons s) ready line ->
  exists s', loop fuel kill_line_round tt s = Done tt s'
    /\ cons_holds (k_cons s') ready []
    /\ u_out (k_uart s') = u_out (k_uart s) ++ mjoin (replicate (length line) RUBOUT)
    /\ k_procs s' = k_procs s /\ hw s' = hw s.
Proof.
  revert line s. induction fuel as [|fuel IH]; intros line s Hf Hok Hn Hh; [lia|].
  destruct (cons_e_w _ _ _ Hh) as [Hew _].
  destruct (decide (line = [])) as [->|Hl].
  - exists s. split; [|cbn; by rewrite app_nil_r]. apply loop_done; [lia|].
    unfold kill_line_round, getcons. rewrite bind_gets, Hew. done.
  - destruct (exists_last Hl) as (l0 & x & ->).
    destruct (cons_drop_last _ _ _ _ Hh) as [Hx Hd].
    assert (x <> NL) as Hnl by (destruct Hh as (_ & _ & Hnl); set_solver).
    set (s1 := set_k_cons (set_cons_e (u32 (cons_e (k_cons s) - 1)) (k_cons s)) s).
    destruct (sent_all_uart (cons_bytes BACKSPACE) s1) as (u & E & Ho & _).
    erewrite loop_next.
    2:{ unfold kill_line_round, getcons. rewrite bind_gets, Hew, Hx.
        rewrite bool_decide_false by done. destruct (Z.eqb_spec x NL); [done|]. cbn [negb andb].
        unfold upd_cons. rewrite bind_modify. fold s1.
        erewrite bind_Done by by apply consputc_locked. rewrite E. reflexivity. }
    rewrite length_app in Hf. cbn in Hf.
    destruct (IH l0 (set_k_uart u s1)) as (s' & Hrun & Hh' & Ho' & Hp & Hhw); [lia|done|done|exact Hd|].
    exists s'. split; [exact Hrun|]. split; [done|]. split; [|done].
    rewrite Ho'. cbn [k_uart set_k_uart]. rewrite Ho, <- app_assoc. f_equal.
    rewrite length_app, Nat.add_comm. done.
Qed.

Lemma kill_line_edits ready line s :
  printing_ok s -> 0 < c_noff (k_cpu s) -> cons_holds (k_cons s) ready line ->
  exists s', kill_line s = Done tt s' /\ edited CTL_U ready line s s'.
Proof.
  intros Hok Hn Hh. unfold kill_line, getcons. rewrite bind_gets.
  destruct (cons_e_w _ _ _ Hh) as [_ ->]. rewrite Nat2Z.id.
  by apply kill_line_loop; [lia|..].
Qed.

(** Storing a typed character and committing the line. *)
Lemma cons_type c ready line x :
  cons_holds c ready line -> Z.of_nat (length (ready ++ line)) < INPUT_BUF_SIZE ->
  let c1 := set_cons_e (u32 (cons_e c + 1)) (set_cons_buf (<[cons_slot (cons_e c) := x]> (cons_buf c)) c) in
  u32 (cons_e c1 - cons_r c1) = Z.of_nat (length (ready ++ line)) + 1
  /\ (x <> NL -> cons_holds c1 ready (line ++ [x]))
  /\ cons_holds (set_cons_w (cons_e c1) c1) ((ready ++ line) ++ [x]) [].
Proof.
  intros (Hr & Hw & Hnl) Hlen c1. destruct INPUT_ring as [Hpos Hdiv].
  pose proof (ring_push INPUT_BUF_SIZE Hpos Hdiv _ _ _ _ x Hr Hlen) as Hr1.
  fold (cons_slot (cons_e c)) in Hr1. split_and!.
  - etransitivity; [exact (ring_count INPUT_BUF_SIZE Hpos _ _ _ _ Hr1)|]. rewrite length_app. cbn. lia.
  - intros Hx. split; [by rewrite app_assoc|]. split; [exact Hw|]. set_solver.
  - split; [by rewrite app_nil_r|]. split; [|set_solver].
    exact (ring_e _ _ _ _ _ Hr1).
Qed.

Lemma type_char_edits c ready line s :
  printing_ok s -> 0 < c_noff (k_cpu s) -> procs_free s -> cons_holds (k_cons s) ready line ->
  0 <= c < 256 -> c <> CTL_U -> c <> CTL_H -> c <> DEL ->
  exists s', type_char c s = Done tt s' /\ edited c ready line s s'.
Proof.
  intros Hok Hn Hpf Hh Hc H1 H2 H3. destruct INPUT_ring as [Hpos Hdiv].
  unfold type_char, getcons. rewrite bind_gets.
  rewrite (ring_count INPUT_BUF_SIZE Hpos _ _ _ _ (proj1 Hh)).
  pose proof (ring_cap _ _ _ _ _ (proj1 Hh)) as Hcap.
  unfold edited, edit. rewrite (proj2 (Z.eqb_neq c CTL_U)), (proj2 (Z.eqb_neq c CTL_H)),
    (proj2 (Z.eqb_neq c DEL)) by done. cbn [orb].
  destruct (Z.eqb_spec c 0) as [->|Hz]; [exists s; cbn; by rewrite app_nil_r|]. cbn [negb andb orb].
  destruct (Z.eqb_spec (Z.of_nat (length (ready ++ line))) INPUT_BUF_SIZE) as [Hfull|Hroom].
  { rewrite Hfull, Z.ltb_irrefl. exists s. cbn. by rewrite app_nil_r. }
  destruct (Z.ltb_spec (Z.of_nat (length (ready ++ line))) INPUT_BUF_SIZE); [|lia].
  cbn [when]. cbv zeta. set (x := if c =? CR then NL else c).
  assert (0 <= x < 256) as Hx by (unfold x; destruct (c =? CR); [unfold NL; lia|lia]).
  destruct (sent_all_uart (cons_bytes x) s) as (u & E & Ho & _).
  assert (cons_bytes x = [x]) as Ex.
  { unfold cons_bytes, BACKSPACE. destruct (Z.eqb_spec x 0x100); [lia|done]. }
  erewrite bind_Done by by apply consputc_locked. rewrite E, bind_gets.
  rewrite Ex in Ho. cbn [map] in Ho. rewrite (u8_small x) in * by lia.
  destruct (cons_type _ _ _ x Hh) as (Hcnt & Hsame & Hcommit); [lia|]. cbv zeta in Hcnt.
  unfold upd_cons. rewrite bind_modify, bind_gets.
  cbn [k_cons set_k_cons set_k_uart cons_e cons_r set_cons_e set_cons_buf] in *. rewrite Hcnt.
  destruct (Z.eqb_spec x NL) as [Enl|Enl].
  2: destruct (Z.eqb_spec x CTL_D) as [Ed|Ed].
  3: destruct (Z.eqb_spec (Z.of_nat (length (ready ++ line)) + 1) INPUT_BUF_SIZE) as [Ef|Ef].
  4:{ eexists. split; [reflexivity|]. cbn. split; [by apply Hsame|]. by rewrite Ho. }
  all: cbn [orb when]; rewrite bind_modify, wakeup_eq by exact Hpf;
    rewrite touch_nested by exact Hn; eexists; split; [reflexivity|];
    (split; [exact Hcommit|]); (split; [exact Ho|]); (split; [by apply woken_ext|reflexivity]).
Qed.

(** C28: console line editing.  With [ready] the input a reader may take and
    [line] the line being typed, consoleintr() implements [edit]: ^U erases
    the line, ^H and DEL its last character, any other character is echoed
    and appended (a carriage return as newline) unless the buffer is full,
    and a newline, ^D or a full buffer hands the line over and wakes exactly
    the readers.  The echo is what [edit] says, the 32-bit indices may wrap,
    and the locking state is restored. *)
Theorem consoleintr_edits c ready line s :
  procs_free s -> c_noff (k_cpu s) = 0 -> lock_free LK_cons s ->
  k_panicking s = 0 -> k_panicked s = 0 ->
  cons_holds (k_cons s) ready line -> 0 <= c < 256 -> c <> CTL_P ->
  exists s', consoleintr c s = Done tt s' /\ edited c ready line (touch s) s'.
Proof.
  intros Hpf Hn Hf Hp1 Hp2 Hh Hc HP. pose proof Hpf as (Hok & _). unfold consoleintr.
  erewrite bind_Done by by apply acquire_eq.
  set (s1 := acquired LK_cons s).
  assert (procs_free s1) as Hpf1 by (apply procs_free_acquired; [done|done|by intros (j & _ & ?)]).
  assert (0 < c_noff (k_cpu s1)) as Hn1 by (cbn; lia).
  assert (printing_ok s1) as Hok1 by (split; [apply Hpf1|done]).
  assert (exists s2, (if c =? CTL_P then procdump else if c =? CTL_U then kill_line
    else if (c =? CTL_H) || (c =? DEL) then erase_char else type_char c) s1 = Done tt s2
    /\ edited c ready line s1 s2) as (s2 & Hrun & Hed).
  { destruct (Z.eqb_spec c CTL_P); [done|].
    destruct (Z.eqb_spec c CTL_U) as [->|]; [by apply kill_line_edits|].
    destruct (Z.eqb_spec c CTL_H); [by apply erase_char_edits; auto|].
    destruct (Z.eqb_spec c DEL); [by apply erase_char_edits; auto|]. by apply type_char_edits. }
  erewrite bind_Done by exact Hrun. unfold edited in *.
  destruct (edit c ready line) as [[[echo ready'] line'] wake].
  destruct Hed as (H1 & H2 & H3 & H4).
  rewrite (release_section LK_cons s) by done. eexists. split; [reflexivity|].
  split; [exact H1|]. split; [exact H2|]. split; [|reflexivity].
  cbn. rewrite H3. destruct wake; [|done]. apply woken_ext; [done|].
  symmetry. exact (hw_touch_proc s).
Qed.
End editing.

(** Three characters typed, and a line kill. *)
Lemma consoleintr_edits_witness :
  exists s', consoleintr CTL_U
      (set_k_cons (mkCons (<[127%nat := 97]> (<[0%nat := 98]> (replicate 128 0)))
                     (2 ^ 32 - 1) (2 ^ 32 - 1) 1) idle_kst) = Done tt s'
    /\ u_out (k_uart s') = [8; 32; 8; 8; 32; 8].
Proof.
  destruct (consoleintr_edits CTL_U [] [97; 98]
    (set_k_cons (mkCons (<[127%nat := 97]> (<[0%nat := 98]> (replicate 128 0)))
                   (2 ^ 32 - 1) (2 ^ 32 - 1) 1) idle_kst)) as (s' & H & _ & Ho & _).
  - exact idle_procs_free.
  - reflexivity.
  - by eexists.
  - reflexivity.
  - reflexivity.
  - split; [|split; [reflexivity|by vm_compute; set_solver]].
    split; [split; [discriminate|reflexivity]|reflexivity|vm_compute; discriminate|reflexivity|].
    intros [|[|i]] d Hi; try done; injection Hi as <-; reflexivity.
  - split; [discriminate|reflexivity].
  - discriminate.
  - exists s'. split; [exact H|exact Ho].
Defined.
