(* ===== verification/Pipe.v ===== *)
(** * Pipe: the bounded buffer of kernel/pipe.c

    A [struct pipe] is identified by the address of the page it occupies. *)

From S2P Require Import Prelude Params Ring Machine Spinlock Strings Kalloc Sched Vm.

Definition PIPESIZE : Z := 512.

Definition pipe_zero : pipe := mkPipe (replicate 512 0) 0 0 0 0.
Definition pipe_at (s : kst) (pi : Z) : pipe := default pipe_zero (k_pipes s !! pi).
Definition getpipe (pi : Z) : K pipe := gets (fun s => pipe_at s pi).
Definition updpipe (pi : Z) (f : pipe -> pipe) : K unit :=
  modify (fun s => set_k_pipes (<[pi := f (pipe_at s pi)]> (k_pipes s)) s).

(** [pi->data[pi->nwrite++ % PIPESIZE] = ch] and [pi->data[pi->nread % PIPESIZE]] *)
Definition pipe_slot (i : Z) : nat := slot PIPESIZE i.
Definition pipe_put (ch : Z) (p : pipe) : pipe :=
  set_pi_nwrite (u32 (pi_nwrite p + 1))
    (set_pi_data (<[pipe_slot (pi_nwrite p) := ch]> (pi_data p)) p).
Definition pipe_front (p : pipe) : Z := pi_data p !!! pipe_slot (pi_nread p).
Definition pipe_pop (p : pipe) : pipe := set_pi_nread (u32 (pi_nread p + 1)) p.
Definition pipe_full (p : pipe) : bool := pi_nwrite p =? u32 (pi_nread p + PIPESIZE).
Definition pipe_empty (p : pipe) : bool := pi_nread p =? pi_nwrite p.

Section pipe.
Context {SYM : Symbols}.

Definition pipeclose (pi : Z) (writable : bool) : K unit :=
  acquire (LK_pipe pi) ;;
  (if writable then
     updpipe pi (set_pi_writeopen 0) ;;
     wakeup (CH_pipe_nread pi)
   else
     updpipe pi (set_pi_readopen 0) ;;
     wakeup (CH_pipe_nwrite pi)) ;;
  p ← getpipe pi;
  if (pi_readopen p =? 0) && (pi_writeopen p =? 0) then
    release (LK_pipe pi) ;;
    modify (fun s => set_k_pipes (delete pi (k_pipes s)) s) ;;
    kfree pi
  else release (LK_pipe pi).

(** Each round writes a byte, waits once, or leaves the loop. *)
Definition pipewrite_body (pr : nat) (pi addr n i : Z) : K (Z + option Z) :=
  if negb (i <? n) then mret (inr (Some i)) else
  p ← getpipe pi;
  stop ← (if pi_readopen p =? 0 then mret true else k ← killed pr; mret (truthy k));
  if stop : bool then
    release (LK_pipe pi) ;;
    mret (inr None)
  else
  p ← getpipe pi;
  if pipe_full p then
    wakeup (CH_pipe_nread pi) ;;
    sleep (CH_pipe_nwrite pi) (LK_pipe pi) ;;
    mret (inl i)
  else
  pp ← getp pr;
  c ← copyin (p_pagetable pp) (u64 (addr + i)) 1;
  if c.1 =? -1 then mret (inr (Some i)) else
  updpipe pi (pipe_put (hd0 c.2)) ;;
  mret (inl (i + 1)).

Definition pipewrite (pi addr n : Z) : K Z :=
  pr ← curproc;
  acquire (LK_pipe pi) ;;
  r ← loop (S (Z.to_nat n) + SLEEP_FUEL) (pipewrite_body pr pi addr n) 0;
  match r with
  | None => mret (-1)
  | Some i =>
      wakeup (CH_pipe_nread pi) ;;
      release (LK_pipe pi) ;;
      mret i
  end.

(** The copying loop of piperead(), from byte [i] on with [k] rounds left. *)
Fixpoint piperead_copy (k : nat) (pi pagetable addr i : Z) : K Z :=
  match k with
  | O => mret i
  | S k' =>
      p ← getpipe pi;
      if pipe_empty p then mret i else
      let ch := pipe_front p in
      c ← copyout pagetable (u64 (addr + i)) [ch];
      if c =? -1 then mret (if i =? 0 then -1 else i) else
      updpipe pi pipe_pop ;;
      piperead_copy k' pi pagetable addr (i + 1)
  end.

(** Waiting for data: [false] when the reader has been killed. *)
Definition piperead_wait (pr : nat) (pi : Z) : K bool :=
  loop SLEEP_FUEL (fun _ =>
    p ← getpipe pi;
    if negb (pipe_empty p && truthy (pi_writeopen p)) then mret (inr true) else
    k ← killed pr;
    if truthy k then
      release (LK_pipe pi) ;;
      mret (inr false)
    else
      sleep (CH_pipe_nread pi) (LK_pipe pi) ;;
      mret (inl tt)) tt.

Definition piperead (pi addr n : Z) : K Z :=
  pr ← curproc;
  acquire (LK_pipe pi) ;;
  ok ← piperead_wait pr pi;
  if negb ok then mret (-1) else
  pp ← getp pr;
  i ← piperead_copy (Z.to_nat n) pi (p_pagetable pp) addr 0;
  wakeup (CH_pipe_nwrite pi) ;;
  release (LK_pipe pi) ;;
  mret i.
End pipe.

(** ** The pipe as a queue *)

(** The bytes written and not yet read, oldest first. *)
Definition pipe_holds (p : pipe) (q : list Z) : Prop :=
  ring PIPESIZE (pi_data p) (pi_nread p) (pi_nwrite p) q.

Lemma PIPESIZE_ring : 0 < PIPESIZE < 2 ^ 32 /\ (PIPESIZE | 2 ^ 32).
Proof. split; [done|]. by exists (2 ^ 23). Qed.

Lemma pipe_put_holds p q c :
  pipe_holds p q -> Z.of_nat (length q) < PIPESIZE -> pipe_holds (pipe_put c p) (q ++ [c]).
Proof. intros H Hl. by apply (ring_push PIPESIZE); [apply PIPESIZE_ring..| |]. Qed.

Lemma pipe_pop_holds p q c :
  pipe_holds p (c :: q) -> pipe_front p = c /\ pipe_holds (pipe_pop p) q.
Proof. intros H. by apply (ring_pop PIPESIZE); [apply PIPESIZE_ring..|]. Qed.

Lemma pipe_full_holds p q :
  pipe_holds p q -> pipe_full p = (Z.of_nat (length q) =? PIPESIZE).
Proof. intros H. by apply (ring_full PIPESIZE) with (buf := pi_data p); [apply PIPESIZE_ring..|]. Qed.

Lemma pipe_empty_holds p q : pipe_holds p q -> pipe_empty p = bool_decide (q = []).
Proof. intros H. by apply (ring_empty PIPESIZE) with (buf := pi_data p); [apply PIPESIZE_ring..|]. Qed.

Section fifo.
Context {SYM : Symbols}.

Lemma pipe_at_upd pi f s :
  pipe_at (set_k_pipes (<[pi := f (pipe_at s pi)]> (k_pipes s)) s) pi = f (pipe_at s pi).
Proof. unfold pipe_at. cbn. by rewrite lookup_insert_eq. Qed.

(** A process about to use a pipe: it is the current one, it holds no lock,
    and the locks it needs are free. *)
Record pipe_user (i : nat) (pi : Z) (s : kst) : Prop := {
  pu_proc : c_proc (k_cpu s) = Some i;
  pu_slot : (i < NPROC)%nat;
  pu_noff : c_noff (k_cpu s) = 0;
  pu_free : procs_free s;
  pu_lock : lock_free (LK_pipe pi) s
}.

(** The state inside the critical section, with a pipe table and a memory. *)
Definition in_pipe (pi : Z) (s : kst) (ps : gmap Z pipe) (m : mem) : kst :=
  set_k_pipes ps (set_k_mem m (acquired (LK_pipe pi) (touch s))).

Lemma in_pipe_free i pi s ps m : pipe_user i pi s -> procs_free (in_pipe pi s ps m).
Proof.
  intros [Hp Hi Hn Hf Hl].
  assert (procs_free (acquired (LK_pipe pi) (touch s))) as (H1 & H2 & H3); [|done].
  apply procs_free_acquired.
  - eapply can_lock_hw; [reflexivity|done].
  - cbn. unfold touch_cpu. by rewrite Hn.
  - by intros (j & _ & ?).
Qed.

Lemma in_pipe_touch i pi s ps m : pipe_user i pi s -> touch (in_pipe pi s ps m) = in_pipe pi s ps m.
Proof.
  intros [Hp Hi Hn Hf Hl]. apply touch_nested. cbn. unfold touch_cpu.
  case_match; cbn; lia.
Qed.

Lemma in_pipe_enter i pi s :
  pipe_user i pi s ->
  (forall A (f : nat -> K A), (pr ← curproc; acquire (LK_pipe pi) ;; f pr) s
     = f i (in_pipe pi s (k_pipes s) (k_mem s))).
Proof.
  intros [Hp Hi Hn Hf Hl] A f. pose proof Hf as (Hok & _).
  erewrite bind_Done by (apply curproc_eq; [exact Hok|exact Hp]).
  erewrite bind_Done by (apply acquire_eq; [by apply cpu_ok_touch|exact Hl]).
  reflexivity.
Qed.

(** The common exit: wake the other side, release the lock. *)
Lemma in_pipe_leave {A} i pi chan (a : A) s ps m :
  pipe_user i pi s ->
  (wakeup chan ;; release (LK_pipe pi) ;; mret a) (in_pipe pi s ps m)
  = Done a (set_k_procs (woken chan s) (set_k_pipes ps (set_k_mem m (touch s)))).
Proof.
  intros Hu. pose proof Hu as [Hp Hi Hn Hf Hl]. pose proof Hf as (Hok & _).
  erewrite bind_Done by (apply wakeup_eq; by apply (in_pipe_free i)).
  rewrite (in_pipe_touch i) by done.
  erewrite bind_Done
    by (apply (release_section (LK_pipe pi) (touch s)); [by apply cpu_ok_touch|exact Hl|reflexivity]).
  rewrite touch_touch.
  assert (woken chan (in_pipe pi s ps m) = woken chan s) as ->.
  { apply woken_ext; [done|]. exact (hw_touch_proc s). }
  generalize (woken chan s). intros w. clear. by destruct s.
Qed.

(** One byte written. *)
Lemma pipewrite_round i pi addr n k s ps q :
  pipe_user i pi s ->
  let sp := in_pipe pi s ps (k_mem s) in
  let pt := p_pagetable (proc_at s i) in
  pipe_holds (pipe_at sp pi) q -> Z.of_nat (length q) < PIPESIZE ->
  pi_readopen (pipe_at sp pi) <> 0 -> p_killed (proc_at s i) = 0 ->
  0 <= k < n -> 0 <= addr -> addr + n <= MAXVA -> mapped (k_mem s) pt (addr + k) ->
  exists c, user_bytes (k_mem s) pt (addr + k) 1 = [c] /\
  pipewrite_body i pi addr n k sp
    = Done (inl (k + 1)) (in_pipe pi s (<[pi := pipe_put c (pipe_at sp pi)]> ps) (k_mem s)).
Proof.
  intros Hu sp pt Hq Hlen Hro Hk Hkn Ha Hmax Hm.
  destruct (user_bytes (k_mem s) pt (addr + k) 1) as [|c [|? ?]] eqn:Hc;
    pose proof (user_bytes_length (k_mem s) pt (addr + k) 1) as Hl; rewrite Hc in Hl; try done.
  exists c. split; [done|]. unfold pipewrite_body.
  destruct (Z.ltb_spec k n); [|lia]. cbn [negb]. unfold getpipe, getp. rewrite bind_gets.
  destruct (Z.eqb_spec (pi_readopen (pipe_at sp pi)) 0); [done|].
  erewrite bind_assoc.
  2:{ apply killed_eq. destruct (in_pipe_free i pi s ps (k_mem s) Hu) as (H1 & H2 & H3).
      split; [done|]. split; [done|]. intros l <-. apply H3. exists i. split; [apply Hu|done]. }
  unfold sp at 2. rewrite (in_pipe_touch i) by done. fold sp. rewrite bind_ret.
  change (proc_at sp i) with (proc_at s i). rewrite Hk. change (truthy 0) with false. cbv iota.
  rewrite bind_gets, (pipe_full_holds _ q Hq). destruct (Z.eqb_spec (Z.of_nat (length q)) PIPESIZE); [lia|].
  rewrite bind_gets. change (proc_at sp i) with (proc_at s i). fold pt.
  rewrite u64_small by (change MAXVA with (2 ^ 38) in *; lia).
  erewrite bind_Done.
  2:{ apply copyin_mapped; [lia|lia|lia|]. intros a Ha'. replace a with (addr + k) by lia. exact Hm. }
  change (k_mem sp) with (k_mem s). rewrite Hc. cbn. reflexivity.
Qed.

Lemma pipewrite_loop i pi addr n fuel k s ps q :
  pipe_user i pi s ->
  let sp := in_pipe pi s ps (k_mem s) in
  let pt := p_pagetable (proc_at s i) in
  (Z.to_nat (n - k) < fuel)%nat ->
  pipe_holds (pipe_at sp pi) q -> Z.of_nat (length q) + (n - k) <= PIPESIZE ->
  pi_readopen (pipe_at sp pi) <> 0 -> p_killed (proc_at s i) = 0 ->
  0 <= k <= n -> 0 <= addr -> addr + n <= MAXVA ->
  (forall a, addr + k <= a < addr + n -> mapped (k_mem s) pt a) ->
  exists ps', loop fuel (pipewrite_body i pi addr n) k sp = Done (Some n) (in_pipe pi s ps' (k_mem s))
    /\ pipe_holds (default pipe_zero (ps' !! pi)) (q ++ user_bytes (k_mem s) pt (addr + k) (n - k))
    /\ (forall pj, pj <> pi -> ps' !! pj = ps !! pj).
Proof.
  intros Hu. revert k ps q.
  induction fuel as [|fuel IH]; intros k ps q sp pt Hf Hq Hlen Hro Hk Hkn Ha Hmax Hm; [lia|].
  destruct (decide (k = n)) as [->|Hne].
  - exists ps. split_and!; [| |done].
    + apply loop_done; [lia|]. unfold pipewrite_body. by rewrite Z.ltb_irrefl.
    + rewrite Z.sub_diag. unfold user_bytes. cbn. by rewrite app_nil_r.
  - destruct (pipewrite_round i pi addr n k s ps q Hu) as (c & Hc & Hrun); try done;
      [lia|lia|apply Hm; lia|].
    rewrite (loop_next _ _ _ _ _ _ Hrun). clear Hrun. fold sp pt in Hc |- *.
    set (ps1 := <[pi := pipe_put c (pipe_at sp pi)]> ps).
    assert (pipe_at (in_pipe pi s ps1 (k_mem s)) pi = pipe_put c (pipe_at sp pi)) as E
      by (unfold pipe_at at 1, ps1; cbn; by rewrite lookup_insert_eq).
    destruct (IH (k + 1) ps1 (q ++ [c])) as (ps' & Hrun & Hq' & Hfr); rewrite ?E.
    + lia.
    + apply pipe_put_holds; [exact Hq|lia].
    + rewrite length_app. cbn. lia.
    + exact Hro.
    + done.
    + lia.
    + lia.
    + lia.
    + intros a Ha'. apply Hm. lia.
    + exists ps'. split; [exact Hrun|]. split.
      * replace (n - k) with (1 + (n - (k + 1))) by lia. rewrite user_bytes_app by lia.
        fold pt in Hq'. rewrite Hc, <- Z.add_assoc, app_assoc. exact Hq'.
      * intros pj Hj. rewrite Hfr by done. unfold ps1. by apply lookup_insert_ne.
Qed.

(** One byte read. *)
Lemma piperead_copy_eq i pi pt addr k j s ps m q :
  pipe_user i pi s ->
  let sp := in_pipe pi s ps m in
  let r := take k q in
  pipe_holds (pipe_at sp pi) q -> 0 <= j -> user_buffer m pt (addr + j) (Z.of_nat (length r)) ->
  exists ps' m', piperead_copy k pi pt addr j sp
      = Done (j + Z.of_nat (length r)) (in_pipe pi s ps' m')
    /\ pipe_holds (default pipe_zero (ps' !! pi)) (drop k q)
    /\ user_bytes m' pt (addr + j) (Z.of_nat (length r)) = r
    /\ (forall x, (forall a, addr + j <= a < addr + j + Z.of_nat (length r) ->
                     x <> user_addr m pt a) -> m' x = m x)
    /\ (forall pj, pj <> pi -> ps' !! pj = ps !! pj).
Proof.
  intros Hu. revert j ps m q. induction k as [|k IH]; intros j ps m q sp r Hq Hj Hub.
  { exists ps, m. unfold r. cbn. rewrite Z.add_0_r, drop_0. done. }
  cbn [piperead_copy]. unfold getpipe. rewrite bind_gets, (pipe_empty_holds _ q Hq).
  destruct q as [|c q].
  { exists ps, m. unfold r. cbn. rewrite Z.add_0_r. done. }
  rewrite bool_decide_false by done.
  destruct (pipe_pop_holds _ _ _ Hq) as [Hc Hq1]. rewrite Hc.
  set (r1 := take k q). assert (r = c :: r1) as Er by done.
  assert (Z.of_nat (length r) = 1 + Z.of_nat (length r1)) as Elen by (rewrite Er; cbn; lia).
  clearbody r. subst r. rewrite Elen in *.
  destruct (ub_range _ _ _ _ Hub) as (Ha & _ & Hmax).
  destruct (copyout_loop pt 2 (addr + j) [c] sp) as (m1 & Hrun & Hby & Hfr);
    [cbn; lia|apply (user_buffer_sub m pt (addr + j) (1 + Z.of_nat (length r1))); [done|cbn; lia..]|].
  change (k_mem sp) with m in *. change (Z.of_nat (length [c])) with 1 in *.
  rewrite u64_small by (change MAXVA with (2 ^ 38) in *; lia).
  erewrite bind_Done by exact Hrun. change (0 =? -1) with false. cbv iota.
  unfold updpipe. rewrite bind_modify.
  change (set_k_mem m1 sp) with (in_pipe pi s ps m1).
  change (pipe_at (in_pipe pi s ps m1) pi) with (pipe_at sp pi).
  set (ps1 := <[pi := pipe_pop (pipe_at sp pi)]> ps).
  change (set_k_pipes _ (in_pipe pi s ps m1)) with (in_pipe pi s ps1 m1).
  destruct (user_buffer_write m m1 pt (addr + j) (1 + Z.of_nat (length r1)) (addr + j) (addr + j + 1))
    as (Hub1 & _ & Had & _); [done|lia|lia|exact Hfr|].
  assert (pipe_at (in_pipe pi s ps1 m1) pi = pipe_pop (pipe_at sp pi)) as E
    by (unfold pipe_at at 1, ps1; cbn; by rewrite lookup_insert_eq).
  destruct (IH (j + 1) ps1 m1 q) as (ps' & m' & Hrun' & Hq' & Hby' & Hfr' & Hps'); rewrite ?E.
  { exact Hq1. }
  { lia. }
  { fold r1. apply (user_buffer_sub m1 pt (addr + j) (1 + Z.of_nat (length r1))); [done|lia..]. }
  fold r1 in Hrun', Hby', Hfr'. rewrite Z.add_assoc in Hby', Hfr'.
  exists ps', m'. rewrite Hrun'. split_and!.
  - f_equal. lia.
  - exact Hq'.
  - rewrite user_bytes_app by lia. rewrite Hby'.
    destruct (user_buffer_write m1 m' pt (addr + j) (1 + Z.of_nat (length r1)) (addr + j + 1)
      (addr + j + 1 + Z.of_nat (length r1))) as (_ & _ & _ & Hk); [done|lia|lia|exact Hfr'|].
    rewrite Hk, Hby by lia. done.
  - intros x Hx. rewrite Hfr'; [apply Hfr; intros; apply Hx; lia|].
    intros a Ha'. rewrite Had by lia. apply Hx. lia.
  - intros pj Hpj. rewrite Hps' by done. unfold ps1. by apply lookup_insert_ne.
Qed.

(** C29: pipewrite() appends.  A process that writes [n] mapped bytes to a
    pipe that is open for reading and has room for them returns [n]; the
    pipe then holds its former contents followed by exactly those bytes in
    order (also when the 32-bit indices wrap around), the other pipes, memory
    and the locks are as before, and exactly the readers sleeping on the pipe
    have been woken. *)
Theorem pipewrite_appends i pi addr n s q :
  pipe_user i pi s ->
  let pt := p_pagetable (proc_at s i) in
  pipe_holds (pipe_at s pi) q -> Z.of_nat (length q) + n <= PIPESIZE ->
  pi_readopen (pipe_at s pi) <> 0 -> p_killed (proc_at s i) = 0 ->
  0 <= n -> 0 <= addr -> addr + n <= MAXVA ->
  (forall a, addr <= a < addr + n -> mapped (k_mem s) pt a) ->
  exists s', pipewrite pi addr n s = Done n s'
    /\ pipe_holds (pipe_at s' pi) (q ++ user_bytes (k_mem s) pt addr n)
    /\ (forall pj, pj <> pi -> k_pipes s' !! pj = k_pipes s !! pj)
    /\ k_mem s' = k_mem s /\ hw s' = hw (touch s) /\ k_procs s' = woken (CH_pipe_nread pi) s.
Proof.
  intros Hu pt Hq Hlen Hro Hk Hn Ha Hmax Hm. unfold pipewrite.
  rewrite (in_pipe_enter i pi s Hu).
  destruct (pipewrite_loop i pi addr n (S (Z.to_nat n) + SLEEP_FUEL) 0 s (k_pipes s) q Hu)
    as (ps' & Hrun & Hq' & Hfr); try done; [lia|lia|intros a Ha'; apply Hm; lia|].
  erewrite bind_Done by exact Hrun. cbv beta iota. rewrite (in_pipe_leave i) by done.
  eexists. split; [reflexivity|]. rewrite Z.add_0_r, Z.sub_0_r in Hq'. done.
Qed.

(** C30: piperead() takes from the front.  A process that reads up to [n]
    bytes into a writable user buffer from a pipe that is not empty gets the
    oldest [min n count] bytes, in order, at the buffer's addresses and
    nothing else in memory changes; the pipe keeps the rest, and exactly the
    writers sleeping on the pipe have been woken. *)
Theorem piperead_takes i pi addr n s q :
  pipe_user i pi s ->
  let pt := p_pagetable (proc_at s i) in
  let r := take (Z.to_nat n) q in
  pipe_holds (pipe_at s pi) q -> q <> [] ->
  user_buffer (k_mem s) pt addr (Z.of_nat (length r)) ->
  exists s', piperead pi addr n s = Done (Z.of_nat (length r)) s'
    /\ pipe_holds (pipe_at s' pi) (drop (Z.to_nat n) q)
    /\ (forall pj, pj <> pi -> k_pipes s' !! pj = k_pipes s !! pj)
    /\ user_bytes (k_mem s') pt addr (Z.of_nat (length r)) = r
    /\ (forall x, (forall a, addr <= a < addr + Z.of_nat (length r) ->
                     x <> user_addr (k_mem s) pt a) -> k_mem s' x = k_mem s x)
    /\ hw s' = hw (touch s) /\ k_procs s' = woken (CH_pipe_nwrite pi) s.
Proof.
  intros Hu pt r Hq Hne Hub. unfold piperead.
  rewrite (in_pipe_enter i pi s Hu). set (sp := in_pipe pi s (k_pipes s) (k_mem s)).
  assert (piperead_wait i pi sp = Done true sp) as Hw.
  { apply loop_done; [unfold SLEEP_FUEL; lia|]. unfold getpipe. rewrite bind_gets.
    rewrite (pipe_empty_holds (pipe_at sp pi) q Hq), bool_decide_false by done. done. }
  erewrite bind_Done by exact Hw. cbn [negb]. unfold getp. rewrite bind_gets.
  change (proc_at sp i) with (proc_at s i). fold pt.
  destruct (piperead_copy_eq i pi pt addr (Z.to_nat n) 0 s (k_pipes s) (k_mem s) q Hu)
    as (ps' & m' & Hrun & Hq' & Hby & Hfr & Hps); [exact Hq|lia|by rewrite Z.add_0_r|].
  erewrite bind_Done by exact Hrun. rewrite (in_pipe_leave i) by done.
  rewrite Z.add_0_r in Hby, Hfr. eexists. split; [reflexivity|]. done.
Qed.
End fifo.

(** A process with a two-page image and a pipe, whose indices are about to
    wrap, holding one byte. *)
Definition pipe_kst : kst :=
  let p := mkPipe (<[511%nat := 65]> (replicate 512 0)) (2 ^ 32 - 1) 0 1 1 in
  set_k_locks (<[LK_pipe 0x87004000 := mkSpinlock 0 "pipe" None]> (k_locks idle_kst))
    (set_k_pipes {[ 0x87004000 := p ]}
       (set_k_procs (alter (set_p_pagetable 0x87000000) 0%nat (k_procs idle_kst))
          (set_k_mem two_page_mem idle_kst))).

Lemma pipe_kst_user : pipe_user 0 0x87004000 pipe_kst.
Proof.
  split; [reflexivity|unfold NPROC; lia|reflexivity| |eexists; reflexivity].
  destruct idle_procs_free as (H1 & H2 & H3). split; [exact H1|]. split; [exact H2|].
  intros l Hl. destruct (H3 l Hl) as [n Hn]. exists n. destruct Hl as (j & _ & ->). exact Hn.
Qed.

Lemma pipe_kst_holds : pipe_holds (pipe_at pipe_kst 0x87004000) [65].
Proof.
  change (pipe_at pipe_kst 0x87004000)
    with (mkPipe (<[511%nat := 65]> (replicate 512 0)) (2 ^ 32 - 1) 0 1 1).
  split; [split; [discriminate|reflexivity]|reflexivity|unfold PIPESIZE; cbn; lia|reflexivity|].
  intros [|i] c Hi; [|done]. injection Hi as <-. reflexivity.
Qed.

Lemma pipewrite_appends_witness :
  exists s', @pipewrite built_kernel 0x87004000 4094 4 pipe_kst = Done 4 s'.
Proof.
  destruct (@pipewrite_appends built_kernel 0 0x87004000 4094 4 pipe_kst [65]) as (s' & H & _);
    [exact pipe_kst_user|exact pipe_kst_holds|unfold PIPESIZE; cbn; lia|vm_compute; discriminate
    |reflexivity|lia|lia|change MAXVA with (2 ^ 38); lia
    |exact (fun a Ha => proj1 (ub_mapped _ _ _ _ two_page_buffer a Ha))|exists s'; exact H].
Defined.

Lemma piperead_takes_witness :
  exists s', @piperead built_kernel 0x87004000 4094 10 pipe_kst = Done 1 s'.
Proof.
  destruct (@piperead_takes built_kernel 0 0x87004000 4094 10 pipe_kst [65]) as (s' & H & _);
    [exact pipe_kst_user|exact pipe_kst_holds|discriminate| |exists s'; exact H].
  apply (user_buffer_sub two_page_mem 0x87000000 4094 4); [exact two_page_buffer|..]; vm_compute; discriminate.
Defined.
