(* ===== verification/File.v ===== *)
(** * File: open files (kernel/file.c), and pipealloc() of kernel/pipe.c *)

From S2P Require Import Prelude Params Machine Spinlock Strings Kalloc Sched Vm Sleeplock Blockdev Bio Log Fs Console Pipe.

Definition file_at (s : kst) (f : nat) : file := k_files s !!! f.
Definition getf (f : nat) : K file := gets (fun s => file_at s f).
Definition updf (f : nat) (g : file -> file) : K unit :=
  modify (fun s => set_k_files (alter g f (k_files s)) s).

Definition fileinit : K unit := initlock LK_ftable "ftable".

(** The table scan of filealloc(). *)
Definition filealloc_scan : K (option nat) :=
  foreach (seq 0 NFILE) (fun f =>
    x ← getf f;
    if f_ref x =? 0 then
      updf f (set_f_ref 1) ;;
      mret (Some f)
    else mret None).

Definition filealloc : K (option nat) :=
  acquire LK_ftable ;;
  r ← filealloc_scan;
  release LK_ftable ;;
  mret r.

Definition filedup (f : nat) : K nat :=
  acquire LK_ftable ;;
  x ← getf f;
  if f_ref x <? 1 then panic "filedup" else
  updf f (set_f_ref (s32 (f_ref x + 1))) ;;
  release LK_ftable ;;
  mret f.

(** The pointers a file holds are set whenever its type says so. *)
Definition f_inode (x : file) : K nat :=
  match f_ip x with Some ip => mret ip | None => null_deref end.

Section file.
Context {SYM : Symbols} {DISK : BlockDev}.

Definition fileclose (f : nat) : K unit :=
  acquire LK_ftable ;;
  x ← getf f;
  if f_ref x <? 1 then panic "fileclose" else
  updf f (set_f_ref (f_ref x - 1)) ;;
  if 0 <? f_ref x - 1 then release LK_ftable else
  ff ← getf f;
  updf f (set_f_ref 0) ;;
  updf f (set_f_type FD_NONE) ;;
  release LK_ftable ;;
  match f_type ff with
  | FD_PIPE => pipeclose (f_pipe ff) (truthy (f_writable ff))
  | FD_INODE | FD_DEVICE =>
      begin_op ;;
      ip ← f_inode ff;
      iput ip ;;
      end_op
  | FD_NONE => mret tt
  end.

Definition filestat (f : nat) (addr : Z) : K Z :=
  p ← curproc;
  x ← getf f;
  match f_type x with
  | FD_INODE | FD_DEVICE =>
      ip ← f_inode x;
      ilock ip ;;
      st ← stati ip;
      iunlock ip ;;
      pr ← getp p;
      r ← copyout (p_pagetable pr) addr st;
      if r <? 0 then mret (-1) else mret 0
  | _ => mret (-1)
  end.

(** [devsw[major]], when [major] is in range and the entry is set. *)
Definition device (s : kst) (major : Z) : option devfn :=
  if (major <? 0) || (major >=? NDEV) then None
  else default None (k_devsw s !! Z.to_nat major).

Definition fileread (f : nat) (addr n : Z) : K Z :=
  x ← getf f;
  if f_readable x =? 0 then mret (-1) else
  match f_type x with
  | FD_PIPE => piperead (f_pipe x) addr n
  | FD_DEVICE =>
      d ← gets (fun s => device s (f_major x));
      match d with
      | None => mret (-1)
      | Some DEV_console => consoleread true addr n
      end
  | FD_INODE =>
      ip ← f_inode x;
      ilock ip ;;
      x ← getf f;
      r ← readi ip true addr (f_off x) (u32 n);
      when (0 <? r) (updf f (fun x => set_f_off (u32 (f_off x + r)) x)) ;;
      iunlock ip ;;
      mret r
  | FD_NONE => panic "fileread"
  end.

(** [((MAXOPBLOCKS - 1 - 1 - 2) / 2) * BSIZE] *)
Definition FILEWRITE_MAX : Z := (MAXOPBLOCKS - 1 - 1 - 2) / 2 * BSIZE.

Definition filewrite (f : nat) (addr n : Z) : K Z :=
  x ← getf f;
  if f_writable x =? 0 then mret (-1) else
  match f_type x with
  | FD_PIPE => pipewrite (f_pipe x) addr n
  | FD_DEVICE =>
      d ← gets (fun s => device s (f_major x));
      match d with
      | None => mret (-1)
      | Some DEV_console => consolewrite true addr n
      end
  | FD_INODE =>
      (* write a few blocks at a time to avoid exceeding the maximum log
         transaction size. *)
      i ← loop (S (S (Z.to_nat (n / FILEWRITE_MAX)))) (fun i =>
        if negb (i <? n) then mret (inr i) else
        let n1 := n - i in
        let n1 := if n1 >? FILEWRITE_MAX then FILEWRITE_MAX else n1 in
        begin_op ;;
        ip ← f_inode x;
        ilock ip ;;
        x ← getf f;
        r ← writei ip true (u64 (addr + i)) (f_off x) n1;
        when (0 <? r) (updf f (fun x => set_f_off (u32 (f_off x + r)) x)) ;;
        iunlock ip ;;
        end_op ;;
        if negb (r =? n1) then mret (inr i) (* error from writei *)
        else mret (inl (i + r))) 0;
      mret (if i =? n then n else -1)
  | FD_NONE => panic "filewrite"
  end.

(** ** kernel/pipe.c: pipealloc.  [None] is the return value -1. *)
Definition pipealloc : K (option (nat * nat)) :=
  f0 ← filealloc;
  f1 ← (match f0 with None => mret None | Some _ => filealloc end);
  pi ← (match f1 with None => mret 0 | Some _ => kalloc end);
  match f0, f1 with
  | Some a, Some b =>
      if pi =? 0 then
        fileclose a ;;
        fileclose b ;;
        mret None
      else
        modify (fun s => set_k_pipes (<[pi := set_pi_data (mem_load (k_mem s) (pi + 24) 512) pipe_zero]>
                                        (k_pipes s)) s) ;;
        updpipe pi (set_pi_readopen 1) ;;
        updpipe pi (set_pi_writeopen 1) ;;
        updpipe pi (set_pi_nwrite 0) ;;
        updpipe pi (set_pi_nread 0) ;;
        initlock (LK_pipe pi) "pipe" ;;
        updf a (set_f_type FD_PIPE) ;;
        updf a (set_f_readable 1) ;;
        updf a (set_f_writable 0) ;;
        updf a (set_f_pipe pi) ;;
        updf b (set_f_type FD_PIPE) ;;
        updf b (set_f_readable 0) ;;
        updf b (set_f_writable 1) ;;
        updf b (set_f_pipe pi) ;;
        mret (Some (a, b))
  | Some a, None => fileclose a ;; mret None
  | None, Some b => fileclose b ;; mret None
  | None, None => mret None
  end.
End file.
