(* ===== verification/Grow.v ===== *)
(** * Grow: writing past the end of a file (kernel/fs.c, kernel/file.c)

    writei() when blocks of the file are missing: bmap() allocates them on the
    way.  The theorem gives the contents afterwards, the blocks that stay as
    they were, and how much of the log one call takes up, which is what
    filewrite() relies on when it cuts a write into pieces. *)

From S2P Require Import Prelude Params Machine Spinlock Strings Kalloc Uart Printk Sched Vm Sleeplock Blockdev Bio Bcache Log Fs Inode Balloc Bmap File.

(** ** Changing one data block of a file *)
Section put.
Context (v : cview) (sb : superblock) (i : inode) (OW : owns v sb i).
Context (a : Z) (A : 0 <= a < MAXFILE) (S : slot v i a <> 0).
Context (d : list Z) (LEN : length d = length (cv_data v (slot v i a))).
Let v' := logged_put (slot v i a) d v.

Lemma put_block : data_block v sb (slot v i a).
Proof using OW A S LEN. apply OW; [unfold in_file; lia|done]. Qed.

Lemma put_not_ind : slot v i a <> addr_at i IND.
Proof using OW A S LEN.
  intros E. assert (a = -1); [|lia]. apply (ow_inj _ _ _ OW); try done. unfold in_file. lia.
Qed.

Lemma put_slot b : slot v' i b = slot v i b.
Proof using OW A S LEN.
  unfold slot. destruct (b <? 0); [done|]. destruct (b <? NDIRECT); [done|]. destruct (addr_at i IND =? 0); [done|].
  unfold v'. cbn. rewrite upd_ne; [done|]. apply not_eq_sym, put_not_ind.
Qed.

Lemma put_used b : 0 <= b < sb_size sb -> used v' sb b = used v sb b.
Proof using OW A S LEN.
  intros Hb. unfold used, v'. cbn. rewrite upd_ne; [done|]. by apply put_block.
Qed.

Lemma put_frees : frees v' sb = frees v sb.
Proof using OW A S LEN. apply filter_ext_in. intros x Hx%elem_of_seqZ. by rewrite put_used by lia. Qed.

Lemma put_len m : length (cv_data v' m) = length (cv_data v m).
Proof using OW A S LEN.
  unfold v'. cbn. destruct (decide (m = slot v i a)) as [->|]; [by rewrite upd_eq|by rewrite upd_ne].
Qed.

Lemma put_data_block m : data_block v sb m -> data_block v' sb m.
Proof using OW A S LEN. intros [H1 H2 H3 H4]. split; [done|by rewrite put_used by lia|by rewrite put_len|done]. Qed.

Lemma put_owns : owns v' sb i.
Proof using OW A S LEN.
  pose proof OW as [[B1 B2 B3 B4 B5] H2 H3 H4]. split; [split; [done|done| | |]|done| |].
  - intros b Hb. rewrite put_len. by apply B3.
  - intros b Hb Hlt. rewrite put_used; [by apply B4|]. split; [apply u32_range|done].
  - intros Hs. rewrite put_used by lia. by apply B5.
  - intros b Hb. rewrite put_slot. intros Hne. by apply put_data_block, H3.
  - intros b c Hb Hc. rewrite !put_slot. by apply H4.
Qed.
End put.

(** ** What a write does to a file *)
Record wrote (sb : superblock) (v : cview) (i : inode) (off : Z) (bytes : list Z) (v' : cview) (i' : inode) : Prop := {
  wo_owns : owns v' sb i';
  wo_frees : exists t, frees v sb = t ++ frees v' sb;
  wo_slot a : in_file a -> slot v i a <> 0 -> slot v' i' a = slot v i a;
  wo_new a : in_file a -> slot v i a = 0 -> slot v' i' a <> 0 -> slot v' i' a ∈ frees v sb;
  wo_there x : 0 <= x < MAXFILE * BSIZE -> off <= x < off + Z.of_nat (length bytes) -> slot v' i' (x / BSIZE) <> 0;
  wo_content x : 0 <= x < MAXFILE * BSIZE -> content v' i' x = mem_store (content v i) off bytes x;
  wo_other m : m ∉ frees v sb -> (forall b, 0 <= b < sb_size sb -> BBLOCK b sb <> m) ->
    (forall a, in_file a -> slot v i a <> 0 -> slot v i a <> m) -> cv_data v' m = cv_data v m
}.

Lemma byte_in_file x : 0 <= x < MAXFILE * BSIZE -> 0 <= x / BSIZE < MAXFILE /\ in_file (x / BSIZE).
Proof.
  intros Hx. assert (0 <= x / BSIZE < MAXFILE) as H; [|unfold in_file; lia].
  split; [apply Z.div_pos; [lia|done]|apply Z.div_lt_upper_bound; [done|lia]].
Qed.

Lemma mem_store_at m1 m2 off bs x : m1 x = m2 x -> mem_store m1 off bs x = mem_store m2 off bs x.
Proof. intros H. unfold mem_store. by rewrite H. Qed.

Lemma wrote_nil sb v i off : owns v sb i -> wrote sb v i off [] v i.
Proof.
  intros H. split; try done; [by exists []|cbn; lia|]. intros x _. by rewrite mem_store_out by (cbn; lia).
Qed.

Lemma wrote_app sb v i v1 i1 v2 i2 off b1 b2 :
  owns v sb i -> wrote sb v i off b1 v1 i1 -> wrote sb v1 i1 (off + Z.of_nat (length b1)) b2 v2 i2 ->
  wrote sb v i off (b1 ++ b2) v2 i2.
Proof.
  intros OW [O1 [t1 F1] S1 N1 T1 C1 X1] [O2 [t2 F2] S2 N2 T2 C2 X2].
  assert (forall m, m ∈ frees v1 sb -> m ∈ frees v sb) as Hsub by (intros m Hm; rewrite F1; set_solver).
  assert (forall a, in_file a -> slot v i a <> 0 -> slot v2 i2 a = slot v i a) as S12.
  { intros a Ha Hs. rewrite S2, S1; try done. by rewrite S1. }
  split.
  - done.
  - exists (t1 ++ t2). by rewrite F1, F2, app_assoc.
  - done.
  - intros a Ha H0 Hs. destruct (decide (slot v1 i1 a = 0)) as [E|Hne]; [by apply Hsub, N2|].
    rewrite S2 by done. by apply N1.
  - intros x Hx Hr. rewrite length_app in Hr. destruct (byte_in_file x Hx) as [_ Hin].
    destruct (decide (x < off + Z.of_nat (length b1))); [|apply T2; [done|lia]].
    assert (slot v1 i1 (x / BSIZE) <> 0) as Hs by (apply T1; [done|lia]). by rewrite S2.
  - intros x Hx. rewrite C2 by done. rewrite <- mem_store_app. apply mem_store_at. by apply C1.
  - intros m Hm Hb Hs. rewrite X2, X1; try done; [by intros ?%Hsub|]. intros a Ha Hne E.
    destruct (decide (slot v i a = 0)) as [E0|Hne0]; [|by apply (Hs a); [..|rewrite <- S1]].
    apply Hm. rewrite <- E. by apply N1.
Qed.

(** One block: bmap() has found or allocated it, and it is written. *)
Lemma wrote_chunk sb v i t v1 i1 off bytes :
  owns v sb i -> extends sb v i t v1 i1 -> 0 <= off < MAXFILE * BSIZE -> slot v1 i1 (off / BSIZE) <> 0 ->
  bytes <> [] -> Z.of_nat (length bytes) <= BSIZE - off mod BSIZE ->
  let n := slot v1 i1 (off / BSIZE) in
  wrote sb v i off bytes (logged_put n (put_bytes (cv_data v1 n) (Z.to_nat (off mod BSIZE)) bytes) v1) i1.
Proof.
  intros OW EX Hoff Hs Hne Hlen n. destruct (byte_in_file off Hoff) as [Hr Hin].
  pose proof (ex_owns _ _ _ _ _ _ EX) as OW1. pose proof (Z.mod_pos_bound off BSIZE ltac:(done)) as Hmod.
  pose proof (proj1 (slot_mapped _ _ _ _ OW1 Hr) Hs) as Hm.
  pose proof (written_to_chunk v1 i1 off bytes (owns_sane _ _ _ OW1) Hm Hne Hlen) as W. cbv zeta in W.
  rewrite (mapped_slot _ _ _ Hm) in W. fold n in W.
  set (d := put_bytes (cv_data v1 n) (Z.to_nat (off mod BSIZE)) bytes) in *. set (v2 := logged_put n d v1) in *.
  pose proof (db_len _ _ _ (ow_block _ _ _ OW1 _ Hin Hs)) as HB. fold n in HB.
  assert (length d = length (cv_data v1 n)) as Hd by (apply length_put_bytes; lia).
  pose proof (put_slot v1 sb i1 OW1 _ Hr Hs d Hd) as Hsl. fold n v2 in Hsl.
  assert (forall x, off <= x < off + Z.of_nat (length bytes) -> x / BSIZE = off / BSIZE) as Hblk.
  { intros x Hx. pose proof (Z.div_mod off BSIZE ltac:(done)). symmetry. apply Z.div_unique with (x - BSIZE * (off / BSIZE)); lia. }
  split.
  - by apply (put_owns v1 sb i1 OW1 _ Hr Hs d Hd).
  - exists t. rewrite (ex_frees _ _ _ _ _ _ EX). f_equal. symmetry. by apply (put_frees v1 sb i1 OW1 _ Hr Hs d Hd).
  - intros a Ha H0. rewrite Hsl. by apply (ex_slot _ _ _ _ _ _ EX).
  - intros a Ha H0. rewrite Hsl. intros H1. rewrite (ex_frees _ _ _ _ _ _ EX). apply elem_of_app. left. by apply (ex_new _ _ _ _ _ _ EX).
  - intros x _ Hx. by rewrite Hsl, Hblk.
  - intros x Hx. rewrite (mem_store_at _ (content v1 i1)) by (symmetry; by apply (extends_content _ _ _ _ _ _ OW EX)).
    destruct (byte_in_file x Hx) as [Hrx _]. unfold content at 1. rewrite Hsl.
    destruct (Z.eqb_spec (slot v1 i1 (x / BSIZE)) 0) as [E|Hnx].
    + rewrite mem_store_out; [unfold content; by rewrite E|]. intros Hx'. by rewrite Hblk in E.
    + rewrite (wt_file _ _ _ _ _ W) by by apply (slot_mapped _ _ _ _ OW1). apply mem_store_at.
      unfold content. by rewrite (proj2 (Z.eqb_neq _ _) Hnx).
  - intros m Hm' Hb Ha. unfold v2. cbn. rewrite (ex_frees _ _ _ _ _ _ EX) in Hm'. rewrite upd_ne.
    + apply (ex_other _ _ _ _ _ _ EX); [set_solver| |done]. intros H0. apply not_eq_sym. by apply Ha.
    + intros ->. destruct (decide (slot v i (off / BSIZE) = 0)) as [E|H0].
      * apply Hm'. apply elem_of_app. left. by apply (ex_new _ _ _ _ _ _ EX).
      * apply (Ha _ Hin H0). by rewrite <- (ex_slot _ _ _ _ _ _ EX).
Qed.

(** ** writei() *)

(** The missing blocks among the [k] blocks from [b] on. *)
Definition holes (v : cview) (i : inode) (b k : Z) : Z :=
  Z.of_nat (length (filter (fun a => slot v i a = 0) (seqZ b k))).

Lemma holes_range v i b k : 0 <= holes v i b k <= Z.max 0 k.
Proof.
  unfold holes. pose proof (length_filter (fun a => slot v i a = 0) (seqZ b k)) as H. rewrite length_seqZ in H. lia.
Qed.

Lemma holes_step v i b k : 0 < k -> holes v i b k = hole v i b + holes v i (b + 1) (k - 1).
Proof.
  intros Hk. replace (b + 1) with (Z.succ b) by lia. replace (k - 1) with (Z.pred k) by lia.
  unfold holes, hole. rewrite seqZ_cons, filter_cons by lia.
  destruct (Z.eqb_spec (slot v i b) 0), (decide (slot v i b = 0)); try done. cbn [length]. lia.
Qed.

Lemma holes_mono v i v' i' b k :
  (forall a, b <= a < b + k -> slot v i a <> 0 -> slot v' i' a <> 0) -> holes v' i' b k <= holes v i b k.
Proof.
  intros H. unfold holes. apply inj_le.
  assert (forall l : list Z, (forall a, a ∈ l -> b <= a < b + k) ->
    (length (filter (fun a => slot v' i' a = 0%Z) l) <= length (filter (fun a => slot v i a = 0%Z) l))%nat) as Hl.
  { induction l as [|a l IH]; intros Hin; [done|]. rewrite !filter_cons. specialize (IH (fun x Hx => Hin x (list_elem_of_further _ _ _ Hx))).
    specialize (H a (Hin a (list_elem_of_here _ _))).
    destruct (decide (slot v' i' a = 0)), (decide (slot v i a = 0)); cbn [length]; lia || tauto. }
  apply Hl. intros a. by rewrite elem_of_seqZ.
Qed.

Section grow.
Context {SYM : Symbols} {DISK : BlockDev} (dev : Z) (R : cview -> kst -> Prop) {BC : BlockCache dev R}.

(** The log space and the free blocks left pay for the next block. *)
Record paid (a : Z) (v : cview) (i : inode) (v' : cview) (i' : inode) (sb : superblock) : Prop := {
  pd_log : Z.of_nat (size (cv_pins v')) + ind_cost v' i' <= Z.of_nat (size (cv_pins v)) + 1 + hole v i a + ind_cost v i;
  pd_free : Z.of_nat (length (frees v sb)) + hole v' i' (-1) <= Z.of_nat (length (frees v' sb)) + hole v i a + hole v i (-1)
}.

Lemma need_hole v i a : need v i a <= hole v i a + hole v i (-1).
Proof. unfold need, hole. destruct (slot v i a =? 0), (NDIRECT <=? a), (slot v i (-1) =? 0); cbn; lia. Qed.

Lemma bmapped_paid ip bn v s v1 s1 d :
  let i := inode_at s ip in let i1 := inode_at s1 ip in let sb := k_sb s in
  owns v sb i -> 0 <= bn < MAXFILE -> bmapped R ip bn v s v1 s1 -> length d = length (cv_data v1 (slot v1 i1 bn)) ->
  paid bn v i (logged_put (slot v1 i1 bn) d v1) i1 sb.
Proof.
  intros i i1 sb OW Hbn [T F Hs (t & EX & Ht & _) Hc] Hd. fold i i1 sb in Hs, EX, Ht, Hc.
  pose proof (ex_owns _ _ _ _ _ _ EX) as OW1. split.
  - etrans; [|exact Hc]. apply Z.add_le_mono.
    + apply inj_le, subseteq_size. cbn. set_solver.
    + unfold ind_cost. rewrite (put_slot v1 sb i1 OW1 _ Hbn Hs d Hd). destruct (_ =? 0); [done|].
      repeat case_decide; try lia. cbn in *. set_solver.
  - rewrite (put_frees v1 sb i1 OW1 _ Hbn Hs d Hd), (ex_frees _ _ _ _ _ _ EX), length_app.
    unfold hole at 1. rewrite (put_slot v1 sb i1 OW1 _ Hbn Hs d Hd). 
    unfold need in Ht. unfold hole.
    assert (slot v i (-1) <> 0 -> slot v1 i1 (-1) <> 0) as H1 by (intros H; by rewrite (ex_slot _ _ _ _ _ _ EX)).
    assert (NDIRECT <= bn -> slot v1 i1 (-1) <> 0) as H2.
    { intros H E. apply Hs. change (slot v1 i1 (-1)) with (addr_at i1 IND) in E. unfold slot.
      destruct (Z.ltb_spec bn 0); [lia|]. destruct (Z.ltb_spec bn NDIRECT); [lia|]. by rewrite E. }
    destruct (Z.eqb_spec (slot v i bn) 0), (Z.leb_spec NDIRECT bn), (Z.eqb_spec (slot v i (-1)) 0), (Z.eqb_spec (slot v1 i1 (-1)) 0);
      cbn [andb] in Ht; lia || tauto.
Qed.

(** One round of the loop. *)
Lemma grow_round v s ip n tot off src :
  let i := inode_at s ip in let sb := k_sb s in
  tx R v s -> (ip < length (k_inodes s))%nat -> i_dev i = dev -> owns v sb i -> 0 <= off < MAXFILE * BSIZE ->
  hole v i (off / BSIZE) + hole v i (-1) <= Z.of_nat (length (frees v sb)) ->
  lh_n (k_log s) + 1 + hole v i (off / BSIZE) + ind_cost v i < Z.of_nat NBUF ->
  0 <= tot < n -> 0 <= src -> src + (n - tot) < 2 ^ 64 ->
  let m := Z.min (n - tot) (BSIZE - off mod BSIZE) in
  exists v' s', write_round ip false n (tot, off, src) s = Done (inl (tot + m, off + m, src + m)) s' /\
    tx R v' s' /\ inode_frame ip s s' /\ wrote sb v i off (mem_load (k_mem s) src (Z.to_nat m)) v' (inode_at s' ip) /\
    paid (off / BSIZE) v i v' (inode_at s' ip) sb.
Proof using BC.
  intros i sb T Hip Hd OW Hoff Hfr Hroom Htot Hsrc Hwrap m. destruct (byte_in_file off Hoff) as [Hbn Hin].
  pose proof (Z.mod_pos_bound off BSIZE ltac:(done)) as Hmod.
  destruct (bmap_ok dev R ip (off / BSIZE) v s T Hip Hd OW Hbn Hroom) as (v1 & s1 & E1 & Hb).
  { pose proof (need_hole v i (off / BSIZE)). fold i sb. lia. }
  pose proof Hb as [T1 F1 Hs (t & EX & _) Hc]. fold i sb in EX. pose proof F1 as (S1 & I1 & A1 & B1 & M1 & K1).
  set (i1 := inode_at s1 ip) in *. pose proof (ex_owns _ _ _ _ _ _ EX) as OW1.
  pose proof (proj1 (slot_mapped _ _ _ _ OW1 Hbn) Hs) as Hm.
  assert (lh_n (k_log s1) < Z.of_nat NBUF) as Hroom1.
  { rewrite (tx_size R ∅ _ _ T1). rewrite (tx_size R ∅ _ _ T) in Hroom. pose proof (ind_cost_range v1 i1).
    pose proof (subseteq_size (cv_pins v1) (cv_pins v1 ∪ {[slot v1 i1 (off / BSIZE)]}) ltac:(set_solver)). fold i in Hc. lia. }
  destruct (write_chunk_ok dev R v1 s1 ip i1 n tot off src T1 Hroom1 eq_refl) as (s2 & E2 & T2 & Hf2 & W);
    try done; [by rewrite A1|by apply (owns_sane _ sb)|].
  rewrite (mapped_slot _ _ _ Hm), M1 in *. fold m in E2, T2, W.
  destruct (inode_frame_same 1 ip s1 s2) as [Hfr2 Hi2]; [by rewrite I1, length_insert|done|].
  eexists _, s2. rewrite Hi2. fold i1. split_and!; [|exact T2|by apply (inode_frame_trans ip s s1)| |].
  - unfold write_round. destruct (Z.ltb_spec tot n); [|lia]. cbn [negb].
    rewrite (bind_Done _ _ _ _ _ E1), (proj2 (Z.eqb_neq _ _) Hs). exact E2.
  - apply (wrote_chunk sb v i t); try done.
    + intros E%(f_equal length). rewrite mem_load_length in E. cbn in E. lia.
    + rewrite mem_load_length. lia.
  - apply bmapped_paid; try done. fold i1. apply length_put_bytes.
    pose proof (db_len _ _ _ (ow_block _ _ _ OW1 _ Hin Hs)). rewrite mem_load_length. lia.
Qed.

(** The blocks left for the rest of a write. *)
Lemma holes_rest v i v1 i1 off k :
  let m := Z.min k (BSIZE - off mod BSIZE) in
  0 <= off -> 0 < k -> off + k <= MAXFILE * BSIZE ->
  (forall a, in_file a -> slot v i a <> 0 -> slot v1 i1 a = slot v i a) ->
  hole v i (off / BSIZE) + holes v1 i1 ((off + m) / BSIZE) (rounds (off + m) (k - m))
    <= holes v i (off / BSIZE) (rounds off k).
Proof.
  intros m Hoff Hk Hmax Hs. pose proof (Z.mod_pos_bound off BSIZE ltac:(done)) as Hmod.
  pose proof (rounds_step off k Hk) as Hstep. cbv zeta in Hstep. fold m in Hstep.
  pose proof (rounds_nonneg (off + m) (k - m)) as Hnn. rewrite (holes_step v i) by lia. apply Z.add_le_mono_l.
  destruct (decide (k - m <= 0)) as [Hz|Hpos].
  - assert (rounds (off + m) (k - m) = 0) as -> by (unfold rounds; by rewrite (proj2 (Z.ltb_ge _ _) Hz)).
    pose proof (holes_range v i (off / BSIZE + 1) (rounds off k - 1)). pose proof (holes_range v1 i1 ((off + m) / BSIZE) 0). lia.
  - assert ((off + m) / BSIZE = off / BSIZE + 1) as Hb.
    { pose proof (Z.div_mod off BSIZE ltac:(done)). assert (m = BSIZE - off mod BSIZE) by lia.
      symmetry. apply Z.div_unique with 0; lia. }
    assert (rounds (off + m) (k - m) = rounds off k - 1) as ->.
    { unfold rounds. rewrite (proj2 (Z.ltb_lt _ _) Hk), (proj2 (Z.ltb_lt 0 (k - m))) by lia. rewrite Hb.
      replace (off + m + (k - m) - 1) with (off + k - 1) by lia. lia. }
    rewrite Hb. apply holes_mono. intros a Ha Hne. rewrite Hs; [done| |done].
    unfold rounds in Ha. rewrite (proj2 (Z.ltb_lt _ _) Hk) in Ha. pose proof (Z.div_pos off BSIZE ltac:(lia) ltac:(done)).
    assert ((off + k - 1) / BSIZE < MAXFILE) by (apply Z.div_lt_upper_bound; [done|lia]). unfold in_file. lia.
Qed.

(** What the loop asks for: the blocks of the range that are missing and free
    ones for them, and the room in the log. *)
Definition log_cost (v : cview) (i : inode) (off n : Z) : Z :=
  rounds off n + holes v i (off / BSIZE) (rounds off n) + ind_cost v i.
Record growable (v : cview) (s : kst) (ip : nat) (off n : Z) : Prop := {
  gw_tx : tx R v s;
  gw_slot : (ip < length (k_inodes s))%nat;
  gw_dev : i_dev (inode_at s ip) = dev;
  gw_owns : owns v (k_sb s) (inode_at s ip);
  gw_range : 0 <= off /\ 0 <= n /\ off + n <= MAXFILE * BSIZE;
  gw_free : holes v (inode_at s ip) (off / BSIZE) (rounds off n) + hole v (inode_at s ip) (-1)
    <= Z.of_nat (length (frees v (k_sb s)));
  gw_log : lh_n (k_log s) + log_cost v (inode_at s ip) off n < Z.of_nat NBUF
}.

(** After one round the rest of the write can be done. *)
Lemma growable_rest v s ip off n v1 s1 bytes :
  let m := Z.min n (BSIZE - off mod BSIZE) in
  growable v s ip off n -> 0 < n -> tx R v1 s1 -> inode_frame ip s s1 ->
  wrote (k_sb s) v (inode_at s ip) off bytes v1 (inode_at s1 ip) ->
  paid (off / BSIZE) v (inode_at s ip) v1 (inode_at s1 ip) (k_sb s) ->
  growable v1 s1 ip (off + m) (n - m) /\
  Z.of_nat (size (cv_pins v1)) + log_cost v1 (inode_at s1 ip) (off + m) (n - m)
    <= Z.of_nat (size (cv_pins v)) + log_cost v (inode_at s ip) off n.
Proof.
  intros m [T Hip Hd OW Hr Hfr Hlog] Hn T1 (S1 & I1 & A1 & B1 & M1 & K1) W [P1 P2].
  pose proof (Z.mod_pos_bound off BSIZE ltac:(done)) as Hmod.
  pose proof (holes_rest v (inode_at s ip) v1 (inode_at s1 ip) off n ltac:(lia) Hn ltac:(lia) (wo_slot _ _ _ _ _ _ _ W)) as Hh.
  cbv zeta in Hh. fold m in Hh. pose proof (rounds_step off n Hn) as Hst. cbv zeta in Hst. fold m in Hst.
  assert (Z.of_nat (size (cv_pins v1)) + log_cost v1 (inode_at s1 ip) (off + m) (n - m)
    <= Z.of_nat (size (cv_pins v)) + log_cost v (inode_at s ip) off n) as Hcost by (unfold log_cost; lia).
  split; [|done]. rewrite (tx_size R ∅ _ _ T) in Hlog. split; rewrite ?B1.
  - done.
  - by rewrite I1, length_insert.
  - by rewrite A1.
  - apply (wo_owns _ _ _ _ _ _ _ W).
  - lia.
  - lia.
  - rewrite (tx_size R ∅ _ _ T1). lia.
Qed.

Lemma grow_loop ip n off src fuel : 0 <= src -> src + n < 2 ^ 64 -> forall v tot s,
  growable v s ip (off + tot) (n - tot) -> 0 <= tot -> rounds (off + tot) (n - tot) + 1 <= Z.of_nat fuel ->
  exists v' s', loop fuel (write_round ip false n) (tot, off + tot, src + tot) s = Done (n, off + n) s' /\
    tx R v' s' /\ inode_frame ip s s' /\
    wrote (k_sb s) v (inode_at s ip) (off + tot) (mem_load (k_mem s) (src + tot) (Z.to_nat (n - tot))) v' (inode_at s' ip) /\
    Z.of_nat (size (cv_pins v')) <= Z.of_nat (size (cv_pins v)) + log_cost v (inode_at s ip) (off + tot) (n - tot).
Proof using BC.
  intros Hsrc Hwrap. induction fuel as [|fuel IH]; intros v tot s G Htot Hf.
  { pose proof (rounds_nonneg (off + tot) (n - tot)). lia. }
  pose proof G as [T Hip Hd OW Hr Hfr Hlog]. pose proof (ind_cost_range v (inode_at s ip)) as Hic.
  destruct (decide (tot = n)) as [->|Hne].
  { exists v, s. rewrite Z.sub_diag. split; [|split_and!; [done| |by apply wrote_nil|]].
    - apply loop_done; [lia|]. unfold write_round. by rewrite Z.ltb_irrefl.
    - apply (inode_frame_same 0 ip s s Hip). split_and!; try done. lia.
    - unfold log_cost. change (rounds (off + n) 0) with 0. pose proof (holes_range v (inode_at s ip) ((off + n) / BSIZE) 0). lia. }
  pose proof (rounds_step (off + tot) (n - tot) ltac:(lia)) as Hst. cbv zeta in Hst.
  pose proof (Z.mod_pos_bound (off + tot) BSIZE ltac:(done)) as Hmod.
  pose proof (rounds_nonneg (off + tot + Z.min (n - tot) (BSIZE - (off + tot) mod BSIZE))
    (n - tot - Z.min (n - tot) (BSIZE - (off + tot) mod BSIZE))) as Hnn.
  pose proof (holes_step v (inode_at s ip) ((off + tot) / BSIZE) (rounds (off + tot) (n - tot)) ltac:(lia)) as Hh.
  pose proof (holes_range v (inode_at s ip) ((off + tot) / BSIZE + 1) (rounds (off + tot) (n - tot) - 1)) as Hh0.
  destruct (grow_round v s ip n tot (off + tot) (src + tot)) as (v1 & s1 & E & T1 & F1 & W1 & P1); try done; try lia.
  { unfold log_cost in Hlog. lia. }
  destruct (growable_rest v s ip (off + tot) (n - tot) v1 s1 _ G ltac:(lia) T1 F1 W1 P1) as [G1 Hc1].
  set (m := Z.min (n - tot) (BSIZE - (off + tot) mod BSIZE)) in *.
  replace (off + tot + m) with (off + (tot + m)) in * by lia. replace (n - tot - m) with (n - (tot + m)) in * by lia.
  destruct (IH v1 (tot + m) s1 G1) as (v2 & s2 & E2 & T2 & F2 & W2 & Hc2); [lia|lia|].
  pose proof F1 as (_ & _ & _ & B1 & M1 & _). rewrite B1, M1 in W2.
  exists v2, s2. split; [|split_and!; [done|by apply (inode_frame_trans ip s s1)| |lia]].
  - rewrite (loop_next _ _ _ _ _ _ E). by replace (src + tot + m) with (src + (tot + m)) by lia.
  - replace (Z.to_nat (n - tot)) with (Z.to_nat m + Z.to_nat (n - (tot + m)))%nat by lia.
    rewrite mem_load_app. eapply wrote_app; [done|exact W1|].
    rewrite mem_load_length, Z2Nat.id by lia. replace (off + tot + m) with (off + (tot + m)) by lia.
    by replace (src + tot + m) with (src + (tot + m)) by lia.
Qed.

(** *** The inode's own block *)

(** It is none of the file's, of the free or of the bitmap blocks. *)
Record apart (v : cview) (sb : superblock) (i : inode) (nb : Z) : Prop := {
  ap_range : nb < 2 ^ 31;
  ap_free : nb ∉ frees v sb;
  ap_bitmap b : 0 <= b < sb_size sb -> BBLOCK b sb <> nb;
  ap_slot a : in_file a -> slot v i a <> 0 -> slot v i a <> nb
}.

Lemma wrote_apart sb v i off bytes v' i' nb : wrote sb v i off bytes v' i' -> apart v sb i nb -> apart v' sb i' nb.
Proof.
  intros [O [t F] S N T C X] [H1 H2 H3 H4]. rewrite F in H2. split; [done|set_solver|done|].
  intros a Ha Hne. destruct (decide (slot v i a = 0)) as [E|Hs]; [|rewrite S by done; by apply H4].
  intros E'. apply H2. rewrite <- F, <- E'. by apply N.
Qed.

(** Writing to it changes nothing in the file. *)
Section apart.
Context (v : cview) (sb : superblock) (i i' : inode) (nb : Z) (d : list Z).
Context (OW : owns v sb i) (AP : apart v sb i nb) (SAME : i_addrs i' = i_addrs i).
Let v' := logged_put nb d v.

Lemma apart_data m : m <> nb -> cv_data v' m = cv_data v m.
Proof using. intros H. unfold v'. cbn. by rewrite upd_ne. Qed.

Lemma apart_slot a : slot v' i' a = slot v i a.
Proof using OW AP SAME.
  unfold slot, addr_at. rewrite SAME. destruct (a <? 0); [done|]. destruct (a <? NDIRECT); [done|].
  destruct (Z.eqb_spec (i_addrs i !!! IND) 0) as [|Hne]; [done|]. rewrite apart_data; [done|].
  by apply (ap_slot _ _ _ _ AP (-1)).
Qed.

Lemma apart_used b : 0 <= b < sb_size sb -> used v' sb b = used v sb b.
Proof using AP. intros Hb. unfold used. rewrite apart_data; [done|]. by apply (ap_bitmap _ _ _ _ AP). Qed.

Lemma apart_owns : owns v' sb i'.
Proof using OW AP SAME.
  pose proof OW as [[B1 B2 B3 B4 B5] H2 H3 H4]. split; [split; [done|done| | |]|by rewrite SAME| |].
  - intros b Hb. rewrite apart_data by by apply (ap_bitmap _ _ _ _ AP). by apply B3.
  - intros b Hb Hlt. rewrite apart_used; [by apply B4|]. split; [apply u32_range|done].
  - intros Hs. rewrite apart_used by lia. by apply B5.
  - intros a Ha. rewrite apart_slot. intros Hne. destruct (H3 a Ha Hne) as [D1 D2 D3 D4].
    split; [done|by rewrite apart_used by lia| |done]. by rewrite apart_data by by apply (ap_slot _ _ _ _ AP).
  - intros a b Ha Hb. rewrite !apart_slot. by apply H4.
Qed.

Lemma apart_content x : 0 <= x < MAXFILE * BSIZE -> content v' i' x = content v i x.
Proof using OW AP SAME.
  intros Hx. destruct (byte_in_file x Hx) as [Hr Hin]. unfold content. rewrite apart_slot.
  destruct (Z.eqb_spec (slot v i (x / BSIZE)) 0) as [|Hne]; [done|]. unfold file.
  rewrite !mapped_slot by (apply (slot_mapped _ sb); [apply OW || apply apart_owns|done|by rewrite ?apart_slot]).
  rewrite apart_slot, apart_data; [done|]. by apply (ap_slot _ _ _ _ AP).
Qed.
End apart.

(** *** The space in the log *)

(** A file without holes below its size. *)
Definition dense (v : cview) (i : inode) : Prop := forall x, 0 <= x < i_size i -> slot v i (x / BSIZE) <> 0.

(** What one call of writei() by filewrite() may log. *)
Lemma write_fits v i off n :
  dense v i -> 0 <= off <= i_size i -> 0 <= n <= FILEWRITE_MAX -> log_cost v i off n + 1 <= MAXOPBLOCKS.
Proof.
  intros Hd Hoff Hn. change FILEWRITE_MAX with 3072 in Hn. change MAXOPBLOCKS with 10. unfold log_cost.
  pose proof (ind_cost_range v i) as Hic. pose proof (holes_range v i (off / BSIZE) (rounds off n)) as Hh.
  destruct (decide (0 < n)) as [Hp|Hz].
  2:{ assert (rounds off n = 0) as E by (unfold rounds; by rewrite (proj2 (Z.ltb_ge _ _) (ltac:(lia) : n <= 0))). rewrite E in *. lia. }
  assert (rounds off n = (off + n - 1) / BSIZE - off / BSIZE + 1) as Hr by (unfold rounds; by rewrite (proj2 (Z.ltb_lt _ _) Hp)).
  pose proof (Z.div_mod off BSIZE ltac:(done)) as Hdm. pose proof (Z.mod_pos_bound off BSIZE ltac:(done)) as Hmod.
  change BSIZE with 1024 in *. destruct (decide (off mod 1024 = 0)) as [Ha|Hu].
  - assert ((off + n - 1) / 1024 < off / 1024 + 3) by (apply Z.div_lt_upper_bound; lia). lia.
  - assert ((off + n - 1) / 1024 < off / 1024 + 4) by (apply Z.div_lt_upper_bound; lia).
    assert (off / 1024 <= (off + n - 1) / 1024) by (apply Z.div_le_mono; lia).
    rewrite (holes_step v i) by lia. pose proof (holes_range v i (off / 1024 + 1) (rounds off n - 1)).
    assert (hole v i (off / 1024) = 0) as ->; [|lia].
    assert ((off - 1) / 1024 = off / 1024) as E by (symmetry; apply Z.div_unique with (off mod 1024 - 1); lia).
    pose proof (Hd (off - 1) ltac:(lia)) as Hne. change BSIZE with 1024 in Hne. rewrite E in Hne.
    unfold hole. by rewrite (proj2 (Z.eqb_neq _ _) Hne).
Qed.

End grow.

(** ** An example: 2000 bytes at offset 90 of a file with one block *)
Lemma demo_growable s : demo_on demo_disk demo_inode s -> growable 1 (cache_ok 0 1) (empty_view s) s 0 90 2000.
Proof.
  intros (T & Hd & Hi & Hsb & Hl & _). assert (cv_data (empty_view s) = demo_disk) as Ev by exact Hd.
  assert (inode_at s 0 = demo_inode) as Hi0 by (unfold inode_at; by rewrite Hi).
  assert (holes (empty_view s) demo_inode (90 / BSIZE) (rounds 90 2000) = 2) as Hh.
  { change (90 / BSIZE) with 0. change (rounds 90 2000) with 3. rewrite !holes_step by lia. unfold hole.
    rewrite !demo_slot by done. reflexivity. }
  split; rewrite ?Hi0, ?Hsb, ?Hl.
  - done.
  - rewrite Hi. cbn. lia.
  - reflexivity.
  - by apply demo_owns.
  - change (MAXFILE * BSIZE) with 274432. lia.
  - rewrite Hh, demo_frees_ok by done. unfold hole. rewrite demo_slot by done. vm_compute. discriminate.
  - unfold log_cost, ind_cost. rewrite Hh, demo_slot by done. vm_compute. reflexivity.
Qed.

Lemma demo_apart v : cv_data v = demo_disk -> apart v demo_sb demo_inode 33.
Proof.
  intros E. split; [done| | |].
  - rewrite elem_of_frees. intros [_ Hu]. unfold used in Hu. rewrite E in Hu. vm_compute in Hu. done.
  - intros b Hb. by rewrite demo_BBLOCK.
  - intros a Ha. rewrite demo_slot by done. by destruct (a =? 0).
Qed.

