(* ===== verification/Trunc.v ===== *)
(** * Trunc: giving the blocks of a file back (kernel/fs.c)

    itrunc() frees every block of an inode, first the direct ones, then those
    that the indirect block names, with that block locked, and at last the
    indirect block itself.  Over the interface [BlockCache], with the slots of
    [Bmap]. *)

From S2P Require Import Prelude Params Machine Spinlock Strings Kalloc Uart Printk Sched Vm Sleeplock Blockdev Bio Bcache Log Fs Inode Balloc Bmap File Grow.

(** ** Freeing a set of blocks *)

(** The blocks that can hold bits of the bitmap. *)
Definition bitmaps (sb : superblock) : list Z := (fun k => k + sb_bmapstart sb) <$> seqZ 0 (sb_size sb / BPB + 1).

Lemma elem_of_bitmaps v sb b : bitmap_ok v sb -> 0 <= b < sb_size sb -> BBLOCK b sb ∈ bitmaps sb.
Proof.
  intros Hbm Hb. rewrite (BBLOCK_eq v) by done. unfold bitmaps. apply list_elem_of_fmap. exists (b / BPB).
  split; [done|]. apply elem_of_seqZ. pose proof (Z.div_pos b BPB ltac:(lia) ltac:(done)).
  pose proof (Z.div_le_mono b (sb_size sb) BPB ltac:(done) ltac:(lia)). lia.
Qed.

(** [v'] is [v] with the bits of the blocks of [F] cleared. *)
Record released (sb : superblock) (F : Z -> Prop) (v v' : cview) : Prop := {
  rl_bm : bitmap_ok v' sb;
  rl_free b : 0 <= b < sb_size sb -> F b -> used v' sb b = false;
  rl_used b : 0 <= b < sb_size sb -> ~ F b -> used v' sb b = used v sb b;
  rl_data m : (forall b, 0 <= b < sb_size sb -> BBLOCK b sb <> m) -> cv_data v' m = cv_data v m;
  rl_held : cv_held v' = cv_held v;
  rl_disk : cv_disk v' = cv_disk v;
  rl_mono : cv_pins v ⊆ cv_pins v';
  rl_pins : cv_pins v' ⊆ cv_pins v ∪ list_to_set (bitmaps sb)
}.

Lemma released_nil sb v F : bitmap_ok v sb -> (forall b, ~ F b) -> released sb F v v.
Proof. intros H HF. split; try done; [by intros b _ ?%HF|set_solver]. Qed.

Lemma released_iff sb F G v v' : (forall b, F b <-> G b) -> released sb F v v' -> released sb G v v'.
Proof. intros H [H1 H2 H3 H4 H5 H6 H7 H8]. split; try done; intros b Hb HF; [apply H2|apply H3]; try done; by rewrite H. Qed.

(** One more block. *)
Lemma released_free sb F v v1 n :
  data_block v sb n -> released sb F v v1 -> released sb (fun b => b = n \/ F b) v (free_view sb n v1).
Proof.
  intros D [H1 H2 H3 H4 H5 H6 H7 H8]. pose proof (db_range _ _ _ D) as Hn.
  pose proof (used_one_bit clear_bit false one_bit_clear v1 sb n H1 ltac:(lia)) as Hu. fold (free_view sb n v1) in Hu.
  split.
  - destruct H1 as [B1 B2 B3 B4 B5]. split; [done|done| | |].
    + intros b Hb. rewrite <- (B3 b Hb). f_equal. apply (len_one_bit clear_bit false one_bit_clear v1 sb n).
    + intros b Hb Hlt. rewrite Hu by (split; [apply u32_range|done]).
      destruct (Z.eqb_spec (BBLOCK b sb) n) as [E|]; [|by apply B4]. by destruct (db_bitmap _ _ _ D b Hb).
    + intros Hs. rewrite Hu by lia. destruct (Z.eqb_spec 0 n); [lia|by apply B5].
  - intros b Hb [->|HF]; rewrite Hu by done; [by rewrite Z.eqb_refl|]. destruct (b =? n); [done|by apply H2].
  - intros b Hb HF. rewrite Hu by done. destruct (Z.eqb_spec b n); [tauto|]. apply H3; tauto.
  - intros m Hm. unfold free_view. cbn. rewrite upd_ne; [by apply H4|]. apply not_eq_sym, Hm. lia.
  - exact H5.
  - exact H6.
  - unfold free_view. cbn. set_solver.
  - unfold free_view. cbn. pose proof (elem_of_bitmaps v1 sb n H1 ltac:(lia)). set_solver.
Qed.

Lemma released_data_block sb F v v' m :
  released sb F v v' -> data_block v sb m -> ~ F m -> data_block v' sb m.
Proof.
  intros RL [H1 H2 H3 H4] HF. split; [done|rewrite (rl_used _ _ _ _ RL) by (done || lia); done| |done].
  by rewrite (rl_data _ _ _ _ RL).
Qed.

(** How much of the log that takes. *)
Lemma released_size sb F v v' :
  released sb F v v' -> 0 <= sb_size sb -> Z.of_nat (size (cv_pins v')) <= Z.of_nat (size (cv_pins v)) + sb_size sb / BPB + 1.
Proof.
  intros RL Hs. pose proof (size_union_list _ _ _ (rl_pins _ _ _ _ RL)) as H. unfold bitmaps in H.
  rewrite length_fmap, length_seqZ in H. pose proof (Z.div_pos (sb_size sb) BPB Hs ltac:(done)). lia.
Qed.

(** ** itrunc() *)
Section trunc.
Context {SYM : Symbols} {DISK : BlockDev} (dev : Z) (R : cview -> kst -> Prop) {BC : BlockCache dev R}.
Context (ip : nat) (v : cview) (s0 : kst).
Let i := inode_at s0 ip.
Let sb := k_sb s0.
Context (SLOT : (ip < length (k_inodes s0))%nat) (DEV : i_dev i = dev) (OW : owns v sb i).
Context (ROOM : lh_n (k_log s0) + sb_size sb / BPB + 4 <= Z.of_nat NBUF) (TX : tx R v s0).

(** The blocks of the slots from 0 to [k]. *)
Definition upto (k : Z) (b : Z) : Prop := b <> 0 /\ exists a, 0 <= a < k /\ slot v i a = b.

(** One more slot. *)
Lemma released_slot k v1 :
  0 <= k < MAXFILE -> released sb (upto k) v v1 ->
  let n := slot v i k in
  (n = 0 -> released sb (upto (k + 1)) v v1) /\
  (n <> 0 -> 0 <= n < sb_size sb /\ used v1 sb n = true /\ released sb (upto (k + 1)) v (free_view sb n v1)).
Proof using OW SLOT.
  intros Hk RL n. assert (in_file k) as Hin by (unfold in_file; lia).
  assert (forall b, upto (k + 1) b <-> b <> 0 /\ b = n \/ upto k b) as Hup.
  { intros b. unfold upto. split.
    - intros (Hb & a & Ha & E). destruct (decide (a = k)) as [->|]; [left; split; [done|symmetry; exact E]|right]. split; [done|]. exists a. split; [lia|done].
    - intros [[Hb ->]|(Hb & a & Ha & E)]; (split; [done|]); [exists k|exists a]; split; (lia || done). }
  split; intros Hn.
  - eapply released_iff; [|exact RL]. intros b. rewrite Hup. split; [by right|]. intros [[Hb ->]|?]; done.
  - pose proof (ow_block _ _ _ OW k Hin Hn) as D. fold n in D. pose proof (db_range _ _ _ D) as Hr.
    assert (~ upto k n) as Hnot.
    { intros (_ & a & Ha & E). assert (k = a); [|lia]. apply (ow_inj _ _ _ OW); [done|unfold in_file; lia|done|]. by rewrite E. }
    split_and!; [lia|lia| |].
    + rewrite (rl_used _ _ _ _ RL) by (done || lia). apply D.
    + eapply released_iff; [|by apply released_free]. intros b. rewrite Hup. split; [|tauto]. intros [->|?]; [left; done|by right].
Qed.

(** The log has room all along. *)
Lemma released_room F v1 s :
  lh_n (k_log s) = Z.of_nat (size (cv_pins v1)) -> released sb F v v1 -> lh_n (k_log s) <= lh_n (k_log s0) + sb_size sb / BPB + 1.
Proof using OW TX SLOT.
  intros -> RL. rewrite (tx_size R ∅ _ _ TX).
  pose proof (bm_size _ _ (ow_bm _ _ _ OW)). pose proof (released_size _ _ _ _ RL ltac:(lia)). lia.
Qed.

(** *** The direct blocks *)
Definition cleared (k : nat) (i' : inode) : Prop :=
  length (i_addrs i') = 13%nat /\ forall j, (j < 13)%nat -> addr_at i' j = if (j <? k)%nat then 0 else addr_at i j.

Definition direct_inv (k : nat) (s : kst) : Prop :=
  exists v1, tx R v1 s /\ released sb (upto (Z.of_nat k)) v v1 /\ inode_frame ip s0 s /\ cleared k (inode_at s ip).

Lemma cleared_step k i' :
  (k < 13)%nat -> cleared k i' -> cleared (S k) (set_addr k 0 i') /\ (addr_at i k = 0 -> cleared (S k) i').
Proof using SLOT.
  intros Hk [Hl Ha]. split.
  - split; [unfold set_addr; cbn; by rewrite length_insert|]. intros j Hj. unfold addr_at, set_addr. cbn [i_addrs set_i_addrs].
    rewrite !list_lookup_total_alt. destruct (decide (j = k)) as [->|Hne].
    + rewrite list_lookup_insert_eq by lia. destruct (Nat.ltb_spec k (S k)); [done|lia].
    + rewrite list_lookup_insert_ne by done. specialize (Ha j Hj). unfold addr_at in Ha. rewrite list_lookup_total_alt in Ha.
      rewrite Ha, list_lookup_total_alt. destruct (Nat.ltb_spec j k), (Nat.ltb_spec j (S k)); try done; lia.
  - intros H0. split; [done|]. intros j Hj. rewrite Ha by done.
    destruct (Nat.ltb_spec j k), (Nat.ltb_spec j (S k)); try done; [lia|]. by replace j with k by lia.
Qed.

Lemma direct_step k s :
  (0 <= k < 0 + IND)%nat -> direct_inv k s ->
  exists s', (i ← geti ip; when (truthy (addr_at i k)) (bfree (i_dev i) (addr_at i k) ;; updi ip (set_addr k 0))) s
    = Done tt s' /\ direct_inv (S k) s'.
Proof using BC TX SLOT DEV OW ROOM.
  unfold IND. intros Hk (v1 & T1 & RL & F & C). pose proof F as (S1 & I1 & A1 & B1 & M1 & K1).
  unfold geti. rewrite bind_gets. destruct C as [Hl Ha].
  assert (addr_at (inode_at s ip) k = slot v i (Z.of_nat k)) as Ek.
  { rewrite (Ha k) by lia. rewrite Nat.ltb_irrefl. unfold slot. change NDIRECT with 12.
    destruct (Z.ltb_spec (Z.of_nat k) 0), (Z.ltb_spec (Z.of_nat k) 12); try lia. by rewrite Nat2Z.id. }
  assert (addr_at i k = slot v i (Z.of_nat k)) as Ek' by (rewrite <- Ek, (Ha k) by lia; by rewrite Nat.ltb_irrefl).
  rewrite Ek. destruct (released_slot (Z.of_nat k) v1) as [H0 H1]; [change MAXFILE with 268; lia|done|].
  replace (Z.of_nat k + 1) with (Z.of_nat (S k)) in * by lia. unfold truthy.
  destruct (Z.eqb_spec (slot v i (Z.of_nat k)) 0) as [E|Hne]; cbn [negb when].
  { exists s. split; [done|]. exists v1. split_and!; [done|by apply H0|done|]. apply (proj2 (cleared_step k (inode_at s ip) ltac:(lia) (conj Hl Ha))). congruence. }
  destruct (H1 Hne) as (Hr & Hu & RL2). pose proof (released_room _ v1 s (tx_size R ∅ _ _ T1) RL) as Hroom.
  destruct (bfree_ok dev R v1 s (slot v i (Z.of_nat k)) T1) as (s2 & E2 & T2 & Hf2); rewrite ?B1; try done; [lia|apply RL|].
  rewrite B1 in T2. fold sb in T2.
  assert (i_dev (inode_at s ip) = dev) as -> by (rewrite A1; exact DEV). rewrite (bind_Done _ _ _ _ _ E2).
  destruct (inode_frame_addr 1 ip s s2 k 0) as [F2 I2]; [by rewrite I1, length_insert|done|].
  eexists. split; [reflexivity|]. exists (free_view sb (slot v i (Z.of_nat k)) v1).
  split_and!; [by apply (tx_ext dev R ∅ _ s2)|done|by apply (inode_frame_trans ip s0 s)|].
  rewrite I2. exact (proj1 (cleared_step k (inode_at s ip) ltac:(lia) (conj Hl Ha))).
Qed.

(** *** The blocks of the indirect block, which is locked in buffer [b] *)
Section entries.
Context (b : nat) (i1 : inode).
Let ind := addr_at i IND.
Let hd : gmap Z nat := <[ind := b]> ∅.
Context (IND0 : ind <> 0).

Definition entry_inv (j : nat) (s : kst) : Prop :=
  exists v1, txh R hd (hold ind b v1) s /\ released sb (upto (12 + Z.of_nat j)) v v1 /\ inode_frame ip s0 s /\ inode_at s ip = i1.

Lemma ind_block : data_block v sb ind.
Proof using OW SLOT IND0. exact (ow_block _ _ _ OW (-1) ltac:(done) IND0). Qed.

Lemma entry_step j s :
  (0 <= j < 0 + Z.to_nat NINDIRECT)%nat -> entry_inv j s ->
  exists s', (bf ← getb b; let a := u32_at (b_data bf) (4 * j) in
    i ← geti ip; when (truthy a) (bfree (i_dev i) a)) s = Done tt s' /\ entry_inv (S j) s'.
Proof using BC TX SLOT DEV OW ROOM IND0.
  change (Z.to_nat NINDIRECT) with 256%nat. intros Hj (v1 & T1 & RL & F & Hi). pose proof F as (S1 & I1 & A1 & B1 & M1 & K1).
  unfold getb, geti. rewrite !bind_gets.
  assert (b_data (buf_at s b) = cv_data v ind) as ->.
  { rewrite (bc_data (dev := dev) (hold ind b v1) s ind b (tx_R _ _ _ _ T1)) by apply lookup_insert_eq. cbn.
    apply (rl_data _ _ _ _ RL). apply ind_block. }
  assert (u32_at (cv_data v ind) (4 * j) = slot v i (12 + Z.of_nat j)) as ->.
  { unfold slot. fold ind. change NDIRECT with 12. destruct (Z.ltb_spec (12 + Z.of_nat j) 0), (Z.ltb_spec (12 + Z.of_nat j) 12); try lia.
    rewrite (proj2 (Z.eqb_neq _ _) IND0). do 2 f_equal. lia. }
  set (n := slot v i (12 + Z.of_nat j)).
  destruct (released_slot (12 + Z.of_nat j) v1) as [H0 H1]; [change MAXFILE with 268; lia|done|]. fold n in H0, H1.
  replace (12 + Z.of_nat j + 1) with (12 + Z.of_nat (S j)) in * by lia. cbv zeta. unfold truthy.
  destruct (Z.eqb_spec n 0) as [E|Hne]; cbn [negb when].
  { exists s. split; [done|]. exists v1. split_and!; [done|by apply H0|done|done]. }
  destruct (H1 Hne) as (Hr & Hu & RL2). pose proof (released_room _ v1 s (tx_size R hd _ _ T1) RL) as Hroom.
  destruct (bfree_held dev R hd (hold ind b v1) s n T1) as (s2 & E2 & T2 & Hf2); rewrite ?B1; try done.
  { unfold hd. rewrite insert_empty, map_size_singleton. lia. }
  { unfold hd. rewrite lookup_insert_ne; [done|]. apply not_eq_sym, (db_bitmap _ _ _ ind_block). lia. }
  { destruct (rl_bm _ _ _ _ RL). by split. }
  assert (i_dev (inode_at s ip) = dev) as -> by (rewrite A1; exact DEV).
  destruct (inode_frame_same 1 ip s s2) as [F2 I2]; [by rewrite I1, length_insert|done|].
  exists s2. split; [done|]. exists (free_view sb n v1).
  split_and!; [rewrite B1 in T2; exact T2|done|by apply (inode_frame_trans ip s0 s)|congruence].
Qed.
End entries.

(** All the blocks of the file. *)
Definition all_blocks (b : Z) : Prop := b <> 0 /\ exists a, in_file a /\ slot v i a = b.

Lemma all_upto b : all_blocks b <-> b <> 0 /\ b = addr_at i IND \/ upto MAXFILE b.
Proof using SLOT.
  unfold all_blocks, upto, in_file. split.
  - intros (Hb & a & Ha & E). destruct (decide (a = -1)) as [->|]; [left; split; [done|symmetry; exact E]|].
    right. split; [done|]. exists a. split; [lia|done].
  - intros [[Hb ->]|(Hb & a & Ha & E)]; (split; [done|]); [exists (-1); done|exists a; split; [lia|done]].
Qed.

(** *** The second half *)
Definition trunc_indirect : K unit :=
  i ← geti ip;
  when (truthy (addr_at i IND))
    (bp ← bread (i_dev i) (addr_at i IND);
     foreach_ (seq 0 (Z.to_nat NINDIRECT)) (fun j =>
       bf ← getb bp;
       let a := u32_at (b_data bf) (4 * j) in
       i ← geti ip;
       when (truthy a) (bfree (i_dev i) a)) ;;
     brelse bp ;;
     i ← geti ip;
     bfree (i_dev i) (addr_at i IND) ;;
     updi ip (set_addr IND 0)).

Definition trunc_post (s : kst) : Prop :=
  exists v1, tx R v1 s /\ released sb all_blocks v v1 /\ inode_frame ip s0 s /\ cleared 13 (inode_at s ip).

Lemma no_indirect s : direct_inv IND s -> addr_at i IND = 0 -> trunc_post s.
Proof using OW SLOT.
  intros (v1 & T1 & RL & F & C) E. exists v1. split_and!; [done| |done|].
  - eapply released_iff; [|exact RL]. intros b. rewrite all_upto, E. unfold upto. change (Z.of_nat IND) with 12. split.
    + intros (Hb & a & Ha & Es). right. split; [done|]. exists a. split; [change MAXFILE with 268; lia|done].
    + intros [[Hb ->]|(Hb & a & Ha & Es)]; [done|]. split; [done|]. exists a. split; [|done].
      destruct (Z.lt_ge_cases a 12); [lia|]. destruct Hb. rewrite <- Es. unfold slot. change NDIRECT with 12.
      destruct (Z.ltb_spec a 0), (Z.ltb_spec a 12); try lia. by rewrite E.
  - by apply (proj2 (cleared_step IND (inode_at s ip) ltac:(unfold IND; lia) C)).
Qed.

(** After the entries: the buffer is let go of, and its block freed. *)
Lemma indirect_last b i1 s :
  addr_at i IND <> 0 -> entry_inv b i1 (Z.to_nat NINDIRECT) s -> cleared IND i1 ->
  exists s', (brelse b ;; i ← geti ip; bfree (i_dev i) (addr_at i IND) ;; updi ip (set_addr IND 0)) s = Done tt s' /\ trunc_post s'.
Proof using BC TX SLOT DEV OW ROOM.
  intros Hne (v1 & T1 & RL & F & Hi) C. pose proof F as (S1 & I1 & A1 & B1 & M1 & K1). set (ind := addr_at i IND) in *.
  pose proof (ind_block Hne) as D. fold ind in D. change (12 + Z.of_nat (Z.to_nat NINDIRECT)) with MAXFILE in RL.
  assert (cv_held v1 = ∅) as Hh by (rewrite (rl_held _ _ _ _ RL); apply TX).
  destruct (bc_brelse (dev := dev) (hold ind b v1) s ind b (tx_R _ _ _ _ T1)) as (s2 & E2 & HR2 & Hf2); [apply lookup_insert_eq| |].
  { cbn. destruct (decide (ind ∈ cv_pins v)) as [Hp|Hp]; [left; by apply (rl_mono _ _ _ _ RL)|right].
    rewrite (rl_data _ _ _ _ RL) by apply D. rewrite (rl_disk _ _ _ _ RL).
    apply (bc_clean (dev := dev) v s0); [apply TX|by rewrite (tx_held _ _ _ _ TX)|done]. }
  rewrite unhold_hold in HR2 by by rewrite Hh. rewrite (bind_Done _ _ _ _ _ E2).
  assert (tx R v1 s2) as T2.
  { destruct T1 as [_ _ Hlog Hout Hpin Hlk]. destruct Hf2 as (S2 & L2 & _). split; rewrite ?L2; try done. by eapply lock_free_settled. }
  destruct (inode_frame_same 0 ip s s2) as [F2 I2]; [by rewrite I1, length_insert|by apply bio_write_frame|].
  pose proof (inode_frame_trans ip s0 s s2 F F2) as F3. pose proof F3 as (S3 & I3 & A3 & B3 & M3 & K3).
  unfold geti. rewrite bind_gets. assert (i_dev (inode_at s2 ip) = dev) as -> by (rewrite A3; exact DEV).
  assert (addr_at (inode_at s2 ip) IND = ind) as ->.
  { rewrite I2, Hi. rewrite (proj2 C IND) by (unfold IND; lia). by rewrite Nat.ltb_irrefl. }
  assert (~ upto MAXFILE ind) as Hnot.
  { intros (_ & a & Ha & E). assert (-1 = a); [|lia]. apply (ow_inj _ _ _ OW); [done|unfold in_file; lia|done|by rewrite E]. }
  pose proof (released_room _ v1 s2 (tx_size R ∅ _ _ T2) RL) as Hroom. pose proof (db_range _ _ _ D) as Hr.
  destruct (bfree_ok dev R v1 s2 ind T2) as (s3 & E3 & T3 & Hf3); rewrite ?B3; [lia|apply RL|fold sb; lia| |].
  { fold sb. rewrite (rl_used _ _ _ _ RL) by (done || lia). apply D. }
  rewrite (bind_Done _ _ _ _ _ E3). rewrite B3 in T3. fold sb in T3.
  destruct (inode_frame_addr 1 ip s2 s3 IND 0) as [F4 I4]; [by rewrite I3, length_insert|done|].
  eexists. split; [reflexivity|]. exists (free_view sb ind v1).
  split_and!; [by apply (tx_ext dev R ∅ _ s3)| |by apply (inode_frame_trans ip s0 s2)|].
  - eapply released_iff; [|by apply (released_free sb _ v v1 ind D RL)]. intros x. rewrite all_upto. fold ind.
    split; [intros [->|?]; tauto|tauto].
  - rewrite I4, I2, Hi. exact (proj1 (cleared_step IND i1 ltac:(unfold IND; lia) C)).
Qed.

Lemma indirect_ok s : direct_inv IND s -> exists s', trunc_indirect s = Done tt s' /\ trunc_post s'.
Proof using BC TX SLOT DEV OW ROOM.
  intros HI. pose proof HI as (v1 & T1 & RL & F & C). pose proof F as (S1 & I1 & A1 & B1 & M1 & K1).
  unfold trunc_indirect, geti. rewrite bind_gets.
  assert (addr_at (inode_at s ip) IND = addr_at i IND) as -> by (rewrite (proj2 C IND) by (unfold IND; lia); by rewrite Nat.ltb_irrefl).
  unfold truthy. destruct (Z.eqb_spec (addr_at i IND) 0) as [E|Hne]; cbn [negb when].
  { exists s. split; [done|]. by apply no_indirect. }
  assert (i_dev (inode_at s ip) = dev) as -> by (rewrite A1; exact DEV). set (ind := addr_at i IND) in *.
  pose proof (released_room _ v1 s (tx_size R ∅ _ _ T1) RL) as Hroom.
  destruct (read_block dev R v1 s ind (tx_R _ _ _ _ T1) (tx_quiet R v1 s T1 ltac:(lia))) as (b & s2 & E2 & HR2 & Hf2 & _).
  pose proof Hf2 as (S2 & L2 & _). rewrite (bind_Done _ _ _ _ _ E2).
  destruct (inode_frame_same 0 ip s s2) as [F2 I2]; [by rewrite I1, length_insert|by apply bio_write_frame|].
  destruct (foreach_seq _ (entry_inv b (inode_at s ip)) 0 (Z.to_nat NINDIRECT) s2 (entry_step b (inode_at s ip) Hne)) as (s3 & E3 & H3).
  { exists v1. split_and!; [by apply (tx_hold R ∅ v1 s)|exact RL|by apply (inode_frame_trans ip s0 s)|done]. }
  rewrite (bind_Done _ _ _ _ _ E3). by apply (indirect_last b (inode_at s ip)).
Qed.

(** An inode without block numbers. *)
Lemma cleared_slot v1 i1 a : cleared 13 i1 -> in_file a -> slot v1 i1 a = 0.
Proof using SLOT.
  intros [_ Ha] Hin. unfold in_file in Hin. assert (forall j, (j < 13)%nat -> addr_at i1 j = 0) as Hz.
  { intros j Hj. rewrite Ha by done. by rewrite (proj2 (Nat.ltb_lt j 13) Hj). }
  unfold slot. change NDIRECT with 12. rewrite (Hz IND) by (unfold IND; lia).
  destruct (Z.ltb_spec a 0); [done|]. destruct (Z.ltb_spec a 12); [apply Hz; lia|done].
Qed.

Lemma cleared_owns v1 i1 : bitmap_ok v1 sb -> cleared 13 i1 -> owns v1 sb i1.
Proof using SLOT.
  intros Hbm C. split; [done|apply C| |].
  - intros a Ha. by rewrite (cleared_slot v1 i1 a C Ha).
  - intros a b Ha Hb. by rewrite (cleared_slot v1 i1 a C Ha).
Qed.

(** itrunc() up to the inode on disk. *)
Lemma trunc_blocks :
  exists s', (foreach_ (seq 0 IND) (fun k =>
      i ← geti ip;
      when (truthy (addr_at i k))
        (bfree (i_dev i) (addr_at i k) ;;
         updi ip (set_addr k 0)))) s0 = Done tt s' /\
    exists s'', trunc_indirect s' = Done tt s'' /\ trunc_post s''.
Proof using BC TX SLOT DEV OW ROOM.
  destruct (foreach_seq _ direct_inv 0 IND s0 direct_step) as (s1 & E1 & H1).
  { exists v. split_and!; [done| | |].
    - apply released_nil; [apply OW|]. intros b (Hb & a & Ha & _). lia.
    - apply (inode_frame_same 0 ip s0 s0 SLOT). split_and!; try done. lia.
    - split; [apply OW|]. intros j Hj. done. }
  destruct (indirect_ok s1 H1) as (s2 & E2 & H2). eauto.
Qed.

(** The free blocks are the old ones and those of the file. *)
Lemma released_frees v1 b : released sb all_blocks v v1 -> b ∈ frees v1 sb <-> b ∈ frees v sb \/ all_blocks b.
Proof using OW SLOT.
  intros RL. rewrite !elem_of_frees.
  assert (all_blocks b \/ ~ all_blocks b) as [Ha|Ha].
  { destruct (decide (b ∈ (slot v i <$> seqZ (-1) 269) /\ b <> 0)) as [[H1 H2]|H]; [left|right].
    - apply list_elem_of_fmap in H1 as (a & -> & Ha%elem_of_seqZ). split; [done|]. exists a. split; [|done].
      unfold in_file. change MAXFILE with 268. lia.
    - intros (Hb & a & Hin & <-). apply H. split; [|done]. apply list_elem_of_fmap. exists a. split; [done|].
      apply elem_of_seqZ. unfold in_file in Hin. change MAXFILE with 268 in Hin. lia. }
  - pose proof Ha as (Hb & a & Hin & E). assert (0 <= b < sb_size sb) as Hr.
    { rewrite <- E in Hb |- *. pose proof (db_range _ _ _ (ow_block _ _ _ OW a Hin Hb)). lia. }
    rewrite (rl_free _ _ _ _ RL) by done. tauto.
  - split.
    + intros [Hr Hu]. left. by rewrite (rl_used _ _ _ _ RL) in Hu.
    + intros [[Hr Hu]|?]; [|done]. by rewrite (rl_used _ _ _ _ RL).
Qed.

Lemma released_apart v1 i1 nb :
  apart v sb i nb -> released sb all_blocks v v1 -> cleared 13 i1 -> apart v1 sb i1 nb.
Proof using OW SLOT.
  intros [A1 A2 A3 A4] RL C. split; [done| |done|].
  - rewrite (released_frees v1 nb RL). intros [?|(Hb & a & Hin & E)]; [done|]. apply (A4 a Hin); congruence.
  - intros a Ha. by rewrite (cleared_slot v1 i1 a C Ha).
Qed.

(** C13: giving a file's blocks back.  In an open transaction, for an inode
    whose blocks are marked in the bitmap and all different, itrunc() returns;
    the inode has no block and size 0 afterwards, in memory and on disk; the
    blocks that were free and those of the file, direct, indirect and the
    indirect block itself, are exactly the free ones; no block changes but
    those of the bitmap and the inode's own, so no other file does; and no
    more than the bitmap and the inode's block are logged. *)
Theorem itrunc_frees :
  let nb := IBLOCK (i_inum i) sb in
  apart v sb i nb ->
  exists v' s', itrunc ip s0 = Done tt s' /\ tx R v' s' /\ owns v' sb (inode_at s' ip) /\
    (forall a, in_file a -> slot v' (inode_at s' ip) a = 0) /\ i_size (inode_at s' ip) = 0 /\
    (forall b, b ∈ frees v' sb <-> b ∈ frees v sb \/ all_blocks b) /\
    (forall m, m <> nb -> (forall b, 0 <= b < sb_size sb -> BBLOCK b sb <> m) -> cv_data v' m = cv_data v m) /\
    cv_data v' nb = write_dinode (cv_data v nb) (dinode_off (i_inum i)) (dinode_of (inode_at s' ip)) /\
    lh_n (k_log s') <= lh_n (k_log s0) + sb_size sb / BPB + 2.
Proof using BC TX SLOT DEV OW ROOM.
  intros nb AP. destruct trunc_blocks as (s1 & E1 & s2 & E2 & v1 & T2 & RL & F & C).
  pose proof F as (S2 & I2 & A2 & B2 & M2 & K2). pose proof (released_room _ v1 s2 (tx_size R ∅ _ _ T2) RL) as Hroom.
  set (s3 := set_k_inodes (alter (set_i_size 0) ip (k_inodes s2)) s2). set (i3 := set_i_size 0 (inode_at s2 ip)).
  assert (inode_at s3 ip = i3) as Hi3 by (unfold s3; rewrite inode_at_alter by (by rewrite I2, length_insert); done).
  assert (i_inum i3 = i_inum i /\ i_dev i3 = i_dev i) as [Hnum Hdv] by (unfold i3; rewrite A2; done).
  destruct (iupdate_ok dev R v1 s3 ip) as (s4 & E4 & Hf4 & T4); rewrite ?Hi3, ?Hnum, ?Hdv.
  { by apply (tx_ext dev R ∅ v1 s2). } { change (k_log s3) with (k_log s2). lia. } { exact DEV. }
  { change (k_sb s3) with (k_sb s2). rewrite B2. apply AP. }
  rewrite Hi3, Hnum in T4. change (k_sb s3) with (k_sb s2) in T4. rewrite B2 in T4. fold sb in T4. fold nb in T4.
  destruct Hf4 as (S4 & I4 & B4 & M4 & N4 & K4).
  assert (inode_at s4 ip = i3) as Hi4 by (unfold inode_at; rewrite I4; exact Hi3).
  assert (cleared 13 i3) as C3 by exact C.
  assert (forall b, 0 <= b < sb_size sb -> BBLOCK b sb <> nb) as Hnb by apply AP.
  pose proof (released_apart v1 i3 nb AP RL C3) as AP1. pose proof (cleared_owns v1 i3 (rl_bm _ _ _ _ RL) C3) as OW1.
  eexists _, s4. rewrite Hi4. split_and!; [|exact T4|by apply (apart_owns v1 sb i3 i3)| |done| | | |].
  - unfold itrunc. rewrite (bind_Done _ _ _ _ _ E1). unfold trunc_indirect, geti in E2. rewrite bind_gets in E2.
    unfold geti. rewrite bind_gets, (bind_Done _ _ _ _ _ E2). exact E4.
  - intros a Ha. rewrite (apart_slot v1 sb i3 i3) by done. by apply cleared_slot.
  - intros b. rewrite <- (released_frees v1 b RL), !elem_of_frees.
    split; (intros [Hr Hu]; split; [done|]); [rewrite <- Hu; symmetry|rewrite <- Hu]; by apply (apart_used v1 sb i3).
  - intros m Hm Hb. rewrite apart_data by done. by apply (rl_data _ _ _ _ RL).
  - cbn. rewrite upd_eq. by rewrite (rl_data _ _ _ _ RL nb Hnb).
  - change (k_log s3) with (k_log s2) in N4. lia.
Qed.
End trunc.

(** ** An example: block 50, the only one of the file, becomes free *)
Lemma itrunc_frees_witness :
  exists s v' s', @itrunc sync_disk 0 s = Done tt s' /\ (50 ∉ frees (empty_view s) demo_sb) /\ 50 ∈ frees v' demo_sb.
Proof.
  destruct (demo_on_tx demo_disk demo_inode) as (s & T & Hd & Hi & Hsb & Hl & _). exists s.
  assert (cv_data (empty_view s) = demo_disk) as Ev by exact Hd.
  assert (inode_at s 0 = demo_inode) as Hi0 by (unfold inode_at; by rewrite Hi).
  destruct (@itrunc_frees sync_disk 1 (cache_ok 0 1) (cache_laws (SYNC := sync_disk_sync) 0 1) 0 (empty_view s) s)
    as (v' & s' & E & _ & _ & _ & _ & Hfr & _); rewrite ?Hsb, ?Hl, ?Hi0 in *.
  - rewrite Hi. cbn. lia.
  - reflexivity.
  - by apply demo_owns.
  - vm_compute. discriminate.
  - exact T.
  - by apply demo_apart.
  - exists v', s'. split; [exact E|]. split.
    + rewrite elem_of_frees. intros [_ Hu]. unfold used in Hu. rewrite Ev in Hu. vm_compute in Hu. done.
    + apply Hfr. right. split; [done|]. exists 0. split; [done|]. rewrite Hi0. by rewrite demo_slot.
Defined.
