(* ===== verification/Proc.v ===== *)
(** * Proc: the life of a process (the rest of kernel/proc.c) *)

From S2P Require Import Prelude Params Machine Spinlock Strings Kalloc Sched Vm Sleeplock Blockdev Bio Log Fs Pipe File.

Definition allocpid : K Z :=
  acquire LK_pid ;;
  pid ← gets k_nextpid;
  modify (set_k_nextpid (s32 (pid + 1))) ;;
  release LK_pid ;;
  mret pid.

(** Fields of [p->trapframe]. *)
Definition get_tf (p : nat) (off : Z) : K Z :=
  gets (fun s => ld64 (k_mem s) (p_trapframe (proc_at s p) + off)).
Definition set_tf (p : nat) (off v : Z) : K unit :=
  modify (fun s => set_k_mem (st64 (k_mem s) (p_trapframe (proc_at s p) + off) v) s).

(** [pp->parent == p], and the channel a parent waits on. *)
Definition wakeup_proc (p : option nat) : K unit :=
  match p with
  | Some i => wakeup (CH_proc i)
  | None => mret tt (* no process sleeps on the null channel *)
  end.

Section proc.
Context {SYM : Symbols} {DISK : BlockDev}.

Definition proc_pagetable (p : nat) : K Z :=
  (* An empty page table. *)
  pagetable ← uvmcreate;
  if pagetable =? 0 then mret 0 else
  (* map the trampoline code (for system call return) at the highest user
     virtual address. *)
  r ← mappages pagetable TRAMPOLINE PGSIZE sym_trampoline (Z.lor PTE_R PTE_X);
  if r <? 0 then
    uvmfree pagetable 0 ;;
    mret 0
  else
  (* map the trapframe page just below the trampoline page *)
  pr ← getp p;
  r ← mappages pagetable TRAPFRAME PGSIZE (p_trapframe pr) (Z.lor PTE_R PTE_W);
  if r <? 0 then
    uvmunmap pagetable TRAMPOLINE 1 false ;;
    uvmfree pagetable 0 ;;
    mret 0
  else mret pagetable.

Definition proc_freepagetable (pagetable sz : Z) : K unit :=
  uvmunmap pagetable TRAMPOLINE 1 false ;;
  uvmunmap pagetable TRAPFRAME 1 false ;;
  uvmfree pagetable sz.

Definition freeproc (p : nat) : K unit :=
  pr ← getp p;
  when (truthy (p_trapframe pr)) (kfree (p_trapframe pr)) ;;
  updp p (set_p_trapframe 0) ;;
  pr ← getp p;
  when (truthy (p_pagetable pr)) (proc_freepagetable (p_pagetable pr) (p_sz pr)) ;;
  updp p (set_p_pagetable 0) ;;
  updp p (set_p_sz 0) ;;
  updp p (set_p_pid 0) ;;
  updp p (set_p_parent None) ;;
  updp p (fun x => set_p_name (<[0%nat := 0]> (p_name x)) x) ;;
  updp p (set_p_chan None) ;;
  updp p (set_p_killed 0) ;;
  updp p (set_p_xstate 0) ;;
  updp p (set_p_state UNUSED) ;;
  updp p (set_p_tracing 0).

(** The table scan of allocproc(): the first UNUSED process, locked. *)
Definition find_unused : K (option nat) :=
  foreach (seq 0 NPROC) (fun i =>
    acquire (LK_proc i) ;;
    p ← getp i;
    if decide (p_state p = UNUSED) then mret (Some i)
    else release (LK_proc i) ;; mret None).

(** allocproc() from the label [found] on. *)
Definition allocproc_found (p : nat) : K (option nat) :=
  pid ← allocpid;
  updp p (set_p_pid pid) ;;
  updp p (set_p_state USED) ;;
  (* Allocate a trapframe page. *)
  tf ← kalloc;
  updp p (set_p_trapframe tf) ;;
  if tf =? 0 then
    freeproc p ;;
    release (LK_proc p) ;;
    mret None
  else
  (* An empty user page table. *)
  pt ← proc_pagetable p;
  updp p (set_p_pagetable pt) ;;
  if pt =? 0 then
    freeproc p ;;
    release (LK_proc p) ;;
    mret None
  else
  (* Set up new context to start executing at forkret, which returns to
     user space. *)
  updp p (set_p_context context_zero) ;;
  updp p (fun x => set_p_context (mkContext sym_forkret (p_kstack x + PGSIZE) (replicate 12 0)) x) ;;
  updp p (set_p_tracing 0) ;;
  mret (Some p).

Definition allocproc : K (option nat) :=
  r ← find_unused;
  match r with
  | None => mret None
  | Some p => allocproc_found p
  end.

Definition userinit : K unit :=
  r ← allocproc;
  modify (set_k_initproc r) ;;
  match r with
  | None => null_deref
  | Some p =>
      cwd ← namei (str "/");
      updp p (set_p_cwd cwd) ;;
      updp p (set_p_state RUNNABLE) ;;
      release (LK_proc p)
  end.

Definition growproc (n : Z) : K Z :=
  p ← curproc;
  pr ← getp p;
  let sz := p_sz pr in
  r ← (if 0 <? n then
      if u64 (sz + n) >? TRAPFRAME then mret None else
      sz ← uvmalloc (p_pagetable pr) sz (u64 (sz + n)) PTE_W;
      mret (if sz =? 0 then None else Some sz)
    else if n <? 0 then
      sz ← uvmdealloc (p_pagetable pr) sz (u64 (sz + n));
      mret (Some sz)
    else mret (Some sz));
  match r with
  | None => mret (-1)
  | Some sz =>
      updp p (set_p_sz sz) ;;
      mret 0
  end.

(** kfork() once the child [np] has a page table: its memory and registers. *)
Definition kfork_image (p np : nat) : K bool :=
  (* Copy user memory from parent to child. *)
  pp ← getp p;
  nn ← getp np;
  r ← uvmcopy (p_pagetable pp) (p_pagetable nn) (p_sz pp);
  if r <? 0 then
    freeproc np ;;
    release (LK_proc np) ;;
    mret false
  else
  updp np (set_p_sz (p_sz pp)) ;;
  (* copy saved user registers. *)
  modify (fun s => set_k_mem (mem_store (k_mem s) (p_trapframe (proc_at s np))
            (mem_load (k_mem s) (p_trapframe (proc_at s p)) TF_SIZE)) s) ;;
  (* Cause fork to return 0 in the child. *)
  set_tf np TF_a0 0 ;;
  (* increment reference counts on open file descriptors. *)
  foreach_ (seq 0 NOFILE) (fun i =>
    pp ← getp p;
    match p_ofile pp !!! i with
    | Some f => f ← filedup f; updp np (fun x => set_p_ofile (<[i := Some f]> (p_ofile x)) x)
    | None => mret tt
    end) ;;
  mret true.

(** And the rest: the fields it inherits, its parent, its state. *)
Definition kfork_publish (p np : nat) : K Z :=
  pp ← getp p;
  cwd ← (match p_cwd pp with Some c => idup c | None => null_deref end);
  updp np (set_p_cwd (Some cwd)) ;;
  updp np (fun x => set_p_name (safestrcpy (p_name x) (p_name pp) 16) x) ;;
  updp np (set_p_tracing (p_tracing pp)) ;;
  nn ← getp np;
  let pid := p_pid nn in
  release (LK_proc np) ;;
  acquire LK_wait ;;
  updp np (set_p_parent (Some p)) ;;
  release LK_wait ;;
  acquire (LK_proc np) ;;
  updp np (set_p_state RUNNABLE) ;;
  release (LK_proc np) ;;
  mret pid.

Definition kfork : K Z :=
  p ← curproc;
  (* Allocate process. *)
  r ← allocproc;
  match r with
  | None => mret (-1)
  | Some np =>
      ok ← kfork_image p np;
      if negb ok then mret (-1) else kfork_publish p np
  end.

Definition reparent (p : nat) : K unit :=
  foreach_ (seq 0 NPROC) (fun pp =>
    x ← getp pp;
    when (bool_decide (p_parent x = Some p))
      (ini ← gets k_initproc;
       updp pp (set_p_parent ini) ;;
       wakeup_proc ini)).

(** kexit() once the files and the directory have been let go. *)
Definition kexit_zombie (p : nat) (status : Z) : K unit :=
  acquire LK_wait ;;
  (* Give any children to init. *)
  reparent p ;;
  (* Parent might be sleeping in wait(). *)
  pr ← getp p;
  wakeup_proc (p_parent pr) ;;
  acquire (LK_proc p) ;;
  updp p (set_p_xstate status) ;;
  updp p (set_p_state ZOMBIE) ;;
  release LK_wait ;;
  (* Jump into the scheduler, never to return. *)
  sched ;;
  panic "zombie exit".

(** Does not return. *)
Definition kexit (status : Z) : K unit :=
  p ← curproc;
  ini ← gets k_initproc;
  if bool_decide (Some p = ini) then panic "init exiting" else
  (* Close all open files. *)
  foreach_ (seq 0 NOFILE) (fun fd =>
    pr ← getp p;
    match p_ofile pr !!! fd with
    | Some f =>
        fileclose f ;;
        updp p (fun x => set_p_ofile (<[fd := None]> (p_ofile x)) x)
    | None => mret tt
    end) ;;
  begin_op ;;
  pr ← getp p;
  (match p_cwd pr with Some c => iput c | None => null_deref end) ;;
  end_op ;;
  updp p (set_p_cwd None) ;;
  kexit_zombie p status.

(** kwait() has found the zombie [pp], whose lock it holds. *)
Definition kwait_found (p : nat) (addr : Z) (pp : nat) : K Z :=
  x ← getp pp;
  let pid := p_pid x in
  pr ← getp p;
  r ← (if negb (addr =? 0) then copyout (p_pagetable pr) addr (le_bytes 4 (p_xstate x))
       else mret 0);
  if r <? 0 then
    release (LK_proc pp) ;;
    release LK_wait ;;
    mret (-1)
  else
  freeproc pp ;;
  release (LK_proc pp) ;;
  release LK_wait ;;
  mret pid.

(** One scan of kwait(): [inl] the value to return, or [inr havekids]. *)
Fixpoint kwait_scan (p : nat) (addr : Z) (l : list nat) (havekids : bool) : K (Z + bool) :=
  match l with
  | [] => mret (inr havekids)
  | pp :: l' =>
      x ← getp pp;
      if negb (bool_decide (p_parent x = Some p)) then kwait_scan p addr l' havekids else
      (* make sure the child isn't still in exit() or swtch(). *)
      acquire (LK_proc pp) ;;
      x ← getp pp;
      if bool_decide (p_state x = ZOMBIE) then
        v ← kwait_found p addr pp;
        mret (inl v)
      else
      release (LK_proc pp) ;;
      kwait_scan p addr l' true
  end.

(** One turn of the loop of kwait(). *)
Definition kwait_round (p : nat) (addr : Z) (_ : unit) : K (unit + Z) :=
  (* Scan through table looking for exited children. *)
  r ← kwait_scan p addr (seq 0 NPROC) false;
  match r with
  | inl v => mret (inr v)
  | inr havekids =>
      (* No point waiting if we don't have any children. *)
      stop ← (if negb havekids then mret true else k ← killed p; mret (truthy k));
      if stop : bool then
        release LK_wait ;;
        mret (inr (-1))
      else
      (* Wait for a child to exit. *)
      sleep (CH_proc p) LK_wait ;;
      mret (inl tt)
  end.

Definition kwait (addr : Z) : K Z :=
  p ← curproc;
  acquire LK_wait ;;
  loop SLEEP_FUEL (kwait_round p addr) tt.
End proc.

(** ** Framing: what leaves the process table alone *)
Definition same_procs (s s' : kst) : Prop := k_procs s' = k_procs s.
#[global] Instance same_procs_preorder : PreOrder same_procs.
Proof. split; [done|]. intros a b c H1 H2. unfold same_procs in *. congruence. Qed.

Lemma keeps_push_off : keeps same_procs push_off.
Proof. unfold push_off, rc_sstatus, get_sstatus, put_sstatus, mycpu, upd_mycpu. keeps_auto. Qed.
Lemma keeps_pop_off : keeps same_procs pop_off.
Proof.
  unfold pop_off, intr_get, intr_on, s_sstatus, get_sstatus, put_sstatus, mycpu, upd_mycpu. keeps_auto.
Qed.
#[export] Hint Resolve keeps_push_off keeps_pop_off : keeps.

Lemma keeps_acquire l : keeps same_procs (acquire l).
Proof. unfold acquire, holding, exchange_locked, upd_lock. keeps_auto. Qed.
Lemma keeps_release l : keeps same_procs (release l).
Proof. unfold release, holding, upd_lock. keeps_auto. Qed.
#[export] Hint Resolve keeps_acquire keeps_release : keeps.

Lemma keeps_curproc : keeps same_procs curproc.
Proof. unfold curproc, myproc, mycpu, null_deref. keeps_auto. Qed.
#[export] Hint Resolve keeps_curproc : keeps.

Section frames.
Context {SYM : Symbols} {DISK : BlockDev}.

Lemma keeps_kalloc : keeps same_procs kalloc.
Proof. unfold kalloc, upd_mem. keeps_auto. Qed.
Lemma keeps_kfree pa : keeps same_procs (kfree pa).
Proof. unfold kfree, upd_mem. keeps_auto. Qed.
Hint Resolve keeps_kalloc keeps_kfree : keeps.

Lemma keeps_walk pt va alloc : keeps same_procs (walk pt va alloc).
Proof.
  unfold walk. destruct (va >=? MAXVA); [keeps_auto|]. generalize 2%nat as l. intros l. revert pt.
  induction l as [|l IH]; intros pt; cbn [walk_levels]; unfold getpte, setpte, upd_mem; keeps_auto.
Qed.
Hint Resolve keeps_walk : keeps.

Lemma keeps_mappages pt va sz pa perm : keeps same_procs (mappages pt va sz pa perm).
Proof. unfold mappages, getpte, setpte. keeps_auto. Qed.
Lemma keeps_uvmcreate : keeps same_procs uvmcreate.
Proof. unfold uvmcreate, upd_mem. keeps_auto. Qed.
Lemma keeps_uvmunmap pt va n f : keeps same_procs (uvmunmap pt va n f).
Proof. unfold uvmunmap, getpte, setpte. keeps_auto. Qed.
Hint Resolve keeps_mappages keeps_uvmcreate keeps_uvmunmap : keeps.

Lemma keeps_freewalk d pt : keeps same_procs (freewalk_depth d pt).
Proof.
  revert pt. induction d as [|d IH]; intros pt; cbn [freewalk_depth]; unfold getpte, setpte; keeps_auto.
Qed.
Hint Resolve keeps_freewalk : keeps.

Lemma keeps_uvmfree pt sz : keeps same_procs (uvmfree pt sz).
Proof. unfold uvmfree, freewalk. keeps_auto. Qed.
Lemma keeps_uvmcopy old new sz : keeps same_procs (uvmcopy old new sz).
Proof. unfold uvmcopy, getpte, upd_mem. keeps_auto. Qed.
Hint Resolve keeps_uvmfree keeps_uvmcopy : keeps.

Lemma keeps_proc_pagetable p : keeps same_procs (proc_pagetable p).
Proof. unfold proc_pagetable, getp. keeps_auto. Qed.
Lemma keeps_allocpid : keeps same_procs allocpid.
Proof. unfold allocpid. keeps_auto. Qed.
Lemma keeps_filedup f : keeps same_procs (filedup f).
Proof. unfold filedup, getf, updf. keeps_auto. Qed.
Lemma keeps_idup i : keeps same_procs (idup i).
Proof. unfold idup, updi. keeps_auto. Qed.
Lemma keeps_set_tf p off v : keeps same_procs (set_tf p off v).
Proof. unfold set_tf. keeps_auto. Qed.
Lemma keeps_find_unused : keeps same_procs find_unused.
Proof. unfold find_unused, getp. keeps_auto. Qed.
Hint Resolve keeps_proc_pagetable keeps_allocpid keeps_filedup keeps_idup keeps_set_tf
  keeps_find_unused : keeps.

End frames.

(** ** kfork *)
Section fork.
Context {SYM : Symbols} {DISK : BlockDev}.
Hint Resolve keeps_kalloc keeps_kfree keeps_uvmunmap keeps_uvmfree keeps_uvmcopy
  keeps_proc_pagetable keeps_allocpid
  keeps_filedup keeps_idup keeps_set_tf keeps_find_unused : keeps.

(** Only entry [i] of the process table may differ. *)
Definition procs_but (i : nat) (s s' : kst) : Prop :=
  length (k_procs s') = length (k_procs s) /\ forall j, j <> i -> k_procs s' !! j = k_procs s !! j.
#[global] Instance procs_but_preorder i : PreOrder (procs_but i).
Proof.
  split; [done|]. intros a b c [L1 H1] [L2 H2]. split; [congruence|].
  intros j Hj. by rewrite H2, H1.
Qed.

Lemma keeps_but {A} i (m : K A) : keeps same_procs m -> keeps (procs_but i) m.
Proof. intros H s a s' E%H. unfold same_procs in E. split; by rewrite E. Qed.

Lemma keeps_updp i f : keeps (procs_but i) (updp i f).
Proof.
  apply keeps_modify. intros s. split; cbn; [apply length_alter|].
  intros j Hj. by rewrite list_lookup_alter_ne.
Qed.
Hint Resolve keeps_but keeps_updp : keeps.

Lemma find_unused_Some s i s' :
  find_unused s = Done (Some i) s' ->
  (i < NPROC)%nat /\ p_state (proc_at s i) = UNUSED /\ k_procs s' = k_procs s.
Proof.
  intros H. pose proof (keeps_find_unused _ _ _ H) as Hk.
  apply (foreach_Some same_procs) in H as (x & s1 & Hx & HR & H); [|intros; unfold getp; keeps_auto].
  apply bind_inv in H as ([] & s2 & Ha & H). apply bind_inv in H as (p & s3 & Hp & H).
  injection Hp as <- <-. destruct (decide _) as [Hst|]; [|by apply bind_inv in H as (? & ? & _ & ?)].
  injection H as <- <-. apply elem_of_seq in Hx. split; [lia|]. split; [|done].
  apply keeps_acquire in Ha. unfold proc_at, same_procs in *. by rewrite <- HR, <- Ha.
Qed.

Lemma keeps_freeproc i : keeps (procs_but i) (freeproc i).
Proof. unfold freeproc, getp, proc_freepagetable. keeps_auto. Qed.
Hint Resolve keeps_freeproc : keeps.

Lemma keeps_allocproc_found i : keeps (procs_but i) (allocproc_found i).
Proof. unfold allocproc_found. keeps_auto. Qed.
Lemma keeps_kfork_image p np : keeps (procs_but np) (kfork_image p np).
Proof. unfold kfork_image, getp. keeps_auto. Qed.
Lemma keeps_kfork_publish p np : keeps (procs_but np) (kfork_publish p np).
Proof. unfold kfork_publish, getp, null_deref. keeps_auto. Qed.

(** Takes a run of a bind apart. *)
Ltac run_inv H := apply bind_inv in H as (? & ? & ? & H).

Lemma allocproc_Some s i s' :
  allocproc s = Done (Some i) s' ->
  (i < NPROC)%nat /\ p_state (proc_at s i) = UNUSED /\ procs_but i s s'
  /\ ((i < length (k_procs s))%nat -> p_tracing (proc_at s' i) = 0).
Proof.
  unfold allocproc. intros ([np|] & s1 & Hf & H)%bind_inv; [|done].
  apply find_unused_Some in Hf as (Hi & Hst & Hsame).
  pose proof (keeps_allocproc_found _ _ _ _ H) as [Hlen Hbut]. rewrite Hsame in Hlen, Hbut.
  unfold allocproc_found in H. do 5 run_inv H.
  case_match; [by do 2 run_inv H|]. do 2 run_inv H.
  case_match; [by do 2 run_inv H|]. do 2 run_inv H.
  apply bind_inv in H as (? & s2 & Hup & H). injection H as -> ->. injection Hup as _ <-.
  split; [done|]. split; [done|]. split; [done|]. intros Hlt.
  cbn in Hlen. rewrite length_alter in Hlen. by rewrite proc_at_alter by lia.
Qed.

(** The fields of the child when kfork() returns. *)
Lemma kfork_publish_child p np s r s' :
  kfork_publish p np s = Done r s' -> np <> p -> (np < length (k_procs s))%nat ->
  let c := proc_at s' np in
  p_tracing c = p_tracing (proc_at s p) /\ p_state c = RUNNABLE /\ p_parent c = Some p /\ p_pid c = r.
Proof.
  intros H Hne Hlt. unfold kfork_publish in H.
  apply bind_inv in H as (pp & s1 & Hpp & H). injection Hpp as <- <-.
  apply bind_inv in H as (cwd & s2 & Hc & H).
  assert (k_procs s2 = k_procs s) as E2.
  { destruct (p_cwd (proc_at s p)); [by apply keeps_idup in Hc|discriminate Hc]. }
  apply bind_inv in H as ([] & s3 & [= <-] & H). apply bind_inv in H as ([] & s4 & [= <-] & H).
  apply bind_inv in H as ([] & s5 & [= <-] & H). apply bind_inv in H as (nn & s6 & [= <- <-] & H).
  apply bind_inv in H as ([] & s7 & H7%keeps_release & H).
  apply bind_inv in H as ([] & s8 & H8%keeps_acquire & H).
  apply bind_inv in H as ([] & s9 & [= <-] & H).
  apply bind_inv in H as ([] & s10 & H10%keeps_release & H).
  apply bind_inv in H as ([] & s11 & H11%keeps_acquire & H).
  apply bind_inv in H as ([] & s12 & [= <-] & H).
  apply bind_inv in H as ([] & s13 & H13%keeps_release & H). injection H as <- <-.
  unfold same_procs, proc_at in *. cbn in *.
  apply lookup_lt_is_Some in Hlt as [x Hx]. rewrite E2 in *.
  assert (forall f l (y : proc), l !! np = Some y -> alter f np l !! np = Some (f y)) as Halt
    by (intros f l y Hy; by rewrite list_lookup_alter_eq, Hy).
  pose proof (Halt (set_p_cwd (Some cwd)) _ _ Hx) as Hx1.
  pose proof (Halt (fun x => set_p_name (safestrcpy (p_name x) (p_name (k_procs s !!! p)) 16) x) _ _ Hx1) as Hx2.
  pose proof (Halt (set_p_tracing (p_tracing (k_procs s !!! p))) _ _ Hx2) as Hx3.
  rewrite (list_lookup_total_correct _ _ _ Hx3). rewrite <- H7, <- H8 in Hx3.
  pose proof (Halt (set_p_parent (Some p)) _ _ Hx3) as Hx4. rewrite <- H10, <- H11 in Hx4.
  pose proof (Halt (set_p_state RUNNABLE) _ _ Hx4) as Hx5. rewrite <- H13 in Hx5.
  by rewrite (list_lookup_total_correct _ _ _ Hx5).
Qed.

(** C2: fork() hands the tracing word down.  When kfork() called by the
    running process [p] returns a pid (not -1), a slot that was UNUSED holds the
    child: its tracing word is the parent's, its parent is [p], it is RUNNABLE
    and has the returned pid; no other entry of the process table, the parent's
    included, has changed. *)
Theorem kfork_inherits_tracing p s r s' :
  cpu_ok s -> c_proc (k_cpu s) = Some p -> p_state (proc_at s p) = RUNNING ->
  length (k_procs s) = NPROC ->
  kfork s = Done r s' -> r <> -1 ->
  exists np, np <> p /\ p_state (proc_at s np) = UNUSED
    /\ p_tracing (proc_at s' np) = p_tracing (proc_at s p)
    /\ p_parent (proc_at s' np) = Some p /\ p_state (proc_at s' np) = RUNNABLE
    /\ p_pid (proc_at s' np) = r
    /\ forall j, j <> np -> k_procs s' !! j = k_procs s !! j.
Proof.
  intros Hok Hp Hrun Hlen H Hr. unfold kfork in H.
  rewrite (bind_Done _ _ _ _ _ (curproc_eq p s Hok Hp)) in H.
  apply bind_inv in H as ([np|] & s1 & Ha & H); [|by injection H as <- <-].
  apply allocproc_Some in Ha as (Hi & Hst & [L1 B1] & _). cbn in L1, B1.
  apply bind_inv in H as (ok & s2 & Hk & H). apply keeps_kfork_image in Hk as [L2 B2].
  destruct ok; cbn in H; [|by injection H as <- <-].
  pose proof (keeps_kfork_publish _ _ _ _ _ H) as [L3 B3].
  assert (np <> p) as Hne by (intros ->; unfold proc_at in *; cbn in Hst; congruence).
  assert (proc_at s2 p = proc_at s p) as Ep.
  { unfold proc_at. rewrite !list_lookup_total_alt. by rewrite B2, B1. }
  destruct (kfork_publish_child p np s2 r s' H Hne) as (H1 & H2 & H3 & H4); [lia|].
  exists np. split_and!; try done; [by rewrite H1, Ep|].
  intros j Hj. by rewrite B3, B2, B1.
Qed.
End fork.

(** Process 0, tracing calls 0 and 2, with four free pages: a trapframe and a
    three-page page table for one child. *)
Definition fork_kst : kst :=
  let s := idle_kst in
  set_k_freelist 0x87ffc000
    (set_k_mem (st64 (st64 (st64 (k_mem s) 0x87ffc000 0x87ffd000) 0x87ffd000 0x87ffe000)
                  0x87ffe000 0x87fff000)
       (set_k_procs (alter (fun p => set_p_cwd (Some 0%nat)
                              (set_p_trapframe 0x87000000 (set_p_tracing 5 p))) 0%nat (k_procs s)) s)).

Lemma kfork_inherits_tracing_witness :
  exists r s' np, @kfork built_kernel fork_kst = Done r s' /\ p_tracing (proc_at s' np) = 5.
Proof.
  assert (cpu_ok fork_kst) as Hok by (split; [done|intros H'; by vm_compute in H']).
  assert (match @kfork built_kernel fork_kst with Done r _ => negb (r =? -1) | _ => false end = true) as H
    by (vm_compute; reflexivity).
  destruct (@kfork built_kernel fork_kst) as [r s'|? ?|? ?|? ?] eqn:E; try discriminate H.
  apply negb_true_iff, Z.eqb_neq in H.
  destruct (@kfork_inherits_tracing built_kernel 0 fork_kst r s' Hok eq_refl eq_refl eq_refl E H)
    as (np & _ & _ & Ht & _).
  exists r, s', np. split; [reflexivity|exact Ht].
Defined.
