(* ===== verification/Exitwait.v ===== *)
(** * Exitwait: a process exits and its parent waits for it (kernel/proc.c)

    kexit() ends under [wait_lock]: the children go to init, the parent is
    woken and the process becomes a zombie; kwait() scans the table under the
    same lock.  So an exit cannot fall between the scan and the sleep. *)

From S2P Require Import Prelude Params Machine Spinlock Strings Kalloc Sched Vm Sleeplock Blockdev Bio Log Fs Pipe File Proc.

(** ** The table while [LK_wait] is held *)

(** [y] is [x], perhaps woken from its sleep on [ch]; the caller [me] is not. *)
Definition maybe_woken (me : nat) (ch : chan_id) (j : nat) (x y : proc) : Prop :=
  y = x \/ j <> me /\ p_state x = SLEEPING /\ p_chan x = Some ch /\ y = set_p_state RUNNABLE x.

Lemma below_S {A} (j a : nat) (x y : A) :
  a <> j -> (if decide (j < S a)%nat then x else y) = if decide (j < a)%nat then x else y.
Proof. intros. do 2 case_decide; done || lia. Qed.

Lemma set_k_procs_id s : set_k_procs (k_procs s) s = s.
Proof. by destruct s. Qed.

Section table.
Context (p : nat) (sw : kst).
Context (Hproc : c_proc (k_cpu sw) = Some p) (Hfree : procs_free sw) (Hnoff : 0 < c_noff (k_cpu sw)).

Lemma wakeup_table ch ps :
  length ps = NPROC ->
  exists ps', wakeup ch (set_k_procs ps sw) = Done tt (set_k_procs ps' sw) /\ length ps' = NPROC /\
    forall j x, ps !! j = Some x ->
      ps' !! j = Some (if bool_decide (j = p) then x else wake_proc ch x).
Proof using Hproc Hfree Hnoff.
  intros Hlen. exists (woken ch (set_k_procs ps sw)). split_and!.
  - rewrite wakeup_eq by (eapply can_lock_ext; [|exact Hfree]; reflexivity).
    rewrite touch_nested by done. reflexivity.
  - by rewrite length_woken.
  - intros j x Hx. rewrite (woken_lookup _ _ _ x) by (cbn; lia || done). f_equal.
    change (k_cpu (set_k_procs ps sw)) with (k_cpu sw). rewrite Hproc. repeat case_bool_decide; naive_solver.
Qed.

Lemma wake_maybe ch j x : j <> p -> maybe_woken p ch j x (wake_proc ch x).
Proof. intros Hj. unfold wake_proc. case_bool_decide as H; [|by left]. right. naive_solver. Qed.

(** *** reparent() *)
Definition adopted (ini : nat) (x : proc) : option nat :=
  if bool_decide (p_parent x = Some p) then Some ini else p_parent x.

(** The first [a] entries have been given to init. *)
Definition reparenting (ini : nat) (ps : list proc) (a : nat) (s : kst) : Prop :=
  exists ps', s = set_k_procs ps' sw /\ length ps' = NPROC /\
    forall j x, ps !! j = Some x -> exists y, maybe_woken p (CH_proc ini) j x y /\
      ps' !! j = Some (set_p_parent (if decide (j < a)%nat then adopted ini x else p_parent x) y).

Lemma maybe_woken_wake ini j x y q :
  j <> p -> maybe_woken p (CH_proc ini) j x y ->
  exists z, maybe_woken p (CH_proc ini) j x z /\ wake_proc (CH_proc ini) (set_p_parent q y) = set_p_parent q z.
Proof.
  intros Hj [->|(_ & H1 & H2 & ->)]; unfold wake_proc.
  - case_bool_decide as H; [|exists x; split; [by left|done]].
    exists (set_p_state RUNNABLE x). split; [right; naive_solver|done].
  - exists (set_p_state RUNNABLE x). split; [right; naive_solver|]. case_bool_decide as H; [by destruct H|done].
Qed.

Lemma set_p_parent_id x : set_p_parent (p_parent x) x = x.
Proof. by destruct x. Qed.

Lemma reparent_step ini ps a s :
  k_initproc sw = Some ini -> (a < NPROC)%nat -> length ps = NPROC -> reparenting ini ps a s ->
  exists s', (x ← getp a;
    when (bool_decide (p_parent x = Some p))
      (ini ← gets k_initproc; updp a (set_p_parent ini) ;; wakeup_proc ini)) s = Done tt s'
    /\ reparenting ini ps (S a) s'.
Proof using Hproc Hfree Hnoff.
  intros Hini Ha Hps (ps' & -> & Hlen & Htab). unfold getp. rewrite bind_gets.
  destruct (lookup_lt_is_Some_2 ps a) as [x Hx]; [lia|]. destruct (Htab a x Hx) as (y & Hy & Hay).
  rewrite decide_False in Hay by lia.
  assert (proc_at (set_k_procs ps' sw) a = set_p_parent (p_parent x) y) as -> by (by apply list_lookup_total_correct).
  cbn [p_parent set_p_parent].
  destruct (bool_decide (p_parent x = Some p)) eqn:E; cbn [when].
  - rewrite bind_gets. change (k_initproc (set_k_procs ps' sw)) with (k_initproc sw). rewrite Hini.
    erewrite bind_Done by reflexivity. cbn [wakeup_proc].
    destruct (wakeup_table (CH_proc ini) (alter (set_p_parent (Some ini)) a ps')) as (ps2 & Ew & Hl2 & H2);
      [by rewrite length_alter|].
    exists (set_k_procs ps2 sw). split; [exact Ew|]. exists ps2. split_and!; [done|done|].
    intros j xj Hj. destruct (Htab j xj Hj) as (yj & Hyj & Hj').
    set (q := if decide (j < S a)%nat then adopted ini xj else p_parent xj).
    assert (alter (set_p_parent (Some ini)) a ps' !! j = Some (set_p_parent q yj)) as Hq.
    { destruct (decide (a = j)) as [<-|Hne].
      - rewrite list_lookup_alter_eq, Hj'. cbn. unfold q. rewrite decide_False, decide_True by lia. simplify_eq.
        unfold adopted. by rewrite E.
      - rewrite list_lookup_alter_ne, Hj' by done. unfold q. by rewrite below_S. }
    rewrite (H2 _ _ Hq). destruct (bool_decide_reflect (j = p)) as [Hjp|Hjp]; [exists yj; split; [exact Hyj|reflexivity]|].
    destruct (maybe_woken_wake ini j xj yj q Hjp Hyj) as (z & Hz & ->). by exists z.
  - exists (set_k_procs ps' sw). split; [done|]. exists ps'. split_and!; [done|done|].
    intros j xj Hj. destruct (Htab j xj Hj) as (yj & Hyj & Hj'). exists yj. split; [done|]. rewrite Hj'.
    do 2 f_equal. destruct (decide (a = j)) as [<-|Hne]; [|by rewrite below_S].
    rewrite decide_False, decide_True by lia. simplify_eq. unfold adopted. by rewrite E.
Qed.

Lemma reparent_ok ini ps :
  k_initproc sw = Some ini -> length ps = NPROC ->
  exists ps', reparent p (set_k_procs ps sw) = Done tt (set_k_procs ps' sw) /\ length ps' = NPROC /\
    forall j x, ps !! j = Some x -> exists y, maybe_woken p (CH_proc ini) j x y /\
      ps' !! j = Some (set_p_parent (adopted ini x) y).
Proof using Hproc Hfree Hnoff.
  intros Hini Hlen. unfold reparent.
  destruct (foreach_seq (fun pp =>
    x ← getp pp;
    when (bool_decide (p_parent x = Some p))
      (ini ← gets k_initproc; updp pp (set_p_parent ini) ;; wakeup_proc ini))
    (reparenting ini ps) 0 NPROC (set_k_procs ps sw)) as (s' & E & (ps' & -> & Hl & Htab)).
  - intros k s Hk HP. apply reparent_step; [done|lia|done|done].
  - exists ps. split_and!; [done|done|]. intros j x Hx. exists x. split; [by left|].
    rewrite decide_False, set_p_parent_id by lia. done.
  - exists ps'. split_and!; [done|done|]. intros j x Hx. destruct (Htab j x Hx) as (y & Hy & Hj). exists y.
    split; [done|]. rewrite decide_True in Hj; [done|]. apply lookup_lt_Some in Hx. cbn in *. lia.
Qed.

End table.

(** ** kexit(), from the end of its transaction on *)

Section exit.
Context (p ini par : nat) (s : kst).
Context (Hrun : running p s) (Hwait : lock_free LK_wait s).
Context (Hini : k_initproc s = Some ini).
Context (Hpar : p_parent (proc_at s p) = Some par) (Hself : par <> p).

Lemma running_entry : k_procs s !! p = Some (proc_at s p).
Proof using Hrun. apply list_lookup_lookup_total_lt. rewrite (run_len p s Hrun). apply (run_slot p s Hrun). Qed.

Lemma wait_table :
  c_proc (k_cpu (acquired LK_wait s)) = Some p /\ procs_free (acquired LK_wait s)
  /\ 0 < c_noff (k_cpu (acquired LK_wait s)).
Proof using Hrun.
  destruct Hrun as [Hp Hi Hlen Hn Hf]. split_and!; [exact Hp| |cbn; by rewrite Hn].
  apply procs_free_acquired; [done|done|]. intros (i & _ & [=]).
Qed.

(** The entries of the table when the process hands over the CPU for good. *)
Definition left_behind (status : Z) (j : nat) (x : proc) (y : proc) : Prop :=
  if decide (j = p) then y = set_p_state ZOMBIE (set_p_xstate status x) else
  exists z, y = set_p_parent (adopted p ini x) z /\
    (z = set_p_state RUNNABLE x /\ p_state x = SLEEPING /\ p_chan x ∈ [Some (CH_proc ini); Some (CH_proc par)]
     \/ z = x /\ ~ (p_state x = SLEEPING /\ p_chan x = Some (CH_proc par))).

Lemma exit_table (ps1 ps2 : list proc) status :
  (forall j x, k_procs s !! j = Some x -> exists y, maybe_woken p (CH_proc ini) j x y /\
     ps1 !! j = Some (set_p_parent (adopted p ini x) y)) ->
  (forall j x, ps1 !! j = Some x ->
     ps2 !! j = Some (if bool_decide (j = p) then x else wake_proc (CH_proc par) x)) ->
  forall j x, k_procs s !! j = Some x -> exists y, left_behind status j x y /\
    alter (set_p_state ZOMBIE) p (alter (set_p_xstate status) p ps2) !! j = Some y.
Proof using Hrun Hwait Hini Hpar Hself.
  intros H1 H2 j x Hx. destruct (H1 j x Hx) as (y & Hy & E1). pose proof (H2 _ _ E1) as E2.
  unfold left_behind. destruct (decide (j = p)) as [->|Hne].
  - rewrite bool_decide_true in E2 by done. rewrite !list_lookup_alter_eq, E2. cbn.
    rewrite running_entry in Hx. injection Hx as <-.
    destruct Hy as [->|(? & _)]; [|done]. eexists. split; [|reflexivity].
    unfold adopted. rewrite Hpar, bool_decide_false by congruence. rewrite <- Hpar at 1. by destruct (proc_at s p).
  - rewrite bool_decide_false in E2 by done. rewrite !list_lookup_alter_ne, E2 by done.
    eexists. split; [|reflexivity]. unfold wake_proc. destruct Hy as [->|(_ & Hs & Hc & ->)].
    + case_bool_decide as Hw.
      * exists (set_p_state RUNNABLE x). split; [done|]. left. destruct Hw. split_and!; [done|done|set_solver].
      * exists x. split; [done|]. by right.
    + exists (set_p_state RUNNABLE x). split; [by case_bool_decide|]. left. split_and!; [done|done|set_solver].
Qed.

Lemma kexit_zombie_eq status :
  exists ps, (forall j x, k_procs s !! j = Some x -> exists y, left_behind status j x y /\ ps !! j = Some y)
    /\ length ps = NPROC /\
  let s1 := released LK_wait (acquired (LK_proc p) (set_k_procs ps (acquired LK_wait s))) in
  exists k, kexit_zombie p status s = Yield s1 k
    /\ forall s2, exists s3, k s2 = Panic "zombie exit" s3.
Proof using Hrun Hwait Hini Hpar Hself.
  destruct wait_table as (Hp & Hfree & Hnoff). pose proof (running_cpu_ok _ _ Hrun) as Hok.
  set (sw := acquired LK_wait s) in *.
  destruct (reparent_ok p sw Hp Hfree Hnoff ini (k_procs s)) as (ps1 & E1 & L1 & T1); [done|by destruct Hrun|].
  destruct (wakeup_table p sw Hp Hfree Hnoff (CH_proc par) ps1 L1) as (ps2 & E2 & L2 & T2).
  set (ps := alter (set_p_state ZOMBIE) p (alter (set_p_xstate status) p ps2)).
  exists ps. split; [by apply (exit_table ps1 ps2)|].
  assert (length ps = NPROC) as L by (unfold ps; by rewrite !length_alter). split; [done|]. intros s1.
  unfold kexit_zombie. erewrite bind_Done by by apply acquire_eq. fold sw.
  change (k_procs s) with (k_procs sw) in E1. rewrite set_k_procs_id in E1.
  erewrite bind_Done by exact E1. unfold getp. rewrite bind_gets.
  assert (p_parent (proc_at (set_k_procs ps1 sw) p) = Some par) as ->.
  { destruct (T1 p _ running_entry) as (y & _ & Ey). unfold proc_at at 1. cbn [k_procs set_k_procs].
    rewrite (list_lookup_total_correct _ _ _ Ey). cbn. unfold adopted. by rewrite Hpar, bool_decide_false by congruence. }
  cbn [wakeup_proc]. erewrite bind_Done by exact E2.
  erewrite bind_Done by (apply acquire_eq; [apply Hfree|apply (procs_free_lock sw); [done|apply Hrun]]).
  erewrite bind_Done by reflexivity. erewrite bind_Done by reflexivity.
  assert (holds_only p LK_wait (set_k_procs ps sw)) as Hh.
  { split_and!; [exact Hp|cbn; by rewrite (run_noff p s Hrun)|apply (SIE_pushed s)|apply lock_held_acquired|].
    cbn. rewrite L. apply Hrun. }
  destruct (swap_locks p LK_wait _ Hh) as (_ & Hp1 & Hn1 & Hs1 & Hl1 & _ & Hps & _); [done|]. fold s1 in Hp1, Hn1, Hs1, Hl1, Hps.
  erewrite bind_Done.
  2:{ apply release_eq; [|cbn; rewrite (run_noff p s Hrun); lia|apply (SIE_pushed sw)].
      eexists. cbn. rewrite lookup_insert_ne by done. apply lookup_insert_eq. }
  match goal with |- exists k, _ ?t = _ /\ _ => change t with s1 end.
  erewrite bind_Yield.
  2:{ apply (sched_eq p); [split_and!; [done|done|done|done|rewrite Hps; cbn; rewrite L; apply Hrun]|].
      unfold proc_at. rewrite Hps. cbn [k_procs set_k_procs]. unfold ps.
      destruct (lookup_lt_is_Some_2 ps2 p) as [y Hy]; [rewrite L2; apply Hrun|].
      erewrite list_lookup_total_correct; [|by rewrite !list_lookup_alter_eq, Hy]. done. }
  eexists. split; [reflexivity|]. intros s2. eexists. reflexivity.
Qed.
End exit.

(** ** kwait() *)

Definition zombie_child (p : nat) (ps : list proc) (c : nat) : Prop :=
  exists x, ps !! c = Some x /\ p_parent x = Some p /\ p_state x = ZOMBIE.
Definition has_child (p : nat) (ps : list proc) : Prop :=
  exists c x, ps !! c = Some x /\ p_parent x = Some p.
(** The child that a scan of the table comes to first. *)
Definition first_zombie (p : nat) (ps : list proc) (c : nat) : Prop :=
  zombie_child p ps c /\ forall j, (j < c)%nat -> ~ zombie_child p ps j.

Section wait.
Context {SYM : Symbols} {DISK : BlockDev}.
Context (p : nat) (addr : Z) (sw : kst).
Context (Hfree : procs_free sw) (Hnoff : 0 < c_noff (k_cpu sw)) (Hlen : length (k_procs sw) = NPROC).

(** One entry of the scan. *)
Lemma kwait_scan_step a l hk x :
  k_procs sw !! a = Some x ->
  kwait_scan p addr (a :: l) hk sw =
    if bool_decide (p_parent x = Some p) then
      if bool_decide (p_state x = ZOMBIE)
      then (v ← kwait_found p addr a; mret (inl v)) (acquired (LK_proc a) sw)
      else kwait_scan p addr l true sw
    else kwait_scan p addr l hk sw.
Proof using Hfree Hnoff Hlen.
  intros Hx. assert (proc_at sw a = x) as Ex by (by apply list_lookup_total_correct).
  assert (a < NPROC)%nat as Ha by (rewrite <- Hlen; by eapply lookup_lt_Some).
  assert (lock_free (LK_proc a) sw) as Hl by by apply procs_free_lock.
  cbn [kwait_scan]. unfold getp. rewrite bind_gets, Ex.
  destruct (bool_decide (p_parent x = Some p)); cbn [negb]; [|done].
  erewrite bind_Done by (apply acquire_eq; [apply Hfree|done]). rewrite bind_gets.
  change (proc_at (acquired (LK_proc a) sw) a) with (proc_at sw a). rewrite Ex.
  destruct (bool_decide (p_state x = ZOMBIE)); [done|].
  erewrite bind_Done by (apply (release_section (LK_proc a) sw); [apply Hfree|done|reflexivity]).
  rewrite (touch_nested sw) by done. f_equal. by destruct sw.
Qed.

(** The scan from entry [a] on: it stops at the first zombie child with the
    child's lock held, or goes over all entries and changes nothing. *)
Lemma kwait_scan_eq n a hk :
  (a + n = NPROC)%nat ->
  (exists c, (a <= c)%nat /\ zombie_child p (k_procs sw) c
     /\ (forall j, (a <= j < c)%nat -> ~ zombie_child p (k_procs sw) j)
     /\ kwait_scan p addr (seq a n) hk sw
        = (v ← kwait_found p addr c; mret (inl v)) (acquired (LK_proc c) sw))
  \/ (forall j, (a <= j)%nat -> ~ zombie_child p (k_procs sw) j)
     /\ exists hk', kwait_scan p addr (seq a n) hk sw = Done (inr hk') sw
          /\ (hk' = true <-> hk = true \/ exists j x, (a <= j)%nat /\ k_procs sw !! j = Some x /\ p_parent x = Some p).
Proof using Hfree Hnoff Hlen.
  revert a hk. induction n as [|n IH]; intros a hk Ha.
  - assert (forall j x, (a <= j)%nat -> k_procs sw !! j <> Some x) as Hno
      by (intros j x Hj Hx%lookup_lt_Some; lia).
    right. split; [intros j Hj (x & Hx & _); by apply (Hno j x)|]. exists hk. split; [done|].
    split; [by left|]. intros [?|(j & x & Hj & Hx & _)]; [done|]. by apply Hno in Hx.
  - destruct (lookup_lt_is_Some_2 (k_procs sw) a) as [x Hx]; [lia|].
    change (seq a (S n)) with (a :: seq (S a) n). rewrite (kwait_scan_step a _ hk x Hx).
    assert (forall j, (a <= j)%nat -> j = a \/ (S a <= j)%nat) as Hsplit by lia.
    assert (zombie_child p (k_procs sw) a <-> p_parent x = Some p /\ p_state x = ZOMBIE) as Hz.
    { unfold zombie_child. rewrite Hx. naive_solver. }
    destruct (bool_decide_reflect (p_parent x = Some p)) as [Hc|Hc];
      [destruct (bool_decide_reflect (p_state x = ZOMBIE)) as [Hs|Hs]|].
    + left. exists a. split_and!; [done|by apply Hz|lia|done].
    + destruct (IH (S a) true) as [(c & H1 & H2 & H3 & E)|(H1 & hk' & E & Hk)]; [lia|left|right].
      * exists c. split_and!; [lia|done| |done]. intros j Hj. destruct (decide (j = a)) as [->|]; [naive_solver|].
        apply H3. lia.
      * split; [intros j [->|Hj]%Hsplit; naive_solver|]. exists hk'. split; [done|]. rewrite Hk.
        split; [|by left]. intros _. right. exists a, x. naive_solver lia.
    + destruct (IH (S a) hk) as [(c & H1 & H2 & H3 & E)|(H1 & hk' & E & Hk)]; [lia|left|right].
      * exists c. split_and!; [lia|done| |done]. intros j Hj. destruct (decide (j = a)) as [->|]; [naive_solver|].
        apply H3. lia.
      * split; [intros j [->|Hj]%Hsplit; naive_solver|]. exists hk'. split; [done|]. rewrite Hk.
        split; (intros [?|(j & y & Hj & Hy & Hp)]; [by left|right]); exists j, y; split_and!; try done; [lia|].
        apply Hsplit in Hj as [->|]; [naive_solver|done].
Qed.

(** One turn of the loop, when the caller holds [LK_wait] and nothing else. *)
Context (Hheld : holds_only p LK_wait sw) (Hp : (p < NPROC)%nat).
Let wait_loop n := loop n (kwait_round p addr) tt.

Lemma wait_loop_found n c :
  first_zombie p (k_procs sw) c -> wait_loop (S n) sw = kwait_found p addr c (acquired (LK_proc c) sw).
Proof using Hfree Hnoff Hlen Hheld Hp.
  intros [Hc Hmin]. unfold wait_loop. cbn [loop].
  destruct (kwait_scan_eq NPROC 0 false) as [(d & _ & Hd & Hfirst & E)|(Hno & _)]; [lia| |].
  - assert (d = c) as -> by (destruct (lt_eq_lt_dec d c) as [[?|?]|?]; [by destruct (Hmin d)|done|];
      by destruct (Hfirst c); [lia|]).
    unfold kwait_round. rewrite !bind_as_res, E, !bind_as_res, !res_bind_bind. apply res_bind_ret.
  - destruct (Hno c); [lia|done].
Qed.

Lemma wait_loop_stops n :
  (forall c, ~ zombie_child p (k_procs sw) c) ->
  ~ has_child p (k_procs sw) \/ truthy (p_killed (proc_at sw p)) = true ->
  wait_loop (S n) sw = Done (-1) (released LK_wait sw).
Proof using Hfree Hnoff Hlen Hheld Hp.
  intros Hno Hstop. apply loop_done; [lia|]. unfold kwait_round.
  destruct (kwait_scan_eq NPROC 0 false) as [(d & _ & Hd & _)|(_ & hk & E & Hk)]; [lia|by apply Hno in Hd|].
  erewrite bind_Done by exact E. cbv beta iota.
  assert ((if negb hk then mret true else k ← killed p; mret (truthy k)) sw = Done true sw) as Es.
  { destruct hk; cbn [negb]; [|done].
    erewrite bind_Done by (apply killed_eq, procs_free_can_lock; done). rewrite touch_nested by done.
    destruct Hstop as [Hstop| ->]; [|done]. destruct Hstop.
    destruct (proj1 Hk eq_refl) as [|(j & x & _ & ?)]; [done|by exists j, x]. }
  erewrite bind_Done by exact Es. destruct Hheld as (_ & Hn & Hs & Hl & _).
  erewrite bind_Done by (apply release_eq; [done|rewrite Hn; lia|done]). done.
Qed.

Lemma wait_loop_sleeps n :
  (forall c, ~ zombie_child p (k_procs sw) c) -> has_child p (k_procs sw) ->
  truthy (p_killed (proc_at sw p)) = false ->
  exists k, wait_loop (S n) sw = Yield (asleep p (CH_proc p) LK_wait sw) k
    /\ forall s4, k s4 = ((updp p (set_p_chan None) ;; release (LK_proc p) ;; acquire LK_wait) ;; wait_loop n)
        (set_k_cpu (set_c_intena (c_intena (k_cpu (asleep p (CH_proc p) LK_wait sw))) (k_cpu s4)) s4).
Proof using Hfree Hnoff Hlen Hheld Hp.
  intros Hno (c & x & Hc) Hk0.
  destruct (kwait_scan_eq NPROC 0 false) as [(d & _ & Hd & _)|(_ & hk & E & Hk)]; [lia|by apply Hno in Hd|].
  assert (hk = true) as -> by (apply Hk; right; exists c, x; split; [lia|done]).
  destruct (sleep_yields p (CH_proc p) LK_wait sw Hheld) as (k & Ek & Hres); [done|by apply procs_free_lock|].
  assert (kwait_round p addr tt sw
    = Yield (asleep p (CH_proc p) LK_wait sw) (fun s' => res_bind (fun _ => mret (inl tt)) (k s'))) as Er.
  { unfold kwait_round. erewrite bind_Done by exact E. cbv beta iota delta [negb]. erewrite bind_Done.
    2:{ erewrite bind_Done by (apply killed_eq, procs_free_can_lock; done). rewrite Hk0, touch_nested by done. reflexivity. }
    cbv beta iota. erewrite bind_Yield by exact Ek. reflexivity. }
  eexists. split.
  - unfold wait_loop. cbn [loop]. erewrite bind_Yield by exact Er. reflexivity.
  - intros s4. cbv beta. rewrite Hres, res_bind_bind.
    reflexivity.
Qed.
End wait.

(** *** Coming back from the sleep *)
Lemma released_fields l s :
  k_hart (released l s) = k_hart s /\ c_proc (k_cpu (released l s)) = c_proc (k_cpu s)
  /\ c_noff (k_cpu (released l s)) = c_noff (k_cpu s) - 1 /\ k_procs (released l s) = k_procs s
  /\ k_locks (released l s) = <[l := mkSpinlock 0 (lk_name (get_lock s l)) None]> (k_locks s).
Proof. unfold released, popped. by destruct (_ && _). Qed.

(** What the scheduler must give back for kwait() to look again: the caller
    holds its own lock and nothing else, and the locks it will take are free. *)
Definition wait_resumable (p : nat) (s : kst) : Prop :=
  resumable p LK_wait s /\ length (k_procs s) = NPROC
  /\ forall i, (i < NPROC)%nat -> i <> p -> lock_free (LK_proc i) s.

Lemma wait_resumes p ie s :
  wait_resumable p s ->
  exists s', (updp p (set_p_chan None) ;; release (LK_proc p) ;; acquire LK_wait)
               (set_k_cpu (set_c_intena ie (k_cpu s)) s) = Done tt s'
    /\ holds_only p LK_wait s' /\ procs_free s' /\ k_procs s' = alter (set_p_chan None) p (k_procs s).
Proof.
  intros ([(Hp & Hn & Hs & [nm Hl] & Hi) [m Hm]] & Hlen & Hothers).
  set (s0 := set_k_cpu (set_c_intena ie (k_cpu s)) s).
  unfold updp. rewrite bind_modify. set (s1 := set_k_procs _ s0).
  destruct (released_fields (LK_proc p) s1) as (Eh & Ep & En & Eps & El).
  set (s2 := released (LK_proc p) s1) in *.
  assert (c_noff (k_cpu s2) = 0) as En2 by (rewrite En; cbn; lia).
  erewrite bind_Done by (apply release_eq; [exists nm; exact Hl|cbn; lia|exact Hs]). fold s2.
  rewrite acquire_eq; [|split; rewrite En2; lia|].
  2:{ exists m. rewrite El. by rewrite lookup_insert_ne. }
  eexists. split; [reflexivity|]. clearbody s2. split_and!.
  - split_and!; [cbn; rewrite Ep; exact Hp|cbn; by rewrite En2|apply (SIE_pushed s2)|apply lock_held_acquired|].
    cbn. rewrite Eps. cbn. by rewrite length_alter.
  - apply procs_free_acquired; [|done|intros (i & _ & [=])].
    split; [split; rewrite En2; lia|]. split; [rewrite En2; lia|]. intros l (i & Hi' & ->).
    unfold lock_free. rewrite El. destruct (decide (i = p)) as [->|Hne].
    + rewrite lookup_insert_eq. by eexists.
    + rewrite lookup_insert_ne by congruence. by apply Hothers.
  - cbn. by rewrite Eps.
Qed.

(** Clearing the caller's channel changes nobody's parent or state. *)
Lemma zombie_child_alter p ps c :
  zombie_child p (alter (set_p_chan None) p ps) c <-> zombie_child p ps c.
Proof.
  unfold zombie_child. destruct (decide (c = p)) as [->|Hne].
  - rewrite list_lookup_alter_eq. destruct (ps !! p) as [y|]; cbn; [|naive_solver].
    split; intros (x & [= <-] & H1 & H2); by eexists.
  - by rewrite list_lookup_alter_ne.
Qed.

Lemma first_zombie_alter p ps c :
  first_zombie p (alter (set_p_chan None) p ps) c <-> first_zombie p ps c.
Proof. unfold first_zombie. rewrite zombie_child_alter. by setoid_rewrite zombie_child_alter. Qed.

(** ** Collecting the child *)
Section collect.
Context {SYM : Symbols} {DISK : BlockDev}.
Hint Resolve keeps_kalloc keeps_kfree keeps_walk keeps_mappages keeps_uvmunmap keeps_uvmfree : keeps.

Lemma keeps_same {A} (m : K A) s a s' : keeps same_procs m -> m s = Done a s' -> same_procs s s'.
Proof. intros H. apply H. Qed.

Lemma keeps_copyout pt va src : keeps same_procs (copyout pt va src).
Proof.
  apply keeps_loop; [apply _|]. intros [dstva src'].
  unfold copyout_body, vmfault, ismapped, walkaddr, getp, getpte, upd_mem. keeps_auto.
Qed.

(** freeproc() leaves the entry free, and without parent and pid. *)
Lemma freeproc_clears c s s' :
  (c < length (k_procs s))%nat -> freeproc c s = Done tt s' ->
  (p_state (proc_at s' c) = UNUSED /\ p_parent (proc_at s' c) = None /\ p_pid (proc_at s' c) = 0)
  /\ forall j, j <> c -> k_procs s' !! j = k_procs s !! j.
Proof.
  intros Hc E. pose proof (keeps_freeproc _ _ _ _ E) as [Hl Hoth]. split; [|exact Hoth]. clear Hoth Hl.
  unfold freeproc in E.
  apply bind_inv in E as (pr & s1 & E1 & E). injection E1 as <- <-.
  apply bind_inv in E as ([] & s1 & E1 & E).
  assert (same_procs s s1) as H1 by (revert E1; apply keeps_same; unfold when; keeps_auto).
  apply bind_inv in E as ([] & s2 & E2 & E). injection E2 as <-.
  apply bind_inv in E as (pr & s3 & E3 & E). injection E3 as <- <-.
  apply bind_inv in E as ([] & s3 & E3 & E). set (s2 := set_k_procs _ s1) in E3.
  assert (same_procs s2 s3) as H3 by (revert E3; apply keeps_same; unfold when, proc_freepagetable; keeps_auto).
  unfold updp in E. rewrite !bind_modify in E. injection E as <-.
  destruct (lookup_lt_is_Some_2 (k_procs s3) c) as [y Hy].
  { rewrite H3. cbn. rewrite length_alter, H1. done. }
  unfold proc_at. cbn [k_procs set_k_procs].
  erewrite list_lookup_total_correct by (rewrite !list_lookup_alter_eq, Hy; reflexivity). done.
Qed.

(** kwait() with a zombie in hand returns its pid and frees its slot, or
    reports that the exit status could not be stored. *)
Lemma kwait_found_collects p addr c s v s' :
  (c < length (k_procs s))%nat -> kwait_found p addr c s = Done v s' ->
  v = -1 /\ addr <> 0 /\ k_procs s' = k_procs s
  \/ v = p_pid (proc_at s c) /\ p_state (proc_at s' c) = UNUSED /\ p_parent (proc_at s' c) = None
     /\ forall j, j <> c -> k_procs s' !! j = k_procs s !! j.
Proof.
  intros Hc E. unfold kwait_found in E.
  apply bind_inv in E as (x & s1 & E1 & E). injection E1 as <- <-.
  apply bind_inv in E as (pr & s1 & E1 & E). injection E1 as <- <-.
  apply bind_inv in E as (r & s1 & E1 & E).
  assert (same_procs s s1) as H1.
  { revert E1. apply keeps_same. destruct (negb _); [apply keeps_copyout|by apply keeps_ret, _]. }
  destruct (r <? 0) eqn:Hr.
  - left. apply bind_inv in E as ([] & s2 & E2 & E). apply bind_inv in E as ([] & s3 & E3 & E).
    injection E as <- <-. apply keeps_release in E2, E3. split; [done|]. split.
    + intros ->. injection E1 as <- <-. done.
    + unfold same_procs in *. congruence.
  - right. apply bind_inv in E as ([] & s2 & E2 & E). apply bind_inv in E as ([] & s3 & E3 & E).
    apply bind_inv in E as ([] & s4 & E4 & E). injection E as <- <-. apply keeps_release in E3, E4.
    destruct (freeproc_clears c s1 s2) as [(F1 & F2 & _) Hoth]; [by rewrite H1|done|].
    unfold proc_at, same_procs in *. rewrite E4, E3. split_and!; [done|done|done|].
    intros j Hj. by rewrite Hoth, H1.
Qed.
End collect.

(** ** Properties *)

Lemma asleep_facts p ch lk s :
  holds_only p lk s -> lk <> LK_proc p ->
  p_state (proc_at (asleep p ch lk s) p) = SLEEPING /\ p_chan (proc_at (asleep p ch lk s) p) = Some ch
  /\ lock_free lk (asleep p ch lk s).
Proof.
  intros Hh Hne. destruct (swap_locks p lk s Hh Hne) as (_ & _ & _ & _ & _ & Hf & Hps & _).
  destruct Hh as (_ & _ & _ & _ & Hi).
  assert (proc_at (asleep p ch lk s) p = set_p_state SLEEPING (set_p_chan (Some ch) (proc_at s p))) as ->.
  { unfold asleep. rewrite proc_at_alter by (cbn; rewrite length_alter, Hps; done).
    rewrite proc_at_alter by by rewrite Hps. unfold proc_at. by rewrite Hps. }
  split_and!; [done|done|exact Hf].
Qed.

(** C6: an exiting process is handed to its parent.  Under [LK_wait], kexit()
    gives its children to init, makes a parent that sleeps in wait() RUNNABLE,
    and leaves the CPU for good as a ZOMBIE child of that parent with its exit
    status, with [LK_wait] free and its own lock held; the other entries keep
    all but that parent and a sleep on init or the parent.  Were it ever
    resumed it would panic. *)
Theorem exit_wakes_parent p ini par status s :
  running p s -> lock_free LK_wait s -> k_initproc s = Some ini ->
  p_parent (proc_at s p) = Some par -> par <> p ->
  exists s1 k, kexit_zombie p status s = Yield s1 k
    /\ lock_free LK_wait s1 /\ lock_held (LK_proc p) s1
    /\ zombie_child par (k_procs s1) p
    /\ p_xstate (proc_at s1 p) = status /\ p_pid (proc_at s1 p) = p_pid (proc_at s p)
    /\ (forall j x, j <> p -> k_procs s !! j = Some x ->
          let q := if bool_decide (p_parent x = Some p) then Some ini else p_parent x in
          if bool_decide (p_state x = SLEEPING /\ p_chan x = Some (CH_proc par))
          then k_procs s1 !! j = Some (set_p_parent q (set_p_state RUNNABLE x))
          else k_procs s1 !! j = Some (set_p_parent q x)
            \/ p_state x = SLEEPING /\ p_chan x = Some (CH_proc ini)
               /\ k_procs s1 !! j = Some (set_p_parent q (set_p_state RUNNABLE x)))
    /\ forall s2, exists s3, k s2 = Panic "zombie exit" s3.
Proof.
  intros Hrun Hwait Hini Hpar Hself.
  destruct (kexit_zombie_eq p ini par s Hrun Hwait Hini Hpar Hself status) as (ps & Hps & Hl & k & E & Hk).
  set (s1 := released _ _) in E.
  assert (holds_only p LK_wait (set_k_procs ps (acquired LK_wait s))) as Hh.
  { destruct Hrun as [Hp Hi _ Hn _].
    split_and!; [exact Hp|cbn; by rewrite Hn|apply (SIE_pushed s)|apply lock_held_acquired|cbn; lia]. }
  destruct (swap_locks p LK_wait _ Hh) as (_ & _ & _ & _ & Hl1 & Hf1 & Hps1 & _); [done|].
  fold s1 in Hl1, Hf1, Hps1. change (k_procs s1 = ps) in Hps1.
  destruct (Hps p _ (running_entry p s Hrun)) as (y & Hy & Ey). unfold left_behind in Hy.
  rewrite decide_True in Hy by done. rewrite <- Hps1 in Ey.
  assert (proc_at s1 p = y) as Epy by (by apply list_lookup_total_correct).
  exists s1, k. split; [exact E|]. split_and!; [exact Hf1|exact Hl1| | | | |exact Hk].
  - exists y. split; [done|]. by rewrite Hy.
  - by rewrite Epy, Hy.
  - by rewrite Epy, Hy.
  - intros j x Hj Hx q. destruct (Hps j x Hx) as (z & Hz & Ez). rewrite <- Hps1 in Ez. rewrite Ez.
    unfold left_behind in Hz. rewrite decide_False in Hz by done.
    destruct Hz as (w & -> & [(-> & Hs & Hc)|(-> & Hno)]).
    + case_bool_decide as Hd; [done|]. right. split; [done|]. split; [|done]. set_solver.
    + case_bool_decide; [done|]. by left.
Qed.

(** Process 1, a child of init, runs while init waits for it. *)
Definition exit_kst : kst :=
  let s := idle_kst in
  set_k_initproc (Some 0%nat)
    (set_k_cpu (mkCpu (Some 1%nat) 0 0)
       (set_k_procs
          (<[1%nat := set_p_parent (Some 0%nat) (set_p_pid 2 (set_p_state RUNNING proc_zero))]>
             (alter (fun p => set_p_chan (Some (CH_proc 0)) (set_p_state SLEEPING p)) 0%nat (k_procs s))) s)).

Lemma exit_wakes_parent_witness :
  exists s1 k, kexit_zombie 1 7 exit_kst = Yield s1 k
    /\ p_xstate (proc_at s1 1) = 7 /\ zombie_child 0 (k_procs s1) 1.
Proof.
  destruct (exit_wakes_parent 1 0 0 7 exit_kst) as (s1 & k & E & _ & _ & Hz & Hx & _);
    [|by eexists|reflexivity|reflexivity|discriminate|exists s1, k; by split_and!].
  split; [reflexivity|by apply Nat.ltb_lt|reflexivity|reflexivity|].
  destruct idle_procs_free as (_ & _ & Hf). split; [split; [done|intros H; by vm_compute in H]|].
  split; [done|]. intros l Hl. destruct (Hf l Hl) as [n Hn]. exists n. exact Hn.
Defined.

(** kwait() enters its loop holding [LK_wait]. *)
Lemma kwait_start `{Symbols} addr p s :
  running p s -> lock_free LK_wait s ->
  let sw := acquired LK_wait (touch s) in
  exists n, kwait addr s = loop (S (S n)) (kwait_round p addr) tt sw
    /\ holds_only p LK_wait sw /\ procs_free sw /\ released LK_wait sw = touch s.
Proof.
  intros Hrun Hwait sw. pose proof (running_cpu_ok _ _ Hrun) as Hok.
  assert (running p (touch s)) as Hrun' by (eapply running_hw; [exact Hrun|reflexivity|reflexivity]).
  pose proof (cpu_ok_touch s Hok) as Hok'. destruct Hrun' as [Hp Hi Hlen Hn Hf].
  assert (holds_only p LK_wait sw) as Hh.
  { split_and!; [exact Hp|cbn -[touch]; by rewrite Hn|apply (SIE_pushed (touch s))|apply lock_held_acquired|cbn in *; lia]. }
  exists 998%nat. split_and!; [|done|apply procs_free_acquired; [done|done|intros (i & _ & [=])]|].
  - unfold kwait. erewrite bind_Done by (apply curproc_eq; [done|apply Hrun]).
    erewrite bind_Done by (apply acquire_eq; [done|exact Hwait]). reflexivity.
  - assert (release LK_wait sw = Done tt (released LK_wait sw)) as E1
      by (destruct Hh as (_ & ? & ? & ? & _); apply release_eq; [done|lia|done]).
    assert (release LK_wait sw = Done tt (put_hw (hw (touch (touch s))) sw)) as E2
      by (apply (release_section LK_wait (touch s)); [done|exact Hwait|reflexivity]).
    rewrite E2 in E1. injection E1 as <-. rewrite touch_touch. by destruct s.
Qed.


(** Init has a child that has exited with status 7, then waits for one that
    still runs. *)
Definition wait_kst (st : procstate) : kst :=
  let s := idle_kst in
  set_k_procs (<[1%nat := set_p_parent (Some 0%nat) (set_p_pid 2 (set_p_state st proc_zero))]> (k_procs s)) s.

Lemma wait_running st : running 0 (wait_kst st).
Proof.
  split; [reflexivity|apply Nat.ltb_lt; reflexivity|reflexivity|reflexivity|].
  apply (can_lock_ext idle_kst); [reflexivity|apply idle_procs_free].
Qed.

Lemma wait_children st c x :
  k_procs (wait_kst st) !! c = Some x -> c = 1%nat /\ p_state x = st \/ p_parent x <> Some 0%nat.
Proof.
  unfold wait_kst, idle_kst. cbn -[replicate list_insert]. destruct (decide (c = 1%nat)) as [->|H1].
  { rewrite list_lookup_insert_eq by (vm_compute; lia). intros [= <-]. by left. }
  rewrite list_lookup_insert_ne by done. destruct (decide (c = 0%nat)) as [->|H0].
  { rewrite list_lookup_insert_eq by (vm_compute; lia). intros [= <-]. by right. }
  rewrite list_lookup_insert_ne by done. intros [-> _]%lookup_replicate. by right.
Qed.

