(* ===== verification/Exec.v ===== *)
(** * Exec: loading a program (kernel/exec.c, kernel/elf.h) *)

From S2P Require Import Prelude Params Machine Spinlock Strings Kalloc Sched Vm Sleeplock Blockdev Bio Log Fs Pipe File Proc.

Definition ELF_MAGIC : Z := 0x464C457F.
Definition ELF_PROG_LOAD : Z := 1.

(** [struct elfhdr] and [struct proghdr]: the fields kexec() uses, at their
    offsets. *)
Definition ELFHDR_SIZE : Z := 64.
Definition PROGHDR_SIZE : Z := 56.
Record elfhdr := mkElf { e_magic : Z; e_entry : Z; e_phoff : Z; e_phnum : Z }.
Definition read_elfhdr (m : mem) (a : Z) : elfhdr :=
  mkElf (ld32 m a) (ld64 m (a + 24)) (ld64 m (a + 32)) (le_val (mem_load m (a + 56) 2)).
Record proghdr := mkPh {
  ph_type : Z; ph_flags : Z; ph_off : Z; ph_vaddr : Z; ph_filesz : Z; ph_memsz : Z
}.
Definition read_proghdr (m : mem) (a : Z) : proghdr :=
  mkPh (ld32 m a) (ld32 m (a + 4)) (ld64 m (a + 8)) (ld64 m (a + 16)) (ld64 m (a + 32)) (ld64 m (a + 40)).

Definition flags2perm (flags : Z) : Z :=
  let perm := if has flags 0x1 then PTE_X else 0 in
  if has flags 0x2 then Z.lor perm PTE_W else perm.

(** What follows the last '/' of the path. *)
Fixpoint base_name (last s : list Z) : list Z :=
  match s with
  | [] => last
  | c :: r => if c =? 0 then last else base_name (if c =? SLASH then r else last) r
  end.

Section exec.
Context {SYM : Symbols} {DISK : BlockDev}.

Definition loadseg (pagetable va : Z) (ip : nat) (offset sz : Z) : K Z :=
  loop (S (Z.to_nat (sz / PGSIZE + 1))) (fun i =>
    if negb (i <? sz) then mret (inr 0) else
    pa ← walkaddr pagetable (u64 (va + i));
    if pa =? 0 then panic "loadseg: address should exist" else
    let n := if sz - i <? PGSIZE then sz - i else PGSIZE in
    r ← readi ip false pa (u32 (offset + i)) n;
    if negb (u32 r =? n) then mret (inr (-1)) else
    mret (inl (u32 (i + PGSIZE)))) 0.

(** The code at [bad]. *)
Definition exec_bad (pagetable sz : Z) (ip : option nat) : K Z :=
  when (truthy pagetable) (proc_freepagetable pagetable sz) ;;
  match ip with
  | Some ip =>
      iunlockput ip ;;
      end_op ;;
      mret (-1)
  | None => mret (-1)
  end.

(** Load program into memory: [n] program headers from offset [off].  The
    size reached, and whether it succeeded. *)
Fixpoint load_segments (n : nat) (pagetable : Z) (ip : nat) (ph_addr off sz : Z) : K (Z * bool) :=
  match n with
  | O => mret (sz, true)
  | S n' =>
      let next := load_segments n' pagetable ip ph_addr (s32 (off + PROGHDR_SIZE)) in
      r ← readi ip false ph_addr (u32 off) PROGHDR_SIZE;
      if negb (r =? PROGHDR_SIZE) then mret (sz, false) else
      ph ← gets (fun s => read_proghdr (k_mem s) ph_addr);
      if negb (ph_type ph =? ELF_PROG_LOAD) then next sz else
      if ph_memsz ph <? ph_filesz ph then mret (sz, false) else
      if u64 (ph_vaddr ph + ph_memsz ph) <? ph_vaddr ph then mret (sz, false) else
      if negb (ph_vaddr ph mod PGSIZE =? 0) then mret (sz, false) else
      sz1 ← uvmalloc pagetable sz (u64 (ph_vaddr ph + ph_memsz ph)) (flags2perm (ph_flags ph));
      if sz1 =? 0 then mret (sz, false) else
      r ← loadseg pagetable (ph_vaddr ph) ip (u32 (ph_off ph)) (u32 (ph_filesz ph));
      if r <? 0 then mret (sz1, false) else
      next sz1
  end.

(** Copy argument strings into the new stack; [None] is [goto bad]. *)
Fixpoint push_args (pagetable stackbase sp : Z) (argv : list (list Z)) (ustack : list Z)
  : K (option (Z * list Z)) :=
  match argv with
  | [] => mret (Some (sp, ustack))
  | a :: r =>
      if (MAXARG <=? length ustack)%nat then mret None else
      let sp := u64 (sp - (strlen a + 1)) in
      let sp := sp - sp mod 16 in (* riscv sp must be 16-byte aligned *)
      if sp <? stackbase then mret None else
      c ← copyout pagetable sp (cstr a ++ [0]);
      if c <? 0 then mret None else
      push_args pagetable stackbase sp r (ustack ++ [sp])
  end.

(** The second half of kexec(): the user stack and the commitment. *)
Definition exec_image (path : list Z) (argv : list (list Z)) (pagetable sz entry : Z) : K Z :=
  p ← curproc;
  pr ← getp p;
  let oldsz := p_sz pr in
  (* Allocate some pages at the next page boundary.  Make the first
     inaccessible as a stack guard.  Use the rest as the user stack. *)
  let sz := PGROUNDUP sz in
  sz1 ← uvmalloc pagetable sz (u64 (sz + (USERSTACK + 1) * PGSIZE)) PTE_W;
  if sz1 =? 0 then exec_bad pagetable sz None else
  let sz := sz1 in
  uvmclear pagetable (u64 (sz - (USERSTACK + 1) * PGSIZE)) ;;
  let stackbase := sz - USERSTACK * PGSIZE in
  r ← push_args pagetable stackbase sz argv [];
  match r with
  | None => exec_bad pagetable sz None
  | Some (sp, ustack) =>
      let argc := Z.of_nat (length ustack) in
      (* push a copy of ustack[], the array of argv[] pointers. *)
      let sp := u64 (sp - (argc + 1) * 8) in
      let sp := sp - sp mod 16 in
      if sp <? stackbase then exec_bad pagetable sz None else
      c ← copyout pagetable sp (mjoin (le_bytes 8 <$> (ustack ++ [0])));
      if c <? 0 then exec_bad pagetable sz None else
      (* a0 and a1 contain arguments to user main(argc, argv) *)
      set_tf p TF_a1 sp ;;
      (* Save program name for debugging. *)
      updp p (fun x => set_p_name (safestrcpy (p_name x) (base_name path path) 16) x) ;;
      (* Commit to the user image. *)
      pr ← getp p;
      let oldpagetable := p_pagetable pr in
      updp p (set_p_pagetable pagetable) ;;
      updp p (set_p_sz sz) ;;
      set_tf p TF_epc entry ;; (* initial program counter = ulib.c:start() *)
      set_tf p TF_sp sp ;; (* initial stack pointer *)
      proc_freepagetable oldpagetable oldsz ;;
      mret (s32 argc) (* this ends up in a0, the first argument to main(argc, argv) *)
  end.

Definition kexec (path : list Z) (argv : list (list Z)) : K Z :=
  p ← curproc;
  begin_op ;;
  (* Open the executable file. *)
  r ← namei path;
  match r with
  | None =>
      end_op ;;
      mret (-1)
  | Some ip =>
      ilock ip ;;
      (* Read the ELF header. *)
      ea ← local_addr 256;
      r ← readi ip false ea 0 ELFHDR_SIZE;
      if negb (r =? ELFHDR_SIZE) then exec_bad 0 0 (Some ip) else
      (* Is this really an ELF file? *)
      elf ← gets (fun s => read_elfhdr (k_mem s) ea);
      if negb (e_magic elf =? ELF_MAGIC) then exec_bad 0 0 (Some ip) else
      pagetable ← proc_pagetable p;
      if pagetable =? 0 then exec_bad 0 0 (Some ip) else
      (* Load program into memory. *)
      pa ← local_addr 384;
      r ← load_segments (Z.to_nat (e_phnum elf)) pagetable ip pa (s32 (e_phoff elf)) 0;
      let '(sz, ok) := r in
      if negb ok then exec_bad pagetable sz (Some ip) else
      iunlockput ip ;;
      end_op ;;
      exec_image path argv pagetable sz (e_entry elf)
  end.
End exec.
