(* ===== verification/Sysargs.v ===== *)
(** * Sysargs: fetching system call arguments (kernel/syscall.c) *)

From S2P Require Import Prelude Params Machine Spinlock Strings Kalloc Sched Vm Sleeplock Bio Log Fs Pipe File Proc.

(** A system call returns a uint64; [return -1] is all ones. *)
Definition ret (x : Z) : K Z := mret (u64 x).

Definition argraw (n : Z) : K Z :=
  p ← curproc;
  if n =? 0 then get_tf p TF_a0
  else if n =? 1 then get_tf p TF_a1
  else if n =? 2 then get_tf p TF_a2
  else if n =? 3 then get_tf p TF_a3
  else if n =? 4 then get_tf p TF_a4
  else if n =? 5 then get_tf p TF_a5
  else panic "argraw".

Definition argint (n : Z) : K Z := v ← argraw n; mret (s32 v).
Definition argaddr (n : Z) : K Z := argraw n.

Section sysargs.
Context {SYM : Symbols}.

(** [None] is the return value -1. *)
Definition fetchaddr (addr : Z) : K (option Z) :=
  p ← curproc;
  pr ← getp p;
  if (addr >=? p_sz pr) || (u64 (addr + 8) >? p_sz pr) then mret None else
  r ← copyin (p_pagetable pr) addr 8;
  if negb (r.1 =? 0) then mret None else
  mret (Some (le_val r.2)).

(** The return value and the bytes stored in the buffer. *)
Definition fetchstr (addr max : Z) : K (Z * list Z) :=
  p ← curproc;
  pr ← getp p;
  r ← copyinstr (p_pagetable pr) addr max;
  if r.1 <? 0 then mret (-1, r.2) else
  mret (strlen r.2, r.2).

Definition argstr (n max : Z) : K (Z * list Z) :=
  addr ← argaddr n;
  fetchstr addr max.
End sysargs.
