(* ===== verification/Sysfile.v ===== *)
(** * Sysfile: the file-system system calls (kernel/sysfile.c) *)

From S2P Require Import Prelude Params Machine Spinlock Strings Kalloc Sched Vm Sleeplock Blockdev Bio Log Fs Console Pipe File Proc Exec Sysargs.

(** The descriptor and its file; [None] is the return value -1. *)
Definition argfd (n : Z) : K (option (Z * nat)) :=
  fd ← argint n;
  if (fd <? 0) || (fd >=? Z.of_nat NOFILE) then mret None else
  p ← curproc;
  pr ← getp p;
  match p_ofile pr !!! Z.to_nat fd with
  | None => mret None
  | Some f => mret (Some (fd, f))
  end.

Definition set_fd (p fd : nat) (f : option nat) : K unit :=
  updp p (fun x => set_p_ofile (<[fd := f]> (p_ofile x)) x).

Definition fdalloc (f : nat) : K Z :=
  p ← curproc;
  r ← foreach (seq 0 NOFILE) (fun fd =>
    pr ← getp p;
    match p_ofile pr !!! fd with
    | None =>
        set_fd p fd (Some f) ;;
        mret (Some (Z.of_nat fd))
    | Some _ => mret None
    end);
  mret (default (-1) r).

Section sysfile.
Context {SYM : Symbols} {DISK : BlockDev}.

Definition sys_dup : K Z :=
  r ← argfd 0;
  match r with
  | None => ret (-1)
  | Some (_, f) =>
      fd ← fdalloc f;
      if fd <? 0 then ret (-1) else
      filedup f ;;
      ret fd
  end.

Definition sys_read : K Z :=
  p ← argaddr 1;
  n ← argint 2;
  r ← argfd 0;
  match r with
  | None => ret (-1)
  | Some (_, f) => v ← fileread f p n; ret v
  end.

Definition sys_write : K Z :=
  p ← argaddr 1;
  n ← argint 2;
  r ← argfd 0;
  match r with
  | None => ret (-1)
  | Some (_, f) => v ← filewrite f p n; ret v
  end.

Definition sys_close : K Z :=
  r ← argfd 0;
  match r with
  | None => ret (-1)
  | Some (fd, f) =>
      p ← curproc;
      set_fd p (Z.to_nat fd) None ;;
      fileclose f ;;
      ret 0
  end.

Definition sys_fstat : K Z :=
  st ← argaddr 1;
  r ← argfd 0;
  match r with
  | None => ret (-1)
  | Some (_, f) => v ← filestat f st; ret v
  end.

(** [ip->nlink] is a short. *)
Definition add_nlink (k : Z) (i : inode) : inode := set_i_nlink (s16 (i_nlink i + k)) i.

Definition sys_link : K Z :=
  old ← argstr 0 MAXPATH;
  if old.1 <? 0 then ret (-1) else
  new ← argstr 1 MAXPATH;
  if new.1 <? 0 then ret (-1) else
  begin_op ;;
  r ← namei old.2;
  match r with
  | None => end_op ;; ret (-1)
  | Some ip =>
      ilock ip ;;
      i ← geti ip;
      if i_type i =? T_DIR then
        iunlockput ip ;;
        end_op ;;
        ret (-1)
      else
      updi ip (add_nlink 1) ;;
      iupdate ip ;;
      iunlock ip ;;
      let bad :=
        ilock ip ;;
        updi ip (add_nlink (-1)) ;;
        iupdate ip ;;
        iunlockput ip ;;
        end_op ;;
        ret (-1) in
      r ← nameiparent new.2 name_zero;
      match r with
      | (None, _) => bad
      | (Some dp, name) =>
          ilock dp ;;
          d ← geti dp;
          i ← geti ip;
          failed ← (if negb (i_dev d =? i_dev i) then mret true else
                      r ← dirlink dp name (i_inum i); mret (r <? 0));
          if failed : bool then iunlockput dp ;; bad else
          iunlockput dp ;;
          iput ip ;;
          end_op ;;
          ret 0
      end
  end.

Definition isdirempty (dp : nat) : K bool :=
  de ← local_addr 128;
  d ← geti dp;
  loop (dir_fuel (i_size d)) (fun off =>
    d ← geti dp;
    if negb (off <? i_size d) then mret (inr true) else
    r ← readi dp false de off DIRENT_SIZE;
    if negb (r =? DIRENT_SIZE) then panic "isdirempty: readi" else
    n ← gets (fun s => de_inum (k_mem s) de);
    if negb (n =? 0) then mret (inr false) else
    mret (inl (off + DIRENT_SIZE))) (2 * DIRENT_SIZE).

Definition sys_unlink : K Z :=
  path ← argstr 0 MAXPATH;
  if path.1 <? 0 then ret (-1) else
  begin_op ;;
  r ← nameiparent path.2 name_zero;
  match r with
  | (None, _) => end_op ;; ret (-1)
  | (Some dp, name) =>
      ilock dp ;;
      let bad := iunlockput dp ;; end_op ;; ret (-1) in
      (* Cannot unlink "." or "..". *)
      if (namecmp name (str ".") =? 0) || (namecmp name (str "..") =? 0) then bad else
      r ← dirlookup dp name;
      match r with
      | None => bad
      | Some (ip, off) =>
          ilock ip ;;
          i ← geti ip;
          if i_nlink i <? 1 then panic "unlink: nlink < 1" else
          e ← (if i_type i =? T_DIR then isdirempty ip else mret true);
          if negb e then iunlockput ip ;; bad else
          de ← local_addr 192;
          upd_mem (memset de 0 DIRENT_SIZE) ;;
          r ← writei dp false de off DIRENT_SIZE;
          if negb (r =? DIRENT_SIZE) then panic "unlink: writei" else
          i ← geti ip;
          when (i_type i =? T_DIR)
            (updi dp (add_nlink (-1)) ;;
             iupdate dp) ;;
          iunlockput dp ;;
          updi ip (add_nlink (-1)) ;;
          iupdate ip ;;
          iunlockput ip ;;
          end_op ;;
          ret 0
      end
  end.

Definition create (path : list Z) (type major minor : Z) : K (option nat) :=
  r ← nameiparent path name_zero;
  match r with
  | (None, _) => mret None
  | (Some dp, name) =>
      ilock dp ;;
      r ← dirlookup dp name;
      match r with
      | Some (ip, _) =>
          iunlockput dp ;;
          ilock ip ;;
          i ← geti ip;
          if (type =? T_FILE) && ((i_type i =? T_FILE) || (i_type i =? T_DEVICE))
          then mret (Some ip)
          else iunlockput ip ;; mret None
      | None =>
          d ← geti dp;
          r ← ialloc (i_dev d) type;
          match r with
          | None => iunlockput dp ;; mret None
          | Some ip =>
              ilock ip ;;
              updi ip (set_i_major (s16 major)) ;;
              updi ip (set_i_minor (s16 minor)) ;;
              updi ip (set_i_nlink 1) ;;
              iupdate ip ;;
              i ← geti ip;
              d ← geti dp;
              ok ← (if type =? T_DIR then (* Create . and .. entries. *)
                      (* No ip->nlink++ for ".": avoid cyclic ref count. *)
                      r ← dirlink ip (str ".") (i_inum i);
                      if r <? 0 then mret false else
                      r ← dirlink ip (str "..") (i_inum d);
                      mret (negb (r <? 0))
                    else mret true);
              ok ← (if ok : bool then r ← dirlink dp name (i_inum i); mret (negb (r <? 0))
                    else mret false);
              if ok : bool then
                when (type =? T_DIR)
                  (* now that success is guaranteed: *)
                  (updi dp (add_nlink 1) ;; (* for ".." *)
                   iupdate dp) ;;
                iunlockput dp ;;
                mret (Some ip)
              else
                (* something went wrong. de-allocate ip. *)
                updi ip (set_i_nlink 0) ;;
                iupdate ip ;;
                iunlockput ip ;;
                iunlockput dp ;;
                mret None
          end
      end
  end.

(** The inode sys_open() works on, locked; [None] after the error exits. *)
Definition open_inode (path : list Z) (omode : Z) : K (option nat) :=
  if has omode O_CREATE then
    r ← create path T_FILE 0 0;
    match r with
    | None => end_op ;; mret None
    | Some ip => mret (Some ip)
    end
  else
    r ← namei path;
    match r with
    | None => end_op ;; mret None
    | Some ip =>
        ilock ip ;;
        i ← geti ip;
        if (i_type i =? T_DIR) && negb (omode =? O_RDONLY) then
          iunlockput ip ;;
          end_op ;;
          mret None
        else mret (Some ip)
    end.

Definition sys_open : K Z :=
  omode ← argint 1;
  path ← argstr 0 MAXPATH;
  if path.1 <? 0 then ret (-1) else
  begin_op ;;
  r ← open_inode path.2 omode;
  match r with
  | None => ret (-1)
  | Some ip =>
      i ← geti ip;
      if (i_type i =? T_DEVICE) && ((i_major i <? 0) || (i_major i >=? NDEV)) then
        iunlockput ip ;;
        end_op ;;
        ret (-1)
      else
      f ← filealloc;
      fd ← (match f with None => mret (-1) | Some f => fdalloc f end);
      match f, fd <? 0 with
      | Some f, false =>
          i ← geti ip;
          (if i_type i =? T_DEVICE then
             updf f (set_f_type FD_DEVICE) ;;
             updf f (set_f_major (i_major i))
           else
             updf f (set_f_type FD_INODE) ;;
             updf f (set_f_off 0)) ;;
          updf f (set_f_ip (Some ip)) ;;
          updf f (set_f_readable (b2z (negb (has omode O_WRONLY)))) ;;
          updf f (set_f_writable (b2z (has omode O_WRONLY || has omode O_RDWR))) ;;
          when (has omode O_TRUNC && (i_type i =? T_FILE)) (itrunc ip) ;;
          iunlock ip ;;
          end_op ;;
          ret fd
      | _, _ =>
          (match f with Some f => fileclose f | None => mret tt end) ;;
          iunlockput ip ;;
          end_op ;;
          ret (-1)
      end
  end.

Definition sys_mkdir : K Z :=
  begin_op ;;
  path ← argstr 0 MAXPATH;
  r ← (if path.1 <? 0 then mret None else create path.2 T_DIR 0 0);
  match r with
  | None => end_op ;; ret (-1)
  | Some ip =>
      iunlockput ip ;;
      end_op ;;
      ret 0
  end.

Definition sys_mknod : K Z :=
  begin_op ;;
  major ← argint 1;
  minor ← argint 2;
  path ← argstr 0 MAXPATH;
  r ← (if path.1 <? 0 then mret None else create path.2 T_DEVICE major minor);
  match r with
  | None => end_op ;; ret (-1)
  | Some ip =>
      iunlockput ip ;;
      end_op ;;
      ret 0
  end.

Definition sys_chdir : K Z :=
  p ← curproc;
  begin_op ;;
  path ← argstr 0 MAXPATH;
  r ← (if path.1 <? 0 then mret None else namei path.2);
  match r with
  | None => end_op ;; ret (-1)
  | Some ip =>
      ilock ip ;;
      i ← geti ip;
      if negb (i_type i =? T_DIR) then
        iunlockput ip ;;
        end_op ;;
        ret (-1)
      else
      iunlock ip ;;
      pr ← getp p;
      (match p_cwd pr with Some c => iput c | None => null_deref end) ;;
      end_op ;;
      updp p (set_p_cwd (Some ip)) ;;
      ret 0
  end.

(** Fetch the argument vector from [uargv], argument [i] on: the pages that
    hold the strings so far, the strings, and whether it succeeded. *)
Fixpoint fetch_args (k : nat) (uargv i : Z) (pages : list Z) (argv : list (list Z))
  : K (list Z * list (list Z) * bool) :=
  match k with
  | O => mret (pages, argv, false) (* i >= NELEM(argv) *)
  | S k' =>
      u ← fetchaddr (u64 (uargv + 8 * i));
      match u with
      | None => mret (pages, argv, false)
      | Some uarg =>
          if uarg =? 0 then mret (pages, argv, true) else
          pg ← kalloc;
          if pg =? 0 then mret (pages, argv, false) else
          r ← fetchstr uarg PGSIZE;
          upd_mem (fun m => mem_store m pg r.2) ;;
          if r.1 <? 0 then mret (pages ++ [pg], argv, false) else
          fetch_args k' uargv (i + 1) (pages ++ [pg]) (argv ++ [r.2])
      end
  end.

Definition sys_exec : K Z :=
  uargv ← argaddr 1;
  path ← argstr 0 MAXPATH;
  if path.1 <? 0 then ret (-1) else
  r ← fetch_args MAXARG uargv 0 [] [];
  let '(pages, argv, ok) := r in
  if ok : bool then
    v ← kexec path.2 argv;
    foreach_ pages kfree ;;
    ret v
  else
    foreach_ pages kfree ;;
    ret (-1).

Definition sys_pipe : K Z :=
  p ← curproc;
  fdarray ← argaddr 0;
  r ← pipealloc;
  match r with
  | None => ret (-1)
  | Some (rf, wf) =>
      fd0 ← fdalloc rf;
      fd1 ← (if fd0 <? 0 then mret (-1) else fdalloc wf);
      if (fd0 <? 0) || (fd1 <? 0) then
        when (fd0 >=? 0) (set_fd p (Z.to_nat fd0) None) ;;
        fileclose rf ;;
        fileclose wf ;;
        ret (-1)
      else
      pr ← getp p;
      c ← copyout (p_pagetable pr) fdarray (le_bytes 4 fd0);
      c ← (if c <? 0 then mret c
           else copyout (p_pagetable pr) (u64 (fdarray + 4)) (le_bytes 4 fd1));
      if c <? 0 then
        set_fd p (Z.to_nat fd0) None ;;
        set_fd p (Z.to_nat fd1) None ;;
        fileclose rf ;;
        fileclose wf ;;
        ret (-1)
      else ret 0
  end.
End sysfile.
