(* ===== verification/Sysproc.v ===== *)
(** * Sysproc: the process system calls (kernel/sysproc.c), with the tracing
    and race-counter calls *)

From S2P Require Import Prelude Params Machine Spinlock Strings Kalloc Uart Printk Sched Race Vm Sleeplock Blockdev Bio Log Fs Pipe File Proc Sysargs.

(** [p->tracing == 1 || (p->tracing & (1 << num))] *)
Definition traced (tracing num : Z) : bool :=
  (tracing =? 1) || truthy (Z.land tracing (Z.shiftl 1 num)).

Definition sys_getpid : K Z :=
  p ← curproc;
  pr ← getp p;
  ret (p_pid pr).

Definition sys_pause : K Z :=
  n ← argint 0;
  let n := if n <? 0 then 0 else n in
  acquire LK_ticks ;;
  ticks0 ← gets k_ticks;
  ok ← loop SLEEP_FUEL (fun _ =>
    t ← gets k_ticks;
    if negb (u32 (t - ticks0) <? n) then mret (inr true) else
    p ← curproc;
    k ← killed p;
    if truthy k then
      release LK_ticks ;;
      mret (inr false)
    else
      sleep CH_ticks LK_ticks ;;
      mret (inl tt)) tt;
  if negb ok then ret (-1) else
  release LK_ticks ;;
  ret 0.

Definition sys_kill : K Z :=
  pid ← argint 0;
  r ← kkill pid;
  ret r.

Definition sys_uptime : K Z :=
  acquire LK_ticks ;;
  xticks ← gets k_ticks;
  release LK_ticks ;;
  ret xticks.

Definition sys_trace : K Z :=
  on ← argint 0;
  p ← curproc;
  updp p (set_p_tracing on) ;;
  ret 0.

Definition sys_race_inc : K Z :=
  iters ← argint 0;
  use_lock ← argint 1;
  r ← race_increment iters use_lock;
  ret r.

Definition sys_race_get : K Z := r ← race_get_counter; ret r.
Definition sys_race_reset : K Z := r ← race_reset; ret r.

Section sysproc.
Context {SYM : Symbols} {DISK : BlockDev}.

Definition sys_exit : K Z :=
  n ← argint 0;
  p ← curproc;
  pr ← getp p;
  when (traced (p_tracing pr) SYS_exit)
    (printk (str "%d: exit -> %d" ++ [10]) [AInt (p_pid pr); AInt n] ;; mret tt) ;;
  kexit n ;;
  ret 0. (* not reached *)

Definition sys_fork : K Z := r ← kfork; ret r.

Definition sys_wait : K Z :=
  p ← argaddr 0;
  r ← kwait p;
  ret r.

Definition sys_sbrk : K Z :=
  n ← argint 0;
  t ← argint 1;
  p ← curproc;
  pr ← getp p;
  let addr := p_sz pr in
  if (t =? SBRK_EAGER) || (n <? 0) then
    r ← growproc n;
    if r <? 0 then ret (-1) else ret addr
  else
    (* Lazily allocate memory for this process: increase its memory size but
       don't allocate memory. *)
    if u64 (addr + n) <? addr then ret (-1) else
    if u64 (addr + n) >? TRAPFRAME then ret (-1) else
    p ← curproc;
    updp p (fun x => set_p_sz (u64 (p_sz x + n)) x) ;;
    ret addr.
End sysproc.
