(* ===== verification/Syscall.v ===== *)
(** * Syscall: the dispatcher, with system call tracing (kernel/syscall.c) *)

From S2P Require Import Prelude Params Machine Spinlock Strings Kalloc Uart Printk Sched Race Vm Sleeplock Blockdev Virtio Bio Log Fs Pipe File Proc Exec Sysargs Sysfile Sysproc.

(** The two tables of syscall.c are indexed by the same numbers. *)
Definition syscallnames (num : Z) : string :=
  match num with
  | 1 => "fork" | 2 => "exit" | 3 => "wait" | 4 => "pipe" | 5 => "read" | 6 => "kill"
  | 7 => "exec" | 8 => "fstat" | 9 => "chdir" | 10 => "dup" | 11 => "getpid" | 12 => "sbrk"
  | 13 => "pause" | 14 => "uptime" | 15 => "open" | 16 => "write" | 17 => "mknod"
  | 18 => "unlink" | 19 => "link" | 20 => "mkdir" | 21 => "close" | 22 => "sync"
  | 23 => "trace" | 24 => "race_inc" | 25 => "race_get" | 26 => "race_reset"
  | _ => ""
  end%string.

(** [NELEM(syscalls)] *)
Definition NSYSCALLS : Z := 27.

(** syscall(), over the table of handlers. *)
Definition syscall_with (handlers : Z -> option (K Z)) : K unit :=
  p ← curproc;
  a7 ← get_tf p TF_a7;
  let num := s32 a7 in
  match (if (0 <? num) && (num <? NSYSCALLS) then handlers num else None) with
  | Some handler =>
      (* Use num to lookup the system call function for num, call it, and
         store its return value in p->trapframe->a0 *)
      r ← handler;
      set_tf p TF_a0 r ;;
      pr ← getp p;
      when (negb (num =? SYS_exit) && traced (p_tracing pr) num)
        (a0 ← get_tf p TF_a0;
         printk (str "%d: %s -> %ld" ++ [10])
           [AInt (p_pid pr); AStr (Some (str (syscallnames num))); AInt a0] ;;
         mret tt)
  | None =>
      pr ← getp p;
      printk (str "%d %s: unknown sys call %d" ++ [10])
        [AInt (p_pid pr); AStr (Some (p_name pr)); AInt num] ;;
      set_tf p TF_a0 (u64 (-1))
  end.

Section syscall.
Context {SYM : Symbols} {DISK : BlockDev}.

Definition syscalls (num : Z) : option (K Z) :=
  match num with
  | 1 => Some sys_fork | 2 => Some sys_exit | 3 => Some sys_wait | 4 => Some sys_pipe
  | 5 => Some sys_read | 6 => Some sys_kill | 7 => Some sys_exec | 8 => Some sys_fstat
  | 9 => Some sys_chdir | 10 => Some sys_dup | 11 => Some sys_getpid | 12 => Some sys_sbrk
  | 13 => Some sys_pause | 14 => Some sys_uptime | 15 => Some sys_open | 16 => Some sys_write
  | 17 => Some sys_mknod | 18 => Some sys_unlink | 19 => Some sys_link | 20 => Some sys_mkdir
  | 21 => Some sys_close | 22 => Some sys_sync | 23 => Some sys_trace
  | 24 => Some sys_race_inc | 25 => Some sys_race_get | 26 => Some sys_race_reset
  | _ => None
  end.

Definition syscall : K unit := syscall_with syscalls.
End syscall.

(** ** What a traced call prints *)

(** Decimal numeral of a signed 64-bit number, as printk's %d and %ld print it. *)
Definition dec (x : Z) : list Z := printint_chars x 10 1.

(** The line syscall() prints for a traced call. *)
Definition trace_line (pid num r : Z) : list Z :=
  dec (s32 pid) ++ str ": " ++ str (syscallnames num) ++ str " -> " ++ dec (s64 r) ++ [10].

Lemma formatted_trace pid num r :
  formatted (str "%d: %s -> %ld" ++ [10])
    [AInt pid; AStr (Some (str (syscallnames num))); AInt r]
  = dec (s32 pid) ++ str ": " ++ cstr (str (syscallnames num)) ++ str " -> " ++ dec (s64 r) ++ [10].
Proof. unfold dec. generalize (str (syscallnames num)). intros name. reflexivity. Qed.

Lemma names_plain num : cstr (str (syscallnames num)) = str (syscallnames num)
  /\ Forall (fun c => c <> BACKSPACE) (str (syscallnames num)).
Proof.
  destruct num as [|n|n]; [by split| |by split].
  do 5 (destruct n as [n|n|]; try (split; [reflexivity|vm_compute; repeat constructor; discriminate])).
Qed.

Lemma trace_line_plain pid num r :
  formatted (str "%d: %s -> %ld" ++ [10])
    [AInt pid; AStr (Some (str (syscallnames num))); AInt r] ≫= cons_bytes = trace_line pid num r.
Proof.
  rewrite formatted_trace. destruct (names_plain num) as [-> Hn]. apply cons_bytes_plain.
  repeat (apply Forall_app; split); try (apply printint_chars_plain || exact Hn);
    vm_compute; repeat constructor; discriminate.
Qed.

(** *** Trapframe accesses *)
Definition tf_addr (s : kst) (p : nat) (off : Z) : Z := p_trapframe (proc_at s p) + off.

Lemma get_tf_eq p off s : get_tf p off s = Done (ld64 (k_mem s) (tf_addr s p off)) s.
Proof. done. Qed.

Lemma set_tf_eq p off v s :
  set_tf p off v s = Done tt (set_k_mem (st64 (k_mem s) (tf_addr s p off) v) s).
Proof. done. Qed.

(** What the printing at the end of a system call needs of the state. *)
Definition can_print (s : kst) : Prop :=
  printing_ok s /\ lock_free LK_pr s /\ c_noff (k_cpu s) + 1 < 2 ^ 30.

(** The call [num] that process [p] makes. *)
Definition calls (p : nat) (num : Z) (s : kst) : Prop :=
  cpu_ok s /\ c_proc (k_cpu s) = Some p /\ s32 (ld64 (k_mem s) (tf_addr s p TF_a7)) = num.

Lemma syscall_enter handlers p num s h :
  calls p num s -> 0 < num < NSYSCALLS -> handlers num = Some h ->
  syscall_with handlers s = (
      r ← h;
      set_tf p TF_a0 r ;;
      pr ← getp p;
      when (negb (num =? SYS_exit) && traced (p_tracing pr) num)
        (a0 ← get_tf p TF_a0;
         printk (str "%d: %s -> %ld" ++ [10])
           [AInt (p_pid pr); AStr (Some (str (syscallnames num))); AInt a0] ;;
         mret tt)) (touch s).
Proof.
  intros (Hok & Hp & Hn) Hr Hh. unfold syscall_with.
  erewrite bind_Done by by apply curproc_eq.
  erewrite bind_Done by apply get_tf_eq. cbv zeta.
  change (s32 (ld64 (k_mem (touch s)) (tf_addr (touch s) p TF_a7)))
    with (s32 (ld64 (k_mem s) (tf_addr s p TF_a7))).
  rewrite Hn. destruct (Z.ltb_spec 0 num), (Z.ltb_spec num NSYSCALLS); try lia.
  cbn [andb]. by rewrite Hh.
Qed.

(** C1: tracing prints exactly what it should.  When process [p] makes a
    call whose handler returns [r] in a state where the console can print,
    syscall() stores [r] in the process's a0, and afterwards the console output
    has grown by the line "<pid>: <name> -> <r>" if the process's tracing word
    selects the call and the call is not exit, and by nothing otherwise; the
    process table is as the handler left it. *)
Theorem syscall_traces handlers p num s h r s1 :
  calls p num s -> 0 < num < NSYSCALLS -> handlers num = Some h ->
  h (touch s) = Done r s1 -> can_print s1 ->
  exists s2, syscall_with handlers s = Done tt s2
    /\ ld64 (k_mem s2) (tf_addr s2 p TF_a0) = u64 r
    /\ u_out (k_uart s2) = u_out (k_uart s1) ++
         (if negb (num =? SYS_exit) && traced (p_tracing (proc_at s1 p)) num
          then map u8 (trace_line (p_pid (proc_at s1 p)) num (u64 r)) else [])
    /\ k_procs s2 = k_procs s1.
Proof.
  intros Hc Hr Hh Hrun (Hpr & Hlk & Hn).
  rewrite (syscall_enter handlers p num s h Hc Hr Hh).
  erewrite bind_Done by exact Hrun.
  erewrite bind_Done by apply set_tf_eq.
  unfold getp. rewrite bind_gets.
  set (s2 := set_k_mem _ s1).
  change (proc_at s2 p) with (proc_at s1 p).
  assert (ld64 (k_mem s2) (tf_addr s2 p TF_a0) = u64 r) as Ha0 by apply ld64_st64_same.
  destruct (negb (num =? SYS_exit) && traced (p_tracing (proc_at s1 p)) num); cbn [when].
  - erewrite bind_Done by apply get_tf_eq. rewrite Ha0.
    destruct (printk_out (str "%d: %s -> %ld" ++ [10])
      [AInt (p_pid (proc_at s1 p)); AStr (Some (str (syscallnames num))); AInt (u64 r)] s2)
      as (u & Hu & Ho & _); [exact Hpr|exact Hlk|exact Hn|].
    erewrite bind_Done by exact Hu. eexists. split; [reflexivity|].
    split; [exact Ha0|]. split; [|done]. cbn. by rewrite Ho, trace_line_plain.
  - eexists. split; [reflexivity|]. split; [exact Ha0|]. split; [|done]. by rewrite app_nil_r.
Qed.

(** A process asking for system call [num] with first argument [a0]; its
    tracing word is [tr]. *)
Definition trap_kst (num a0 tr : Z) : kst :=
  let s := idle_kst in
  let tf := 0x80100000 in
  set_k_mem (st64 (st64 (k_mem s) (tf + TF_a7) num) (tf + TF_a0) a0)
    (set_k_procs (alter (fun p => set_p_tracing tr (set_p_trapframe tf p)) 0%nat (k_procs s)) s).

Lemma trap_kst_calls num a0 tr :
  0 <= num < 2 ^ 31 -> calls 0 num (trap_kst num a0 tr).
Proof.
  intros Hn. split; [split; [done|intros H; by vm_compute in H]|]. split; [reflexivity|].
  change (s32 (ld64 (st64 (st64 (k_mem idle_kst) (0x80100000 + TF_a7) num) (0x80100000 + TF_a0) a0)
    (0x80100000 + TF_a7)) = num).
  rewrite ld64_st64_other by (right; vm_compute; discriminate). rewrite ld64_st64_same.
  rewrite u64_small by lia. apply s32_small. lia.
Qed.

Lemma syscall_traces_witness :
  exists s2, @syscall built_kernel virtio_disk (trap_kst SYS_getpid 0 1) = Done tt s2
    /\ u_out (k_uart s2) = str "1: getpid -> 1" ++ [10].
Proof.
  destruct (syscall_traces (@syscalls built_kernel virtio_disk) 0 SYS_getpid (trap_kst SYS_getpid 0 1)
              sys_getpid 1 (touch (touch (trap_kst SYS_getpid 0 1)))) as (s2 & H1 & _ & H2 & _).
  - apply trap_kst_calls. unfold SYS_getpid. lia.
  - unfold SYS_getpid, NSYSCALLS. lia.
  - reflexivity.
  - reflexivity.
  - split; [split_and!; [split; [done|intros H; by vm_compute in H]|done..]|].
    split; [by eexists|reflexivity].
  - exists s2. split; [exact H1|]. rewrite H2. vm_compute. reflexivity.
Defined.

(** C40: an unknown system call is rejected.  When the number in a7 is not
    positive, is past the table, or names no handler, no handler runs: syscall()
    prints "<pid> <name>: unknown sys call <num>" and returns -1 in a0. *)
Theorem syscall_unknown handlers p num s :
  calls p num s -> can_print s ->
  (num <= 0 \/ NSYSCALLS <= num \/ handlers num = None) ->
  exists s2, syscall_with handlers s = Done tt s2
    /\ ld64 (k_mem s2) (tf_addr s2 p TF_a0) = 2 ^ 64 - 1
    /\ u_out (k_uart s2) = u_out (k_uart s) ++
         map u8 (formatted (str "%d %s: unknown sys call %d" ++ [10])
           [AInt (p_pid (proc_at s p)); AStr (Some (p_name (proc_at s p))); AInt num] ≫= cons_bytes)
    /\ k_procs s2 = k_procs s.
Proof.
  intros (Hok & Hp & Hn) ((_ & Hpk & Hpd) & Hlk & Hnf) Hbad. unfold syscall_with.
  erewrite bind_Done by by apply curproc_eq.
  erewrite bind_Done by apply get_tf_eq. cbv zeta.
  change (s32 (ld64 (k_mem (touch s)) (tf_addr (touch s) p TF_a7)))
    with (s32 (ld64 (k_mem s) (tf_addr s p TF_a7))).
  rewrite Hn.
  assert ((if (0 <? num) && (num <? NSYSCALLS) then handlers num else None) = None) as ->.
  { destruct (Z.ltb_spec 0 num), (Z.ltb_spec num NSYSCALLS); cbn; try done.
    destruct Hbad as [?|[?|?]]; [lia|lia|done]. }
  unfold getp. rewrite bind_gets. change (proc_at (touch s) p) with (proc_at s p).
  destruct (printk_out (str "%d %s: unknown sys call %d" ++ [10])
    [AInt (p_pid (proc_at s p)); AStr (Some (p_name (proc_at s p))); AInt num] (touch s))
    as (u & Hu & Ho & _).
  { split_and!; [by apply cpu_ok_touch|done..]. }
  { exact Hlk. }
  { unfold touch, touch_cpu. by destruct (_ =? _). }
  erewrite bind_Done by exact Hu. rewrite set_tf_eq.
  eexists. split; [reflexivity|]. split; [|split; [exact Ho|done]].
  unfold tf_addr. cbn. rewrite ld64_st64_same. reflexivity.
Qed.

Lemma syscall_unknown_witness :
  exists s2, @syscall built_kernel virtio_disk (trap_kst 27 0 0) = Done tt s2
    /\ u_out (k_uart s2) = str "1 : unknown sys call 27" ++ [10].
Proof.
  destruct (syscall_unknown (@syscalls built_kernel virtio_disk) 0 27 (trap_kst 27 0 0)) as (s2 & H1 & _ & H2 & _).
  - apply trap_kst_calls. lia.
  - split; [split_and!; [split; [done|intros H; by vm_compute in H]|done..]|].
    split; [by eexists|reflexivity].
  - right. left. reflexivity.
  - exists s2. split; [exact H1|]. rewrite H2. vm_compute. reflexivity.
Defined.

(** *** The tracing word *)
Lemma land_shiftl_bit t n : 0 <= n -> truthy (Z.land t (Z.shiftl 1 n)) = Z.testbit t n.
Proof.
  intros Hn. rewrite Z.shiftl_1_l.
  assert (Z.land t (2 ^ n) = if Z.testbit t n then 2 ^ n else 0) as ->.
  { apply Z.bits_inj'. intros k Hk. rewrite Z.land_spec, Z.pow2_bits_eqb by lia.
    destruct (Z.eqb_spec n k) as [<-|].
    - destruct (Z.testbit t n); rewrite ?Z.pow2_bits_true, ?Z.bits_0 by lia; done.
    - rewrite andb_false_r. destruct (Z.testbit t n); rewrite ?Z.bits_0; [|done].
      symmetry. apply Z.pow2_bits_false. lia. }
  destruct (Z.testbit t n); [|done]. apply truthy_true. lia.
Qed.

(** C3: trace(v).  The call sets the caller's tracing word to [v] and
    returns 0, and touches no other process; from then on a call [num] is
    traced exactly when [v] is 1 or bit [num] of [v] is set, so 0 traces
    nothing and 1 everything. *)
Theorem sys_trace_selects p s v :
  cpu_ok s -> c_proc (k_cpu s) = Some p -> (p < length (k_procs s))%nat ->
  s32 (ld64 (k_mem s) (tf_addr s p TF_a0)) = v ->
  exists s1, sys_trace s = Done 0 s1
    /\ k_procs s1 = alter (set_p_tracing v) p (k_procs s)
    /\ k_mem s1 = k_mem s /\ k_uart s1 = k_uart s
    /\ forall num, 0 < num < NSYSCALLS ->
         traced (p_tracing (proc_at s1 p)) num = (v =? 1) || Z.testbit v num.
Proof.
  intros Hok Hp Hlen Hv. unfold sys_trace, argint, argraw.
  erewrite bind_Done.
  2:{ erewrite bind_Done; [reflexivity|]. erewrite bind_Done by by apply curproc_eq. apply get_tf_eq. }
  erewrite bind_Done.
  2:{ apply curproc_eq; [by apply cpu_ok_touch|by rewrite hw_touch_proc]. }
  rewrite touch_touch. change (ld64 (k_mem (touch s)) (tf_addr (touch s) p TF_a0))
    with (ld64 (k_mem s) (tf_addr s p TF_a0)). rewrite Hv.
  erewrite bind_Done by reflexivity.
  eexists. split; [reflexivity|]. split_and!; try done.
  intros num Hnum. rewrite (proc_at_alter p _ (touch s)) by done. cbn.
  unfold traced. by rewrite land_shiftl_bit by lia.
Qed.

Lemma sys_trace_selects_witness :
  exists s1, sys_trace (trap_kst SYS_trace 5 0) = Done 0 s1
    /\ traced (p_tracing (proc_at s1 0)) SYS_exit = true.
Proof.
  destruct (sys_trace_selects 0 (trap_kst SYS_trace 5 0) 5) as (s1 & H1 & _ & _ & _ & H2).
  - split; [done|intros H; by vm_compute in H].
  - reflexivity.
  - vm_compute. lia.
  - vm_compute. reflexivity.
  - exists s1. split; [exact H1|]. rewrite H2 by (unfold SYS_exit, NSYSCALLS; lia). reflexivity.
Defined.
