(* ===== verification/Trap.v ===== *)
(** * Trap: entering and leaving the kernel (kernel/trap.c), the first
    process's start (forkret of kernel/proc.c) *)

From S2P Require Import Prelude Params Machine Spinlock Strings Kalloc Uart Printk Sched Race Vm Sleeplock Blockdev Virtio Bio Log Fs Console Pipe File Proc Exec Sysargs Sysfile Sysproc Syscall.

Definition upd_csr (f : csrs -> csrs) : K unit := modify (fun s => set_k_csr (f (k_csr s)) s).
Definition getcsr : K csrs := gets k_csr.

Definition trapinit : K unit := initlock LK_ticks "time".

Definition clockintr : K unit :=
  id ← cpuid;
  when (id =? 0)
    (acquire LK_ticks ;;
     modify (fun s => set_k_ticks (u32 (k_ticks s + 1)) s) ;;
     wakeup CH_ticks ;;
     release LK_ticks) ;;
  (* ask for the next timer interrupt. *)
  upd_csr (fun c => set_r_stimecmp (u64 (r_time c + 1000000)) c).

Section trap.
Context {SYM : Symbols} {DISK : BlockDev}.

Definition trapinithart : K unit := upd_csr (set_r_stvec sym_kernelvec).

Definition devintr : K Z :=
  c ← getcsr;
  let scause := r_scause c in
  if scause =? 0x8000000000000009 then
    (* this is a supervisor external interrupt, via PLIC. *)
    irq ← plic_claim;
    (if irq =? UART0_IRQ then uartintr
     else if irq =? VIRTIO0_IRQ then virtio_disk_intr
     else when (truthy irq)
       (printk (str "unexpected interrupt irq=%d" ++ [10]) [AInt irq] ;; mret tt)) ;;
    when (truthy irq) (plic_complete irq) ;;
    mret 1
  else if scause =? 0x8000000000000005 then
    (* timer interrupt. *)
    clockintr ;;
    mret 2
  else mret 0.

Definition prepare_return : K unit :=
  p ← curproc;
  (* turn off interrupts while traps still go to kerneltrap(). *)
  intr_off ;;
  (* send syscalls, interrupts, and exceptions to uservec in trampoline.S *)
  upd_csr (set_r_stvec (u64 (TRAMPOLINE + (sym_uservec - sym_trampoline)))) ;;
  (* set up trapframe values that uservec will need when the process next
     traps into the kernel. *)
  c ← getcsr;
  set_tf p TF_kernel_satp (r_satp c) ;;
  pr ← getp p;
  set_tf p TF_kernel_sp (u64 (p_kstack pr + PGSIZE)) ;;
  set_tf p TF_kernel_trap sym_usertrap ;;
  tp ← gets k_hart;
  set_tf p TF_kernel_hartid tp ;;
  (* set S Previous Privilege mode to User. *)
  x ← get_sstatus;
  let x := Z.ldiff x SSTATUS_SPP in (* clear SPP to 0 for user mode *)
  let x := Z.lor x SSTATUS_SPIE in (* enable interrupts in user mode *)
  put_sstatus x ;;
  (* set S Exception Program Counter to the saved user pc. *)
  epc ← get_tf p TF_epc;
  upd_csr (set_r_sepc epc).

(** Returns the user satp for trampoline.S. *)
Definition usertrap : K Z :=
  c ← getcsr;
  if has (r_sstatus c) SSTATUS_SPP then panic "usertrap: not from user mode" else
  (* send interrupts and exceptions to kerneltrap() *)
  upd_csr (set_r_stvec sym_kernelvec) ;;
  p ← curproc;
  (* save user program counter. *)
  c ← getcsr;
  set_tf p TF_epc (r_sepc c) ;;
  which_dev ← (if r_scause c =? 8 then
      (* system call *)
      k ← killed p;
      when (truthy k) (kexit (-1)) ;;
      (* sepc points to the ecall instruction, but we want to return to the
         next instruction. *)
      epc ← get_tf p TF_epc;
      set_tf p TF_epc (u64 (epc + 4)) ;;
      intr_on ;;
      syscall ;;
      mret 0
    else
      d ← devintr;
      if negb (d =? 0) then mret d else
      c ← getcsr;
      pr ← getp p;
      pa ← (if (r_scause c =? 15) || (r_scause c =? 13)
            then vmfault (p_pagetable pr) (r_stval c) (r_scause c =? 13) else mret 0);
      (* page fault on lazily-allocated page *)
      if negb (pa =? 0) then mret 0 else
      printk (str "usertrap(): unexpected scause 0x%lx pid=%d" ++ [10])
        [AInt (r_scause c); AInt (p_pid pr)] ;;
      printk (str "            sepc=0x%lx stval=0x%lx" ++ [10])
        [AInt (r_sepc c); AInt (r_stval c)] ;;
      setkilled p ;;
      mret 0);
  k ← killed p;
  when (truthy k) (kexit (-1)) ;;
  (* give up the CPU if this is a timer interrupt. *)
  when (which_dev =? 2) yield ;;
  prepare_return ;;
  (* the user page table to switch to, for trampoline.S *)
  pr ← getp p;
  mret (MAKE_SATP (p_pagetable pr)).

Definition kerneltrap : K unit :=
  c ← getcsr;
  let sepc := r_sepc c in
  let sstatus := r_sstatus c in
  let scause := r_scause c in
  if negb (has sstatus SSTATUS_SPP) then panic "kerneltrap: not from supervisor mode" else
  on ← intr_get;
  if on : bool then panic "kerneltrap: interrupts enabled" else
  which_dev ← devintr;
  if which_dev =? 0 then
    (* interrupt or trap from an unknown source *)
    c ← getcsr;
    printk (str "scause=0x%lx sepc=0x%lx stval=0x%lx" ++ [10])
      [AInt scause; AInt (r_sepc c); AInt (r_stval c)] ;;
    panic "kerneltrap"
  else
  (* give up the CPU if this is a timer interrupt. *)
  when (which_dev =? 2)
    (p ← myproc; match p with Some _ => yield | None => mret tt end) ;;
  (* the yield() may have caused some traps to occur, so restore trap
     registers for use by kernelvec.S's sepc instruction. *)
  upd_csr (set_r_sepc sepc) ;;
  upd_csr (set_r_sstatus sstatus).

(** ** kernel/proc.c: forkret.  Returns the satp it passes to userret. *)
Definition forkret : K Z :=
  p ← curproc;
  (* Still holding p->lock from scheduler. *)
  release (LK_proc p) ;;
  first ← gets k_first;
  when (truthy first)
    (fsinit ROOTDEV ;;
     modify (set_k_first 0) ;;
     (* We can invoke kexec() now that file system is initialized. *)
     r ← kexec (str "/init") [str "/init"];
     set_tf p TF_a0 (u64 r) ;;
     when (u64 r =? u64 (-1)) (panic "exec")) ;;
  (* return to user space, mimicing usertrap()'s return. *)
  prepare_return ;;
  pr ← getp p;
  mret (MAKE_SATP (p_pagetable pr)).

End trap.
