(* ===== verification/Boot.v ===== *)
(** * Boot: from reset to the scheduler

    start() and timerinit() of kernel/start.c over the machine-mode registers
    (with their accessors in kernel/riscv.h), virtio_disk_init() of
    kernel/virtio_disk.c over the registers of the disk, and main() of
    kernel/main.c, which calls everything else once.  What the disk answers
    is a parameter: the value of a register given all writes so far. *)

From S2P Require Import Prelude Params Machine Spinlock Strings Kalloc Uart Printk Sched Race Vm Sleeplock Blockdev Virtio Bio Log Fs Console Pipe File Proc Exec Sysargs Sysfile Sysproc Syscall Trap.

(** ** Machine mode (kernel/riscv.h, kernel/start.c) *)
Definition MSTATUS_MPP_MASK : Z := Z.shiftl 3 11.
Definition MSTATUS_MPP_S : Z := Z.shiftl 1 11.
Definition MENVCFG_STCE : Z := Z.shiftl 1 63.
Definition MENVCFG_ADUE : Z := Z.shiftl 1 61.
Definition SIE_SEIE : Z := Z.shiftl 1 9.
Definition SIE_STIE : Z := Z.shiftl 1 5.

Record mregs := mkMregs {
  m_hartid : Z; m_status : Z; m_epc : Z; m_satp : Z; m_edeleg : Z; m_ideleg : Z;
  m_sie : Z; m_pmpaddr0 : Z; m_pmpcfg0 : Z; m_envcfg : Z; m_counteren : Z;
  m_stimecmp : Z; m_time : Z; m_tp : Z
}.

Definition r_mhartid (r : mregs) : Z := m_hartid r.
Definition r_mstatus (r : mregs) : Z := m_status r.
Definition w_mstatus (x : Z) (r : mregs) : mregs :=
  mkMregs (m_hartid r) x (m_epc r) (m_satp r) (m_edeleg r) (m_ideleg r) (m_sie r) (m_pmpaddr0 r)
    (m_pmpcfg0 r) (m_envcfg r) (m_counteren r) (m_stimecmp r) (m_time r) (m_tp r).
Definition w_mepc (x : Z) (r : mregs) : mregs :=
  mkMregs (m_hartid r) (m_status r) x (m_satp r) (m_edeleg r) (m_ideleg r) (m_sie r) (m_pmpaddr0 r)
    (m_pmpcfg0 r) (m_envcfg r) (m_counteren r) (m_stimecmp r) (m_time r) (m_tp r).
Definition w_satp (x : Z) (r : mregs) : mregs :=
  mkMregs (m_hartid r) (m_status r) (m_epc r) x (m_edeleg r) (m_ideleg r) (m_sie r) (m_pmpaddr0 r)
    (m_pmpcfg0 r) (m_envcfg r) (m_counteren r) (m_stimecmp r) (m_time r) (m_tp r).
Definition w_medeleg (x : Z) (r : mregs) : mregs :=
  mkMregs (m_hartid r) (m_status r) (m_epc r) (m_satp r) x (m_ideleg r) (m_sie r) (m_pmpaddr0 r)
    (m_pmpcfg0 r) (m_envcfg r) (m_counteren r) (m_stimecmp r) (m_time r) (m_tp r).
Definition w_mideleg (x : Z) (r : mregs) : mregs :=
  mkMregs (m_hartid r) (m_status r) (m_epc r) (m_satp r) (m_edeleg r) x (m_sie r) (m_pmpaddr0 r)
    (m_pmpcfg0 r) (m_envcfg r) (m_counteren r) (m_stimecmp r) (m_time r) (m_tp r).
Definition r_sie (r : mregs) : Z := m_sie r.
Definition w_sie (x : Z) (r : mregs) : mregs :=
  mkMregs (m_hartid r) (m_status r) (m_epc r) (m_satp r) (m_edeleg r) (m_ideleg r) x (m_pmpaddr0 r)
    (m_pmpcfg0 r) (m_envcfg r) (m_counteren r) (m_stimecmp r) (m_time r) (m_tp r).
Definition w_pmpaddr0 (x : Z) (r : mregs) : mregs :=
  mkMregs (m_hartid r) (m_status r) (m_epc r) (m_satp r) (m_edeleg r) (m_ideleg r) (m_sie r) x
    (m_pmpcfg0 r) (m_envcfg r) (m_counteren r) (m_stimecmp r) (m_time r) (m_tp r).
Definition w_pmpcfg0 (x : Z) (r : mregs) : mregs :=
  mkMregs (m_hartid r) (m_status r) (m_epc r) (m_satp r) (m_edeleg r) (m_ideleg r) (m_sie r)
    (m_pmpaddr0 r) x (m_envcfg r) (m_counteren r) (m_stimecmp r) (m_time r) (m_tp r).
Definition r_menvcfg (r : mregs) : Z := m_envcfg r.
Definition w_menvcfg (x : Z) (r : mregs) : mregs :=
  mkMregs (m_hartid r) (m_status r) (m_epc r) (m_satp r) (m_edeleg r) (m_ideleg r) (m_sie r)
    (m_pmpaddr0 r) (m_pmpcfg0 r) x (m_counteren r) (m_stimecmp r) (m_time r) (m_tp r).
Definition r_mcounteren (r : mregs) : Z := m_counteren r.
Definition w_mcounteren (x : Z) (r : mregs) : mregs :=
  mkMregs (m_hartid r) (m_status r) (m_epc r) (m_satp r) (m_edeleg r) (m_ideleg r) (m_sie r)
    (m_pmpaddr0 r) (m_pmpcfg0 r) (m_envcfg r) x (m_stimecmp r) (m_time r) (m_tp r).
Definition w_stimecmp (x : Z) (r : mregs) : mregs :=
  mkMregs (m_hartid r) (m_status r) (m_epc r) (m_satp r) (m_edeleg r) (m_ideleg r) (m_sie r)
    (m_pmpaddr0 r) (m_pmpcfg0 r) (m_envcfg r) (m_counteren r) x (m_time r) (m_tp r).
Definition w_tp (x : Z) (r : mregs) : mregs :=
  mkMregs (m_hartid r) (m_status r) (m_epc r) (m_satp r) (m_edeleg r) (m_ideleg r) (m_sie r)
    (m_pmpaddr0 r) (m_pmpcfg0 r) (m_envcfg r) (m_counteren r) (m_stimecmp r) (m_time r) x.

Definition timerinit (r : mregs) : mregs :=
  (* enable the sstc extension (i.e. stimecmp). *)
  let r := w_menvcfg (Z.lor (r_menvcfg r) MENVCFG_STCE) r in
  (* allow supervisor to use stimecmp and time. *)
  let r := w_mcounteren (Z.lor (r_mcounteren r) 2) r in
  (* ask for the very first timer interrupt. *)
  w_stimecmp (u64 (m_time r + 1000000)) r.

(** start(), up to the mret instruction; [main_addr] is the address of main(). *)
Definition start (main_addr : Z) (r : mregs) : mregs :=
  let x := r_mstatus r in
  let x := Z.ldiff x MSTATUS_MPP_MASK in
  let x := Z.lor x MSTATUS_MPP_S in
  let r := w_mstatus x r in
  let r := w_mepc main_addr r in
  let r := w_satp 0 r in
  let r := w_medeleg 0xffff r in
  let r := w_mideleg 0xffff r in
  let r := w_sie (Z.lor (Z.lor (r_sie r) SIE_SEIE) SIE_STIE) r in
  let r := w_pmpaddr0 0x3fffffffffffff r in
  let r := w_pmpcfg0 0xf r in
  let r := w_menvcfg (Z.lor (r_menvcfg r) MENVCFG_ADUE) r in
  let r := timerinit r in
  let id := s32 (r_mhartid r) in
  w_tp id r.

Inductive privilege := PrvU | PrvS | PrvReserved | PrvM.

(** Where the mret instruction goes: the mode in MPP, the address in mepc. *)
Definition mret_target (r : mregs) : privilege * Z :=
  (match Z.land (Z.shiftr (m_status r) 11) 3 with
   | 0 => PrvU | 1 => PrvS | 2 => PrvReserved | _ => PrvM
   end, m_epc r).

(** ** virtio_disk_init() *)
Definition VIRTIO_MMIO_MAGIC_VALUE : Z := 0x000.
Definition VIRTIO_MMIO_VERSION : Z := 0x004.
Definition VIRTIO_MMIO_DEVICE_ID : Z := 0x008.
Definition VIRTIO_MMIO_VENDOR_ID : Z := 0x00c.
Definition VIRTIO_MMIO_DEVICE_FEATURES : Z := 0x010.
Definition VIRTIO_MMIO_DRIVER_FEATURES : Z := 0x020.
Definition VIRTIO_MMIO_QUEUE_SEL : Z := 0x030.
Definition VIRTIO_MMIO_QUEUE_NUM_MAX : Z := 0x034.
Definition VIRTIO_MMIO_QUEUE_NUM : Z := 0x038.
Definition VIRTIO_MMIO_QUEUE_READY : Z := 0x044.
Definition VIRTIO_MMIO_STATUS : Z := 0x070.
Definition VIRTIO_MMIO_QUEUE_DESC_LOW : Z := 0x080.
Definition VIRTIO_MMIO_QUEUE_DESC_HIGH : Z := 0x084.
Definition VIRTIO_MMIO_DRIVER_DESC_LOW : Z := 0x090.
Definition VIRTIO_MMIO_DRIVER_DESC_HIGH : Z := 0x094.
Definition VIRTIO_MMIO_DEVICE_DESC_LOW : Z := 0x0a0.
Definition VIRTIO_MMIO_DEVICE_DESC_HIGH : Z := 0x0a4.

Definition VIRTIO_CONFIG_S_ACKNOWLEDGE : Z := 1.
Definition VIRTIO_CONFIG_S_DRIVER : Z := 2.
Definition VIRTIO_CONFIG_S_DRIVER_OK : Z := 4.
Definition VIRTIO_CONFIG_S_FEATURES_OK : Z := 8.

Definition VIRTIO_BLK_F_RO : Z := 5.
Definition VIRTIO_BLK_F_SCSI : Z := 7.
Definition VIRTIO_BLK_F_CONFIG_WCE : Z := 11.
Definition VIRTIO_BLK_F_MQ : Z := 12.
Definition VIRTIO_F_ANY_LAYOUT : Z := 27.
Definition VIRTIO_RING_F_INDIRECT_DESC : Z := 28.
Definition VIRTIO_RING_F_EVENT_IDX : Z := 29.

Section boot.
Context {SYM : Symbols}.
(** What reading a register of the disk gives after a sequence of writes. *)
Context (dev_reg : list (Z * Z) -> Z -> Z).

Definition read_mmio (reg : Z) : K Z := gets (fun s => u32 (dev_reg (k_mmio s) reg)).

(** [features &= ~(1 << bit)] *)
Definition drop_feature (features bit : Z) : Z := Z.ldiff features (Z.shiftl 1 bit).

Definition negotiate (features : Z) : Z :=
  let features := drop_feature features VIRTIO_BLK_F_RO in
  let features := drop_feature features VIRTIO_BLK_F_SCSI in
  let features := drop_feature features VIRTIO_BLK_F_CONFIG_WCE in
  let features := drop_feature features VIRTIO_BLK_F_MQ in
  let features := drop_feature features VIRTIO_F_ANY_LAYOUT in
  let features := drop_feature features VIRTIO_RING_F_EVENT_IDX in
  drop_feature features VIRTIO_RING_F_INDIRECT_DESC.

(** Finding the disk and agreeing on features; the status so far. *)
Definition disk_probe : K Z :=
  let status := 0 in
  initlock LK_vdisk "virtio_disk" ;;
  magic ← read_mmio VIRTIO_MMIO_MAGIC_VALUE;
  version ← read_mmio VIRTIO_MMIO_VERSION;
  device ← read_mmio VIRTIO_MMIO_DEVICE_ID;
  vendor ← read_mmio VIRTIO_MMIO_VENDOR_ID;
  if negb (magic =? 0x74726976) || negb (version =? 2) || negb (device =? 2) || negb (vendor =? 0x554d4551)
  then panic "could not find virtio disk" else
  (* reset device *)
  write_mmio VIRTIO_MMIO_STATUS status ;;
  (* set ACKNOWLEDGE status bit *)
  let status := Z.lor status VIRTIO_CONFIG_S_ACKNOWLEDGE in
  write_mmio VIRTIO_MMIO_STATUS status ;;
  (* set DRIVER status bit *)
  let status := Z.lor status VIRTIO_CONFIG_S_DRIVER in
  write_mmio VIRTIO_MMIO_STATUS status ;;
  (* negotiate features *)
  features ← read_mmio VIRTIO_MMIO_DEVICE_FEATURES;
  write_mmio VIRTIO_MMIO_DRIVER_FEATURES (u32 (negotiate features)) ;;
  (* tell device that feature negotiation is complete. *)
  let status := Z.lor status VIRTIO_CONFIG_S_FEATURES_OK in
  write_mmio VIRTIO_MMIO_STATUS status ;;
  (* re-read status to ensure FEATURES_OK is set. *)
  status ← read_mmio VIRTIO_MMIO_STATUS;
  if negb (truthy (Z.land status VIRTIO_CONFIG_S_FEATURES_OK))
  then panic "virtio disk FEATURES_OK unset" else
  (* initialize queue 0. *)
  write_mmio VIRTIO_MMIO_QUEUE_SEL 0 ;;
  ready ← read_mmio VIRTIO_MMIO_QUEUE_READY;
  if truthy ready then panic "virtio disk should not be ready" else
  (* check maximum queue size. *)
  max ← read_mmio VIRTIO_MMIO_QUEUE_NUM_MAX;
  if max =? 0 then panic "virtio disk has no queue 0" else
  if max <? Z.of_nat NUM then panic "virtio disk max queue too short" else
  mret status.

(** The rings in zeroed pages. *)
Definition zeroed_desc (v : vdisk) : vdisk := set_vd_desc (replicate NUM (mkDesc DMA_null 0 0 0)) v.
Definition zeroed_avail (v : vdisk) : vdisk := set_vd_avail_ring (replicate NUM 0) (set_vd_avail_idx 0 v).
Definition zeroed_used (v : vdisk) : vdisk := set_vd_used_ring (replicate NUM 0) (set_vd_dev_idx 0 v).

(** Zeroing the pages of the queue. *)
Definition queue_zero (desc avail used : Z) : K unit :=
  upd_mem (memset desc 0 PGSIZE) ;; updvd zeroed_desc ;;
  upd_mem (memset avail 0 PGSIZE) ;; updvd zeroed_avail ;;
  upd_mem (memset used 0 PGSIZE) ;; updvd zeroed_used.

(** Telling the device where the queue is. *)
Definition queue_announce (desc avail used : Z) : K unit :=
  (* set queue size. *)
  write_mmio VIRTIO_MMIO_QUEUE_NUM (Z.of_nat NUM) ;;
  (* write physical addresses. *)
  write_mmio VIRTIO_MMIO_QUEUE_DESC_LOW (u32 desc) ;;
  write_mmio VIRTIO_MMIO_QUEUE_DESC_HIGH (u32 (Z.shiftr desc 32)) ;;
  write_mmio VIRTIO_MMIO_DRIVER_DESC_LOW (u32 avail) ;;
  write_mmio VIRTIO_MMIO_DRIVER_DESC_HIGH (u32 (Z.shiftr avail 32)) ;;
  write_mmio VIRTIO_MMIO_DEVICE_DESC_LOW (u32 used) ;;
  write_mmio VIRTIO_MMIO_DEVICE_DESC_HIGH (u32 (Z.shiftr used 32)) ;;
  (* queue is ready. *)
  write_mmio VIRTIO_MMIO_QUEUE_READY 1.

(** The queue: pages for its three parts, their addresses for the device. *)
Definition disk_queue (status : Z) : K unit :=
  desc ← kalloc;
  avail ← kalloc;
  used ← kalloc;
  if negb (truthy desc) || negb (truthy avail) || negb (truthy used) then panic "virtio disk kalloc" else
  queue_zero desc avail used ;;
  queue_announce desc avail used ;;
  (* all NUM descriptors start out unused. *)
  updvd (set_vd_free (replicate NUM 1)) ;;
  (* tell device we're completely ready. *)
  write_mmio VIRTIO_MMIO_STATUS (Z.lor status VIRTIO_CONFIG_S_DRIVER_OK).

Definition virtio_disk_init : K unit := status ← disk_probe; disk_queue status.

(** ** main() *)

(** What hart 0 does before the other harts may go on. *)
Definition main_boot : K unit :=
  consoleinit ;;
  printkinit ;;
  printk [10] [] ;;
  printk (str "xv6 kernel is booting" ++ [10]) [] ;;
  printk [10] [] ;;
  kinit ;;
  kvminit ;;
  kvminithart ;;
  procinit ;;
  trapinit ;;
  trapinithart ;;
  plicinit ;;
  plicinithart ;;
  binit ;;
  iinit ;;
  fileinit ;;
  virtio_disk_init ;;
  userinit ;;
  race_init.

(** main() on the executing hart; [started] is the value it reads of the flag
    that hart 0 sets after [main_boot].  scheduler() never returns: [fuel]
    rounds of it are run. *)
Definition main (started : Z) (fuel : nat) : K unit :=
  hart ← cpuid;
  (if hart =? 0 then main_boot
   else if started =? 0 then stuck_at OutOfFuel (* while (started == 0) ; *)
   else
     hart ← cpuid;
     printk (str "hart %d starting" ++ [10]) [AInt hart] ;;
     kvminithart ;;
     trapinithart ;;
     plicinithart) ;;
  scheduler fuel.

(** ** The disk as the virtio specification describes it *)

(** The value last written to a register, since the last reset of the device
    (a write of 0 to the status register). *)
Fixpoint last_write (reg : Z) (h : list (Z * Z)) (v : Z) : Z :=
  match h with
  | [] => v
  | (r, x) :: h =>
      last_write reg h
        (if (r =? VIRTIO_MMIO_STATUS) && (x =? 0) then 0 else if r =? reg then x else v)
  end.

(** A block device on the memory-mapped transport (virtio 1.1, 4.2.2) that
    offers [features] and a queue of [max] entries: it identifies itself,
    keeps FEATURES_OK if the driver asked for nothing it did not offer, and a
    queue is not ready until the driver says so. *)
Record virtio_mmio (features max : Z) : Prop := {
  vm_magic h : dev_reg h VIRTIO_MMIO_MAGIC_VALUE = 0x74726976;
  vm_version h : dev_reg h VIRTIO_MMIO_VERSION = 2;
  vm_device h : dev_reg h VIRTIO_MMIO_DEVICE_ID = 2;
  vm_vendor h : dev_reg h VIRTIO_MMIO_VENDOR_ID = 0x554d4551;
  vm_features h : dev_reg h VIRTIO_MMIO_DEVICE_FEATURES = features;
  vm_status h : Z.ldiff (last_write VIRTIO_MMIO_DRIVER_FEATURES h 0) features = 0 ->
    dev_reg h VIRTIO_MMIO_STATUS = last_write VIRTIO_MMIO_STATUS h 0;
  vm_ready h : dev_reg h VIRTIO_MMIO_QUEUE_READY = last_write VIRTIO_MMIO_QUEUE_READY h 0;
  vm_max h : dev_reg h VIRTIO_MMIO_QUEUE_NUM_MAX = max;
}.

(** The writes of the driver, in the order the specification asks for (3.1.1
    and 4.2.3.2): reset, acknowledge, features, features accepted, queue, and
    only then DRIVER_OK. *)
Definition handshake (features desc avail used : Z) : list (Z * Z) :=
  [(VIRTIO_MMIO_STATUS, 0); (VIRTIO_MMIO_STATUS, 1); (VIRTIO_MMIO_STATUS, 3);
   (VIRTIO_MMIO_DRIVER_FEATURES, negotiate features); (VIRTIO_MMIO_STATUS, 11);
   (VIRTIO_MMIO_QUEUE_SEL, 0); (VIRTIO_MMIO_QUEUE_NUM, 8);
   (VIRTIO_MMIO_QUEUE_DESC_LOW, u32 desc); (VIRTIO_MMIO_QUEUE_DESC_HIGH, u32 (Z.shiftr desc 32));
   (VIRTIO_MMIO_DRIVER_DESC_LOW, u32 avail); (VIRTIO_MMIO_DRIVER_DESC_HIGH, u32 (Z.shiftr avail 32));
   (VIRTIO_MMIO_DEVICE_DESC_LOW, u32 used); (VIRTIO_MMIO_DEVICE_DESC_HIGH, u32 (Z.shiftr used 32));
   (VIRTIO_MMIO_QUEUE_READY, 1); (VIRTIO_MMIO_STATUS, 15)].

(** ** Negotiation *)
Lemma negotiate_bits f k : 0 <= k ->
  Z.testbit (negotiate f) k =
    Z.testbit f k && negb (bool_decide (k ∈ [5; 7; 11; 12; 27; 29; 28])).
Proof.
  intros Hk. unfold negotiate, drop_feature. rewrite !Z.ldiff_spec.
  rewrite !Z.shiftl_1_l, !Z.pow2_bits_eqb by done.
  unfold VIRTIO_BLK_F_RO, VIRTIO_BLK_F_SCSI, VIRTIO_BLK_F_CONFIG_WCE, VIRTIO_BLK_F_MQ,
    VIRTIO_F_ANY_LAYOUT, VIRTIO_RING_F_EVENT_IDX, VIRTIO_RING_F_INDIRECT_DESC.
  case_bool_decide as Hin.
  - rewrite andb_false_r. destruct (Z.testbit f k); [|done]. cbn [negb andb].
    rewrite !elem_of_cons, elem_of_nil in Hin.
    destruct Hin as [->|[->|[->|[->|[->|[->|[->|[]]]]]]]]; reflexivity.
  - rewrite !elem_of_cons, elem_of_nil in Hin. rewrite andb_true_r.
    repeat (rewrite (proj2 (Z.eqb_neq _ k)) by (intros <-; apply Hin; tauto); cbn [negb]).
    by rewrite !andb_true_r.
Qed.

Lemma negotiate_offered f : Z.ldiff (negotiate f) f = 0.
Proof.
  apply Z.bits_inj'. intros k Hk. rewrite Z.ldiff_spec, negotiate_bits, Z.bits_0 by done.
  destruct (Z.testbit f k); [by rewrite andb_false_r|done].
Qed.

Lemma negotiate_range f : 0 <= f < 2 ^ 32 -> 0 <= negotiate f < 2 ^ 32.
Proof.
  intros Hf. pose proof (Z.ldiff_le (negotiate f) f (proj1 Hf) (negotiate_offered f)). lia.
Qed.

(** ** The handshake *)
Lemma last_write_reset reg h h' v :
  last_write reg (h ++ (VIRTIO_MMIO_STATUS, 0) :: h') v = last_write reg h' 0.
Proof. revert v. induction h as [|[r x] h IH]; intros v; cbn; [done|apply IH]. Qed.

Section handshake.
Context {features max : Z} (DEV : virtio_mmio features max).
Context (FEAT : 0 <= features < 2 ^ 32) (MAX : Z.of_nat NUM <= max < 2 ^ 32).

Lemma disk_probe_ok s :
  disk_probe s = Done 11
    (set_k_mmio (k_mmio s ++ take 6 (handshake features 0 0 0))
       (set_k_locks (<[LK_vdisk := mkSpinlock 0 "virtio_disk" None]> (k_locks s)) s)).
Proof using DEV FEAT MAX.
  unfold disk_probe. erewrite bind_Done by apply initlock_eq.
  unfold read_mmio, write_mmio. rewrite !bind_gets.
  rewrite (vm_magic _ _ DEV), (vm_version _ _ DEV), (vm_device _ _ DEV), (vm_vendor _ _ DEV).
  change (negb (u32 _ =? _) || negb (u32 2 =? 2) || negb (u32 2 =? 2) || negb (u32 _ =? _)) with false.
  cbv iota. rewrite !bind_modify, bind_gets, !bind_modify, bind_gets. cbn [k_mmio set_k_mmio].
  rewrite !(vm_features _ _ DEV), (u32_small features) by lia.
  pose proof (negotiate_range features FEAT) as HN.
  rewrite (u32_small (negotiate features)) by lia. rewrite <- !app_assoc. cbn [app].
  rewrite (vm_status _ _ DEV); [|by rewrite last_write_reset; apply negotiate_offered].
  rewrite last_write_reset.
  change (u32 (last_write VIRTIO_MMIO_STATUS _ 0)) with 11.
  change (negb (truthy (Z.land 11 VIRTIO_CONFIG_S_FEATURES_OK))) with false. cbv iota.
  rewrite bind_modify, bind_gets. cbn [k_mmio set_k_mmio]. rewrite <- app_assoc. cbn [app].
  rewrite (vm_ready _ _ DEV), last_write_reset.
  change (truthy (u32 (last_write VIRTIO_MMIO_QUEUE_READY _ 0))) with false. cbv iota.
  rewrite bind_gets, (vm_max _ _ DEV), u32_small by (unfold NUM in *; lia).
  destruct (Z.eqb_spec max 0); [unfold NUM in *; lia|]. destruct (Z.ltb_spec max (Z.of_nat NUM)); [lia|].
  reflexivity.
Qed.

End handshake.

(** Zeroing a page that is not free leaves the free list alone. *)
Lemma chain_memset m p a c l :
  chain m p l -> valid_page a -> (a ∉ l) -> chain (memset a c PGSIZE m) p l.
Proof.
  intros Hch Hv Hnin. eapply chain_ext; [|exact Hch].
  intros b x Hb Hx. symmetry. apply memset_out; [unfold PGSIZE; lia|].
  destruct (page_disjoint a b) as [|]; [apply Hv| |by intros ->|lia..].
  apply chain_valid in Hch. rewrite Forall_forall in Hch. by apply Hch.
Qed.

Definition zero_page (m : mem) (a : Z) : Prop := forall x, a <= x < a + PGSIZE -> m x = 0.

Lemma kalloc_step s a l :
  cpu_ok s -> lock_free LK_kmem s -> kmem_inv s (a :: l) ->
  exists s1, kalloc s = Done a s1 /\ valid_page a /\ (a ∉ l) /\ cpu_ok s1 /\ lock_free LK_kmem s1 /\
    kmem_inv s1 l /\ k_mmio s1 = k_mmio s /\ k_vdisk s1 = k_vdisk s /\ k_locks s1 = k_locks s.
Proof.
  intros Hok Hlk Hinv. destruct (kalloc_inv s a l Hinv) as (Ha & Hv & Hinv1).
  pose proof Hinv as [_ [Hnin _]%NoDup_cons].
  exists (kalloc_post s). rewrite kalloc_eq, Ha by done.
  pose proof (cpu_ok_touch s Hok). split_and!; try done;
    unfold kalloc_post; destruct (truthy (k_freelist s)); done.
Qed.

Lemma queue_zero_eq a b c s :
  queue_zero a b c s = Done tt
    (set_k_vdisk (zeroed_used (zeroed_avail (zeroed_desc (k_vdisk s))))
      (set_k_mem (memset c 0 PGSIZE (memset b 0 PGSIZE (memset a 0 PGSIZE (k_mem s)))) s)).
Proof.
  assert (forall v m s, set_k_mem m (set_k_vdisk v s) = set_k_vdisk v (set_k_mem m s)) as C by done.
  assert (forall m m' s, set_k_mem m (set_k_mem m' s) = set_k_mem m s) as C1 by done.
  assert (forall v v' s, set_k_vdisk v (set_k_vdisk v' s) = set_k_vdisk v s) as C2 by done.
  assert (forall m s, k_vdisk (set_k_mem m s) = k_vdisk s) as P1 by done.
  assert (forall v s, k_vdisk (set_k_vdisk v s) = v) as P2 by done.
  assert (forall v s, k_mem (set_k_vdisk v s) = k_mem s) as P3 by done.
  assert (forall m s, k_mem (set_k_mem m s) = m) as P4 by done.
  unfold queue_zero, upd_mem, updvd.
  rewrite !bind_modify. unfold modify.
  by repeat first [rewrite P1|rewrite P2|rewrite P3|rewrite P4|rewrite C|rewrite C1|rewrite C2].
Qed.

Lemma queue_announce_eq features a b c s :
  queue_announce a b c s = Done tt
    (set_k_mmio (k_mmio s ++ take 8 (drop 6 (handshake features a b c))) s).
Proof.
  unfold queue_announce, write_mmio. rewrite !bind_modify. unfold modify. cbn [k_mmio set_k_mmio].
  rewrite <- !app_assoc. reflexivity.
Qed.

(** Three different pages, zeroed one after the other. *)
Lemma zeroed_pages s a b c l :
  kmem_inv s l -> valid_page a -> valid_page b -> valid_page c ->
  (a ∉ l) -> (b ∉ l) -> (c ∉ l) ->
  let m := memset c 0 PGSIZE (memset b 0 PGSIZE (memset a 0 PGSIZE (k_mem s))) in
  kmem_inv (set_k_mem m s) l /\ zero_page m a /\ zero_page m b /\ zero_page m c.
Proof.
  intros I0 Va Vb Vc Na Nb Nc m. split_and!.
  - destruct I0 as [Hch Hnd]. split; [|done]. cbn [k_mem set_k_mem k_freelist].
    do 3 (apply chain_memset; [|assumption..]). exact Hch.
  - intros x Hx. subst m. rewrite !memset_spec by done. zcases; done.
  - intros x Hx. subst m. rewrite !memset_spec by done. zcases; done.
  - intros x Hx. subst m. rewrite !memset_spec by done. zcases; done.
Qed.

Lemma disk_queue_ok s a b c l features :
  cpu_ok s -> lock_free LK_kmem s -> kmem_inv s (a :: b :: c :: l) ->
  exists s', disk_queue 11 s = Done tt s' /\ kmem_inv s' l /\
    (zero_page (k_mem s') a /\ zero_page (k_mem s') b /\ zero_page (k_mem s') c) /\
    k_mmio s' = k_mmio s ++ drop 6 (handshake features a b c) /\
    k_vdisk s' = set_vd_free (replicate NUM 1) (zeroed_used (zeroed_avail (zeroed_desc (k_vdisk s)))) /\
    k_locks s' = k_locks s.
Proof.
  intros Hok Hlk Hinv. unfold disk_queue.
  destruct (kalloc_step s a _ Hok Hlk Hinv) as (s1 & E1 & Va & Na & Hok1 & Hlk1 & Hinv1 & Hm1 & Hv1 & Hl1).
  rewrite (bind_Done _ _ _ _ _ E1). cbv beta.
  destruct (kalloc_step s1 b _ Hok1 Hlk1 Hinv1) as (s2 & E2 & Vb & Nb & Hok2 & Hlk2 & Hinv2 & Hm2 & Hv2 & Hl2).
  rewrite (bind_Done _ _ _ _ _ E2). cbv beta.
  destruct (kalloc_step s2 c _ Hok2 Hlk2 Hinv2) as (s3 & E3 & Vc & Nc & Hok3 & Hlk3 & Hinv3 & Hm3 & Hv3 & Hl3).
  rewrite (bind_Done _ _ _ _ _ E3). cbv beta.
  rewrite !valid_page_truthy by done. cbn [negb orb]. rewrite (bind_Done _ _ _ _ _ (queue_zero_eq a b c s3)).
  assert ((b ∉ l) /\ (a ∉ l)) as [Nbl Nal] by set_solver.
  destruct (zeroed_pages s3 a b c l Hinv3 Va Vb Vc Nal Nbl Nc) as (I & Za & Zb & Zc).
  set (m := memset c 0 PGSIZE _) in *. set (v := zeroed_used _).
  rewrite (bind_Done _ _ _ _ _ (queue_announce_eq features a b c _)).
  unfold updvd, write_mmio. rewrite bind_modify. unfold modify. eexists. split; [reflexivity|].
  cbn [k_mmio set_k_mmio k_vdisk set_k_vdisk k_mem set_k_mem k_locks].
  split_and!; try done.
  - rewrite Hm3, Hm2, Hm1, <- !app_assoc. reflexivity.
  - subst v. by rewrite Hv3, Hv2, Hv1.
  - by rewrite Hl3, Hl2.
Qed.

(** Initialising the disk.  On a device that follows the virtio
    specification and offers a long enough queue, with three free pages,
    virtio_disk_init() returns without panic; it has taken the first three
    free pages, zeroed them, and given their addresses to the device; all
    descriptors are free and the rings empty; and its writes to the device's
    registers are exactly the initialisation sequence of the specification,
    DRIVER_OK last.  The features it accepts are those offered without the
    seven it does not support. *)
Lemma virtio_init_handshake s a b c l features max :
  virtio_mmio features max -> 0 <= features < 2 ^ 32 -> Z.of_nat NUM <= max < 2 ^ 32 ->
  cpu_ok s -> lock_free LK_kmem s -> kmem_inv s (a :: b :: c :: l) ->
  (exists s', virtio_disk_init s = Done tt s' /\ kmem_inv s' l /\
    (zero_page (k_mem s') a /\ zero_page (k_mem s') b /\ zero_page (k_mem s') c) /\
    k_mmio s' = k_mmio s ++ handshake features a b c /\
    k_vdisk s' = set_vd_free (replicate NUM 1) (zeroed_used (zeroed_avail (zeroed_desc (k_vdisk s)))) /\
    lock_free LK_vdisk s') /\
  (forall k, 0 <= k -> Z.testbit (negotiate features) k =
     Z.testbit features k && negb (bool_decide (k ∈ [5; 7; 11; 12; 27; 29; 28]))).
Proof.
  intros DEV FEAT MAX Hok Hlk Hinv. split; [|intros; by apply negotiate_bits].
  unfold virtio_disk_init. rewrite (bind_Done _ _ _ _ _ (disk_probe_ok DEV FEAT MAX s)).
  set (s0 := set_k_mmio _ _).
  destruct (disk_queue_ok s0 a b c l features) as (s' & E & ? & ? & Hm & ? & Hl); [done| |done|].
  { destruct Hlk as [n Hn]. exists n. cbn. by rewrite lookup_insert_ne. }
  exists s'. split; [done|]. split; [done|]. split; [done|]. split; [|split; [done|]].
  - rewrite Hm. cbn [s0 k_mmio set_k_mmio]. rewrite <- app_assoc. reflexivity.
  - exists "virtio_disk". rewrite Hl. apply lookup_insert_eq.
Qed.

End boot.

(** ** start() *)

(** After start() the mret instruction enters main() in supervisor mode with
    paging off, all traps delegated, external and timer interrupts enabled,
    memory open to supervisor mode, the clock set, and the hart's number in
    tp; the other bits of mstatus are as they were. *)
Lemma start_enters_main main_addr r :
  0 <= m_hartid r < 2 ^ 31 -> 0 <= m_time r < 2 ^ 63 ->
  let r' := start main_addr r in
  mret_target r' = (PrvS, main_addr) /\ m_satp r' = 0 /\ m_edeleg r' = 0xffff /\ m_ideleg r' = 0xffff /\
  (Z.testbit (m_sie r') 9 = true /\ Z.testbit (m_sie r') 5 = true) /\ m_pmpcfg0 r' = 0xf /\
  Z.testbit (m_envcfg r') 63 = true /\ Z.testbit (m_counteren r') 1 = true /\
  m_stimecmp r' = m_time r + 1000000 /\ m_tp r' = m_hartid r /\
  (forall k, 0 <= k -> k <> 11 -> k <> 12 -> Z.testbit (m_status r') k = Z.testbit (m_status r) k).
Proof.
  intros Hid Ht r'. subst r'. unfold start, timerinit. cbn.
  split_and!; try done.
  - unfold mret_target. cbn. f_equal.
    replace (Z.land (Z.shiftr _ 11) 3) with 1; [done|]. symmetry.
    apply Z.bits_inj'. intros k Hk. rewrite Z.land_spec, Z.shiftr_spec, Z.lor_spec, Z.ldiff_spec by done.
    unfold MSTATUS_MPP_S, MSTATUS_MPP_MASK. rewrite !Z.shiftl_spec by lia.
    replace (k + 11 - 11) with k by lia. destruct (Z.eq_dec k 0) as [->|]; [by rewrite orb_true_r|].
    destruct (Z.eq_dec k 1) as [->|]; [by rewrite !andb_false_r|].
    replace 1 with (2 ^ 0) by done. change 3 with (Z.ones 2).
    rewrite Z.ones_spec_high, andb_false_r, Z.pow2_bits_false by lia. done.
  - unfold r_sie. cbn. rewrite !Z.lor_spec. unfold SIE_SEIE, SIE_STIE. cbn. by rewrite orb_true_r.
  - rewrite !Z.lor_spec. change (Z.testbit SIE_STIE 5) with true. by rewrite orb_true_r.
  - rewrite !Z.lor_spec. change (Z.testbit MENVCFG_STCE 63) with true. by rewrite orb_true_r.
  - rewrite !Z.lor_spec. by rewrite orb_true_r.
  - apply u64_small. lia.
  - apply s32_small. unfold r_mhartid. cbn. lia.
  - intros k Hk H11 H12. rewrite Z.lor_spec, Z.ldiff_spec. unfold MSTATUS_MPP_S, MSTATUS_MPP_MASK.
    rewrite Z.shiftl_1_l, Z.pow2_bits_false, orb_false_r by lia.
    rewrite (Z.shiftl_spec _ _ _ Hk). change 3 with (Z.ones 2).
    destruct (decide (k < 11)).
    + rewrite (Z.testbit_neg_r (Z.ones 2)) by lia. by rewrite andb_true_r.
    + rewrite Z.ones_spec_high by lia. by rewrite andb_true_r.
Qed.

(** ** A device and a kernel with three free pages *)
Definition blk_features : Z := 0x31006ed4.
Definition qemu_disk (h : list (Z * Z)) (reg : Z) : Z :=
  if reg =? VIRTIO_MMIO_MAGIC_VALUE then 0x74726976
  else if reg =? VIRTIO_MMIO_VERSION then 2
  else if reg =? VIRTIO_MMIO_DEVICE_ID then 2
  else if reg =? VIRTIO_MMIO_VENDOR_ID then 0x554d4551
  else if reg =? VIRTIO_MMIO_DEVICE_FEATURES then blk_features
  else if reg =? VIRTIO_MMIO_QUEUE_NUM_MAX then 1024
  else last_write reg h 0.

Definition three_pages : list Z := [0x87fff000; 0x87ffe000; 0x87ffd000].
Definition three_page_kst : kst :=
  set_k_mem (st64 (st64 (k_mem idle_kst) 0x87fff000 0x87ffe000) 0x87ffe000 0x87ffd000)
    (set_k_freelist 0x87fff000 idle_kst).

Lemma virtio_init_handshake_witness :
  virtio_mmio qemu_disk blk_features 1024 /\
  exists s', virtio_disk_init qemu_disk three_page_kst = Done tt s' /\
    k_mmio s' = handshake blk_features 0x87fff000 0x87ffe000 0x87ffd000.
Proof.
  assert (virtio_mmio qemu_disk blk_features 1024) as DEV by (split; done).
  split; [done|].
  destruct (@virtio_init_handshake built_kernel qemu_disk three_page_kst
    0x87fff000 0x87ffe000 0x87ffd000 [] blk_features 1024 DEV) as ((s' & E & _ & _ & Hm & _) & _).
  - unfold blk_features. lia.
  - vm_compute. by split; [|].
  - split; [done|intros H; by vm_compute in H].
  - by eexists.
  - split; [|apply (bool_decide_unpack _); by vm_compute].
    repeat (split; [reflexivity|]; split; [split; [reflexivity|vm_compute; split; [discriminate|reflexivity]]|]).
    reflexivity.
  - exists s'. split; [exact E|exact Hm].
Defined.
