(* ===== verification/Ulib.v ===== *)
(** * Ulib: the C library of user programs (user/ulib.c)

    Written again for user space, next to kernel/string.c; the two copies
    of memset, memmove, memcmp and memcpy differ in how they are written.
    Memory and character arrays are as in Strings.v; on this machine [char]
    is unsigned. *)

From S2P Require Import Prelude Params Machine Strings.

Fixpoint strcpy_loop (k : nat) (i : nat) (s t : list Z) : list Z :=
  match k with
  | O => s
  | S k' =>
      let s := <[i := hd0 t]> s in
      if truthy (hd0 t) then strcpy_loop k' (S i) s (tail t) else s
  end.
Definition strcpy (s t : list Z) : list Z := strcpy_loop (S (length t)) 0 s t.

Fixpoint strcmp (p q : list Z) : Z :=
  match p with
  | [] => 0 - hd0 q
  | c :: p' => if truthy c && (c =? hd0 q) then strcmp p' (tail q) else c - hd0 q
  end.

Fixpoint strlen (s : list Z) : Z :=
  match s with
  | [] => 0
  | c :: s' => if truthy c then 1 + strlen s' else 0
  end.

Definition memset (dst c n : Z) (m : mem) : mem := memset_loop (Z.to_nat n) dst c 0 m.

(** strchr(), as the index of the character. *)
Fixpoint strchr (s : list Z) (c : Z) : option nat :=
  match s with
  | [] => None
  | x :: r => if negb (truthy x) then None else if x =? c then Some O else S <$> strchr r c
  end.

(** gets(): [input] is what read(0, &c, 1) delivers, one byte at a time. *)
Fixpoint gets_loop (k : nat) (input : list Z) : list Z * list Z :=
  match k, input with
  | S k', c :: input' =>
      if (c =? 10) || (c =? 13) then ([c], input') else
      let '(line, rest) := gets_loop k' input' in (c :: line, rest)
  | _, _ => ([], input)
  end.
Definition gets (max : Z) (input : list Z) : list Z * list Z :=
  let '(line, rest) := gets_loop (Z.to_nat (max - 1)) input in (line ++ [0], rest).

Fixpoint atoi_loop (s : list Z) (n : Z) : Z :=
  match s with
  | [] => n
  | c :: s' => if (chr "0" <=? c) && (c <=? chr "9") then atoi_loop s' (s32 (n * 10 + c - chr "0")) else n
  end.
Definition atoi (s : list Z) : Z := atoi_loop s 0.

Definition memmove (dst src n : Z) (m : mem) : mem :=
  if src >? dst then copy_up (Z.to_nat n) dst src m
  else copy_down (Z.to_nat n) (dst + n) (src + n) m.

Fixpoint memcmp (n : nat) (s1 s2 : Z) (m : mem) : Z :=
  match n with
  | O => 0
  | S n' => if negb (m s1 =? m s2) then m s1 - m s2 else memcmp n' (s1 + 1) (s2 + 1) m
  end.

Definition memcpy (dst src n : Z) (m : mem) : mem := memmove dst src n m.

(** The two C libraries agree.  The user-space memmove, memcpy and memcmp,
    which are written differently from the kernel's, compute the same memory
    and the same comparison on every input, for overlapping regions too, and
    strcmp is the kernel's strncmp with a bound past the end of the first
    string. *)
Lemma ulib_agrees dst src n m (p q : list Z) :
  0 <= n ->
  (forall a, memmove dst src n m a = Strings.memmove dst src n m a)
  /\ (forall a, memcpy dst src n m a = Strings.memcpy dst src n m a)
  /\ memcmp (Z.to_nat n) dst src m = Strings.memcmp (Z.to_nat n) dst src m
  /\ strcmp p q = strncmp (S (length p)) p q.
Proof.
  intros Hn.
  assert (Hmove : forall a, memmove dst src n m a = Strings.memmove dst src n m a).
  { intros a. rewrite memmove_lookup by done. unfold memmove. rewrite Z.gtb_ltb. zcases; try lia.
    all: first [rewrite copy_up_spec by lia | rewrite copy_down_spec by lia]; zcases; try done; try lia; f_equal; lia. }
  split_and!; [done|done| |]; clear Hmove.
  - generalize (Z.to_nat n) as k. intros k. revert dst src. clear.
    induction k as [|k IH]; intros dst src; cbn; [done|]. rewrite IH. by destruct (m dst =? m src).
  - clear. revert q. induction p as [|x p IH]; intros q; [done|]. cbn [strcmp strncmp length].
    change (hd0 (x :: p)) with x. cbn [tail]. destruct (truthy x && (x =? hd0 q)); [|done]. by rewrite IH.
Qed.

Lemma ulib_agrees_witness :
  memmove 101 100 3 (fun a => a) 103 = 102 /\ strcmp (str "ab") (str "b") = strncmp 3 (str "ab") (str "b").
Proof.
  destruct (ulib_agrees 101 100 3 (fun a => a) (str "ab") (str "b")) as (H & _ & _ & H2); [lia|].
  split; [rewrite H; reflexivity|exact H2].
Defined.
