(* ===== verification/Umalloc.v ===== *)
(** * Umalloc: the user memory allocator (user/umalloc.c)

    The free blocks form a circular list in address order, threaded through
    the 16-byte headers that precede the blocks in memory; [base] is a
    block of size 0 that is always on it.  Memory is the byte-addressed [mem]
    of the prelude and a pointer is an address, so that a client's writes and
    the allocator's headers share one store.  The section leaves the address
    of [base] and the kernel's answer to a request for memory open. *)

From stdpp Require Import sorting.
From S2P Require Import Prelude Params.

(** ** Headers: [union header], with [s.ptr] at offset 0 and [s.size] at 8 *)
Definition HDR : Z := 16.
Definition h_ptr (m : mem) (p : Z) : Z := ld64 m p.
Definition h_size (m : mem) (p : Z) : Z := ld32 m (p + 8).
Definition set_ptr (p v : Z) (m : mem) : mem := st64 m p v.
Definition set_size (p v : Z) (m : mem) : mem := st32 m (p + 8) v.

(** Memory, [freep] and the end of the process's memory. *)
Record um := mkUm { um_mem : mem; um_freep : Z; um_brk : Z }.

Definition set_um_mem (m : mem) (st : um) : um := mkUm m (um_freep st) (um_brk st).
Definition set_um_freep (p : Z) (st : um) : um := mkUm (um_mem st) p (um_brk st).
Definition set_um_brk (b : Z) (st : um) : um := mkUm (um_mem st) (um_freep st) b.

Section umalloc.
(** The address of [base], and whether the kernel has the memory to grow the
    process from a size by a number of bytes. *)
Context (base : Z) (grow : Z -> Z -> bool).

(** ** free() *)

(** The two tests that end the search for the block before [bp]. *)
Definition place (m : mem) (bp p : Z) : bool :=
  ((bp >? p) && (bp <? h_ptr m p))
  || ((p >=? h_ptr m p) && ((bp >? p) || (bp <? h_ptr m p))).

Fixpoint find_place (fuel : nat) (m : mem) (bp p : Z) : option Z :=
  match fuel with
  | O => None
  | S f => if place m bp p then Some p else find_place f m bp (h_ptr m p)
  end.

(** Joining [bp] to the block after it, then to the block [p] before it. *)
Definition join_upper (bp p : Z) (m : mem) : mem :=
  if bp + HDR * h_size m bp =? h_ptr m p then
    let m1 := set_size bp (u32 (h_size m bp + h_size m (h_ptr m p))) m in
    set_ptr bp (h_ptr m1 (h_ptr m1 p)) m1
  else set_ptr bp (h_ptr m p) m.

Definition join_lower (bp p : Z) (m : mem) : mem :=
  if p + HDR * h_size m p =? bp then
    let m1 := set_size p (u32 (h_size m p + h_size m bp)) m in
    set_ptr p (h_ptr m1 bp) m1
  else set_ptr p bp m.

Definition free (fuel : nat) (ap : Z) (st : um) : option um :=
  let bp := ap - HDR in
  p ← find_place fuel (um_mem st) bp (um_freep st);
  let m := join_lower bp p (join_upper bp p (um_mem st)) in
  mret (set_um_freep p (set_um_mem m st)).

(** ** sbrk(): what sys_sbrk() and growproc() do to the process's size *)
Definition SBRK_ERROR : Z := u64 (-1).

Definition sbrk (n : Z) (st : um) : um * Z :=
  let sz := um_brk st in
  if 0 <? n then
    if u64 (sz + n) >? TRAPFRAME then (st, SBRK_ERROR) else
    if grow sz n then (set_um_brk (u64 (sz + n)) st, sz) else (st, SBRK_ERROR)
  else if n <? 0 then
    (* uvmdealloc() *)
    let newsz := u64 (sz + n) in
    (set_um_brk (if newsz >=? sz then sz else newsz) st, sz)
  else (st, sz).

(** ** morecore() and malloc() *)
Definition morecore (fuel : nat) (nu : Z) (st : um) : option (um * Z) :=
  let nu := if nu <? 4096 then 4096 else nu in
  let '(st, p) := sbrk (s32 (nu * HDR)) st in
  if p =? SBRK_ERROR then mret (st, 0) else
  let hp := p in
  let st := set_um_mem (set_size hp nu (um_mem st)) st in
  st ← free fuel (hp + HDR) st;
  mret (st, um_freep st).

(** Taking [nunits] units from the block [p]; [prevp] points to it. *)
Definition take_block (nunits prevp p : Z) (st : um) : um * Z :=
  let m := um_mem st in
  let '(m, p) :=
    if h_size m p =? nunits then (set_ptr prevp (h_ptr m p) m, p)
    else
      let m := set_size p (u32 (h_size m p - nunits)) m in
      let p := p + HDR * h_size m p in
      (set_size p nunits m, p) in
  (set_um_freep prevp (set_um_mem m st), p + HDR).

Fixpoint malloc_loop (fuel : nat) (nunits prevp p : Z) (st : um) : option (um * Z) :=
  match fuel with
  | O => None
  | S f =>
      if h_size (um_mem st) p >=? nunits then Some (take_block nunits prevp p st)
      else if p =? um_freep st then
        '(st, p) ← morecore f nunits st;
        if p =? 0 then mret (st, 0) else malloc_loop f nunits p (h_ptr (um_mem st) p) st
      else malloc_loop f nunits p (h_ptr (um_mem st) p) st
  end.

Definition nunits_for (nbytes : Z) : Z := u32 ((nbytes + HDR - 1) / HDR + 1).

Definition malloc (fuel : nat) (nbytes : Z) (st : um) : option (um * Z) :=
  let nunits := nunits_for nbytes in
  let st :=
    if um_freep st =? 0
    then set_um_freep base (set_um_mem (set_size base 0 (set_ptr base base (um_mem st))) st)
    else st in
  let prevp := um_freep st in
  malloc_loop fuel nunits prevp (h_ptr (um_mem st) prevp) st.
End umalloc.

(** ** Blocks *)
Abbreviation block := (Z * Z)%type.
Abbreviation owned := (list (Z * list Z)).

Section blocks.
Context (base : Z).

(** How many of the blocks contain the address. *)
Fixpoint cover (x : Z) (l : list block) : Z :=
  match l with
  | [] => 0
  | (a, n) :: l => b2z ((a <=? x) && (x <? a + HDR * n)) + cover x l
  end.

(** Where the next block of a list starts, [q] being what follows the list. *)
Definition first (l : list block) (q : Z) : Z :=
  match l with [] => q | (a, _) :: _ => a end.

(** The headers of the blocks link each to the next and the last to [q]. *)
Fixpoint chain (m : mem) (l : list block) (q : Z) : Prop :=
  match l with
  | [] => True
  | (a, n) :: l' => h_size m a = n /\ h_ptr m a = first l' q /\ chain m l' q
  end.

(** [y] comes after [x], and is not adjacent to it. *)
Definition sep (x y : block) : Prop := x.1 + HDR <= y.1 /\ x.1 + HDR * x.2 < y.1.

(** The heap [lo, um_brk): its free blocks [fl] and its live blocks. *)
Record heap_ok (lo : Z) (fl live : list block) (st : um) : Prop := {
  ho_freep : um_freep st ∈ ((base, 0) :: fl).*1;
  ho_chain : chain (um_mem st) ((base, 0) :: fl) base;
  ho_sorted : StronglySorted sep ((base, 0) :: fl);
  ho_pos : Forall (fun b : block => 1 <= b.2) (fl ++ live);
  ho_live : Forall (fun b : block => h_size (um_mem st) b.1 = b.2) live;
  ho_tile : forall x, cover x (fl ++ live) = b2z ((lo <=? x) && (x <? um_brk st));
  ho_base : 0 < base /\ base + HDR <= lo /\ lo <= um_brk st <= 2 ^ 36;
}.


Lemma delete_insert_same {A} (l : list A) i x : delete i (<[i := x]> l) = delete i l.
Proof. revert i. induction l as [|y l IH]; intros [|i]; cbn; [done..|]. f_equal. apply IH. Qed.

(** ** Headers in memory *)
Definition apart (p q : Z) : Prop := p + HDR <= q \/ q + HDR <= p.
Definition addr_ok (p : Z) : Prop := 0 <= p < 2 ^ 64.

(** [m] and [m'] differ at most in the header at [p]. *)
Definition same_but (p : Z) (m m' : mem) : Prop :=
  forall x, ~ (p <= x < p + HDR) -> m' x = m x.

Lemma set_ptr_same_but p v m : same_but p m (set_ptr p v m).
Proof.
  intros x Hx. apply mem_store_out. rewrite le_bytes_length. unfold HDR in Hx. lia.
Qed.
Lemma set_size_same_but p v m : same_but p m (set_size p v m).
Proof.
  intros x Hx. apply mem_store_out. rewrite le_bytes_length. unfold HDR in Hx. lia.
Qed.
Lemma same_but_trans p m m' m'' :
  same_but p m m' -> same_but p m' m'' -> same_but p m m''.
Proof. intros H1 H2 x Hx. by rewrite H2, H1. Qed.

Lemma h_ptr_set_ptr p v m : addr_ok v -> h_ptr (set_ptr p v m) p = v.
Proof. intros. unfold h_ptr, set_ptr. rewrite ld64_st64_same. by apply u64_small. Qed.
Lemma h_size_set_size p v m : h_size (set_size p v m) p = u32 v.
Proof. apply ld32_st32_same. Qed.
Lemma h_ptr_set_size p v m : h_ptr (set_size p v m) p = h_ptr m p.
Proof.
  apply ld64_ext. intros x Hx. apply mem_store_out. rewrite le_bytes_length. lia.
Qed.
Lemma h_size_set_ptr p v m : h_size (set_ptr p v m) p = h_size m p.
Proof.
  apply ld32_ext. intros x Hx. apply mem_store_out. rewrite le_bytes_length. lia.
Qed.

Lemma h_ptr_agree p q m m' : same_but p m m' -> apart p q -> h_ptr m' q = h_ptr m q.
Proof. unfold apart, HDR, h_ptr. intros H Ha. apply ld64_ext. intros. apply H. unfold HDR. lia. Qed.
Lemma h_size_agree p q m m' : same_but p m m' -> apart p q -> h_size m' q = h_size m q.
Proof. unfold apart, HDR, h_size. intros H Ha. apply ld32_ext. intros. apply H. unfold HDR. lia. Qed.

Lemma apart_sym p q : apart p q -> apart q p.
Proof. unfold apart. lia. Qed.

(** ** Chains *)
Definition far (p : Z) (l : list block) : Prop := Forall (fun b : block => apart p b.1) l.

Lemma uchain_ext m m' l q :
  (forall (b : block) x, b ∈ l -> b.1 <= x < b.1 + HDR -> m' x = m x) -> chain m l q -> chain m' l q.
Proof.
  induction l as [|[a n] l IH]; cbn; [done|]. intros Hm (Hs & Hp & Hc). unfold HDR in Hm.
  split_and!.
  - rewrite <- Hs. apply ld32_ext. intros x Hx. apply (Hm (a, n)); [by left|cbn; lia].
  - rewrite <- Hp. apply ld64_ext. intros x Hx. apply (Hm (a, n)); [by left|cbn; lia].
  - apply IH; [|done]. intros b x Hb. apply (Hm b). by right.
Qed.

Lemma chain_agree p m m' l q : same_but p m m' -> far p l -> chain m l q -> chain m' l q.
Proof.
  intros Hm Hf. apply uchain_ext. intros b x Hb Hx. apply Hm.
  pose proof (proj1 (Forall_forall _ _) Hf b Hb) as Ha. unfold apart in Ha. cbn in Ha. lia.
Qed.

Lemma chain_app m l1 l2 q : chain m (l1 ++ l2) q <-> chain m l1 (first l2 q) /\ chain m l2 q.
Proof.
  induction l1 as [|[a n] l1 IH]; cbn; [naive_solver|].
  rewrite IH. assert (first (l1 ++ l2) q = first l1 (first l2 q)) as -> by by destruct l1 as [|[]].
  naive_solver.
Qed.

(** Following a circular chain from another of its blocks. *)
Lemma chain_rotate m l1 l2 q :
  chain m (l1 ++ l2) q -> first (l1 ++ l2) q = q -> l2 <> [] -> chain m (l2 ++ l1) (first l2 q).
Proof.
  rewrite !chain_app. intros [H1 H2] Hq Hne.
  destruct l1 as [|[a n] l1]; [cbn in Hq; by rewrite Hq|].
  cbn in Hq. subst a. done.
Qed.

(** ** The search for the place of a block *)
Lemma find_place_chain m bp q pre a n post fuel :
  chain m (pre ++ (a, n) :: post) q -> place m bp a = true ->
  Forall (fun b : block => place m bp b.1 = false) pre -> (length pre < fuel)%nat ->
  find_place fuel m bp (first (pre ++ (a, n) :: post) q) = Some a.
Proof.
  intros Hc Ha Hpre. revert fuel. induction Hpre as [|[b k] pre Hb Hpre IH]; intros fuel Hf.
  - destruct fuel; cbn in *; [lia|]. by rewrite Ha.
  - destruct fuel; [cbn in Hf; lia|]. cbn in Hc |- *. destruct Hc as (_ & Hp & Hc).
    cbn in Hb. rewrite Hb, Hp. apply IH; [done|]. cbn in Hf. lia.
Qed.

(** The last block before an address, in a sorted list that begins below it. *)
Lemma split_before bp b l :
  StronglySorted sep (b :: l) -> b.1 < bp -> Forall (fun c : block => c.1 <> bp) l ->
  exists l1 a n l2, b :: l = l1 ++ (a, n) :: l2 /\ a < bp /\
    Forall (fun c : block => c.1 < a) l1 /\ Forall (fun c : block => bp < c.1) l2.
Proof.
  revert b. induction l as [|c l IH]; intros b Hs Hb Hne.
  - exists [], b.1, b.2, []. by destruct b.
  - apply StronglySorted_inv in Hs as [Hs Hbc]. apply Forall_cons in Hne as [Hc Hne].
    pose proof Hs as [Hs' Hcl]%StronglySorted_inv.
    destruct (decide (c.1 < bp)) as [Hlt|Hge].
    + destruct (IH c Hs Hlt Hne) as (l1 & a & n & l2 & E & ? & H1 & ?).
      exists (b :: l1), a, n, l2. rewrite E. split_and!; [done..| |done].
      constructor; [|done]. rewrite E in Hbc. apply Forall_app in Hbc as [_ [Hba _]%Forall_cons].
      unfold sep, HDR in Hba. cbn in Hba. lia.
    + exists [], b.1, b.2, (c :: l). destruct b. split_and!; [done..|].
      constructor; [lia|]. eapply Forall_impl; [apply Hcl|]. intros d. unfold sep, HDR. lia.
Qed.


(** Only the block before [bp] passes the tests. *)
Lemma place_before m bp a l2 :
  h_ptr m a = first l2 base -> a < bp -> base <= a -> Forall (fun c : block => bp < c.1) l2 ->
  place m bp a = true.
Proof.
  intros Hp Ha Hb H2. unfold place. rewrite Hp, !Z.gtb_ltb, Z.geb_leb.
  destruct H2 as [|[b k] l2 Hbp H2]; cbn in *; zcases; done.
Qed.

Lemma place_unique m bp l1 a n l2 c :
  chain m (l1 ++ (a, n) :: l2) base -> StronglySorted sep (l1 ++ (a, n) :: l2) ->
  a < bp -> base < bp -> Forall (fun c : block => bp < c.1) l2 ->
  c ∈ l1 ++ (a, n) :: l2 -> c <> (a, n) -> place m bp c.1 = false.
Proof.
  intros Hc Hs Ha Hb H2 Hin Hne. apply elem_of_app in Hin as [Hin|Hin].
  - apply list_elem_of_split in Hin as (k1 & k2 & ->). destruct c as [c k].
    rewrite <- app_assoc in Hc, Hs. apply chain_app in Hc as [_ Hc].
    apply StronglySorted_app_1_r in Hs. cbn in Hc, Hs.
    assert (first (k2 ++ (a, n) :: l2) base <= a /\ c < first (k2 ++ (a, n) :: l2) base) as Hf.
    { apply StronglySorted_inv in Hs as [Hs Hck].
      destruct k2 as [|[d k'] k2]; cbn in *; apply Forall_cons in Hck as [Hd Hck];
        unfold sep, HDR in *; cbn in *; [lia|].
      apply StronglySorted_inv in Hs as [_ [_ [Hda _]%Forall_cons]%Forall_app].
      cbn in Hda. lia. }
    destruct Hc as (_ & Hp & _). unfold place. cbn. rewrite Hp, !Z.gtb_ltb, Z.geb_leb. zcases.
  - apply elem_of_cons in Hin as [|Hin]; [done|].
    pose proof (proj1 (Forall_forall _ _) H2 c Hin) as Hbc.
    apply list_elem_of_split in Hin as (k1 & k2 & ->). destruct c as [c k].
    replace (l1 ++ (a, n) :: k1 ++ (c, k) :: k2) with ((l1 ++ (a, n) :: k1) ++ (c, k) :: k2)
      in Hc, Hs by by rewrite <- app_assoc.
    apply chain_app in Hc as [_ (_ & Hp & _)].
    apply StronglySorted_app_1_r, StronglySorted_inv in Hs as [_ Hs]. cbn in Hbc.
    unfold place. cbn. rewrite Hp, !Z.gtb_ltb, Z.geb_leb.
    destruct Hs as [|[d k'] k2 Hd _]; cbn in *; unfold sep, HDR in *; cbn in *; zcases.
Qed.

Lemma find_place_ok m bp l1 a n l2 p fuel :
  chain m (l1 ++ (a, n) :: l2) base -> StronglySorted sep (l1 ++ (a, n) :: l2) ->
  first (l1 ++ (a, n) :: l2) base = base -> base <= a < bp ->
  Forall (fun c : block => bp < c.1) l2 -> p ∈ (l1 ++ (a, n) :: l2).*1 ->
  (length (l1 ++ (a, n) :: l2) <= fuel)%nat -> find_place fuel m bp p = Some a.
Proof.
  intros Hc Hs Hq Ha H2 Hp Hf.
  assert (place m bp a = true) as Hpl.
  { apply chain_app in Hc as [_ (_ & Hp' & _)]. apply (place_before _ _ _ l2); auto; lia. }
  assert (forall c, c ∈ l1 ++ (a, n) :: l2 -> c <> (a, n) -> place m bp c.1 = false) as Hun.
  { intros c. apply (place_unique m bp l1 a n l2); auto; lia. }
  assert ((a, n) ∈ l1 ++ (a, n) :: l2) as Hin by (apply elem_of_app; right; by left).
  remember (l1 ++ (a, n) :: l2) as L eqn:E. clear E H2.
  apply list_elem_of_fmap in Hp as ([p' k] & -> & Hp). cbn.
  apply list_elem_of_split in Hp as (m1 & m2 & ->).
  apply chain_rotate in Hc; [|done..].
  assert ((a, n) ∈ ((p', k) :: m2) ++ m1) as Hin' by set_solver.
  apply list_elem_of_split_l in Hin' as (pre & post & E & Hnin).
  rewrite E in Hc. replace p' with (first (((p', k) :: m2) ++ m1) p') by done.
  rewrite E. apply (find_place_chain m bp p' pre a n post fuel); [done..| |].
  - apply Forall_forall. intros c Hc'. apply Hun; [|by intros ->].
    assert (c ∈ ((p', k) :: m2) ++ m1) by (rewrite E; set_solver). set_solver.
  - apply (f_equal length) in E. rewrite !length_app in *. cbn in *. lia.
Qed.

(** ** Joining adjacent blocks *)
Definition joined (b : block) (l : list block) : list block :=
  match l with
  | [] => [b]
  | c :: l' => if b.1 + HDR * b.2 =? c.1 then (b.1, b.2 + c.2) :: l' else b :: l
  end.

Definition before (b c : block) : Prop := b.1 + HDR <= c.1 /\ b.1 + HDR * b.2 <= c.1.
Definition nonempty (b : block) : Prop := 1 <= b.2.

Lemma joined_starts b l (P : Z -> Prop) :
  P b.1 -> Forall (fun c : block => P c.1) l -> Forall (fun c : block => P c.1) (joined b l).
Proof.
  intros Hb [|c l' Hc Hl]; cbn; [by repeat constructor|].
  destruct (Z.eqb_spec (b.1 + HDR * b.2) c.1); by repeat constructor.
Qed.

Lemma joined_nonempty b l :
  nonempty b -> Forall nonempty l -> Forall nonempty (joined b l).
Proof.
  unfold nonempty. intros Hb [|c l' Hc Hl]; cbn; [by repeat constructor|].
  destruct (Z.eqb_spec (b.1 + HDR * b.2) c.1); repeat constructor; cbn; try done. lia.
Qed.

Lemma joined_sorted b l :
  StronglySorted sep l -> Forall (before b) l -> Forall nonempty l ->
  StronglySorted sep (joined b l).
Proof.
  unfold before, nonempty. intros Hs Hb Hn. destruct l as [|c l]; cbn; [by repeat constructor|].
  apply StronglySorted_inv in Hs as [Hs Hc].
  apply Forall_cons in Hb as [Hbc Hb]. apply Forall_cons in Hn as [Hcn Hn].
  destruct (Z.eqb_spec (b.1 + HDR * b.2) c.1) as [E|E].
  - constructor; [done|]. rewrite Forall_forall in *. intros d Hd.
    specialize (Hb d Hd). specialize (Hc d Hd). unfold sep, HDR in *. cbn. lia.
  - constructor; [by constructor|]. constructor; [unfold sep; lia|].
    rewrite Forall_forall in *. intros d Hd.
    specialize (Hc d Hd). unfold sep, HDR in *. lia.
Qed.

Lemma joined_length b l : (length (joined b l) <= S (length l))%nat.
Proof. destruct l as [|c l]; cbn; [lia|]. destruct (_ =? _); cbn; lia. Qed.

Lemma joined_cover x b l :
  0 <= b.2 -> Forall nonempty l -> cover x (joined b l) = cover x (b :: l).
Proof.
  intros Hb Hn. destruct b as [a n]. destruct Hn as [|[c k] l Hc Hn]; [done|]. cbn in *.
  unfold nonempty, HDR in *. cbn in *.
  destruct (Z.eqb_spec (a + 16 * n) c) as [E|E]; [|done]. cbn. unfold HDR, b2z. zcases.
Qed.

Lemma cover_app x l1 l2 : cover x (l1 ++ l2) = cover x l1 + cover x l2.
Proof. induction l1 as [|[a n] l1 IH]; cbn; [done|]. rewrite IH. lia. Qed.

#[global] Instance cover_perm x : Proper ((≡ₚ) ==> (=)) (cover x).
Proof.
  intros l1 l2 H. induction H as [|[a n] l l' _ IH|[a n] [b k] l|]; cbn; try lia.
Qed.

Lemma cover_nonneg x l : 0 <= cover x l.
Proof. induction l as [|[a n] l IH]; cbn; [lia|]. unfold b2z. case_match; lia. Qed.

Lemma cover_elem x b l : b ∈ l -> b.1 <= x < b.1 + HDR * b.2 -> 1 <= cover x l.
Proof.
  intros (l1 & l2 & ->)%list_elem_of_split Hx. destruct b as [a n].
  rewrite cover_app. cbn in *. pose proof (cover_nonneg x l1). pose proof (cover_nonneg x l2).
  unfold b2z. zcases.
Qed.

(** Blocks that never cover an address twice do not overlap. *)
Lemma cover_disjoint l1 l2 b c :
  (forall x, cover x (l1 ++ l2) <= 1) -> b ∈ l1 -> c ∈ l2 -> nonempty b -> nonempty c ->
  b.1 + HDR * b.2 <= c.1 \/ c.1 + HDR * c.2 <= b.1.
Proof.
  intros H Hb Hc Nb Nc. specialize (H (Z.max b.1 c.1)). rewrite cover_app in H.
  destruct (decide (b.1 + HDR * b.2 <= c.1)); [auto|].
  destruct (decide (c.1 + HDR * c.2 <= b.1)); [auto|]. unfold nonempty, HDR in *.
  pose proof (cover_elem (Z.max b.1 c.1) b l1 Hb). pose proof (cover_elem (Z.max b.1 c.1) c l2 Hc).
  unfold HDR in *. lia.
Qed.

(** ** The two halves of free() *)
Lemma join_upper_ok m bp p n l q :
  h_size m bp = n -> h_ptr m p = first l q -> chain m l q -> far bp l -> apart bp p ->
  Forall addr_ok l.*1 -> addr_ok q -> bp + HDR * n <> q ->
  Forall (fun b : block => 0 <= n + b.2 < 2 ^ 32) l ->
  chain (join_upper bp p m) (joined (bp, n) l) q /\ same_but bp m (join_upper bp p m).
Proof.
  intros Hn Hp Hc Hf Hap Hl Hq Hnq Hk. unfold join_upper. rewrite Hn, Hp.
  destruct l as [|[c k] l]; cbn [first joined fst snd].
  - destruct (Z.eqb_spec (bp + HDR * n) q) as [|_]; [done|]. split; [|apply set_ptr_same_but].
    cbn. rewrite h_size_set_ptr, h_ptr_set_ptr by done. done.
  - destruct Hc as (Hs & Hcp & Hc). apply Forall_cons in Hf as [Hfc Hf]. cbn in Hfc.
    apply Forall_cons in Hk as [Hk _]. cbn in Hk. rewrite fmap_cons in Hl. apply Forall_cons in Hl as [Hc0 Hl].
    destruct (Z.eqb_spec (bp + HDR * n) c) as [E|E].
    + cbv zeta. set (m1 := set_size _ _ m).
      assert (same_but bp m m1) as H1 by apply set_size_same_but.
      rewrite (h_ptr_agree bp p m m1), Hp by done. cbn [first].
      rewrite (h_ptr_agree bp c m m1), Hcp by done.
      assert (same_but bp m (set_ptr bp (first l q) m1)) as H2
        by (eapply same_but_trans; [done|apply set_ptr_same_but]).
      split; [|done]. cbn. rewrite h_size_set_ptr, h_ptr_set_ptr.
      2: { destruct l as [|[d j] l]; [done|]. by apply Forall_cons in Hl as [? _]. }
      split_and!; [|done|by eapply chain_agree]. unfold m1. rewrite h_size_set_size, Hs.
      rewrite u32_idem. by apply u32_small.
    + assert (same_but bp m (set_ptr bp c m)) as H1 by apply set_ptr_same_but.
      split; [|done]. cbn. rewrite h_size_set_ptr, h_ptr_set_ptr by done.
      rewrite (h_size_agree bp c m), (h_ptr_agree bp c m) by done.
      split_and!; try done. by eapply chain_agree.
Qed.

Lemma join_lower_ok m bp p n pn l q :
  h_size m p = pn -> chain m ((bp, n) :: l) q -> far p ((bp, n) :: l) ->
  Forall addr_ok l.*1 -> addr_ok bp -> addr_ok q -> 0 <= pn + n < 2 ^ 32 ->
  chain (join_lower bp p m) (joined (p, pn) ((bp, n) :: l)) q /\ same_but p m (join_lower bp p m).
Proof.
  intros Hn Hc Hf Hl Hb Hq Hk. pose proof Hc as (Hs & Hp & Hc').
  unfold join_lower. rewrite Hn. cbn [joined fst snd].
  destruct (Z.eqb_spec (p + HDR * pn) bp) as [E|E].
  - apply Forall_cons in Hf as [Hfb Hf]. cbn in Hfb. cbv zeta. set (m1 := set_size _ _ m).
    assert (same_but p m m1) as H1 by apply set_size_same_but.
    rewrite (h_ptr_agree p bp m m1), Hp by done.
    assert (same_but p m (set_ptr p (first l q) m1)) as H2
      by (eapply same_but_trans; [done|apply set_ptr_same_but]).
    split; [|done]. cbn. rewrite h_size_set_ptr, h_ptr_set_ptr.
    2: { destruct l as [|[d j] l]; [done|]. by apply Forall_cons in Hl as [? _]. }
    split_and!; [|done|by eapply chain_agree]. unfold m1. rewrite h_size_set_size, Hs.
    rewrite u32_idem. by apply u32_small.
  - assert (same_but p m (set_ptr p bp m)) as H1 by apply set_ptr_same_but.
    split; [|done]. split_and!; [by rewrite h_size_set_ptr|by rewrite h_ptr_set_ptr|].
    by eapply chain_agree.
Qed.

(** ** The invariant *)
Section invariant.
Context {lo : Z} {fl live : list block} {st : um} (OK : heap_ok lo fl live st).

Lemma heap_block b :
  b ∈ fl ++ live -> nonempty b /\ lo <= b.1 /\ b.1 + HDR * b.2 <= um_brk st.
Proof using OK.
  intros Hb. assert (nonempty b) as Hn by exact (proj1 (Forall_forall _ _) (ho_pos _ _ _ _ OK) b Hb).
  split; [done|]. unfold nonempty, HDR in *.
  pose proof (cover_elem b.1 b _ Hb) as H1. rewrite (ho_tile _ _ _ _ OK) in H1.
  pose proof (cover_elem (b.1 + 16 * b.2 - 1) b _ Hb) as H2. rewrite (ho_tile _ _ _ _ OK) in H2.
  unfold b2z, HDR in *. zcases.
Qed.

Lemma heap_cover_le x : cover x (fl ++ live) <= 1.
Proof using OK. rewrite (ho_tile _ _ _ _ OK). unfold b2z. case_match; lia. Qed.

(** A live block is apart from the free ones and from the rest of the live ones. *)
Lemma heap_disjoint b live' c :
  live ≡ₚ b :: live' -> c ∈ fl ++ live' ->
  b.1 + HDR * b.2 <= c.1 \/ c.1 + HDR * c.2 <= b.1.
Proof using OK.
  intros Hp Hc. apply (cover_disjoint [b] (fl ++ live')).
  - intros x. pose proof (heap_cover_le x) as H. rewrite Hp in H. rewrite !cover_app in *.
    destruct b. cbn in *. lia.
  - by left.
  - done.
  - apply heap_block. rewrite Hp. set_solver.
  - apply heap_block. rewrite Hp. set_solver.
Qed.

Lemma heap_free_disjoint b c :
  b ∈ fl -> c ∈ live -> b.1 + HDR * b.2 <= c.1 \/ c.1 + HDR * c.2 <= b.1.
Proof using OK.
  intros Hb Hc. apply (cover_disjoint fl live); [apply heap_cover_le|done..| |];
    apply heap_block; set_solver.
Qed.

(** Where a live block belongs in the free list. *)
Lemma heap_place b live' :
  live ≡ₚ b :: live' -> exists l1 a n l2, (base, 0) :: fl = l1 ++ (a, n) :: l2 /\
    before (a, n) b /\ Forall (before b) l2 /\ base <= a /\ Forall (fun c : block => c.1 < a) l1.
Proof using OK.
  intros Hp. assert (b ∈ fl ++ live) as Hb by (rewrite Hp; set_solver).
  destruct (heap_block b Hb) as (Nb & Hlo & _). destruct (ho_base _ _ _ _ OK) as (B0 & B1 & _).
  assert (forall c, c ∈ fl -> before b c \/ before c b) as Hd.
  { intros c Hc. destruct (heap_disjoint b live' c Hp) as [H|H]; [set_solver|left|right];
      destruct (heap_block c) as (? & _ & _); try set_solver; unfold before, nonempty, HDR in *; lia. }
  destruct (split_before b.1 (base, 0) fl) as (l1 & a & n & l2 & E & Ha & H1 & H2).
  { apply (ho_sorted _ _ _ _ OK). } { cbn. unfold HDR in *. lia. }
  { apply Forall_forall. intros c Hc. destruct (Hd c Hc); unfold before, HDR in *; lia. }
  assert (forall c, c ∈ (a, n) :: l2 -> c = (base, 0) \/ c ∈ fl) as Hin.
  { intros c Hc. apply elem_of_cons. rewrite E. set_solver. }
  exists l1, a, n, l2. split_and!; try done.
  - destruct (Hin (a, n)) as [[= -> ->]|Hc]; [by left| |].
    + unfold before, HDR in *. cbn. lia.
    + destruct (Hd _ Hc) as [H|H]; [|done]. unfold before, HDR in H. cbn in *. lia.
  - rewrite Forall_forall in *. intros c Hc. specialize (H2 c Hc).
    destruct (Hin c) as [->|Hc']; [by right|cbn in *; unfold HDR in *; lia|].
    destruct (Hd _ Hc') as [H|H]; [done|]. unfold before, HDR in H. lia.
  - destruct (Hin (a, n)) as [[= -> ->]|Hc]; [by left|lia|].
    destruct (heap_block (a, n)) as (_ & ? & _); [set_solver|]. cbn in *. unfold HDR in *. lia.
Qed.

End invariant.

(** The list begins with [base] before and after a block is put on it. *)
Lemma joined_base l1 a n l2 fl b :
  (base, 0) :: fl = l1 ++ (a, n) :: l2 -> base < b.1 ->
  exists fl', l1 ++ joined (a, n) (joined b l2) = (base, 0) :: fl' /\
    (Forall nonempty fl -> nonempty b -> Forall nonempty fl' /\ Forall nonempty l2).
Proof.
  intros E Hb. destruct l1 as [|c l1]; simplify_eq/=.
  - exists (joined b l2). split; [|intros; split; [by apply joined_nonempty|done]].
    assert (exists k l, joined b l2 = (b.1, k) :: l) as (k & l & ->).
    { destruct b, l2; cbn; [|case_match]; eauto. }
    cbn. destruct (Z.eqb_spec (a + HDR * 0) b.1); [lia|done].
  - eexists. split; [done|]. intros [H1 [Ha H2]%Forall_cons]%Forall_app Nb.
    split; [|done]. apply Forall_app. split; [done|].
    apply joined_nonempty; [done|]. by apply joined_nonempty.
Qed.

(** Sizes and addresses that fit their C types. *)
Definition in_range (b : block) : Prop := 0 <= b.1 /\ 0 <= b.2 /\ b.1 + HDR * b.2 <= 2 ^ 36.

Lemma joined_shape b l : Forall in_range (b :: l) -> Forall (before b) l ->
  exists k t, joined b l = (b.1, k) :: t /\ in_range (b.1, k) /\ Forall in_range t /\
    Forall (before b) t.
Proof.
  unfold in_range. intros [Hb Hl]%Forall_cons Hbl.
  destruct l as [|c l]; [by exists b.2, []; destruct b|].
  apply Forall_cons in Hl as [Hc Hl]. apply Forall_cons in Hbl as [Hbc Hbl]. cbn.
  destruct (Z.eqb_spec (b.1 + HDR * b.2) c.1).
  - exists (b.2 + c.2), l. split_and!; cbn; try done; unfold HDR in *; lia.
  - exists b.2, (c :: l). destruct b. do 2 (split; [done|]). by split; constructor.
Qed.

Lemma in_range_addr l : Forall in_range l -> Forall addr_ok l.*1.
Proof.
  intros H. apply Forall_fmap. eapply Forall_impl; [apply H|]. intros b.
  unfold in_range, addr_ok, HDR. cbn. lia.
Qed.

Lemma free_links m bp n l1 a pn l2 :
  chain m (l1 ++ (a, pn) :: l2) base -> h_size m bp = n ->
  before (a, pn) (bp, n) -> Forall (before (bp, n)) l2 ->
  Forall (fun c : block => c.1 + HDR <= a) l1 -> 0 < base <= a ->
  Forall in_range (l1 ++ (a, pn) :: (bp, n) :: l2) ->
  let m' := join_lower bp a (join_upper bp a m) in
  chain m' (l1 ++ joined (a, pn) (joined (bp, n) l2)) base /\
  forall x, ~ (a <= x < a + HDR) -> ~ (bp <= x < bp + HDR) -> m' x = m x.
Proof.
  intros Hc Hn Hab Hb2 H1 Hbase Hr. cbv zeta.
  apply chain_app in Hc as [Hc1 (Hpn & Hp & Hc2)].
  apply Forall_app in Hr as [_ [Ra R2]%Forall_cons]. pose proof R2 as [Rb R2']%Forall_cons.
  destruct (joined_shape (bp, n) l2) as (n' & t & Ej & Rn' & Rt & Ht); [done..|].
  cbn [fst snd] in Ej. unfold in_range, before, HDR in *. cbn [fst snd] in *.
  assert (apart bp a) as Hap by (unfold apart, HDR; lia).
  assert (addr_ok base) as Aq by (unfold addr_ok; lia).
  assert (far bp l1 /\ far bp l2 /\ far a l1 /\ far a ((bp, n') :: t)) as (F1 & F2 & F3 & F4).
  { unfold far. split_and!; [| | |constructor; [cbn; by apply apart_sym|]].
    - eapply Forall_impl; [exact H1|]. intros c. unfold apart, HDR. lia.
    - eapply Forall_impl; [exact Hb2|]. intros c. unfold apart, HDR. lia.
    - eapply Forall_impl; [exact H1|]. intros c. unfold apart, HDR. lia.
    - eapply Forall_impl; [exact Ht|]. intros c. unfold apart, HDR. lia. }
  destruct (join_upper_ok m bp a n l2 base) as [Hu Su]; try done.
  { by apply in_range_addr. } { unfold HDR. lia. }
  { rewrite Forall_forall in *. intros c Hin. specialize (R2' c Hin). specialize (Hb2 c Hin). lia. }
  rewrite Ej in Hu |- *. set (m1 := join_upper bp a m) in *.
  destruct (join_lower_ok m1 bp a n' pn t base) as [Hl Sl]; try done.
  { by rewrite (h_size_agree bp a m). } { by apply in_range_addr. }
  { unfold addr_ok. lia. } { lia. }
  split; [|intros x Ha Hb; rewrite (Sl x), (Su x); done].
  apply chain_app. split; [|done].
  replace (first (joined (a, pn) ((bp, n') :: t)) base) with a by (cbn; by case_match).
  eapply chain_agree; [exact Sl|done|]. by eapply chain_agree.
Qed.

(** ** free() *)

(** The blocks keep their headers and contents. *)
Definition untouched (live : list block) (m m' : mem) : Prop :=
  forall b x, b ∈ live -> b.1 <= x < b.1 + HDR * b.2 -> m' x = m x.

Lemma untouched_sizes live m m' :
  untouched live m m' -> Forall nonempty live ->
  Forall (fun b : block => h_size m b.1 = b.2) live ->
  Forall (fun b : block => h_size m' b.1 = b.2) live.
Proof.
  unfold nonempty. rewrite !Forall_forall. intros Hu Hn H b Hb. rewrite <- (H b Hb).
  specialize (Hn b Hb). apply ld32_ext. intros x Hx. apply (Hu b); [done|]. unfold HDR. lia.
Qed.

Lemma heap_in_range lo fl live st :
  heap_ok lo fl live st -> Forall in_range (((base, 0) :: fl) ++ live).
Proof.
  intros OK. destruct (ho_base _ _ _ _ OK) as (? & ? & ?). cbn. constructor.
  - unfold in_range, HDR in *. cbn. lia.
  - apply Forall_forall. intros b Hb. destruct (heap_block OK b Hb) as (? & ? & ?).
    unfold in_range, nonempty, HDR in *. lia.
Qed.

Lemma joined_grows b l : Forall nonempty l -> Exists (fun c : block => b.2 <= c.2) (joined b l).
Proof.
  intros [|c l' Hc Hl]; cbn; [by left|]. unfold nonempty in Hc.
  case_match; left; cbn; lia.
Qed.

Lemma joined_keeps b l k :
  0 <= b.2 -> Exists (fun c : block => k <= c.2) l -> Exists (fun c : block => k <= c.2) (joined b l).
Proof.
  intros Hb [c l' Hc|c l' Hl]; cbn; case_match.
  - left. cbn. lia.
  - by right; left.
  - by right.
  - by right; right.
Qed.

Lemma joined_list_sorted l1 a b l2 :
  StronglySorted sep (l1 ++ a :: l2) -> before a b -> Forall (before b) l2 ->
  Forall nonempty l2 -> nonempty b -> StronglySorted sep (l1 ++ joined a (joined b l2)).
Proof.
  intros Hs Hab Hb2 N2 Nb. pose proof Hs as (H12 & S1 & S2)%StronglySorted_app.
  apply StronglySorted_inv in S2 as [S2 Ha2].
  apply StronglySorted_app. split_and!; [|done|].
  - intros c d Hc Hd.
    assert (Forall (fun d : block => c.1 + HDR <= d.1 /\ c.1 + HDR * c.2 < d.1)
      (joined a (joined b l2))) as HF; [|by apply (proj1 (Forall_forall _ _) HF)].
    assert (forall e, e ∈ a :: l2 -> sep c e) as Hce by (intros; by apply H12).
    pose proof (Hce a ltac:(by left)) as Hca. unfold sep in Hca.
    apply (joined_starts a (joined b l2) (fun z => c.1 + HDR <= z /\ c.1 + HDR * c.2 < z)); [done|].
    apply (joined_starts b l2 (fun z => c.1 + HDR <= z /\ c.1 + HDR * c.2 < z)).
    + unfold before, HDR in *. lia.
    + apply Forall_forall. intros e He. apply Hce. by right.
  - apply joined_sorted; [by apply joined_sorted| |by apply joined_nonempty].
    apply (joined_starts b l2 (fun z => a.1 + HDR <= z /\ a.1 + HDR * a.2 <= z)); [done|].
    eapply Forall_impl; [exact Ha2|]. intros e. unfold sep. lia.
Qed.

Lemma joined_list_cover l1 a b l2 x :
  0 <= a.2 -> Forall nonempty l2 -> nonempty b ->
  cover x (l1 ++ joined a (joined b l2)) = cover x (l1 ++ a :: l2) + cover x [b].
Proof.
  intros Ha N2 Nb. rewrite !cover_app, joined_cover by (done || by apply joined_nonempty).
  destruct a as [a k]. unfold nonempty in Nb. cbn [cover]. rewrite joined_cover by (done || lia).
  destruct b. cbn. lia.
Qed.

Lemma joined_list_length l1 a b l2 :
  (length (l1 ++ joined a (joined b l2)) <= S (length (l1 ++ a :: l2)))%nat.
Proof.
  rewrite !length_app. cbn. pose proof (joined_length a (joined b l2)).
  pose proof (joined_length b l2). lia.
Qed.

Section freeing.
Context {lo : Z} {fl live live' : list block} {st : um} {bp n : Z}.
Context (OK : heap_ok lo fl live st) (LIVE : live ≡ₚ (bp, n) :: live').

Lemma freed_untouched a pn m' :
  (a, pn) ∈ (base, 0) :: fl ->
  (forall x, ~ (a <= x < a + HDR) -> ~ (bp <= x < bp + HDR) -> m' x = um_mem st x) ->
  untouched live' (um_mem st) m'.
Proof using OK LIVE.
  intros Ha Hm b x Hb Hx.
  destruct (ho_base _ _ _ _ OK) as (B0 & B1 & B2).
  assert (b ∈ live) as Hbl by (rewrite LIVE; by right).
  destruct (heap_block OK b) as (Nb & Blo & _); [set_solver|].
  destruct (heap_block OK (bp, n)) as (Nbp & _ & _); [rewrite LIVE; set_solver|].
  pose proof (heap_disjoint OK _ _ b LIVE) as Hd. cbn in *. unfold nonempty, HDR in *. cbn in *.
  apply Hm; [|specialize (Hd ltac:(set_solver)); lia].
  apply elem_of_cons in Ha as [[= -> ->]|Ha]; [lia|].
  destruct (heap_block OK (a, pn)) as (Na & _ & _); [set_solver|].
  pose proof (heap_free_disjoint OK _ _ Ha Hbl). unfold nonempty, HDR in *. cbn in *. lia.
Qed.

(** The free list with the block put in its place. *)
Lemma freed_list :
  exists l1 a pn l2 fl', (base, 0) :: fl = l1 ++ (a, pn) :: l2 /\
    l1 ++ joined (a, pn) (joined (bp, n) l2) = (base, 0) :: fl' /\
    before (a, pn) (bp, n) /\ Forall (before (bp, n)) l2 /\ base <= a /\
    Forall (fun c : block => c.1 + HDR <= a) l1 /\
    Forall in_range (l1 ++ (a, pn) :: (bp, n) :: l2) /\
    Forall nonempty fl' /\ Forall nonempty l2.
Proof using OK LIVE.
  pose proof (heap_in_range _ _ _ _ OK) as HR.
  destruct (heap_block OK (bp, n)) as (Nb & Blo & _); [rewrite LIVE; set_solver|].
  destruct (ho_base _ _ _ _ OK) as (B0 & B1 & B2).
  destruct (heap_place OK _ _ LIVE) as (l1 & a & pn & l2 & E & Hab & Hb2 & Ha & _).
  pose proof (ho_pos _ _ _ _ OK) as [Nfl _]%Forall_app.
  destruct (joined_base l1 a pn l2 fl (bp, n) E) as (fl' & E' & Nfl');
    [cbn in *; unfold HDR in *; lia|]. destruct (Nfl' Nfl Nb) as [Nfl2 N2].
  exists l1, a, pn, l2, fl'. split_and!; try done.
  - pose proof (ho_sorted _ _ _ _ OK) as Hs. rewrite E in Hs.
    apply StronglySorted_app in Hs as (Hs & _). apply Forall_forall.
    intros c Hc1. by apply (Hs c (a, pn)); [|left].
  - rewrite E, LIVE in HR. apply Forall_app in HR as [[? [? ?]%Forall_cons]%Forall_app [? _]%Forall_cons].
    apply Forall_app. split; [done|]. by do 2 (constructor; [done|]).
Qed.

Lemma free_ok fuel :
  (S (length fl) <= fuel)%nat ->
  exists m' fl' p, free fuel (bp + HDR) st = Some (mkUm m' p (um_brk st)) /\
    heap_ok lo fl' live' (mkUm m' p (um_brk st)) /\ untouched live' (um_mem st) m' /\
    (length fl' <= S (length fl))%nat /\ Exists (fun b : block => n <= b.2) fl'.
Proof using OK LIVE.
  intros Hf. destruct freed_list as (l1 & a & pn & l2 & fl' & E & E' & Hab & Hb2 & Ha & H1 & R & Nfl & N2).
  destruct (heap_block OK (bp, n)) as (Nb & _); [rewrite LIVE; set_solver|].
  destruct OK as [Hfp Hc Hs Hpos HL Ht HB]. rewrite LIVE in HL, Hpos.
  apply Forall_cons in HL as [Hn HL]. apply Forall_app in Hpos as [_ [_ Nlive]%Forall_cons].
  assert ((a, pn) ∈ (base, 0) :: fl) as Hain by (rewrite E; set_solver).
  assert (0 <= pn) as Hpn by (apply Forall_app in R as [_ [(_ & ? & _) _]%Forall_cons]; done).
  assert (first ((base, 0) :: fl) base = base) as Hq by done. cbn in Hn.
  change (S (length fl)) with (length ((base, 0) :: fl)) in Hf |- *.
  pose proof (joined_list_length l1 (a, pn) (bp, n) l2) as Hlen.
  rewrite E in Hc, Hq, Hfp, Hs, Hf. rewrite E', <- E in Hlen.
  destruct (free_links (um_mem st) bp n l1 a pn l2) as [Hch Hfr]; try done; [lia|].
  rewrite E' in Hch. pose proof (freed_untouched a pn _ Hain Hfr) as Hun.
  set (m' := join_lower bp a (join_upper bp a (um_mem st))) in *.
  exists m', fl', a. split_and!; [| |done|cbn in *; lia|].
  - unfold free. replace (bp + HDR - HDR) with bp by lia.
    rewrite (find_place_ok (um_mem st) bp l1 a pn l2); try done.
    + unfold before, HDR in Hab. cbn in Hab. lia.
    + eapply Forall_impl; [exact Hb2|]. intros c. unfold before, HDR. cbn. lia.
  - split; cbn [um_freep um_mem um_brk]; [| |by rewrite <- E'; apply joined_list_sorted| | | |done].
    + rewrite <- E'. rewrite fmap_app. apply elem_of_app. right. by cbn; destruct (joined _ l2); cbn; try case_match; left.
    + done.
    + by apply Forall_app.
    + by eapply untouched_sizes.
    + intros x. rewrite <- Ht, LIVE, !cover_app.
      pose proof (joined_list_cover l1 (a, pn) (bp, n) l2 x Hpn N2 Nb) as Hcov.
      rewrite E', <- E in Hcov. cbn in *. lia.
  - assert (Exists (fun b : block => n <= b.2) ((base, 0) :: fl')) as HE.
    { rewrite <- E'. apply Exists_app. right. apply joined_keeps; [done|]. by apply (joined_grows (bp, n)). }
    apply Exists_cons in HE as [HE|HE]; [|done]. unfold nonempty in Nb. cbn in *. lia.
Qed.
End freeing.

(** ** Taking a block off the list *)
Section taking.
Context {lo : Z} {fl live : list block} {st : um} (OK : heap_ok lo fl live st).

(** Changing a free block, or the header of [base], leaves the live ones alone. *)
Lemma free_header_untouched q k m' :
  (q, k) ∈ (base, 0) :: fl -> same_but q (um_mem st) m' -> untouched live (um_mem st) m'.
Proof using OK.
  intros Hq Hm b x Hb Hx. apply Hm. destruct (ho_base _ _ _ _ OK) as (B0 & B1 & B2).
  destruct (heap_block OK b) as (Nb & Blo & _); [set_solver|]. unfold nonempty, HDR in *.
  apply elem_of_cons in Hq as [[= -> ->]|Hq]; [lia|].
  destruct (heap_block OK (q, k)) as (Nq & _ & _); [set_solver|].
  pose proof (heap_free_disjoint OK _ _ Hq Hb). unfold nonempty, HDR in *. cbn in *. lia.
Qed.

Lemma free_block_untouched a n m' :
  (a, n) ∈ fl -> (forall x, ~ (a <= x < a + HDR * n) -> m' x = um_mem st x) ->
  untouched live (um_mem st) m'.
Proof using OK.
  intros Ha Hm b x Hb Hx. apply Hm. pose proof (heap_free_disjoint OK _ _ Ha Hb). cbn in *. lia.
Qed.

Lemma heap_far l1 b l2 : (base, 0) :: fl = l1 ++ b :: l2 -> far b.1 l1 /\ far b.1 l2.
Proof using OK.
  intros E. pose proof (ho_sorted _ _ _ _ OK) as Hs. rewrite E in Hs.
  apply StronglySorted_app in Hs as (H1 & _ & [_ H2]%StronglySorted_inv). unfold far.
  split; [apply Forall_forall; intros c Hc|eapply Forall_impl; [exact H2|]; intros c Hc].
  - destruct (H1 c b) as [? _]; [done|by left|]. unfold apart. lia.
  - unfold sep in Hc. unfold apart. lia.
Qed.

(** The whole block. *)
Lemma take_exact l1 q k a n l2 :
  (base, 0) :: fl = l1 ++ (q, k) :: (a, n) :: l2 ->
  let m' := set_ptr q (h_ptr (um_mem st) a) (um_mem st) in
  exists fl', heap_ok lo fl' ((a, n) :: live) (mkUm m' q (um_brk st)) /\
    untouched live (um_mem st) m' /\ (length fl' <= length fl)%nat.
Proof using OK.
  intros E m'.
  assert (exists fl', (base, 0) :: fl' = l1 ++ (q, k) :: l2 /\ fl ≡ₚ (a, n) :: fl') as (fl' & E' & HP').
  { destruct l1; simplify_eq/=; eexists; (split; [done|]); [done|]. solve_Permutation. }
  assert ((a, n) ∈ fl) as Ha by (destruct l1; simplify_eq/=; set_solver).
  destruct (heap_far l1 (q, k) ((a, n) :: l2) E) as [F1 [F2 F3]%Forall_cons]. cbn in F1, F2.
  assert (same_but q (um_mem st) m') as Hm by apply set_ptr_same_but.
  assert (untouched live (um_mem st) m') as Hun by (apply (free_header_untouched q k); [rewrite E; set_solver|done]).
  assert (addr_ok (first l2 base)) as Haddr.
  { pose proof (heap_in_range _ _ _ _ OK) as [HR _]%Forall_app. destruct l2 as [|[b j] l2].
    - apply Forall_cons in HR as [HR _]. unfold in_range, addr_ok in *. cbn in *. lia.
    - rewrite E in HR. apply Forall_app in HR as [_ HR]. rewrite !Forall_cons in HR.
      destruct HR as (_ & _ & HR & _). unfold in_range, addr_ok, HDR in *. cbn in *. lia. }
  destruct OK as [Hfp Hc Hs Hpos HL Ht HB]. rewrite HP' in Hpos.
  exists fl'. split_and!; [|done|rewrite HP'; cbn; lia].
  rewrite E in Hc, Hs. apply chain_app in Hc as (C1 & Hk & Hq & Hn & Hp & C2).
  split; cbn [um_freep um_mem um_brk]; rewrite ?E'; try done.
  - rewrite fmap_app. set_solver.
  - apply chain_app. cbn [chain]. split_and!; [by apply (chain_agree q (um_mem st))| | |by apply (chain_agree q (um_mem st))].
    + unfold m'. by rewrite h_size_set_ptr.
    + unfold m'. by rewrite Hp, h_ptr_set_ptr.
  - apply StronglySorted_app in Hs as (H12 & S1 & [S2 Hq2]%StronglySorted_inv).
    apply StronglySorted_app. split_and!; [|done|].
    + intros x y Hx Hy. apply H12; set_solver.
    + apply StronglySorted_inv in S2 as [S2 _]. apply Forall_cons in Hq2 as [_ Hq2]. by constructor.
  - by rewrite <- Permutation_middle.
  - constructor; [cbn; by rewrite (h_size_agree q a (um_mem st))|].
    apply (untouched_sizes _ (um_mem st)); try done.
    by apply Forall_app in Hpos as [_ ?].
  - intros x. rewrite <- Ht, HP', !cover_app. cbn. lia.
Qed.

(** The end of a block, which stays on the list with its size reduced. *)
Lemma take_rest l1 q k a n l2 nunits :
  (base, 0) :: fl = l1 ++ (q, k) :: (a, n) :: l2 -> 1 <= nunits < n ->
  let c := a + HDR * (n - nunits) in
  let m' := set_size c nunits (set_size a (n - nunits) (um_mem st)) in
  exists fl', heap_ok lo fl' ((c, nunits) :: live) (mkUm m' q (um_brk st)) /\
    untouched live (um_mem st) m' /\ (length fl' <= length fl)%nat.
Proof using OK.
  intros E Hn c m'.
  assert (exists l0, fl = l0 ++ (a, n) :: l2 /\
    (base, 0) :: l0 ++ (a, n - nunits) :: l2 = l1 ++ (q, k) :: (a, n - nunits) :: l2) as (l0 & Efl & E').
  { destruct l1 as [|x l1]; simplify_eq/=; [by exists []|].
    exists (l1 ++ [(q, k)]). by rewrite <- !app_assoc. }
  pose proof (heap_in_range _ _ _ _ OK) as HR. unfold HDR in *.
  assert (in_range (a, n)) as Ra by (apply (proj1 (Forall_forall _ _) HR); rewrite Efl; set_solver).
  unfold in_range, HDR in Ra. cbn in Ra.
  assert (forall x, ~ (a <= x < a + HDR * n) -> m' x = um_mem st x) as Hm.
  { unfold HDR. intros x Hx. unfold m'. rewrite (set_size_same_but c), (set_size_same_but a);
      unfold c, HDR; try done; lia. }
  assert (untouched live (um_mem st) m') as Hun by (apply (free_block_untouched a n); [rewrite Efl; set_solver|done]).
  assert (h_size m' c = nunits) as Hc' by (unfold m'; rewrite h_size_set_size; apply u32_small; lia).
  assert (apart c a) as Hap by (unfold apart, c, HDR; lia).
  destruct OK as [Hfp Hc Hs Hpos HL Ht HB]. rewrite Efl in *. rewrite app_comm_cons in Hc, Hs.
  pose proof Hs as (H1 & S1 & [S2 H2]%StronglySorted_inv)%StronglySorted_app.
  exists (l0 ++ (a, n - nunits) :: l2). split_and!; [|done|by rewrite !length_app].
  split; cbn [um_freep um_mem um_brk]; try done.
  - rewrite E', fmap_app. set_solver.
  - rewrite app_comm_cons. apply chain_app in Hc as [C1 (Hs' & Hp & C2)].
    assert (far a ((base, 0) :: l0) /\ far c ((base, 0) :: l0) /\ far a l2 /\ far c l2) as (? & ? & ? & ?).
    { unfold far. rewrite !Forall_forall. rewrite Forall_forall in H2.
      split_and!; intros b Hb; [specialize (H1 b (a, n) Hb ltac:(by left))..|specialize (H2 b Hb)|specialize (H2 b Hb)];
        unfold sep, apart, c, HDR in *; cbn in *; lia. }
    assert (forall l z, far a l -> far c l -> chain (um_mem st) l z -> chain m' l z) as Hch.
    { intros l z Fa Fc Hl. eapply chain_agree; [apply set_size_same_but|done|].
      eapply chain_agree; [apply set_size_same_but|done|done]. }
    apply chain_app. split; [by apply Hch|]. cbn [chain]. split_and!; [| |by apply Hch].
    + unfold m'. rewrite (h_size_agree c a (set_size a (n - nunits) (um_mem st))); [|apply set_size_same_but|done].
      rewrite h_size_set_size. apply u32_small. lia.
    + unfold m'. rewrite (h_ptr_agree c a (set_size a (n - nunits) (um_mem st))); [|apply set_size_same_but|done].
      by rewrite h_ptr_set_size.
  - rewrite app_comm_cons. apply StronglySorted_app. split_and!; [|done|].
    + intros x y Hx Hy. apply elem_of_cons in Hy as [->|Hy]; [apply (H1 x (a, n)); [done|by left]|].
      apply H1; [done|by right].
    + constructor; [done|]. eapply Forall_impl; [exact H2|]. intros b. unfold sep, HDR. cbn. lia.
  - rewrite <- !app_assoc in *. apply Forall_app in Hpos as [P1 [P2 P3]%Forall_cons].
    apply Forall_app in P3 as [P3 P4].
    rewrite Forall_app. split; [done|]. constructor; [cbn; lia|]. apply Forall_app. split; [done|].
    by constructor; [cbn; lia|].
  - constructor; [done|]. apply (untouched_sizes _ (um_mem st)); try done.
    by apply Forall_app in Hpos as [_ ?].
  - intros x. rewrite <- Ht, !cover_app. cbn [cover]. unfold b2z, c, HDR. zcases.
Qed.

Lemma take_block_ok l1 q k a n l2 nunits :
  (base, 0) :: fl = l1 ++ (q, k) :: (a, n) :: l2 -> 1 <= nunits <= n ->
  exists m' fl' c, take_block nunits q a st = (mkUm m' q (um_brk st), c + HDR) /\
    heap_ok lo fl' ((c, nunits) :: live) (mkUm m' q (um_brk st)) /\
    untouched live (um_mem st) m' /\ (length fl' <= length fl)%nat.
Proof using OK.
  intros E Hn. pose proof (heap_in_range _ _ _ _ OK) as [HR _]%Forall_app.
  assert (h_size (um_mem st) a = n) as Ha.
  { pose proof (ho_chain _ _ _ _ OK) as Hc. rewrite E in Hc.
    apply chain_app in Hc as (_ & _ & _ & Hc & _). done. }
  assert (in_range (a, n)) as Ra by (apply (proj1 (Forall_forall _ _) HR); rewrite E; set_solver).
  unfold in_range, HDR in Ra. cbn in Ra.
  unfold take_block. rewrite Ha. destruct (Z.eqb_spec n nunits) as [<-|Hne].
  - destruct (take_exact _ _ _ _ _ _ E) as (fl' & ? & ? & ?). by eexists _, fl', a.
  - destruct (take_rest _ _ _ _ _ _ nunits E) as (fl' & H & ? & ?); [lia|].
    rewrite u32_small by lia. rewrite h_size_set_size, u32_small by lia. by eexists _, fl', _.
Qed.

(** A live block's owner writes inside it, after its header. *)
Lemma write_ok b live' x0 m' :
  live ≡ₚ b :: live' -> b.1 + HDR <= x0 < b.1 + HDR * b.2 ->
  (forall x, x <> x0 -> m' x = um_mem st x) ->
  heap_ok lo fl live (set_um_mem m' st) /\ untouched live' (um_mem st) m'.
Proof using OK.
  intros HP Hx0 Hm. destruct (ho_base _ _ _ _ OK) as (B0 & B1 & B2).
  destruct (heap_block OK b) as (Nb & Blo & _); [rewrite HP; set_solver|].
  assert (untouched live' (um_mem st) m') as Hun.
  { intros c x Hc Hx. apply Hm. pose proof (heap_disjoint OK b live' c HP). unfold HDR in *.
    specialize (H ltac:(set_solver)). lia. }
  split; [|done]. pose proof (heap_disjoint OK b live') as Hd.
  assert (forall c, c ∈ fl -> nonempty c) as Hne by (intros; apply (heap_block OK); set_solver).
  destruct OK as [Hfp Hc Hs Hpos HL Ht HB]. split; cbn [set_um_mem um_freep um_mem um_brk]; try done.
  - eapply uchain_ext; [|done]. intros c x Hin Hx. apply Hm. unfold HDR in *.
    apply elem_of_cons in Hin as [->|Hin]; [cbn in *; lia|].
    specialize (Hd c HP ltac:(set_solver)). specialize (Hne c Hin). unfold nonempty in Hne. lia.
  - rewrite HP in HL, Hpos |- *. apply Forall_cons in HL as [Hb HL]. constructor.
    + rewrite <- Hb. apply ld32_ext. intros x Hx. apply Hm. unfold HDR in *. lia.
    + apply (untouched_sizes _ (um_mem st)); try done. by apply Forall_app in Hpos as [_ [_ ?]%Forall_cons].
Qed.

End taking.
End blocks.

(** ** malloc() *)
Section mallocing.
Context (base : Z) (grow : Z -> Z -> bool).
Context (GROW : forall sz n, grow sz n = true -> sz + n <= 2 ^ 36).

#[local] Abbreviation morecore := (morecore grow).
#[local] Abbreviation malloc_loop := (malloc_loop grow).
#[local] Abbreviation malloc := (malloc base grow).
#[local] Abbreviation heap_ok := (heap_ok base).

(** What morecore() asks for, and that the kernel does not give it. *)
Definition request (nunits : Z) : Z := HDR * Z.max 4096 nunits.
Definition refused (nunits : Z) (st : um) : Prop :=
  TRAPFRAME < um_brk st + request nunits \/ grow (um_brk st) (request nunits) = false.

(** New memory is a live block until it is freed. *)
Lemma grant_ok lo fl live st nu :
  heap_ok lo fl live st -> 1 <= nu < 2 ^ 32 -> um_brk st + HDR * nu <= 2 ^ 36 ->
  let m' := set_size (um_brk st) nu (um_mem st) in
  heap_ok lo fl ((um_brk st, nu) :: live) (mkUm m' (um_freep st) (um_brk st + HDR * nu)) /\
  untouched live (um_mem st) m'.
Proof using Type.
  clear grow GROW. intros OK Hnu Hmax m'.
  assert (forall b, b ∈ (base, 0) :: fl ++ live -> b.1 + HDR <= um_brk st) as Hend.
  { destruct (ho_base _ _ _ _ _ OK) as (? & ? & ?). intros b [->|Hb]%elem_of_cons; [cbn; lia|].
    destruct (heap_block _ OK b Hb) as (? & ? & ?). unfold nonempty, HDR in *. lia. }
  assert (untouched live (um_mem st) m') as Hun.
  { intros b x Hb Hx. apply set_size_same_but.
    destruct (heap_block _ OK b) as (? & ? & ?); [set_solver|]. unfold HDR in *. lia. }
  destruct OK as [Hfp Hc Hs Hpos HL Ht HB]. split; [|done].
  split; cbn [um_freep um_mem um_brk]; try done.
  - eapply chain_agree; [apply set_size_same_but| |done].
    apply Forall_forall. intros b Hb. specialize (Hend b). right. apply Hend. set_solver.
  - rewrite <- Permutation_middle. by constructor; [cbn; lia|].
  - constructor; [cbn; unfold m'; rewrite h_size_set_size; by apply u32_small; lia|].
    apply (untouched_sizes _ (um_mem st)); try done. by apply Forall_app in Hpos as [_ ?].
  - intros x. rewrite <- Permutation_middle. cbn [cover]. rewrite Ht. unfold b2z, HDR in *. zcases.
  - unfold HDR in *. lia.
Qed.

Lemma heap_freep lo fl live st : heap_ok lo fl live st -> um_freep st <> 0.
Proof using Type.
  clear grow GROW. intros OK E. destruct (ho_base _ _ _ _ _ OK) as (? & ? & ?). unfold HDR in *.
  pose proof (ho_freep _ _ _ _ _ OK) as Hfp. rewrite E in Hfp.
  apply elem_of_cons in Hfp as [Hfp|([a j] & Ea & Hin)%list_elem_of_fmap]; [cbn in Hfp; lia|].
  destruct (heap_block _ OK (a, j)) as (_ & ? & _); [set_solver|]. cbn in *. lia.
Qed.

Lemma morecore_ok lo fl live st nunits fuel :
  heap_ok lo fl live st -> 1 <= nunits -> request nunits < 2 ^ 31 -> (S (length fl) <= fuel)%nat ->
  (morecore fuel nunits st = Some (st, 0) /\ refused nunits st) \/
  exists m' fl' p, let st' := mkUm m' p (um_brk st + request nunits) in
    morecore fuel nunits st = Some (st', p) /\ p <> 0 /\
    heap_ok lo fl' live st' /\ untouched live (um_mem st) m' /\
    (length fl' <= S (length fl))%nat /\ Exists (fun b : block => nunits <= b.2) fl'.
Proof.
  intros OK Hn Hr Hf. unfold request, refused in *. destruct (ho_base _ _ _ _ _ OK) as (? & ? & ?).
  unfold morecore.
  replace (if nunits <? 4096 then 4096 else nunits) with (Z.max 4096 nunits) by zcases.
  unfold HDR in *. set (nu := Z.max 4096 nunits) in *.
  rewrite s32_small by lia. unfold sbrk. rewrite u64_small by lia.
  replace (nu * 16) with (16 * nu) by lia.
  destruct (Z.ltb_spec 0 (16 * nu)); [|lia]. rewrite Z.gtb_ltb.
  destruct (Z.ltb_spec TRAPFRAME (um_brk st + 16 * nu)); [by left; auto|].
  destruct (grow (um_brk st) (16 * nu)) eqn:Hg; [|by left; auto].
  right. pose proof (GROW _ _ Hg) as Hmax.
  destruct (grant_ok lo fl live st nu OK) as [OK' Hun]; [lia|unfold HDR; lia|].
  destruct (free_ok base OK' (live' := live) (bp := um_brk st) (n := nu) ltac:(done) fuel Hf)
    as (m' & fl' & p & E & OK'' & Hun' & Hlen & HE).
  exists m', fl', p. cbv zeta. change (um_brk st =? SBRK_ERROR) with (um_brk st =? 18446744073709551615).
  destruct (Z.eqb_spec (um_brk st) 18446744073709551615); [lia|].
  unfold set_um_mem, set_um_brk. cbn [um_mem um_freep um_brk]. unfold HDR in *. rewrite E. split_and!; try done.
  - apply (heap_freep _ _ _ _ OK'').
  - intros b x Hb Hx. etrans; [apply (Hun' b x Hb Hx)|apply (Hun b x Hb Hx)].
  - eapply Exists_impl; [exact HE|]. cbn. lia.
Qed.


(** What the loop does when it has come back to [freep]. *)
Definition grow_step (fuel : nat) (nunits : Z) (st : um) : option (um * Z) :=
  '(st, p) ← morecore fuel nunits st;
  if p =? 0 then mret (st, 0) else malloc_loop fuel nunits p (h_ptr (um_mem st) p) st.

(** The search, from [q] along the blocks of [w] to [freep]. *)
Lemma malloc_walk st nunits f0 k0 z w q k fuel :
  chain (um_mem st) ((q, k) :: w ++ [(f0, k0)]) z -> um_freep st = f0 ->
  Forall (fun b : block => b.1 <> f0) w -> (length w < fuel)%nat ->
  (exists w1 qp kp a n w2, (q, k) :: w ++ [(f0, k0)] = w1 ++ (qp, kp) :: (a, n) :: w2 /\
     nunits <= n /\
     malloc_loop fuel nunits q (h_ptr (um_mem st) q) st = Some (take_block nunits qp a st)) \/
  (Forall (fun b : block => b.2 < nunits) (w ++ [(f0, k0)]) /\
   malloc_loop fuel nunits q (h_ptr (um_mem st) q) st = grow_step (fuel - S (length w)) nunits st).
Proof using Type.
  clear GROW. revert q k fuel. induction w as [|[a n] w IH]; intros q k fuel Hc Hf0 Hw Hf;
    (destruct fuel as [|fuel]; [cbn in Hf; lia|]); cbn [app] in *; destruct Hc as (_ & Hq & Hc);
    pose proof Hc as (Hs & Hp & _); rewrite Hq; cbn [first Umalloc.malloc_loop]; rewrite Hs, Z.geb_leb.
  - destruct (Z.leb_spec nunits k0).
    + left. exists [], q, k, f0, k0, []. done.
    + right. rewrite Hf0, Z.eqb_refl. split; [by repeat constructor|].
      cbn [length]. replace (S fuel - 1)%nat with fuel by lia. done.
  - destruct (Z.leb_spec nunits n).
    + left. by exists [], q, k, a, n, (w ++ [(f0, k0)]).
    + apply Forall_cons in Hw as [Ha Hw]. cbn in Ha. rewrite Hf0.
      destruct (Z.eqb_spec a f0); [done|].
      destruct (IH a n fuel) as [(w1 & qp & kp & a' & n' & w2 & E & Hn & HM)|[Hall HM]]; try done.
      { cbn in Hf. lia. }
      * left. exists ((q, k) :: w1), qp, kp, a', n', w2. rewrite E. done.
      * right. split; [by constructor|]. rewrite HM. done.
Qed.

(** Two neighbours, of which the second is not where the lists meet, are in
    one of the lists. *)
Lemma neighbours_app {A} (l : list A) h l' w1 x y w2 :
  l ++ h :: l' = w1 ++ x :: y :: w2 ->
  (exists w2', l = w1 ++ x :: y :: w2') \/ y = h \/
  (exists w1', h :: l' = w1' ++ x :: y :: w2).
Proof.
  revert l. induction w1 as [|c w1 IH]; intros l E.
  - destruct l as [|a [|b l]]; simplify_eq/=; eauto. right. right. by exists [].
  - destruct l as [|a l]; simplify_eq/=.
    + right. right. by exists (c :: w1).
    + destruct (IH l) as [[w2' ->]|[->|[w1' E']]]; eauto.
Qed.

(** Neighbours on the circle of which the second is not the first of the list. *)
Lemma neighbours_circle {A} (h : A) l m1 f m2 w1 x y w2 :
  h :: l = m1 ++ f :: m2 -> f :: (m2 ++ m1) ++ [f] = w1 ++ x :: y :: w2 -> y <> h ->
  exists l1 l2, h :: l = l1 ++ x :: y :: l2.
Proof.
  intros EL E Hy. destruct m1 as [|h' m1]; injection EL as -> ->.
  - rewrite app_nil_r, app_comm_cons in E.
    apply neighbours_app in E as [[w2' ->]|[->|[[|? [|? w1']] E']]]; [eauto|done|done..].
  - rewrite <- app_assoc, app_comm_cons in E.
    apply neighbours_app in E as [[w2' E']|[->|[w1' E']]]; [|done|].
    + exists (h' :: m1 ++ w1), w2'. rewrite E'. by rewrite <- app_comm_cons, <- app_assoc.
    + exists w1', (w2 ++ m2). trans ((h' :: m1 ++ [f]) ++ m2); [cbn; by rewrite <- app_assoc|].
      change (h' :: m1 ++ [f] = w1' ++ x :: y :: w2) in E'. rewrite E'. by rewrite <- app_assoc.
Qed.

(** One turn around the list finds a block or finds that none is large enough. *)
Lemma search_ok lo fl live st nunits fuel :
  heap_ok lo fl live st -> 1 <= nunits -> (S (length fl) <= fuel)%nat ->
  let r := malloc_loop fuel nunits (um_freep st) (h_ptr (um_mem st) (um_freep st)) st in
  (exists m' fl' p c, r = Some (mkUm m' p (um_brk st), c + HDR) /\
     heap_ok lo fl' ((c, nunits) :: live) (mkUm m' p (um_brk st)) /\
     untouched live (um_mem st) m' /\ (length fl' <= length fl)%nat) \/
  (Forall (fun b : block => b.2 < nunits) fl /\ r = grow_step (fuel - S (length fl)) nunits st).
Proof using Type.
  clear GROW. intros OK Hn Hf r.
  pose proof (ho_freep _ _ _ _ _ OK) as ([f0 k0] & Ef0 & Hin)%list_elem_of_fmap. cbn in Ef0.
  apply list_elem_of_split in Hin as (m1 & m2 & E).
  pose proof (ho_chain _ _ _ _ _ OK) as Hc. rewrite E in Hc.
  apply chain_rotate in Hc; [|by rewrite <- E|done].
  destruct (heap_far base OK m1 (f0, k0) m2 E) as [F1 F2].
  assert (length (m2 ++ m1) = length fl) as Hlen.
  { apply (f_equal length) in E. rewrite !length_app in *. cbn in E. lia. }
  destruct (malloc_walk st nunits f0 k0 (h_ptr (um_mem st) f0) (m2 ++ m1) f0 k0 fuel)
    as [(w1 & qp & kp & a & n & w2 & Ew & Hna & HM)|[Hall HM]].
  - rewrite app_comm_cons. apply chain_app. cbn in Hc |- *. split; [done|].
    by destruct Hc as [? _].
  - done.
  - apply Forall_app. unfold far, apart, HDR in *. cbn in *.
    split; (eapply Forall_impl; [eassumption|]); intros b; cbn; lia.
  - lia.
  - left. destruct (neighbours_circle _ _ _ _ _ _ _ _ _ E Ew) as (l1 & l2 & EL).
    { intros [= -> ->]. lia. }
    destruct (take_block_ok base OK l1 qp kp a n l2 nunits EL) as (m' & fl' & c & Et & ? & ? & ?); [lia|].
    exists m', fl', qp, c. subst r. rewrite Ef0, HM, Et. done.
  - right. subst r. rewrite Ef0, HM, Hlen. split; [|done].
    assert (fl ⊆ (m2 ++ m1) ++ [(f0, k0)]) as Hsub.
    { assert (fl ⊆ (base, 0) :: fl) by set_solver. rewrite E in *. set_solver. }
    rewrite Forall_forall in *. auto.
Qed.

Lemma malloc_from_ok lo fl live st nunits fuel :
  heap_ok lo fl live st -> 1 <= nunits -> request nunits < 2 ^ 31 -> (2 * length fl + 4 <= fuel)%nat ->
  let r := malloc_loop fuel nunits (um_freep st) (h_ptr (um_mem st) (um_freep st)) st in
  (r = Some (st, 0) /\ refused nunits st) \/
  exists m' fl' p b c, r = Some (mkUm m' p b, c + HDR) /\
     heap_ok lo fl' ((c, nunits) :: live) (mkUm m' p b) /\
     untouched live (um_mem st) m' /\ (length fl' <= S (length fl))%nat.
Proof using GROW.
  intros OK Hn Hr Hf r.
  destruct (search_ok lo fl live st nunits fuel OK Hn) as [(m' & fl' & p & c & E & ? & ? & ?)|[_ E]]; [lia| |].
  { right. exists m', fl', p, (um_brk st), c. split_and!; try done. lia. }
  subst r. rewrite E. set (f := (fuel - S (length fl))%nat).
  destruct (morecore_ok lo fl live st nunits f OK Hn Hr) as [[Em Href]|H]; [lia| |].
  { left. unfold grow_step. rewrite Em. done. }
  right. destruct H as (m1 & fl1 & p1 & Em & Hp1 & OK1 & Hun1 & Hl1 & Hex).
  unfold grow_step. rewrite Em. cbn [mbind option_bind]. destruct (Z.eqb_spec p1 0); [done|].
  destruct (search_ok lo fl1 live _ nunits f OK1 Hn) as [(m' & fl' & p & c & E' & ? & Hun & ?)|[Hall _]]; [lia| |].
  - exists m', fl', p, (um_brk st + request nunits), c. split_and!; [done|done| |lia].
    intros b x Hb Hx. etrans; [by apply (Hun b x)|by apply (Hun1 b x)].
  - exfalso. apply Exists_exists in Hex as (b & Hb & Hle).
    rewrite Forall_forall in Hall. specialize (Hall b Hb). cbn in Hall. lia.
Qed.

(** ** A client

    A program that allocates, frees and writes to its blocks.  Beside the
    memory it keeps, for each block it owns, the pointer and what it expects
    to find there: what was in the block when it got it, updated by its own
    writes. *)
Inductive uop :=
| UMalloc (nbytes : Z)
| UFree (i : nat)
| UPut (i j : nat) (v : Z).

Definition client_step (fuel : nat) (op : uop) (c : um * owned) : option (um * owned) :=
  let '(st, own) := c in
  match op with
  | UMalloc n =>
      '(st, r) ← malloc fuel n st;
      mret (st, if r =? 0 then own else own ++ [(r, mem_load (um_mem st) r (Z.to_nat n))])
  | UFree i =>
      match own !! i with
      | Some (p, _) => st ← free fuel p st; mret (st, delete i own)
      | None => mret c
      end
  | UPut i j v =>
      match own !! i with
      | Some (p, bs) =>
          if (j <? length bs)%nat
          then mret (set_um_mem (st8 (um_mem st) (p + Z.of_nat j) v) st,
                     <[i := (p, <[j := u8 v]> bs)]> own)
          else mret c
      | None => mret c
      end
  end.

Fixpoint client (fuel : nat) (ops : list uop) (c : um * owned) : option (um * owned) :=
  match ops with
  | [] => mret c
  | op :: ops => c ← client_step fuel op c; client fuel ops c
  end.

(** The largest request that morecore() can pass to sbrk(), whose argument is an int. *)
Definition MALLOC_MAX : Z := 2 ^ 31 - 32.

Definition uop_ok (op : uop) : Prop :=
  match op with UMalloc n => 0 <= n <= MALLOC_MAX | _ => True end.

(** The block of an owned pointer. *)
Definition blk (o : Z * list Z) : block := (o.1 - HDR, nunits_for (Z.of_nat (length o.2))).

Definition holds (m : mem) (o : Z * list Z) : Prop :=
  Z.of_nat (length o.2) <= MALLOC_MAX /\ mem_load m o.1 (length o.2) = o.2.

(** A heap that malloc() has not been called on yet. *)
Definition fresh (lo : Z) (st : um) : Prop :=
  um_freep st = 0 /\ um_brk st = lo /\ 0 < base /\ base + HDR <= lo <= 2 ^ 36.

(** [k] bounds the length of the free list. *)
Definition client_ok (lo : Z) (k : nat) (c : um * owned) : Prop :=
  (fresh lo c.1 /\ c.2 = []) \/
  exists fl, (length fl <= k)%nat /\ heap_ok lo fl (blk <$> c.2) c.1 /\
    Forall (holds (um_mem c.1)) c.2.

Lemma nunits_for_eq n : 0 <= n <= MALLOC_MAX ->
  nunits_for n = (n + 15) / 16 + 1 /\ HDR + n <= HDR * nunits_for n /\
  1 <= nunits_for n /\ request (nunits_for n) < 2 ^ 31.
Proof using Type.
  unfold MALLOC_MAX, nunits_for, request, HDR. intros Hn. replace (n + 16 - 1) with (n + 15) by lia.
  pose proof (Z.div_mod (n + 15) 16). pose proof (Z.mod_pos_bound (n + 15) 16).
  rewrite u32_small by lia. lia.
Qed.

Lemma heap_ok_perm lo fl live live' st : live ≡ₚ live' -> heap_ok lo fl live st -> heap_ok lo fl live' st.
Proof using Type.
  clear grow GROW. intros HP [? ? ? Hpos HL Ht ?]. split; try done.
  - by rewrite <- HP.
  - by rewrite <- HP.
  - intros x. by rewrite <- HP.
Qed.

(** The contents of an owned block lie inside it, after its header. *)
Lemma holds_agree m m' o :
  holds m o -> (forall x, (blk o).1 + HDR <= x < (blk o).1 + HDR * (blk o).2 -> m' x = m x) -> holds m' o.
Proof using Type.
  clear grow GROW. intros [Hl Hm] Hx. split; [done|]. rewrite <- Hm at 2. apply mem_load_ext.
  intros x Hr. apply Hx. destruct (nunits_for_eq (Z.of_nat (length o.2))) as (_ & ? & _); [lia|].
  cbn. lia.
Qed.

Lemma holds_untouched m m' own :
  untouched (blk <$> own) m m' -> Forall (holds m) own -> Forall (holds m') own.
Proof using Type.
  clear grow GROW. intros Hun H. rewrite Forall_forall in *. intros o Ho. apply (holds_agree m); [auto|].
  intros x Hx. apply (Hun (blk o)); [by apply list_elem_of_fmap_2|]. unfold HDR in *. lia.
Qed.

Lemma malloc_init_ok lo st : fresh lo st ->
  heap_ok lo [] [] (mkUm (set_size base 0 (set_ptr base base (um_mem st))) base (um_brk st)).
Proof using Type.
  clear grow GROW. intros (Hf & Hb & H0 & H1). split; cbn [um_freep um_mem um_brk]; try done.
  - set_solver.
  - cbn. rewrite h_size_set_size, h_ptr_set_size, h_ptr_set_ptr; [done|].
    unfold addr_ok, HDR in *. lia.
  - by repeat constructor.
  - intros x. cbn. unfold b2z. zcases.
  - lia.
Qed.

(** ** Each operation keeps the invariant *)
Lemma client_malloc_ok lo k fuel n st own :
  client_ok lo k (st, own) -> 0 <= n <= MALLOC_MAX -> (2 * k + 4 <= fuel)%nat ->
  exists c', client_step fuel (UMalloc n) (st, own) = Some c' /\ client_ok lo (S k) c'.
Proof using GROW.
  intros HI Hn Hf. destruct (nunits_for_eq n Hn) as (_ & Hfit & H1 & Hreq).
  set (st1 := if um_freep st =? 0
     then set_um_freep base (set_um_mem (set_size base 0 (set_ptr base base (um_mem st))) st) else st).
  assert (exists fl, (length fl <= k)%nat /\ heap_ok lo fl (blk <$> own) st1 /\
    Forall (holds (um_mem st1)) own) as (fl & Hk & OK & HO).
  { unfold client_ok in HI. cbn [fst snd] in HI. destruct HI as [[Hfr ->]|(fl & Hk & OK & HO)].
    - exists []. split_and!; [cbn; lia| |done]. unfold st1. rewrite (proj1 Hfr), Z.eqb_refl.
      exact (malloc_init_ok lo st Hfr).
    - exists fl. unfold st1. destruct (Z.eqb_spec (um_freep st) 0) as [E|_]; [|done].
      by destruct (heap_freep _ _ _ _ OK). }
  destruct (malloc_from_ok lo fl _ st1 (nunits_for n) fuel OK H1 Hreq) as [[E _]|H]; [lia| |].
  - exists (st1, own). split; [|right; exists fl; split_and!; [lia|done..]].
    unfold client_step, malloc. fold st1. rewrite E. done.
  - destruct H as (m' & fl' & p & b & c & E & OK' & Hun & Hl).
    destruct (heap_block _ OK' (c, nunits_for n)) as (_ & Hc & _); [set_solver|].
    destruct (ho_base _ _ _ _ _ OK') as (? & ? & _). cbn in Hc.
    eexists. split.
    + unfold client_step, malloc. fold st1. rewrite E. cbn [mbind option_bind].
      destruct (Z.eqb_spec (c + HDR) 0); [unfold HDR in *; lia|]. reflexivity.
    + right. exists fl'. cbn [fst snd um_mem]. split_and!; [lia| |].
      * eapply heap_ok_perm; [|done]. rewrite fmap_app. cbn.
        unfold blk. cbn. rewrite mem_load_length, Z2Nat.id by lia.
        replace (c + HDR - HDR) with c by lia. solve_Permutation.
      * apply Forall_app. split; [by eapply holds_untouched|]. constructor; [|done].
        split; cbn; rewrite mem_load_length; [lia|done].
Qed.

Lemma client_free_ok lo k fuel i st own :
  client_ok lo k (st, own) -> (2 * k + 4 <= fuel)%nat ->
  exists c', client_step fuel (UFree i) (st, own) = Some c' /\ client_ok lo (S k) c'.
Proof using Type.
  clear GROW. intros HI Hf. unfold client_step. destruct (own !! i) as [[p bs]|] eqn:Ei.
  2: { eexists. split; [done|]. destruct HI as [?|(fl & ? & ?)]; [by left|right; exists fl; split; [lia|done]]. }
  unfold client_ok in HI. cbn [fst snd] in HI. destruct HI as [[_ ->]|(fl & Hk & OK & HO)]; [done|].
  assert (own ≡ₚ (p, bs) :: delete i own) as HP by by apply delete_Permutation.
  assert (blk <$> own ≡ₚ blk (p, bs) :: (blk <$> delete i own)) as HB.
  { rewrite HP at 1. done. }
  destruct (free_ok base OK HB fuel) as (m' & fl' & q & E & OK' & Hun & Hl & _); [lia|].
  cbn in E. replace (p - HDR + HDR) with p in E by lia. rewrite E.
  eexists. split; [done|]. right. exists fl'. split_and!; [lia|done|].
  eapply holds_untouched; [done|]. rewrite HP in HO. by apply Forall_cons in HO as [_ ?].
Qed.

(** A client that writes inside its own block. *)
Lemma client_put_ok lo k fuel i j v st own :
  client_ok lo k (st, own) ->
  exists c', client_step fuel (UPut i j v) (st, own) = Some c' /\ client_ok lo k c'.
Proof using Type.
  clear GROW. intros HI. unfold client_step. destruct (own !! i) as [[p bs]|] eqn:Ei; [|by eauto].
  destruct (Nat.ltb_spec j (length bs)) as [Hj|]; [|by eauto]. eexists. split; [done|].
  unfold client_ok in HI |- *. cbn [fst snd] in *. destruct HI as [[_ ->]|(fl & Hk & OK & HO)]; [done|].
  right. exists fl.
  assert (blk <$> <[i := (p, <[j := u8 v]> bs)]> own = blk <$> own) as Hblk.
  { rewrite list_fmap_insert. apply list_insert_id. rewrite list_lookup_fmap, Ei. cbn.
    unfold blk. cbn. by rewrite length_insert. }
  assert (own ≡ₚ (p, bs) :: delete i own) as HP by by apply delete_Permutation.
  pose proof (proj1 (Forall_forall _ _) HO (p, bs) ltac:(rewrite HP; by left)) as [Hl Hm]. cbn in Hl, Hm.
  destruct (nunits_for_eq (Z.of_nat (length bs))) as (_ & Hfit & H1 & _); [lia|].
  set (m' := st8 (um_mem st) (p + Z.of_nat j) v).
  assert (blk <$> own ≡ₚ blk (p, bs) :: (blk <$> delete i own)) as HB by by rewrite HP at 1.
  destruct (write_ok base OK (blk (p, bs)) (blk <$> delete i own) (p + Z.of_nat j) m') as [OK' Hun];
    [done|cbn; lia|intros x Hx; apply mem_store_out; cbn; lia|].
  rewrite Hblk. split_and!; [lia|done|].
  rewrite (delete_Permutation (<[i := _]> own) i (p, <[j := u8 v]> bs)).
  2: { apply list_lookup_insert_eq. by apply lookup_lt_Some in Ei. }
  rewrite HP in HO. apply Forall_cons in HO as [_ HO].
  constructor; [|rewrite delete_insert_same; by eapply holds_untouched].
  split; cbn [fst snd]; rewrite length_insert; [done|]. cbn.
  apply list_eq. intros q. destruct (decide (q < length bs)%nat).
  - rewrite mem_load_lookup by done. destruct (decide (q = j)) as [->|Hq].
    + rewrite list_lookup_insert_eq by done. f_equal. unfold m', st8.
      rewrite mem_store_in by (cbn; lia). by rewrite Z.sub_diag.
    + rewrite list_lookup_insert_ne by done. unfold m', st8. rewrite mem_store_out by (cbn; lia).
      rewrite <- Hm. by rewrite mem_load_lookup.
  - rewrite !lookup_ge_None_2; rewrite ?mem_load_length, ?length_insert; try done; lia.
Qed.

Lemma client_ok_mono lo k k' c : (k <= k')%nat -> client_ok lo k c -> client_ok lo k' c.
Proof using Type.
  intros Hk [?|(fl & ? & ?)]; [by left|]. right. exists fl. split; [lia|done].
Qed.

Lemma client_run_ok lo ops : forall k fuel c,
  client_ok lo k c -> Forall uop_ok ops -> (2 * (k + length ops) + 4 <= fuel)%nat ->
  exists c' k', client fuel ops c = Some c' /\ client_ok lo k' c'.
Proof using GROW.
  induction ops as [|op ops IH]; intros k fuel [st own] HI Hops Hf; [by exists (st, own), k|].
  apply Forall_cons in Hops as [Hop Hops]. cbn [length] in Hf.
  assert (exists c', client_step fuel op (st, own) = Some c' /\ client_ok lo (S k) c') as (c' & E & HI').
  { destruct op as [n|i|i j v].
    - apply client_malloc_ok; [done|done|lia].
    - apply client_free_ok; [done|lia].
    - destruct (client_put_ok lo k fuel i j v st own HI) as (c' & E & ?).
      exists c'. split; [done|]. by apply (client_ok_mono lo k); [lia|]. }
  destruct (IH (S k) fuel c' HI' Hops) as (c'' & k' & E' & ?); [lia|].
  exists c'', k'. cbn [client]. rewrite E. done.
Qed.

(** C17: malloc() and free() as a program that uses them sees them.  For every
    sequence of allocations (of up to [MALLOC_MAX] bytes), frees of blocks the
    program owns and writes inside such blocks, starting from a heap that was
    never used: every call returns (the searches end within the fuel, which
    is linear in the number of operations); every owned block still holds what
    its owner last wrote, whatever was allocated and freed since; the blocks
    lie in the memory obtained from sbrk() and no two of them, headers
    included, overlap; and together with the free list they account for every
    byte of that memory, so that none is lost. *)
Theorem malloc_free_safe lo ops st :
  fresh lo st -> Forall uop_ok ops ->
  exists st' own, client (2 * length ops + 4) ops (st, []) = Some (st', own) /\
    (forall i p bs, own !! i = Some (p, bs) ->
       mem_load (um_mem st') p (length bs) = bs /\
       lo + HDR <= p /\ p + Z.of_nat (length bs) <= um_brk st') /\
    (forall i j p bs p' bs', i <> j -> own !! i = Some (p, bs) -> own !! j = Some (p', bs') ->
       p + Z.of_nat (length bs) <= p' - HDR \/ p' + Z.of_nat (length bs') <= p - HDR) /\
    (exists fl, (fl = [] /\ own = [] \/ chain (um_mem st') ((base, 0) :: fl) base) /\
       forall x, cover x (fl ++ (blk <$> own)) = b2z ((lo <=? x) && (x <? um_brk st'))).
Proof using GROW.
  intros Hfr Hops.
  destruct (client_run_ok lo ops 0 (2 * length ops + 4) (st, [])) as ([st' own] & k & E & HI);
    [by left|done|lia|].
  exists st', own. split; [done|]. unfold client_ok in HI. cbn [fst snd] in HI.
  destruct HI as [[Hfr' ->]|(fl & _ & OK & HO)].
  - split_and!; [done..|]. exists []. split; [by left|]. intros x. destruct Hfr' as (_ & -> & _).
    cbn. unfold b2z. zcases.
  - assert (forall i p bs, own !! i = Some (p, bs) -> holds (um_mem st') (p, bs) /\
      HDR + Z.of_nat (length bs) <= HDR * nunits_for (Z.of_nat (length bs)) /\
      blk (p, bs) ∈ blk <$> own) as Hown.
    { intros i p bs Hi. pose proof (proj1 (Forall_lookup _ _) HO i _ Hi) as Hh.
      split_and!; [done| |by eapply list_elem_of_fmap_2, list_elem_of_lookup_2].
      destruct (nunits_for_eq (Z.of_nat (length bs))) as (_ & ? & _); [|done]. destruct Hh. cbn in *. lia. }
    split_and!.
    + intros i p bs Hi. destruct (Hown i p bs Hi) as ([_ Hm] & Hfit & Hin). cbn in Hm.
      destruct (heap_block _ OK (blk (p, bs))) as (_ & ? & ?); [set_solver|]. cbn in *. split_and!; [done|lia..].
    + intros i j p bs p' bs' Hij Hi Hj. destruct (Hown i p bs Hi) as (_ & Hfit & _).
      destruct (Hown j p' bs' Hj) as (_ & Hfit' & _).
      assert (own ≡ₚ (p, bs) :: delete i own) as HP by by apply delete_Permutation.
      destruct (heap_disjoint _ OK (blk (p, bs)) (blk <$> delete i own) (blk (p', bs')));
        [by rewrite HP at 1| |cbn in *; lia..].
      apply elem_of_app. right. apply list_elem_of_fmap_2. apply list_elem_of_lookup.
      destruct (decide (j < i)%nat).
      * exists j. by rewrite list_lookup_delete_lt.
      * exists (pred j). rewrite list_lookup_delete_ge by lia. by replace (S (pred j)) with j by lia.
    + exists fl. split; [right; apply (ho_chain _ _ _ _ _ OK)|apply (ho_tile _ _ _ _ _ OK)].
Qed.

End mallocing.

(** ** Examples *)

(** A kernel that lets a process grow to 128 MB. *)
Definition grow_to_128M (sz n : Z) : bool := sz + n <=? 2 ^ 27.
Definition empty_heap : um := mkUm (fun _ => 0) 0 8192.

Definition example_ops : list uop :=
  [UMalloc 10; UMalloc 40; UPut 0 3 65; UFree 1; UMalloc 100; UPut 1 99 66; UFree 0; UMalloc 0].

Lemma malloc_free_safe_witness :
  fresh 4096 8192 empty_heap /\
  exists st' own, client 4096 grow_to_128M (2 * length example_ops + 4) example_ops (empty_heap, [])
    = Some (st', own) /\ length own = 2%nat /\
    (forall i p bs, own !! i = Some (p, bs) -> mem_load (um_mem st') p (length bs) = bs).
Proof.
  assert (fresh 4096 8192 empty_heap) as Hfr by (unfold fresh, HDR; cbn; lia).
  split; [done|].
  destruct (malloc_free_safe 4096 grow_to_128M) with (lo := 8192) (ops := example_ops) (st := empty_heap)
    as (st' & own & E & Hc & _).
  - unfold grow_to_128M. intros sz n H. apply Z.leb_le in H. lia.
  - done.
  - repeat constructor; unfold MALLOC_MAX; lia.
  - exists st', own. split; [done|]. split; [|intros i p bs Hi; by apply (Hc i)].
    assert (length own = default 0%nat ((fun r : um * owned => length r.2) <$>
      client 4096 grow_to_128M (2 * length example_ops + 4) example_ops (empty_heap, []))) as ->
      by by rewrite E.
    vm_compute. reflexivity.
Defined.

(** The size morecore() passes to sbrk() is converted to int: a request of
    2^32 - 1 bytes asks the kernel for 16 and is granted, as a block of 4 GB. *)
Lemma malloc_size_wraps :
  (fun r : um * Z => (r.2, um_brk r.1, h_size (um_mem r.1) 8192)) <$>
    malloc 4096 grow_to_128M 5 (2 ^ 32 - 1) empty_heap
  = Some (8192 + HDR, 8192 + 16, 2 ^ 28 + 1).
Proof. vm_compute. reflexivity. Qed.
