(* ===== verification/Uprintf.v ===== *)
(** * Uprintf: formatted output of user programs (user/printf.c)

    vprintf() is a second implementation of the formats of printk(), as a
    state machine over the format string; it prints upper-case hexadecimal
    digits.  The output is the sequence of bytes that putc() writes. *)

From S2P Require Import Prelude Params Machine Spinlock Strings Uart Printk Ulib.

Definition udigits : list Z := str "0123456789ABCDEF".

(** putc(): [char c] keeps the low byte. *)
Definition putc (c : Z) : Z := u8 c.

Fixpoint udigit_loop (fuel : nat) (x base : Z) (buf : list Z) : list Z :=
  match fuel with
  | O => buf
  | S n =>
      let buf := buf ++ [udigits !!! Z.to_nat (x mod base)] in
      let x := x / base in
      if truthy x then udigit_loop n x base buf else buf
  end.

(** printint(): the buffer is filled from the right digit on and printed
    backwards. *)
Definition uprintint (xx base sgn : Z) : list Z :=
  let neg := truthy sgn && (xx <? 0) in
  let x := if neg then u64 (- xx) else u64 xx in
  let buf := udigit_loop 64 x base [] in
  putc <$> reverse (if neg then buf ++ [chr "-"] else buf).

Fixpoint uprintptr_digits (n : nat) (x : Z) : list Z :=
  match n with
  | O => []
  | S n' => udigits !!! Z.to_nat (Z.shiftr x 60) :: uprintptr_digits n' (u64 (Z.shiftl x 4))
  end.
Definition uprintptr (x : Z) : list Z := putc <$> (chr "0" :: chr "x" :: uprintptr_digits 16 x).

(** The conversion after a percent sign: output, whether it takes an
    argument, and by how much [i] advances, the loop's own step included. *)
Definition uconversion (c0 c1 c2 : Z) (ap : list varg) : list Z * bool * nat :=
  if c0 =? chr "d" then (uprintint (s32 (va_int ap)) 10 1, true, 1%nat)
  else if (c0 =? chr "l") && (c1 =? chr "d") then (uprintint (s64 (va_int ap)) 10 1, true, 2%nat)
  else if (c0 =? chr "l") && (c1 =? chr "l") && (c2 =? chr "d") then (uprintint (s64 (va_int ap)) 10 1, true, 3%nat)
  else if c0 =? chr "u" then (uprintint (u32 (va_int ap)) 10 0, true, 1%nat)
  else if (c0 =? chr "l") && (c1 =? chr "u") then (uprintint (s64 (va_int ap)) 10 0, true, 2%nat)
  else if (c0 =? chr "l") && (c1 =? chr "l") && (c2 =? chr "u") then (uprintint (s64 (va_int ap)) 10 0, true, 3%nat)
  else if c0 =? chr "x" then (uprintint (u32 (va_int ap)) 16 0, true, 1%nat)
  else if (c0 =? chr "l") && (c1 =? chr "x") then (uprintint (s64 (va_int ap)) 16 0, true, 2%nat)
  else if (c0 =? chr "l") && (c1 =? chr "l") && (c2 =? chr "x") then (uprintint (s64 (va_int ap)) 16 0, true, 3%nat)
  else if c0 =? chr "p" then (uprintptr (u64 (va_int ap)), true, 1%nat)
  else if c0 =? chr "c" then ([putc (u32 (va_int ap))], true, 1%nat)
  else if c0 =? chr "s" then (putc <$> cstr (default (str "(null)") (va_str ap)), true, 1%nat)
  else if c0 =? chr "%" then ([putc (chr "%")], false, 1%nat)
  else ([putc (chr "%"); putc c0], false, 1%nat).

(** The loop of vprintf(); [pct] is [state == '%']. *)
Fixpoint vprintf_loop (fuel : nat) (pct : bool) (fmt : list Z) (ap : list varg) : list Z :=
  match fuel with
  | O => []
  | S n =>
      let c0 := hd0 fmt in
      if negb (truthy c0) then [] else
      if negb pct then
        if c0 =? chr "%" then vprintf_loop n true (tail fmt) ap
        else putc c0 :: vprintf_loop n false (tail fmt) ap
      else
        let c1 := if truthy c0 then hd0 (drop 1 fmt) else 0 in
        let c2 := if truthy c1 then hd0 (drop 2 fmt) else 0 in
        let '(chars, takes_arg, used) := uconversion c0 c1 c2 ap in
        chars ++ vprintf_loop n false (drop used fmt) (if takes_arg : bool then tail ap else ap)
  end.
Definition vprintf (fmt : list Z) (ap : list varg) : list Z := vprintf_loop (S (length fmt)) false fmt ap.

(** ** Agreement with printk() *)

(** Letter case aside. *)
Definition upcase (c : Z) : Z := if (97 <=? c) && (c <=? 102) then c - 32 else c.

Lemma upcase_idem c : upcase (upcase c) = upcase c.
Proof. unfold upcase. zcases; done. Qed.

Lemma udigits_up k : udigits !!! k = upcase (digits !!! k) /\ 0 <= digits !!! k < 256.
Proof. do 16 (destruct k as [|k]; [vm_compute; split; [done|split; [discriminate|done]]|]). vm_compute. split; [done|split; [discriminate|done]]. Qed.

(** [agree u k]: the user's bytes [u] are the kernel's characters [k]. *)
Definition agree (u k : list Z) : Prop := upcase <$> u = upcase <$> (u8 <$> k).

Lemma agree_app u1 k1 u2 k2 : agree u1 k1 -> agree u2 k2 -> agree (u1 ++ u2) (k1 ++ k2).
Proof. unfold agree. rewrite !fmap_app. by intros -> ->. Qed.

Lemma agree_putc k : agree (putc <$> k) k.
Proof. done. Qed.

Lemma agree_up k : Forall (fun c => 0 <= c < 256) k -> agree (putc <$> (upcase <$> k)) k.
Proof.
  intros Hk. unfold agree. rewrite <- !list_fmap_compose. apply list_fmap_ext.
  intros i c Hc. rewrite Forall_lookup in Hk. specialize (Hk i c Hc). cbn in *. unfold putc.
  rewrite (u8_small c) by done. rewrite u8_small by (unfold upcase; zcases; lia). apply upcase_idem.
Qed.

Lemma udigit_loop_up fuel x base buf ubuf :
  ubuf = upcase <$> buf -> udigit_loop fuel x base ubuf = upcase <$> digit_loop fuel x base buf.
Proof.
  revert x buf ubuf. induction fuel as [|n IH]; intros x buf ubuf ->; [done|]. cbn [udigit_loop digit_loop].
  destruct (udigits_up (Z.to_nat (x mod base))) as [Ed _].
  assert ((upcase <$> buf) ++ [udigits !!! Z.to_nat (x mod base)]
    = upcase <$> (buf ++ [digits !!! Z.to_nat (x mod base)])) as -> by (by rewrite fmap_app, Ed).
  destruct (truthy _); [by apply IH|done].
Qed.

Lemma digit_loop_bytes fuel x base buf :
  Forall (fun c => 0 <= c < 256) buf -> Forall (fun c => 0 <= c < 256) (digit_loop fuel x base buf).
Proof.
  revert x buf. induction fuel as [|n IH]; intros x buf Hb; [done|]. cbn [digit_loop].
  assert (Forall (fun c => 0 <= c < 256) (buf ++ [digits !!! Z.to_nat (x mod base)])).
  { apply Forall_app. split; [done|]. apply Forall_singleton, udigits_up. }
  destruct (truthy _); [by apply IH|done].
Qed.

Lemma agree_printint xx base sgn : agree (uprintint xx base sgn) (printint_chars xx base sgn).
Proof.
  unfold uprintint, printint_chars, printint_buf. set (neg := truthy sgn && (xx <? 0)).
  set (x := if neg then u64 (- xx) else u64 xx).
  rewrite (udigit_loop_up 64 x base [] []) by done.
  pose proof (digit_loop_bytes 64 x base [] (Forall_nil_2 _)) as Hb.
  assert ((if neg then (upcase <$> digit_loop 64 x base []) ++ [chr "-"] else upcase <$> digit_loop 64 x base [])
    = upcase <$> (if neg then digit_loop 64 x base [] ++ [chr "-"] else digit_loop 64 x base [])) as ->.
  { destruct neg; [by rewrite fmap_app|done]. }
  rewrite <- fmap_reverse. apply agree_up. apply Forall_reverse.
  destruct neg; [apply Forall_app; split; [done|by repeat constructor]|done].
Qed.

Lemma agree_printptr x : agree (uprintptr x) (printptr_chars x).
Proof.
  unfold uprintptr, printptr_chars.
  assert (forall n x, uprintptr_digits n x = upcase <$> printptr_digits n x
    /\ Forall (fun c => 0 <= c < 256) (printptr_digits n x)) as H.
  { induction n as [|n IH]; intros y; cbn [uprintptr_digits printptr_digits]; [by split|]. destruct (IH (u64 (Z.shiftl y 4))) as [-> Hf].
    destruct (udigits_up (Z.to_nat (Z.shiftr y 60))) as [-> ?]. split; [done|by constructor]. }
  destruct (H 16%nat x) as [-> Hf].
  change (chr "0" :: chr "x" :: (upcase <$> ?l)) with (upcase <$> (chr "0" :: chr "x" :: l)).
  apply agree_up. constructor; [done|]. by constructor.
Qed.

(** Each conversion prints the same and advances by the same amount. *)
Lemma agree_conversion c0 c1 c2 ap :
  c0 <> 0 ->
  exists k, conversion c0 c1 c2 ap = Some (k, (uconversion c0 c1 c2 ap).1.2, (uconversion c0 c1 c2 ap).2)
    /\ agree (uconversion c0 c1 c2 ap).1.1 k /\ (1 <= (uconversion c0 c1 c2 ap).2)%nat.
Proof.
  intros H0. apply Z.eqb_neq in H0. unfold conversion, uconversion. rewrite H0.
  repeat (case_match; [eexists; split; [reflexivity|]; split;
    [first [apply agree_printint|apply agree_printptr|apply agree_putc|reflexivity]|cbn; lia]|]).
  eexists; split; [reflexivity|]; split; [reflexivity|cbn; lia].
Qed.

Lemma agree_loop m : forall fmt ap f1 f2, (length fmt <= m)%nat -> (length fmt < f1)%nat -> (length fmt < f2)%nat ->
  agree (vprintf_loop f1 false fmt ap) (format f2 fmt ap).
Proof.
  induction m as [|m IH]; intros fmt ap f1 f2 Hm H1 H2.
  { destruct fmt; [|cbn in Hm; lia]. destruct f1, f2; done || (cbn in *; lia). }
  destruct f1 as [|f1]; [lia|]. destruct f2 as [|f2]; [lia|]. destruct fmt as [|c0 fmt]; [done|].
  cbn [length] in *. cbn [vprintf_loop format tail]. change (hd0 (c0 :: fmt)) with c0.
  destruct (truthy c0) eqn:E0.
  2:{ apply truthy_false in E0 as ->. done. }
  apply truthy_true in E0. rewrite (proj2 (Z.eqb_neq c0 0)) by done. cbn [negb].
  destruct (c0 =? chr "%"); cbn [negb].
  2:{ apply (agree_app [putc c0] [c0]); [done|]. apply IH; lia. }
  destruct f1 as [|f1]; [lia|]. cbn [vprintf_loop]. set (d0 := hd0 fmt).
  destruct (truthy d0) eqn:Ed.
  2:{ apply truthy_false in Ed. by rewrite Ed. }
  assert (0 < length fmt)%nat as Hl by (destruct fmt; [done|cbn; lia]).
  apply truthy_true in Ed. cbn [negb]. set (d1 := hd0 (drop 1 fmt)). set (d2 := if truthy d1 then _ else 0).
  destruct (agree_conversion d0 d1 d2 ap Ed) as (k & -> & Hk & Hu).
  destruct (uconversion d0 d1 d2 ap) as [[chars takes] used]. cbn in Hk, Hu |- *.
  apply agree_app; [done|]. apply IH; rewrite length_drop; lia.
Qed.


(** ** printf() and atoi() *)
Lemma atoi_loop_val ds n :
  Forall (fun c => 48 <= c <= 57) ds -> 0 <= n -> foldl (fun v c => v * 10 + digit_val c) n ds < 2 ^ 31 ->
  atoi_loop ds n = foldl (fun v c => v * 10 + digit_val c) n ds.
Proof.
  intros Hd. revert n. induction Hd as [|c ds Hc Hd IH]; intros n Hn Hb; [done|]. cbn [atoi_loop foldl] in *.
  change (chr "0") with 48. change (chr "9") with 57.
  destruct (Z.leb_spec 48 c); [|lia]. destruct (Z.leb_spec c 57); [|lia]. cbn [andb].
  assert (digit_val c = c - 48) as Ev by (unfold digit_val; zcases; lia).
  assert (forall ds m, Forall (fun c => 48 <= c <= 57) ds -> 0 <= m -> m <= foldl (fun v c => v * 10 + digit_val c) m ds) as Hmono.
  { clear. intros ds m Hd. revert m. induction Hd as [|c ds Hc Hd IH]; intros m Hm; cbn; [lia|].
    assert (digit_val c = c - 48) as Ev by (unfold digit_val; zcases; lia).
    etransitivity; [|apply IH]; lia. }
  pose proof (Hmono ds (n * 10 + digit_val c) Hd ltac:(lia)).
  rewrite s32_small by lia. replace (n * 10 + c - 48) with (n * 10 + digit_val c) by lia. apply IH; lia.
Qed.

Lemma udigit_loop_decimal fuel x buf :
  Forall (fun c => 48 <= c <= 57) buf -> Forall (fun c => 48 <= c <= 57) (udigit_loop fuel x 10 buf).
Proof.
  revert x buf. induction fuel as [|n IH]; intros x buf Hb; [done|]. cbn [udigit_loop].
  assert (Forall (fun c => 48 <= c <= 57) (buf ++ [udigits !!! Z.to_nat (x mod 10)])).
  { apply Forall_app. split; [done|]. apply Forall_singleton. pose proof (Z.mod_pos_bound x 10 ltac:(lia)).
    assert (Z.to_nat (x mod 10) < 10)%nat as Hk by lia. revert Hk. generalize (Z.to_nat (x mod 10)). intros k Hk.
    do 10 (destruct k as [|k]; [vm_compute; split; discriminate|]). lia. }
  destruct (truthy _); [by apply IH|done].
Qed.

Lemma udigit_loop_ten fuel x : udigit_loop fuel x 10 [] = digit_loop fuel x 10 [].
Proof.
  pose proof (udigit_loop_decimal fuel x [] (Forall_nil_2 _)) as Hd.
  rewrite (udigit_loop_up fuel x 10 [] []) in * by done. rewrite Forall_fmap in Hd.
  revert Hd. generalize (digit_loop fuel x 10 []). intros l Hd.
  induction Hd as [|c l Hc Hd IH]; [done|]. cbn in *. rewrite IH. f_equal.
  unfold upcase in *. revert Hc. zcases; lia.
Qed.

(** Atoi() reads back what printf("%d") prints, for every non-negative
    int. *)
Lemma atoi_printf_roundtrip n :
  0 <= n < 2 ^ 31 -> atoi (vprintf (str "%d") [AInt n]) = n.
Proof.
  intros Hn. assert (vprintf (str "%d") [AInt n] = uprintint (s32 n) 10 1) as ->.
  { unfold vprintf. cbn -[uprintint]. apply app_nil_r. }
  unfold uprintint. rewrite s32_small by lia. rewrite (proj2 (Z.ltb_ge n 0)) by lia. rewrite andb_false_r.
  cbv zeta. rewrite u64_small by lia.
  pose proof (udigit_loop_decimal 64 n [] (Forall_nil_2 _)) as Hd. apply Forall_reverse in Hd.
  assert (putc <$> reverse (udigit_loop 64 n 10 []) = reverse (udigit_loop 64 n 10 [])) as ->.
  { revert Hd. generalize (reverse (udigit_loop 64 n 10 [])). intros l Hd.
    induction Hd as [|c l Hc Hd IH]; [done|]. cbn in *. rewrite IH. f_equal. apply u8_small. lia. }
  assert (foldl (fun v c => v * 10 + digit_val c) 0 (reverse (udigit_loop 64 n 10 [])) = n) as Ev.
  { rewrite udigit_loop_ten. apply (digit_loop_val 63 n 10); [lia|]. split; [lia|].
    apply (Z.lt_le_trans _ (2 ^ 31)); [lia|]. vm_compute. discriminate. }
  unfold atoi. rewrite atoi_loop_val; [exact Ev|exact Hd|lia|lia].
Qed.

Lemma atoi_printf_roundtrip_witness : atoi (str "1024") = 1024.
Proof. exact (atoi_printf_roundtrip 1024 ltac:(lia)). Defined.
