(* ===== verification/Racetest.v ===== *)
(** * Racetest: the race experiment as a program (user/racetest.c)

    racetest makes system calls; a program is the tree of the calls it may
    make, with a branch for every answer.  A world is a running racetest: the
    parent's program, what it has printed, and the children inside
    race_increment() as the threads of [Race.Smp].  Parent and children take
    turns in any order.  [wp] is a weakest precondition for parents, sound for
    all interleavings; with it the verdicts the program prints are derived
    from the invariants of the kernel's counter. *)

From S2P Require Import Prelude Params Machine Spinlock Strings Uart Printk Sched Race Ulib Uprintf.
Import Smp.

(** ** Programs *)
Inductive rprog :=
| RExit (status : Z)
| RWrite (bytes : list Z) (k : rprog)
| RReset (k : rprog)                            (* race_reset() *)
| RInc (iterations use_lock : Z) (k : rprog)    (* race_inc() *)
| RGet (k : Z -> rprog)                         (* race_get() *)
| RFork (child : rprog) (parent : Z -> rprog)
| RWait (k : rprog).

Definition printf (fmt : list Z) (args : list varg) (k : rprog) : rprog := RWrite (vprintf fmt args) k.

(** A string that ends in a newline. *)
Definition ln (s : string) : list Z := str s ++ [10].

(** [for (i = 0; i < num_children; i++) ...]: [n] children are still to come. *)
Fixpoint fork_loop (iters use_lock : Z) (i : Z) (n : nat) (k : rprog) : rprog :=
  match n with
  | O => k
  | S n =>
      RFork (RInc iters use_lock (RExit 0)) (fun pid =>
        if pid <? 0 then printf (ln "racetest: fork failed on child %d") [AInt i] (RExit 1)
        else fork_loop iters use_lock (i + 1) n k)
  end.

Fixpoint wait_loop (n : nat) (k : rprog) : rprog :=
  match n with O => k | S n => RWait (wait_loop n k) end.

Definition rule : list Z := ln "------------------------------------------------------------".
Definition bar : list Z := ln "============================================================".

(** What run_experiment() prints before the children run. *)
Definition banner (num_children iters use_lock expected : Z) (k : rprog) : rprog :=
  printf ([10] ++ bar) [] (
  (if truthy use_lock then fun k =>
     printf (ln "[SYNCHRONIZED TEST] Mode: xv6 Spinlock (acquire / release)") [] (
     printf (ln "Protection: Mutual Exclusion ENABLED") [] k)
   else fun k =>
     printf (ln "[RACE CONDITION TEST] Mode: Unlocked (Concurrent Read-Modify-Write)") [] (
     printf (ln "Protection: NONE (Vulnerable to SMP Race Window)") [] k)) (
  printf (ln "Configuration: %d child processes x %d iterations") [AInt num_children; AInt iters] (
  printf (ln "Expected Counter Result: %d") [AInt expected] (
  printf rule [] k)))).

(** The figures, and the verdict. *)
Definition measured (expected actual : Z) (k : rprog) : rprog :=
  let lost := s32 (expected - actual) in
  let loss_pct := if expected >? 0 then Z.quot (s32 (lost * 100)) expected else 0 in
  printf (ln "Execution Complete. Reading final shared kernel counter...") [] (
  printf rule [] (
  printf (ln "  >> Expected Value  : %d") [AInt expected] (
  printf (ln "  >> Actual Counter  : %d") [AInt actual] (
  printf (ln "  >> Lost Updates    : %d (%d%% data loss)") [AInt lost; AInt loss_pct] (
  printf rule [] k))))).

Definition verdict (use_lock expected actual : Z) (k : rprog) : rprog :=
  let lost := s32 (expected - actual) in
  if negb (truthy use_lock) then
    if lost >? 0 then
      printf (ln "VERDICT: RACE CONDITION CONFIRMED!") [] (
      printf (ln "Interleaved memory access on multi-core CPU caused %d lost updates.") [AInt lost] k)
    else
      printf (ln "VERDICT: No lost updates observed in this trial. Increase iterations.") [] k
  else
    if actual =? expected then
      printf (ln "VERDICT: PERFECT MUTUAL EXCLUSION!") [] (
      printf (ln "xv6 Spinlock eliminated race condition. 100%% updates preserved.") [] k)
    else
      printf (ln "VERDICT: UNEXPECTED DISCREPANCY detected under locking.") [] k.

Definition run_experiment (num_children iters use_lock : Z) (k : rprog) : rprog :=
  let expected := s32 (num_children * iters) in
  banner num_children iters use_lock expected (
  RReset (
  printf (ln "Spawning %d concurrent processes across CPUs...") [AInt num_children] (
  fork_loop iters use_lock 0 (Z.to_nat num_children) (
  wait_loop (Z.to_nat num_children) (
  RGet (fun actual => measured expected actual (verdict use_lock expected actual (printf bar [] k)))))))).

Definition racetest_usage : rprog :=
  printf (ln "Usage:") [] (
  printf (ln "  racetest                       (Run full automated comparison)") [] (
  printf (ln "  racetest unlocked              (Run unlocked race test)") [] (
  printf (ln "  racetest locked                (Run spinlock protected test)") [] (
  printf (ln "  racetest <procs> <iters> <0|1> (Custom benchmark)") [] (RExit 1))))).

Definition title (k : rprog) : rprog :=
  printf ([10] ++ ln "############################################################") [] (
  printf (ln "#  xv6 MULTIPROCESSOR RACE CONDITION & SPINLOCK SUITE      #") [] (
  printf (ln "#  Team: WindowsXP | Tejas, Vidit, Devarsh                 #") [] (
  printf (ln "############################################################") [] k))).

Definition automated : list Z :=
  [10] ++ ln "Running automated comprehensive benchmark (4 processes x 1000 ops)...".

(** main(): [argv] without the program's name. *)
Definition main (argv : list (list Z)) : rprog :=
  title (
  match argv with
  | [] =>
      printf automated [] (
      run_experiment 4 1000 0 (run_experiment 4 1000 1 (RExit 0)))
  | [a] =>
      if strcmp a (str "unlocked") =? 0 then run_experiment 4 1000 0 (RExit 0)
      else if strcmp a (str "locked") =? 0 then run_experiment 4 1000 1 (RExit 0)
      else racetest_usage
  | [a1; a2; a3] =>
      let children := atoi a1 in
      let iters := atoi a2 in
      let lock := atoi a3 in
      if (children <=? 0) || (iters <=? 0) then
        printf (ln "Usage: racetest [children] [iterations] [0=unlocked, 1=locked]") [] (RExit 1)
      else run_experiment children iters lock (RExit 0)
  | _ => racetest_usage
  end).

(** ** Worlds *)

(** [w_cfg] holds the children forked since the last reset, [w_reaped] of which
    have been waited for; they all run race_inc() with the arguments
    [w_mode]. *)
Record world := mkWorld {
  w_out : list Z;
  w_parent : rprog;
  w_mode : Z * Z;
  w_cfg : config;
  w_reaped : nat
}.

(** Who moves: child number [i], or the parent; [pid] is what its fork()
    returns if that is the call it makes. *)
Inductive move := Child (i : nat) | Parent (pid : Z).

Definition finished (ts : list thread) : nat :=
  length (filter (fun t => t_pc t = Fin) ts).
#[global] Arguments finished : simpl never.

(** A child of racetest runs race_inc() once and exits. *)
Definition child_mode (p : rprog) : option (Z * Z) :=
  match p with
  | RInc it ul (RExit _) => Some (it, ul)
  | _ => None
  end.

(** One step of the parent; [None]: it has exited, or it has to wait. *)
Definition parent_step (pid : Z) (w : world) : option world :=
  let '(sh, ts) := w_cfg w in
  match w_parent w with
  | RExit _ => None
  | RWrite b k => Some (mkWorld (w_out w ++ b) k (w_mode w) (w_cfg w) (w_reaped w))
  | RReset k =>
      (* acquire() waits; children that have been reaped are gone *)
      match sh_lock sh with
      | None =>
          if (w_reaped w =? length ts)%nat
          then Some (mkWorld (w_out w) k (w_mode w) (mkSh None 0 0, []) 0)
          else Some (mkWorld (w_out w) k (w_mode w) (mkSh None 0 0, ts) (w_reaped w))
      | Some _ => None
      end
  | RInc _ _ _ => None
  | RGet k =>
      match sh_lock sh with
      | None => Some (mkWorld (w_out w) (k (sh_counter sh)) (w_mode w) (w_cfg w) (w_reaped w))
      | Some _ => None
      end
  | RFork child k =>
      if pid <=? 0 then Some (mkWorld (w_out w) (k (-1)) (w_mode w) (w_cfg w) (w_reaped w))
      else
        m ← child_mode child;
        if bool_decide (ts = [] \/ m = w_mode w)
        then Some (mkWorld (w_out w) (k pid) m (sh, ts ++ [mkThread Loop 0]) (w_reaped w))
        else None
  | RWait k =>
      if (w_reaped w <? finished ts)%nat
      then Some (mkWorld (w_out w) k (w_mode w) (w_cfg w) (S (w_reaped w)))
      else if (w_reaped w =? length ts)%nat (* no children: wait() returns -1 *)
      then Some (mkWorld (w_out w) k (w_mode w) (w_cfg w) (w_reaped w))
      else None
  end.

Definition world_step (m : move) (w : world) : option world :=
  match m with
  | Parent pid => parent_step pid w
  | Child i =>
      c ← sys_step (w_mode w).1 (w_mode w).2 (w_cfg w) i;
      Some (mkWorld (w_out w) (w_parent w) (w_mode w) c (w_reaped w))
  end.

(** A move that is not possible is skipped. *)
Fixpoint world_run (moves : list move) (w : world) : world :=
  match moves with
  | [] => w
  | m :: r => world_run r (default w (world_step m w))
  end.

(** racetest starts with whatever an earlier run left in the counter. *)
Definition started (p : rprog) (counter ops : Z) : world :=
  mkWorld [] p (0, 0) (mkSh None counter ops, []) 0.

(** ** What the kernel guarantees of the counter *)
Definition fits (it : Z) (n : nat) : Prop := Z.of_nat n * Z.max 0 it < 2 ^ 31.

Definition Inv (m : Z * Z) (c : config) : Prop :=
  if truthy m.2 then locked_inv m.1 c
  else fits m.1 (length c.2) -> unlocked_inv m.1 c.

(** What the counter may be once [n] children have finished. *)
Definition Final (m : Z * Z) (n : nat) (v : Z) : Prop :=
  if truthy m.2 then v = s32 (Z.of_nat n * Z.max 0 m.1)
  else fits m.1 n -> 0 <= v <= Z.of_nat n * Z.max 0 m.1.

Lemma Inv_init m : Inv m (mkSh None 0 0, []).
Proof.
  unfold Inv. case_match; [exact (locked_inv_start _ 0)|intros _; exact (unlocked_inv_start _ 0)].
Qed.

Lemma Inv_step m c i c' : Inv m c -> sys_step m.1 m.2 c i = Some c' -> Inv m c'.
Proof.
  unfold Inv. destruct (truthy m.2) eqn:E; intros HI Hs; [by eapply locked_inv_step|].
  assert (length c'.2 = length c.2) as Hl
    by (apply sys_step_inv in Hs as (? & ? & ? & _ & _ & ->); cbn; by rewrite length_insert).
  rewrite Hl. intros Hf. eapply unlocked_inv_step; [exact E|exact Hf|by apply HI|exact Hs].
Qed.

Lemma zsum_snoc0 {A} (f : A -> Z) l x : f x = 0 -> zsum f (l ++ [x]) = zsum f l.
Proof. intros H. induction l; cbn [app zsum]; lia. Qed.

(** A new child has done nothing yet. *)
Lemma Inv_spawn m sh ts : Inv m (sh, ts) -> Inv m (sh, ts ++ [mkThread Loop 0]).
Proof.
  assert (forall i t, (ts ++ [mkThread Loop 0]) !! i = Some t ->
    ts !! i = Some t \/ i = length ts /\ t = mkThread Loop 0) as Hcase.
  { intros i t [H|[H1 H2]]%lookup_app_Some; [by left|right].
    apply list_lookup_singleton_Some in H2 as [H2 <-]. split; [lia|done]. }
  unfold Inv. destruct (truthy m.2).
  - intros [Ho Hr Ht Hc Hp]. cbn in *.
    split; cbn; rewrite ?zsum_snoc0 by done; try done.
    + intros i t [H|[-> ->]]%Hcase; [by apply Ho|]. cbn. split; [done|].
      intros E. destruct (Hr _ E) as [t Et]. apply lookup_lt_Some in Et. lia.
    + intros i [t Et]%Hr. eapply lookup_app_l_Some in Et. rewrite Et. eauto.
    + intros i t [H|[-> ->]]%Hcase; [by eapply Ht|]. split; [unfold iters; cbn; lia|done].
  - intros HI Hf. destruct HI as [Hc Ht].
    { unfold fits in *. cbn in *. rewrite length_app in Hf. cbn in Hf. lia. }
    cbn in *. split; cbn; rewrite zsum_snoc0 by done; [done|].
    intros i t [H|[-> ->]]%Hcase; [by eapply Ht|]. split; [unfold iters; cbn; lia|done].
Qed.

Lemma Inv_done m c : Inv m c -> all_done c -> Final m (length c.2) (sh_counter c.1).
Proof.
  unfold Inv, Final. destruct (truthy m.2).
  - intros HI Hd. by destruct (locked_inv_done _ _ HI Hd).
  - intros HI _ Hf. specialize (HI Hf). split; [apply HI|]. etrans; [apply HI|].
    apply zsum_le. intros t Ht. by eapply incs_bound.
Qed.

(** ** A program logic for the parent *)

(** [wp p ready m kids reaped out]: whatever the children do, if the parent
    exits, its status and output satisfy [Q].  [ready]: the counter has been
    reset; [m], [kids]: the children forked since; [reaped]: how many of them
    have been waited for. *)
Section logic.
Context (Q : Z -> list Z -> Prop).

Fixpoint wp (p : rprog) (ready : bool) (m : Z * Z) (kids reaped : nat) (out : list Z) : Prop :=
  match p with
  | RExit st => Q st out
  | RWrite b k => wp k ready m kids reaped (out ++ b)
  | RReset k => reaped = kids /\ wp k true m 0 0 out
  | RInc _ _ _ => False
  | RGet k => ready = true /\ reaped = kids /\ forall v, Final m kids v -> wp (k v) ready m kids reaped out
  | RFork child k =>
      ready = true /\
      (exists m', child_mode child = Some m' /\ (kids = O \/ m' = m) /\
         forall pid, 0 < pid -> wp (k pid) ready m' (S kids) reaped out) /\
      wp (k (-1)) ready m kids reaped out
  | RWait k => (reaped < kids)%nat /\ wp k ready m kids (S reaped) out
  end.

Lemma wp_printf fmt args k r m kids reaped out :
  wp (printf fmt args k) r m kids reaped out = wp k r m kids reaped (out ++ vprintf fmt args).
Proof. reflexivity. Qed.

Lemma wp_reset k r m kids reaped out :
  reaped = kids -> wp k true m 0 0 out -> wp (RReset k) r m kids reaped out.
Proof. by split. Qed.

Lemma wp_get k m kids reaped out :
  reaped = kids -> (forall v, Final m kids v -> wp (k v) true m kids reaped out) ->
  wp (RGet k) true m kids reaped out.
Proof. by split. Qed.

Record world_ok (w : world) : Prop := {
  wo_reaped : (w_reaped w <= finished (w_cfg w).2)%nat;
  wo_wp : exists ready,
    wp (w_parent w) ready (w_mode w) (length (w_cfg w).2) (w_reaped w) (w_out w) /\
    (if ready then forall m, (w_cfg w).2 = [] \/ m = w_mode w -> Inv m (w_cfg w)
     else (w_cfg w).2 = [])
}.

Lemma finished_le ts : (finished ts <= length ts)%nat.
Proof. apply length_filter. Qed.

Lemma finished_all ts : finished ts = length ts -> Forall (fun t => t_pc t = Fin) ts.
Proof.
  unfold finished. induction ts as [|t ts IH]; [done|]. rewrite filter_cons.
  pose proof (finished_le ts) as Hle. unfold finished in Hle.
  case_decide; cbn; intros HL; [constructor; [done|apply IH; lia]|lia].
Qed.

(** A thread that has returned stays where it is. *)
Lemma finished_step it ul c i c' :
  sys_step it ul c i = Some c' ->
  (finished c.2 <= finished c'.2)%nat /\ length c'.2 = length c.2.
Proof.
  intros (t & sh' & t' & Hi & Hs & ->)%sys_step_inv. cbn. split; [|by rewrite length_insert].
  assert (t_pc t <> Fin) as Hnf by (intros E; unfold thread_step in Hs; by rewrite E in Hs).
  apply list_elem_of_split_length in Hi as (l1 & l2 & -> & ->).
  rewrite insert_app_r_alt, Nat.sub_diag by lia. cbn. unfold finished.
  rewrite !filter_app, !length_app, !filter_cons. rewrite (decide_False _ _ Hnf).
  case_decide; cbn; lia.
Qed.

Lemma parent_ok pid w w' : world_ok w -> parent_step pid w = Some w' -> world_ok w'.
Proof.
  intros [Hr (ready & Hwp & HI)] Hs. destruct w as [out p mode [sh ts] reaped]. unfold parent_step in Hs.
  cbn [w_out w_parent w_mode w_cfg w_reaped fst snd] in *.
  pose proof (finished_le ts) as Hfin.
  destruct p as [st|b k|k|it ul k|k|child k|k]; cbn [wp] in Hwp; [done| | |done| | |].
  - simplify_eq. split; [done|]. by exists ready.
  - destruct Hwp as [H0 Hwp]. destruct (sh_lock sh); [done|]. rewrite H0, Nat.eqb_refl in Hs. simplify_eq.
    split; cbn; [lia|]. exists true. split; [done|]. intros m _. apply Inv_init.
  - destruct Hwp as (-> & Hall & Hwp). destruct (sh_lock sh); [done|]. simplify_eq. split; cbn; [done|].
    exists true. split; [|done]. apply Hwp. apply (Inv_done _ (sh, ts)); [apply HI; by right|].
    apply finished_all. cbn [snd]. lia.
  - destruct Hwp as (-> & (m' & Hm & Hmode & Hok) & Hfail). rewrite Hm in Hs. cbn in Hs.
    destruct (Z.leb_spec pid 0); [simplify_eq; split; cbn; [done|by exists true]|].
    case_bool_decide; simplify_eq. split; cbn.
    + unfold finished in *. rewrite filter_app, length_app. lia.
    + exists true. rewrite length_app, Nat.add_comm. split; [by apply Hok|].
      intros m [[_ [=]]%app_nil| ->]. apply Inv_spawn, HI. done.
  - destruct Hwp as [Hlt Hwp].
    destruct (Nat.ltb_spec reaped (finished ts)); simplify_eq.
    + split; cbn; [lia|]. by exists ready.
    + destruct (Nat.eqb_spec reaped (length ts)); simplify_eq. lia.
Qed.

Lemma world_ok_step mv w w' : world_ok w -> world_step mv w = Some w' -> world_ok w'.
Proof.
  intros Hw Hs. destruct mv as [i|pid]; [|by eapply parent_ok]. cbn in Hs.
  destruct (sys_step (w_mode w).1 (w_mode w).2 (w_cfg w) i) as [c|] eqn:E; [|done]. cbn in Hs. simplify_eq.
  destruct Hw as [Hr (ready & Hwp & HI)]. destruct (finished_step _ _ _ _ _ E) as [Hf Hlen].
  split; cbn; [lia|]. exists ready. rewrite Hlen. split; [done|].
  destruct ready; [|by apply nil_length_inv; rewrite Hlen, HI].
  intros m [Hnil| ->]; [|by eapply Inv_step; [apply HI; right|]].
  rewrite Hnil in Hlen. symmetry in Hlen. apply nil_length_inv in Hlen.
  unfold sys_step in E. by rewrite Hlen in E.
Qed.

(** Adequacy: what [wp] promises holds at the end of every run. *)
Lemma wp_adequate moves p c o st :
  wp p false (0, 0) 0 0 [] -> w_parent (world_run moves (started p c o)) = RExit st ->
  Q st (w_out (world_run moves (started p c o))).
Proof.
  intros Hwp Hend.
  assert (world_ok (started p c o)) as Hw0 by (split; cbn; [lia|by exists false]).
  assert (forall ms w, world_ok w -> world_ok (world_run ms w)) as Hrun.
  { induction ms as [|mv ms IH]; intros w Hw; cbn; [done|]. apply IH.
    destruct (world_step mv w) eqn:E; [by eapply world_ok_step|done]. }
  destruct (Hrun moves _ Hw0) as [_ (ready & HQ & _)]. by rewrite Hend in HQ.
Qed.

End logic.

(** ** What racetest reports *)

(** What a program prints before its next other call. *)
Fixpoint text (p : rprog) : list Z :=
  match p with RWrite b k => b ++ text k | _ => [] end.

(** The experiments a command line asks for: children, iterations, lock. *)
Definition experiments (argv : list (list Z)) : list (Z * Z * Z) :=
  match argv with
  | [] => [(4, 1000, 0); (4, 1000, 1)]
  | [a] =>
      if bool_decide (a = str "unlocked") then [(4, 1000, 0)]
      else if bool_decide (a = str "locked") then [(4, 1000, 1)] else []
  | [a1; a2; a3] =>
      if (0 <? atoi a1) && (0 <? atoi a2) then [(atoi a1, atoi a2, atoi a3)] else []
  | _ => []
  end.

(** The counters an experiment can end with. *)
Definition possible '(n, it, ul) (v : Z) : Prop :=
  if truthy ul then v = s32 (n * it) else 0 <= v <= n * it.

(** The verdict that is true of a counter [v]. *)
Definition true_verdict '(n, it, ul) (v : Z) : list Z :=
  if truthy ul then
    ln "VERDICT: PERFECT MUTUAL EXCLUSION!" ++
    ln "xv6 Spinlock eliminated race condition. 100% updates preserved."
  else if v <? n * it then
    ln "VERDICT: RACE CONDITION CONFIRMED!" ++
    vprintf (ln "Interleaved memory access on multi-core CPU caused %d lost updates.") [AInt (n * it - v)]
  else ln "VERDICT: No lost updates observed in this trial. Increase iterations.".

Definition transcript '(n, it, ul) (v : Z) : list Z :=
  text (banner n it ul (s32 (n * it)) (RExit 0)) ++
  vprintf (ln "Spawning %d concurrent processes across CPUs...") [AInt n] ++
  text (measured (s32 (n * it)) v (RExit 0)) ++ true_verdict (n, it, ul) v ++ bar.

(** The program gave up because fork() failed. *)
Definition fork_failed (st : Z) (out : list Z) : Prop :=
  st = 1 /\ exists pre i, out = pre ++ vprintf (ln "racetest: fork failed on child %d") [AInt i].

Section reports.
Context (Q : Z -> list Z -> Prop) (QF : forall st out, fork_failed st out -> Q st out).

Lemma wp_banner n it ul e k r m kids reaped out :
  wp Q k r m kids reaped (out ++ text (banner n it ul e (RExit 0))) ->
  wp Q (banner n it ul e k) r m kids reaped out.
Proof.
  unfold banner, printf. intros H. destruct (truthy ul); cbn [wp text] in *;
    by rewrite <- ?app_assoc, ?app_nil_r in *.
Qed.

Lemma wp_measured e v k r m kids reaped out :
  wp Q k r m kids reaped (out ++ text (measured e v (RExit 0))) ->
  wp Q (measured e v k) r m kids reaped out.
Proof.
  unfold measured, printf. intros H. cbn zeta. cbn [wp text] in *. by rewrite <- ?app_assoc, ?app_nil_r in *.
Qed.

Lemma wp_fork_loop it ul r m kids n i k out :
  r = true -> kids = O \/ m = (it, ul) ->
  wp Q k r (if n is O then m else (it, ul)) (kids + n) 0 out ->
  wp Q (fork_loop it ul i n k) r m kids 0 out.
Proof using QF.
  intros -> . revert m kids i. induction n as [|n IH]; intros m kids i Hm Hk; cbn [fork_loop wp].
  { by rewrite Nat.add_0_r in Hk. }
  split; [done|]. split.
  - exists (it, ul). split; [done|]. split; [naive_solver|]. intros pid Hpid. zcases.
    apply IH; [by right|]. replace (S kids + n)%nat with (kids + S n)%nat by lia. by destruct n.
  - change (-1 <? 0) with true. cbv iota. unfold printf. cbn [wp]. apply QF. split; [done|]. by exists out, i.
Qed.

Lemma wp_wait_loop n k r m kids reaped out :
  (reaped + n <= kids)%nat -> wp Q k r m kids (reaped + n) out ->
  wp Q (wait_loop n k) r m kids reaped out.
Proof.
  revert reaped. induction n as [|n IH]; intros reaped Hle Hk; cbn [wait_loop wp].
  { by rewrite Nat.add_0_r in Hk. }
  split; [lia|]. apply IH; [lia|]. by replace (S reaped + n)%nat with (reaped + S n)%nat by lia.
Qed.

(** The lines without arguments are printed as they stand. *)
Lemma plain_lines :
  vprintf (ln "VERDICT: PERFECT MUTUAL EXCLUSION!") [] = ln "VERDICT: PERFECT MUTUAL EXCLUSION!" /\
  vprintf (ln "xv6 Spinlock eliminated race condition. 100%% updates preserved.") []
    = ln "xv6 Spinlock eliminated race condition. 100% updates preserved." /\
  vprintf (ln "VERDICT: RACE CONDITION CONFIRMED!") [] = ln "VERDICT: RACE CONDITION CONFIRMED!" /\
  vprintf (ln "VERDICT: No lost updates observed in this trial. Increase iterations.") []
    = ln "VERDICT: No lost updates observed in this trial. Increase iterations." /\
  vprintf bar [] = bar.
Proof. vm_compute. auto 10. Qed.

Lemma plain_automated : vprintf automated [] = automated.
Proof. vm_compute. reflexivity. Qed.

(** The verdict printed is the true one. *)
Lemma wp_verdict n it ul v k r m kids reaped out :
  truthy ul = true \/ n * it < 2 ^ 31 -> possible (n, it, ul) v ->
  wp Q k r m kids reaped (out ++ true_verdict (n, it, ul) v) ->
  wp Q (verdict ul (s32 (n * it)) v k) r m kids reaped out.
Proof.
  destruct plain_lines as (E1 & E2 & E3 & E4 & _).
  unfold possible, true_verdict, verdict, printf. rewrite E1, E2, E3, E4.
  destruct (truthy ul) eqn:Eu; cbn [negb].
  - intros _ -> H. rewrite Z.eqb_refl. cbn [wp]. rewrite <- app_assoc. exact H.
  - intros [|Hf]; [done|]. intros Hv. rewrite !s32_small by (rewrite ?s32_small; lia).
    destruct (Z.ltb_spec v (n * it)), (Z.gtb_spec (n * it - v) 0); try lia; cbn [wp].
    + intros Hk. rewrite <- app_assoc. exact Hk.
    + intros Hk. exact Hk.
Qed.

Lemma wp_run_experiment n it ul k r m kids out :
  0 < n -> 0 < it -> truthy ul = true \/ n * it < 2 ^ 31 ->
  (forall v, possible (n, it, ul) v ->
     wp Q k true (it, ul) (Z.to_nat n) (Z.to_nat n) (out ++ transcript (n, it, ul) v)) ->
  wp Q (run_experiment n it ul k) r m kids kids out.
Proof using QF.
  intros Hn Hit Hf Hk. unfold run_experiment. cbn zeta. apply wp_banner, wp_reset; [done|].
  rewrite wp_printf. destruct (Z.to_nat n) as [|n'] eqn:En; [lia|].
  apply wp_fork_loop; [done|by left|]. apply wp_wait_loop; [lia|]. apply wp_get; [done|]. intros v Hv.
  assert (possible (n, it, ul) v) as Hp.
  { unfold Final, possible, fits in *. cbn [fst snd] in *.
    replace (Z.of_nat (0 + S n')) with n in Hv by lia. rewrite Z.max_r in Hv by lia.
    destruct (truthy ul); [done|]. apply Hv. by destruct Hf. }
  apply wp_measured, wp_verdict; [done|done|]. rewrite wp_printf.
  destruct plain_lines as (_ & _ & _ & _ & E). rewrite E.
  specialize (Hk v Hp). unfold transcript in Hk. rewrite <- !app_assoc. exact Hk.
Qed.

End reports.

Lemma strcmp_eq0 p q :
  Forall (fun c => c <> 0) p -> Forall (fun c => c <> 0) q -> (strcmp p q =? 0) = bool_decide (p = q).
Proof.
  intros Hp. revert q. induction Hp as [|c p Hc Hp IH]; intros q Hq.
  - destruct Hq as [|d q Hd Hq]; [done|]. cbn. rewrite bool_decide_eq_false_2 by done. zcases.
  - cbn [strcmp]. unfold truthy. destruct Hq as [|d q Hd Hq]; [change (hd0 []) with 0|change (hd0 (d :: q)) with d; cbn [tail]].
    + rewrite bool_decide_eq_false_2 by done. rewrite (proj2 (Z.eqb_neq c 0) Hc). cbn. zcases.
    + destruct (Z.eqb_spec c d) as [->|Hne].
      * replace (negb (d =? 0)) with true by zcases. cbn [andb]. rewrite IH by done.
        apply bool_decide_ext. naive_solver.
      * rewrite andb_false_r, bool_decide_eq_false_2 by naive_solver. zcases.
Qed.

(** What a run of racetest with the arguments [argv] may end with. *)
Definition outcome (argv : list (list Z)) (st : Z) (out : list Z) : Prop :=
  if bool_decide (experiments argv = []) then st = 1
  else fork_failed st out \/
    st = 0 /\ exists vs, Forall2 possible (experiments argv) vs /\
      out = text (title (RExit 0)) ++ (if bool_decide (argv = []) then automated else []) ++
            concat (zip_with transcript (experiments argv) vs).

(** An int product that racetest's unlocked arithmetic can represent. *)
Definition in_range '(n, it, ul) : Prop := truthy ul = true \/ n * it < 2 ^ 31.

Lemma wp_title Q k r m kids reaped out :
  wp Q k r m kids reaped (out ++ text (title (RExit 0))) -> wp Q (title k) r m kids reaped out.
Proof.
  unfold title, printf. intros Hk. cbn [wp text] in *. by rewrite <- ?app_assoc, ?app_nil_r in *.
Qed.

Lemma wp_usage (Q : Z -> list Z -> Prop) r m kids reaped out :
  (forall out, Q 1 out) -> wp Q racetest_usage r m kids reaped out.
Proof. intros HQ. unfold racetest_usage, printf. cbn [wp]. apply HQ. Qed.

Lemma outcome_forked argv st out :
  experiments argv <> [] -> fork_failed st out -> outcome argv st out.
Proof. intros He Hf. unfold outcome. rewrite bool_decide_eq_false_2 by done. by left. Qed.

Lemma outcome_usage argv out : experiments argv = [] -> outcome argv 1 out.
Proof. intros He. unfold outcome. by rewrite bool_decide_eq_true_2. Qed.

Lemma outcome_one argv e v :
  experiments argv = [e] -> argv <> [] -> possible e v ->
  outcome argv 0 (text (title (RExit 0)) ++ transcript e v).
Proof.
  intros He Ha Hv. unfold outcome. rewrite He, !bool_decide_eq_false_2 by done. right. split; [done|].
  exists [v]. split; [by constructor|]. cbn [zip_with concat]. rewrite app_nil_r. reflexivity.
Qed.

(** One experiment after the title. *)
Lemma wp_one argv n it ul :
  experiments argv = [(n, it, ul)] -> argv <> [] -> 0 < n -> 0 < it -> Forall in_range (experiments argv) ->
  wp (outcome argv) (run_experiment n it ul (RExit 0)) false (0, 0) 0 0 (text (title (RExit 0))).
Proof.
  intros He Ha Hn Hit Hr. rewrite He in Hr. apply wp_run_experiment; [|done|done|by inversion Hr|].
  - intros st out. apply outcome_forked. by rewrite He.
  - intros v Hv. by apply outcome_one.
Qed.

Lemma wp_main argv :
  Forall (Forall (fun c => c <> 0)) argv -> Forall in_range (experiments argv) ->
  wp (outcome argv) (main argv) false (0, 0) 0 0 [].
Proof.
  intros Hc Hr. apply wp_title. cbn [app].
  destruct argv as [|a1 [|a2 [|a3 [|]]]]; try (by apply wp_usage; intros; apply outcome_usage).
  - rewrite wp_printf, plain_automated.
    apply wp_run_experiment; [intros st out; by apply outcome_forked|lia|lia|right; lia|]. intros v0 H0.
    apply wp_run_experiment; [intros st out; by apply outcome_forked|lia|lia|by left|]. intros v1 H1.
    right. split; [done|]. exists [v0; v1]. split; [by constructor; [|constructor]|].
    cbn [experiments zip_with concat].
    rewrite bool_decide_eq_true_2, app_nil_r, <- !app_assoc by done. reflexivity.
  - inversion Hc as [|? ? Ha _]. subst. rewrite !strcmp_eq0 by (done || by repeat constructor).
    destruct (bool_decide (a1 = str "unlocked")) eqn:E1;
      [|destruct (bool_decide (a1 = str "locked")) eqn:E2].
    3: by apply wp_usage; intros; apply outcome_usage; cbn [experiments]; rewrite E1, E2.
    all: apply wp_one; [cbn [experiments]; rewrite E1, ?E2; reflexivity|done|lia|lia|exact Hr].
  - cbn zeta. rewrite !Z.leb_antisym.
    destruct (0 <? atoi a1) eqn:E1; cbn [negb orb]; [|rewrite wp_printf; apply outcome_usage; cbn [experiments]; by rewrite E1].
    destruct (0 <? atoi a2) eqn:E2; cbn [negb orb]; [|rewrite wp_printf; apply outcome_usage; cbn [experiments]; by rewrite E1, E2].
    apply wp_one; [cbn [experiments]; rewrite E1, E2; reflexivity|done|zcases|zcases|exact Hr].
Qed.


