(* ===== verification/Uprog.v ===== *)
(** * Uprog: user programs as interaction trees

    A user program talks to the kernel through system calls and may run for
    ever (user/init.c does).  It is an interaction tree whose events are the
    system calls.  [run] executes a program against a list of answers of the
    kernel; the calls made, with the answers, are its history.  [wlp] is a
    weakest liberal precondition for histories, with rules for calls, for
    sequences and for loops. *)

From ITree Require Import Core.ITreeDefinition.
From S2P Require Import Prelude Params Machine Spinlock Strings Uart Printk Ulib Uprintf.

(** ** System calls (user/user.h) *)
Inductive call :=
| CExit (status : Z)
| CFork
| CWait
| CRead (fd n : Z)
| CWrite (fd : Z) (bytes : list Z)
| COpen (path : list Z) (mode : Z)
| CClose (fd : Z)
| CDup (fd : Z)
| CExec (path : list Z) (argv : list (list Z))
| CMknod (path : list Z) (major minor : Z)
| CFstat (fd : Z)
| CLink (old new : list Z)
| CUnlink (path : list Z)
| CMkdir (path : list Z)
| CKill (pid : Z)
| CTrace (on : Z)
| CPause (ticks : Z)
| CUptime
| CSync
| CPipe
| CChdir (path : list Z)
| CGetpid
| CSbrk (n how : Z)
| CRaceInc (iterations use_lock : Z)
| CRaceGet
| CRaceReset
(** with an address that need not be one of the program's own memory *)
| CReadAt (fd addr n : Z)
| CWriteAt (fd addr n : Z)
| COpenAt (addr mode : Z)
| CLinkAt (old : list Z) (addr : Z)
| CPipeAt (addr : Z)
(** exec() of a path or arguments that the kernel cannot read: pointers *)
| CExecAt (path : list Z + Z) (argv : list Z).

(** What a call returns, and the bytes it stores in the caller's memory. *)
Abbreviation answer := (Z * list Z)%type.

Variant sysE : Type -> Type := Sys (c : call) : sysE answer.

(** What a caller relies on: read() returns the number of bytes it has stored,
    write() accepts no more than it is given, pipe() stores two descriptors,
    and exec() returns only if it failed. *)
Definition pipe_fds (b : list Z) : Z * Z := (s32 (le_val (take 4 b)), s32 (le_val (take 4 (drop 4 b)))).
Definition answer_ok (c : call) (a : answer) : bool :=
  match c with
  | CRead _ n =>
      (a.1 =? Z.of_nat (length a.2)) && (a.1 <=? n) || (a.1 =? -1) && bool_decide (a.2 = [])
  | CWrite _ b => (-1 <=? a.1) && (a.1 <=? Z.of_nat (length b))
  | CFork | CWait | COpen _ _ | CDup _ => -1 <=? a.1
  | CPipe => (a.1 =? -1) || (a.1 =? 0) && (0 <=? (pipe_fds a.2).1) && (0 <=? (pipe_fds a.2).2)
  | CExec _ _ => a.1 =? -1
  | CExit _ => false
  | _ => true
  end.

#[global] Instance itree_ret : MRet (itree sysE) := fun A r => Ret r.
#[global] Instance itree_bind : MBind (itree sysE) := fun A B f t => ITree.bind t f.

Definition sys (c : call) : itree sysE answer := ITree.trigger (Sys c).

(** exit() does not return. *)
Definition exit {A} (st : Z) : itree sysE A := sys (CExit st) ;; ITree.spin.

(** fprintf(): one write() for each byte. *)
Fixpoint puts (fd : Z) (bytes : list Z) : itree sysE unit :=
  match bytes with
  | [] => mret tt
  | c :: r => sys (CWrite fd [c]) ;; puts fd r
  end.
Definition fprintf (fd : Z) (fmt : list Z) (args : list varg) : itree sysE unit := puts fd (vprintf fmt args).
Definition printf (fmt : list Z) (args : list varg) : itree sysE unit := fprintf 1 fmt args.

(** A string that ends in a newline. *)
Definition ln (s : string) : list Z := str s ++ [10].

(** ** Running *)
Abbreviation history := (list (call * answer)).

(** How far a run got. *)
Inductive stop := Exited (status : Z) | Became (path : list Z) (argv : list (list Z)) | Running.
Inductive state (R : Type) := Returned (r : R) | Stopped (e : stop).
Arguments Returned {R} r.
Arguments Stopped {R} e.

Record ran (R : Type) := mkRan {
  r_hist : history;
  r_state : state R;
  r_fuel : nat;               (* left *)
  r_answers : list answer     (* left *)
}.
Arguments mkRan {R} _ _ _ _.
Arguments r_hist {R} _.
Arguments r_state {R} _.
Arguments r_fuel {R} _.
Arguments r_answers {R} _.

Definition made {R} (c : call) (a : answer) (x : ran R) : ran R :=
  mkRan ((c, a) :: r_hist x) (r_state x) (r_fuel x) (r_answers x).

(** Calls that end the program: exit(), and an exec() that is answered 0. *)
Definition leaves (c : call) (ans : list answer) : option stop :=
  match c, ans with
  | CExit st, _ => Some (Exited st)
  | CExec path argv, a :: _ => if a.1 =? 0 then Some (Became path argv) else None
  | _, _ => None
  end.

(** The run that gets the answers [ans], and takes at most [fuel] steps. *)
Fixpoint run {R} (fuel : nat) (t : itree sysE R) (ans : list answer) {struct fuel} : ran R :=
  match observe t with
  | RetF r => mkRan [] (Returned r) fuel ans
  | TauF t' =>
      match fuel with
      | O => mkRan [] (Stopped Running) O ans
      | S f => run f t' ans
      end
  | VisF e k =>
      match fuel with
      | O => mkRan [] (Stopped Running) O ans
      | S f =>
          match e in sysE X return (X -> itree sysE R) -> ran R with
          | Sys c => fun k =>
              match leaves c ans with
              | Some e => mkRan [] (Stopped e) f ans
              | None =>
                  match ans with
                  | a :: ans' =>
                      if answer_ok c a then made c a (run f (k a) ans')
                      else mkRan [] (Stopped Running) f ans
                  | [] => mkRan [] (Stopped Running) f ans
                  end
              end
          end k
      end
  end.

Definition prepend {R} (h : history) (x : ran R) : ran R :=
  mkRan (h ++ r_hist x) (r_state x) (r_fuel x) (r_answers x).

(** What is run after [x], if that returned. *)
Definition after {R T} (x : ran R) (k : R -> itree sysE T) : ran T :=
  match r_state x with
  | Returned r => prepend (r_hist x) (run (r_fuel x) (k r) (r_answers x))
  | Stopped e => mkRan (r_hist x) (Stopped e) (r_fuel x) (r_answers x)
  end.

Lemma after_made {R T} c a (x : ran R) (k : R -> itree sysE T) : after (made c a x) k = made c a (after x k).
Proof. unfold after. destruct x as [h [r|e] f l]; reflexivity. Qed.

Lemma observe_bind_eq {R T} (t : itree sysE R) (k : R -> itree sysE T) :
  observe (ITree.bind t k) =
  match observe t with
  | RetF r => observe (k r)
  | TauF t' => TauF (ITree.bind t' k)
  | VisF e h => VisF e (fun x => ITree.bind (h x) k)
  end.
Proof. unfold observe at 1. cbn. by destruct (observe t). Qed.

(** A sequence runs its first part, and then the second with what is left. *)
Lemma run_bind {R T} f (t : itree sysE R) (k : R -> itree sysE T) ans :
  run f (ITree.bind t k) ans = after (run f t ans) k.
Proof.
  revert t ans. induction f as [|f IH]; intros t ans; cbn [run];
    rewrite observe_bind_eq; destruct (observe t) as [r|t'|X e h] eqn:E.
  - unfold after, prepend. cbn. by destruct (observe (k r)).
  - done.
  - done.
  - unfold after, prepend. cbn [r_state r_hist r_fuel r_answers app].
    change (run (S f) (k r) ans = mkRan (r_hist (run (S f) (k r) ans)) (r_state (run (S f) (k r) ans))
      (r_fuel (run (S f) (k r) ans)) (r_answers (run (S f) (k r) ans))).
    by destruct (run (S f) (k r) ans).
  - apply IH.
  - destruct e as [c]. destruct (leaves c ans); [done|]. destruct ans as [|a ans]; [done|].
    destruct (answer_ok c a); [|done]. by rewrite after_made, <- IH.
Qed.

(** The equations of a run: a result, a call, a sequence, a loop. *)
Lemma run_ret {R} f (r : R) ans : run f (mret r) ans = mkRan [] (Returned r) f ans.
Proof. by destruct f. Qed.

Lemma run_call {R} f c (k : answer -> itree sysE R) a ans :
  leaves c (a :: ans) = None -> answer_ok c a = true ->
  run (S f) (mbind k (sys c)) (a :: ans) = made c a (run f (k a) ans).
Proof.
  intros Hl Ha. change (mbind k (sys c)) with (ITree.bind (sys c) k). rewrite run_bind.
  assert (run (S f) (sys c) (a :: ans) = mkRan [(c, a)] (Returned a) f ans) as ->; [|done].
  cbn. rewrite Hl, Ha. by destruct f.
Qed.

Lemma run_exit {R} f st ans : run (S f) (exit (A := R) st) ans = mkRan [] (Stopped (Exited st)) f ans.
Proof. reflexivity. Qed.

Definition again {J R} (body : J -> itree sysE (J + R)) (lr : J + R) : itree sysE R :=
  match lr with inl j => Tau (ITree.iter body j) | inr r => Ret r end.

Lemma run_iter {J R} f (body : J -> itree sysE (J + R)) i ans :
  run f (ITree.iter body i) ans = after (run f (body i) ans) (again body).
Proof. rewrite <- run_bind. destruct f; reflexivity. Qed.

(** An iteration that goes on, and the last one. *)
Lemma run_iter_again {J R} f (body : J -> itree sysE (J + R)) i j ans h f' ans' :
  run f (body i) ans = mkRan h (Returned (inl j)) (S f') ans' ->
  run f (ITree.iter body i) ans = prepend h (run f' (ITree.iter body j) ans').
Proof. intros E. rewrite run_iter, E. reflexivity. Qed.

Lemma run_iter_last {J R} f (body : J -> itree sysE (J + R)) i r ans h f' ans' :
  run f (body i) ans = mkRan h (Returned (inr r)) f' ans' ->
  run f (ITree.iter body i) ans = mkRan h (Returned r) f' ans'.
Proof. intros E. rewrite run_iter, E. unfold after, prepend. destruct f'; cbn; by rewrite app_nil_r. Qed.

Lemma run_fuel_le {R} f (t : itree sysE R) ans : (r_fuel (run f t ans) <= f)%nat.
Proof.
  revert t ans. induction f as [|f IH]; intros t ans; cbn [run]; destruct (observe t) as [r|t'|X e h]; cbn; try lia.
  - specialize (IH t' ans). lia.
  - destruct e as [c]. destruct (leaves c ans); [cbn; lia|]. destruct ans as [|a ans]; [cbn; lia|].
    destruct (answer_ok c a); [|cbn; lia]. cbn. specialize (IH (h a) ans). lia.
Qed.

(** ** A program logic for histories *)

(** Whatever the kernel answers, a run of [t] after the history [h] is always
    in a state that [Q] allows. *)
Definition wlp {R} (t : itree sysE R) (Q : state R -> history -> Prop) (h : history) : Prop :=
  forall f ans, Q (r_state (run f t ans)) (h ++ r_hist (run f t ans)).

(** The postcondition of the first part of a sequence. *)
Definition seq_post {R T} (k : R -> itree sysE T) (Q : state T -> history -> Prop)
    (s : state R) (h : history) : Prop :=
  match s with Returned r => wlp (k r) Q h | Stopped e => Q (Stopped e) h end.

Lemma wlp_bind {R T} (t : itree sysE R) (k : R -> itree sysE T) (Q : state T -> history -> Prop) h :
  wlp t (seq_post k Q) h -> wlp (mbind k t) Q h.
Proof.
  intros H f ans. change (mbind k t) with (ITree.bind t k). rewrite run_bind. specialize (H f ans).
  unfold after, seq_post in *. destruct (run f t ans) as [h1 [r|e] f1 a1]; cbn in *; [|done].
  rewrite app_assoc. apply H.
Qed.

Section rules.
Context {R : Type}.
Implicit Types (Q : state R -> history -> Prop) (h : history).

Lemma wlp_mono (t : itree sysE R) Q Q' h :
  (forall s h', Q s h' -> Q' s h') -> wlp t Q h -> wlp t Q' h.
Proof. intros H Ht f ans. apply H, Ht. Qed.

Lemma wlp_ret (r : R) Q h : Q (Returned r) h -> wlp (mret r) Q h.
Proof. intros H f ans. destruct f; cbn; by rewrite app_nil_r. Qed.

(** A system call that does not end the program. *)
Lemma wlp_sys c (k : answer -> itree sysE R) Q h :
  Q (Stopped Running) h ->
  (forall ans e, leaves c ans = Some e -> Q (Stopped e) h) ->
  (forall a, answer_ok c a = true -> wlp (k a) Q (h ++ [(c, a)])) ->
  wlp (mbind k (sys c)) Q h.
Proof.
  intros Hr Hl Hk. apply wlp_bind. intros f ans.
  assert (run f (sys c) ans = match f with
    | O => mkRan [] (Stopped Running) O ans
    | S f => match leaves c ans with
      | Some e => mkRan [] (Stopped e) f ans
      | None => match ans with
        | a :: ans' => if answer_ok c a then mkRan [(c, a)] (Returned a) f ans'
                       else mkRan [] (Stopped Running) f ans
        | [] => mkRan [] (Stopped Running) f ans
        end
      end
    end) as ->.
  { destruct f as [|f]; [done|]. cbn. destruct (leaves c ans); [done|]. destruct ans as [|a ans]; [done|].
    destruct (answer_ok c a); [|done]. by destruct f. }
  destruct f as [|f]; cbn; [by rewrite app_nil_r|].
  destruct (leaves c ans) as [e|] eqn:El; cbn; [rewrite app_nil_r; by eapply Hl|].
  destruct ans as [|a ans]; cbn; [by rewrite app_nil_r|].
  destruct (answer_ok c a) eqn:Ea; cbn; [by apply Hk|by rewrite app_nil_r].
Qed.

Lemma wlp_call c (k : answer -> itree sysE R) Q h :
  (forall ans, leaves c ans = None) -> Q (Stopped Running) h ->
  (forall a, answer_ok c a = true -> wlp (k a) Q (h ++ [(c, a)])) ->
  wlp (mbind k (sys c)) Q h.
Proof. intros Hl Hr Hk. apply wlp_sys; [done| |done]. intros ans e. by rewrite Hl. Qed.

Lemma wlp_exit st Q h : Q (Stopped Running) h -> Q (Stopped (Exited st)) h -> wlp (exit st) Q h.
Proof. intros Hr He. apply wlp_sys; [done| |done]. by intros ans e [= <-]. Qed.

Lemma wlp_exec path argv (k : answer -> itree sysE R) Q h :
  Q (Stopped Running) h -> Q (Stopped (Became path argv)) h ->
  (forall a, a.1 = -1 -> wlp (k a) Q (h ++ [(CExec path argv, a)])) ->
  wlp (mbind k (sys (CExec path argv))) Q h.
Proof.
  intros Hr Hb Hk. apply wlp_sys; [done| |].
  - intros [|a ans] e; cbn; [done|]. destruct (a.1 =? 0); [|done]. by intros [= <-].
  - intros a Ha. apply Hk. cbn in Ha. lia.
Qed.

(** A loop: [I] holds at the start of each iteration. *)
Lemma wlp_iter {J : Type} (body : J -> itree sysE (J + R)) (I : J -> history -> Prop) Q i h :
  (forall i h, I i h -> wlp (body i) (fun s h' =>
     match s with
     | Returned (inl j) => I j h'
     | Returned (inr r) => Q (Returned r) h'
     | Stopped e => Q (Stopped e) h'
     end) h) ->
  (forall i h, I i h -> Q (Stopped Running) h) ->
  I i h -> wlp (ITree.iter body i) Q h.
Proof.
  intros Hb Hr HI f. revert i h HI. induction f as [f IH] using lt_wf_ind. intros i h HI ans.
  rewrite run_iter.
  specialize (Hb i h HI f ans). pose proof (run_fuel_le f (body i) ans) as Hf. unfold after, again.
  destruct (run f (body i) ans) as [h1 [[j|r]|e] f1 a1]; cbn in *.
  - destruct f1 as [|f1]; cbn; [rewrite app_nil_r; by eapply Hr|]. rewrite app_assoc. apply IH; [lia|done].
  - destruct f1; cbn; by rewrite app_nil_r.
  - done.
Qed.

End rules.

(** ** What is seen in a history *)

(** The bytes handed to write() on [fd], and those delivered by read(). *)
Definition sent (fd : Z) (h : history) : list Z :=
  concat (map (fun e => match e.1 with CWrite fd' b => if fd' =? fd then b else [] | _ => [] end) h).
Definition received (h : history) : list Z :=
  concat (map (fun e => match e.1 with CRead _ _ => e.2.2 | _ => [] end) h).

Lemma sent_app fd h1 h2 : sent fd (h1 ++ h2) = sent fd h1 ++ sent fd h2.
Proof. unfold sent. by rewrite map_app, concat_app. Qed.
Lemma received_app h1 h2 : received (h1 ++ h2) = received h1 ++ received h2.
Proof. unfold received. by rewrite map_app, concat_app. Qed.

(** The calls of [puts]. *)
Definition puts_hist (fd : Z) (bytes : list Z) (h : history) : Prop :=
  Forall2 (fun c e => e.1 = CWrite fd [c]) bytes h.

Lemma wlp_puts_last fd bytes Q h :
  (forall b1 b2 h', bytes = b1 ++ b2 -> puts_hist fd b1 h' -> Q (Stopped Running) (h ++ h')) ->
  (forall h', puts_hist fd bytes h' -> Q (Returned tt) (h ++ h')) ->
  wlp (puts fd bytes) Q h.
Proof.
  revert h. induction bytes as [|c bytes IH]; intros h Hr Hk; cbn [puts].
  - apply wlp_ret. specialize (Hk [] ltac:(constructor)). by rewrite app_nil_r in Hk.
  - apply wlp_call; [done| |].
    { specialize (Hr [] (c :: bytes) [] eq_refl ltac:(constructor)). by rewrite app_nil_r in Hr. }
    intros a _. apply IH.
    + intros b1 b2 h' -> Hh. rewrite <- app_assoc. apply (Hr (c :: b1) b2); [done|]. by constructor.
    + intros h' Hh. rewrite <- app_assoc. apply Hk. by constructor.
Qed.

Lemma wlp_puts {R} fd bytes (k : unit -> itree sysE R) Q h :
  (forall b1 b2 h', bytes = b1 ++ b2 -> puts_hist fd b1 h' -> Q (Stopped Running) (h ++ h')) ->
  (forall h', puts_hist fd bytes h' -> wlp (k tt) Q (h ++ h')) ->
  wlp (mbind k (puts fd bytes)) Q h.
Proof. intros Hr Hk. by apply wlp_bind, wlp_puts_last. Qed.

Lemma sent_puts fd fd' bytes h : puts_hist fd bytes h -> sent fd' h = if fd =? fd' then bytes else [].
Proof.
  induction 1 as [|c [ca a] bytes h E _ IH]; [by destruct (fd =? fd')|]. cbn in E. subst ca.
  change (sent fd' ((CWrite fd [c], a) :: h)) with ((if fd =? fd' then [c] else []) ++ sent fd' h).
  rewrite IH. by destruct (fd =? fd').
Qed.

Lemma received_puts fd bytes h : puts_hist fd bytes h -> received h = [].
Proof.
  induction 1 as [|c [ca a] bytes h E _ IH]; [done|]. cbn in E. subst ca. exact IH.
Qed.

(** A kernel that accepts every byte. *)
Lemma run_puts fd bytes f ans :
  exists h, run (length bytes + f) (puts fd bytes) (replicate (length bytes) (1, []) ++ ans)
            = mkRan h (Returned tt) f ans /\ puts_hist fd bytes h.
Proof.
  induction bytes as [|c bytes (h & IH & Hh)]; cbn [puts length].
  - exists []. split; [apply run_ret|constructor].
  - cbn [replicate app Nat.add]. rewrite run_call by done. cbv beta. rewrite IH. eexists.
    split; [reflexivity|]. by constructor.
Qed.

Lemma run_seq {R T} f (t : itree sysE R) (k : R -> itree sysE T) ans h r f' ans' :
  run f t ans = mkRan h (Returned r) f' ans' -> run f (mbind k t) ans = prepend h (run f' (k r) ans').
Proof. intros E. change (mbind k t) with (ITree.bind t k). by rewrite run_bind, E. Qed.
