(* ===== verification/Utils.v ===== *)
(** * Utils: the small user programs

    user/cat.c, wc.c, echo.c, rm.c, ln.c, mkdir.c, kill.c, uptime.c, sync.c,
    hello.c, zombie.c, trace.c and init.c as programs of [Uprog].  The
    theorems hold for every answer the kernel can give. *)

From ITree Require Import Core.ITreeDefinition.
From S2P Require Import Prelude Params Machine Spinlock Strings Uart Printk Ulib Uprintf Uprog.

(** Texts are not computed while proofs are checked. *)
#[local] Opaque vprintf.

(** ** cat *)
Definition cat (fd : Z) : itree sysE unit :=
  ITree.iter (fun _ : unit =>
    '(n, buf) ← sys (CRead fd 512);
    if n >? 0 then
      '(m, _) ← sys (CWrite 1 (take (Z.to_nat n) buf));
      if negb (m =? n) then
        fprintf 2 (ln "cat: write error") [] ;;
        exit 1
      else mret (inl tt)
    else if n <? 0 then
      fprintf 2 (ln "cat: read error") [] ;;
      exit 1
    else mret (inr tt)) tt.

Fixpoint cat_files (files : list (list Z)) : itree sysE unit :=
  match files with
  | [] => exit 0
  | f :: r =>
      '(fd, _) ← sys (COpen f O_RDONLY);
      if fd <? 0 then
        fprintf 2 (ln "cat: cannot open %s") [AStr (Some f)] ;;
        exit 1
      else
        cat fd ;;
        sys (CClose fd) ;;
        cat_files r
  end.

(** main(); [argv] starts with the program's name. *)
Definition cat_main (argv : list (list Z)) : itree sysE unit :=
  if (length argv <=? 1)%nat then cat 0 ;; exit 0 else cat_files (tail argv).

(** The paths opened, in order. *)
Definition opened (h : history) : list (list Z) :=
  concat (map (fun e => match e.1 with COpen p _ => [p] | _ => [] end) h).
Lemma opened_app h1 h2 : opened (h1 ++ h2) = opened h1 ++ opened h2.
Proof. unfold opened. by rewrite map_app, concat_app. Qed.

Lemma opened_puts fd bytes h : puts_hist fd bytes h -> opened h = [].
Proof. induction 1 as [|c [ca a] bytes h E _ IH]; [done|]. cbn in E. subst ca. exact IH. Qed.

(** A call that did not do what it was asked to. *)
Definition refused (e : call * answer) : bool :=
  match e.1 with
  | COpen _ _ | CRead _ _ => e.2.1 <? 0
  | CWrite _ b => e.2.1 <? Z.of_nat (length b)
  | _ => false
  end.

(** What may be seen of cat. *)
Definition cat_seen (argv : list (list Z)) (e : stop) (h : history) : Prop :=
  sent 1 h `prefix_of` received h /\
  match e with
  | Running => True
  | Exited st =>
      if st =? 0 then sent 1 h = received h /\ opened h = tail argv
      else st = 1 /\ Exists (fun e => refused e = true) h
  | Became _ _ => False
  end.

(** Between two files everything read has been written. *)
Definition cat_inv (done : list (list Z)) (h : history) : Prop :=
  sent 1 h = received h /\ opened h = done.

Lemma cat_inv_snoc done c a h :
  cat_inv done h -> (match c with CWrite fd _ => fd <> 1 | CRead _ _ | COpen _ _ => False | _ => True end) ->
  cat_inv done (h ++ [(c, a)]).
Proof.
  intros [H1 H2] Hc. unfold cat_inv. rewrite sent_app, received_app, opened_app, H1, H2.
  destruct c; try done; unfold sent, received, opened; cbn; rewrite ?app_nil_r; try done.
  destruct (Z.eqb_spec fd 1); [done|]. by rewrite app_nil_r.
Qed.

Lemma received_read h fd n a : received (h ++ [(CRead fd n, a)]) = received h ++ a.2.
Proof. rewrite received_app. unfold received at 2. cbn. by rewrite app_nil_r. Qed.

Lemma cat_complains {R} argv fmt args (Q : state R -> history -> Prop) h :
  (forall e h, cat_seen argv e h -> Q (Stopped e) h) ->
  sent 1 h `prefix_of` received h -> Exists (fun e => refused e = true) h ->
  wlp (fprintf 2 fmt args ;; exit 1) Q h.
Proof.
  intros HQ Hp He.
  assert (forall b h', puts_hist 2 b h' -> sent 1 (h ++ h') `prefix_of` received (h ++ h')) as Hh.
  { intros b h' Hh. rewrite sent_app, received_app, (sent_puts _ _ _ _ Hh), (received_puts _ _ _ Hh).
    by rewrite !app_nil_r. }
  apply wlp_puts.
  - intros b1 b2 h' _ Hb. apply HQ. split; [by eapply Hh|done].
  - intros h' Hb. apply wlp_exit; apply HQ; (split; [by eapply Hh|]); [done|]. split; [done|].
    apply Exists_app. by left.
Qed.

Lemma cat_inv_running argv done h : cat_inv done h -> cat_seen argv Running h.
Proof. intros [E _]. split; [by rewrite E|done]. Qed.

(** The loop copies what it reads until the end of the file. *)
Lemma cat_copies_fd {R} argv done fd (k : unit -> itree sysE R) Q h :
  (forall e h, cat_seen argv e h -> Q (Stopped e) h) ->
  cat_inv done h -> (forall h', cat_inv done h' -> wlp (k tt) Q h') ->
  wlp (mbind k (cat fd)) Q h.
Proof.
  intros HQ HI Hk. apply wlp_bind. apply (wlp_iter _ (fun _ => cat_inv done)); [|intros ? ? ?; by eapply HQ, cat_inv_running|done].
  clear h HI. intros _ h HI. destruct (HI) as [Hs Ho].
  apply wlp_call; [done|by eapply HQ, cat_inv_running|]. intros [n buf] Ha. cbn [answer_ok fst snd] in Ha.
  assert (sent 1 (h ++ [(CRead fd 512, (n, buf))]) = sent 1 h) as Hs1
    by (rewrite sent_app; apply app_nil_r).
  assert (sent 1 h `prefix_of` received h ++ buf) as Hp by (rewrite Hs; by eexists).
  destruct (Z.gtb_spec n 0).
  - assert (n = Z.of_nat (length buf)) as -> by lia. rewrite Nat2Z.id, firstn_all.
    apply wlp_call; [done| |].
    { apply HQ. split; [|done]. by rewrite Hs1, received_read. }
    intros [m b] Hm. cbn [answer_ok fst snd] in Hm.
    assert (sent 1 ((h ++ [(CRead fd 512, (Z.of_nat (length buf), buf))]) ++ [(CWrite 1 buf, (m, b))])
            = received ((h ++ [(CRead fd 512, (Z.of_nat (length buf), buf))]) ++ [(CWrite 1 buf, (m, b))])) as E.
    { rewrite sent_app, Hs1, received_app, received_read. unfold sent at 2, received at 2. cbn.
      by rewrite !app_nil_r, Hs. }
    destruct (Z.eqb_spec m (Z.of_nat (length buf))) as [->|Hne]; cbn [negb].
    + apply wlp_ret. split; [exact E|]. by rewrite !opened_app, Ho, !app_nil_r.
    + eapply cat_complains; [done|by rewrite E|]. apply Exists_app. right. constructor. cbn. lia.
  - destruct (Z.ltb_spec n 0).
    + eapply cat_complains; [done|by rewrite Hs1, received_read|].
      apply Exists_app. right. constructor. cbn. lia.
    + apply wlp_ret. apply Hk. assert (buf = []) as -> by (apply nil_length_inv; lia).
      split; [by rewrite Hs1, received_read, app_nil_r|]. by rewrite opened_app, Ho, app_nil_r.
Qed.

Lemma cat_files_ok argv files done h :
  tail argv = done ++ files -> cat_inv done h ->
  wlp (cat_files files) (fun s h => if s is Stopped e then cat_seen argv e h else False) h.
Proof.
  revert done h. induction files as [|f files IH]; intros done h Ha HI; cbn [cat_files].
  { apply wlp_exit; [by eapply cat_inv_running|]. destruct HI as [Hs Ho]. rewrite app_nil_r in Ha.
    split; [by rewrite Hs|]. by rewrite Ha. }
  destruct (HI) as [Hs Ho]. apply wlp_call; [done|by eapply cat_inv_running|]. intros [fd b] Hfd.
  assert (cat_inv (done ++ [f]) (h ++ [(COpen f O_RDONLY, (fd, b))])) as HI'.
  { split; [by rewrite sent_app, received_app, Hs|by rewrite opened_app, Ho]. }
  destruct (Z.ltb_spec fd 0).
  { eapply cat_complains; [done|by rewrite (proj1 HI')|]. apply Exists_app. right. constructor. cbn. lia. }
  eapply cat_copies_fd; [done|exact HI'|]. intros h' H'.
  apply wlp_call; [done|by eapply cat_inv_running|]. intros a _.
  apply (IH (done ++ [f])); [by rewrite <- app_assoc|by apply cat_inv_snoc].
Qed.

Lemma cat_main_ok argv :
  wlp (cat_main argv) (fun s h => if s is Stopped e then cat_seen argv e h else False) [].
Proof.
  unfold cat_main. destruct (Nat.leb_spec (length argv) 1); [|by apply (cat_files_ok _ _ [])].
  apply (cat_copies_fd argv []); [done|done|]. intros h' [Hs Ho].
  apply wlp_exit; split; rewrite ?Hs; try done. split; [done|]. rewrite Ho. by destruct argv as [|? [|]]; cbn in *; try lia.
Qed.

(** A kernel that serves files: read() delivers a file in pieces of any size up
    to the buffer's, and write() accepts everything. *)
Definition piece_ok (b : list Z) : Prop := b <> [] /\ (length b <= 512)%nat.
Definition served (pieces : list (list Z)) : list answer :=
  concat (map (fun b => [(Z.of_nat (length b), b); (Z.of_nat (length b), [])]) pieces) ++ [(0, [])].
Definition served_files (files : list (list (list Z))) : list answer :=
  concat (map (fun pieces => (3, []) :: served pieces ++ [(0, [])]) files).

Lemma run_cat fd pieces f ans :
  Forall piece_ok pieces ->
  exists h, run (1 + 3 * length pieces + f) (cat fd) (served pieces ++ ans) = mkRan h (Returned tt) f ans
    /\ received h = concat pieces.
Proof.
  induction 1 as [|b pieces [Hne Hlen] _ (h & IH & Hh)].
  { exists [(CRead fd 512, (0, []))]. split; [destruct f; reflexivity|done]. }
  eexists ((CRead fd 512, (Z.of_nat (length b), b)) :: (CWrite 1 b, (Z.of_nat (length b), [])) :: h).
  split; [|unfold received; cbn; by rewrite <- Hh].
  replace (1 + 3 * length (b :: pieces) + f)%nat with (S (S (S (1 + 3 * length pieces + f)))) by (cbn; lia).
  assert (0 < Z.of_nat (length b)) as Hpos by (destruct b; [done|cbn; lia]).
  unfold cat. rewrite run_iter. unfold served. cbn [map concat app].
  rewrite run_call by (reflexivity || cbn [answer_ok fst snd]; lia). cbv beta iota.
  destruct (Z.gtb_spec (Z.of_nat (length b)) 0); [|lia]. rewrite Nat2Z.id, firstn_all.
  rewrite run_call by (reflexivity || cbn [answer_ok fst snd]; lia). cbv beta iota.
  rewrite Z.eqb_refl. cbn [negb]. rewrite run_ret. unfold after, prepend, made, again.
  cbn [r_hist r_state r_fuel r_answers app].
  change (run (S ?f) (Tau ?t) ?l) with (run f t l). fold (cat fd). unfold served in IH. rewrite IH. done.
Qed.

Lemma run_cat_files names files ans :
  length names = length files -> Forall (Forall piece_ok) files ->
  exists f h, run f (cat_files names) (served_files files ++ ans) = mkRan h (Stopped (Exited 0)) 0 ans
    /\ received h = concat (concat files).
Proof.
  revert names. induction files as [|pieces files IH]; intros names Hl Hf.
  { destruct names; [|done]. by exists 1%nat, []. }
  destruct names as [|n names]; [done|]. injection Hl as Hl. inversion Hf as [|? ? Hp Hf']; subst.
  destruct (IH names Hl Hf') as (f & h & Hrun & Hh).
  destruct (run_cat 3 pieces (S f) ((0, []) :: served_files files ++ ans) Hp) as (hc & Hcat & Hhc).
  eexists (S (1 + 3 * length pieces + S f)), _. cbn [cat_files].
  assert (served_files (pieces :: files) ++ ans
    = (3, []) :: (served pieces ++ (0, []) :: served_files files ++ ans)) as ->.
  { unfold served_files. cbn. by rewrite <- !app_assoc. }
  rewrite run_call by reflexivity. change (3 <? 0) with false. cbv beta iota.
  change (mbind (M := itree sysE) ?k (cat 3)) with (ITree.bind (cat 3) k). rewrite run_bind, Hcat.
  unfold after. cbn [r_state r_hist r_fuel r_answers]. rewrite run_call by reflexivity. cbn [app]. rewrite Hrun.
  split; [reflexivity|]. cbn [made prepend r_hist].
  rewrite concat_cons, concat_app, <- Hhc, <- Hh.
  change (received ((COpen n O_RDONLY, (3, [])) :: hc ++ (CClose 3, (0, [])) :: h))
    with ([] ++ received (hc ++ [(CClose 3, (0, []))] ++ h)).
  by rewrite !received_app.
Qed.

(** Cat copies.  Whatever the kernel answers, what cat has handed to
    write() on its output is at every moment a prefix of what it has read; it
    exits 0 only after reading all its files, in the order of its arguments,
    to their end and writing everything it read, and 1 only after an open(),
    a read() or a write() that failed; and when the kernel serves the files,
    in pieces of any size, it does exit 0, having written their contents. *)
Lemma cat_copies argv :
  (forall f ans, exists e, r_state (run f (cat_main argv) ans) = Stopped e
     /\ cat_seen argv e (r_hist (run f (cat_main argv) ans))) /\
  (forall files, files <> [] -> length (tail argv) = length files -> Forall (Forall piece_ok) files ->
     exists f, let x := run f (cat_main argv) (served_files files) in
       r_state x = Stopped (Exited 0) /\ sent 1 (r_hist x) = concat (concat files)).
Proof.
  pose proof (cat_main_ok argv) as Hok. split.
  - intros f ans. specialize (Hok f ans). destruct (r_state _) as [|e]; [done|]. by exists e.
  - intros files Hne Hl Hf. destruct (run_cat_files (tail argv) files [] Hl Hf) as (f & h & E & Hh).
    rewrite app_nil_r in E. exists f. specialize (Hok f (served_files files)).
    assert (cat_main argv = cat_files (tail argv)) as Em.
    { unfold cat_main. destruct (Nat.leb_spec (length argv) 1); [|done].
      destruct files; [done|]. destruct argv as [|? [|]]; cbn [length tail] in *; [done|done|lia]. }
    rewrite Em, E in *. cbn [r_state r_hist app] in *. split; [done|].
    destruct Hok as [_ [Hs _]]. by rewrite <- Hh.
Qed.

(** Two files, the second one in two pieces. *)
Lemma cat_copies_witness :
  exists f, let x := run f (cat_main [str "cat"; str "a"; str "b"])
                       (served_files [[str "one"]; [str "tw"; str "o"]]) in
    r_state x = Stopped (Exited 0) /\ sent 1 (r_hist x) = str "onetwo".
Proof.
  apply (proj2 (cat_copies [str "cat"; str "a"; str "b"]) [[str "one"]; [str "tw"; str "o"]]); [done|done|].
  repeat constructor; try done; cbn; lia.
Defined.

(** ** wc *)
Definition blanks : list Z := str " " ++ [13; 9; 10; 11].

(** One character: lines, words, characters, in a word. *)
Definition wc_char '(l, w, c, inword) (b : Z) : Z * Z * Z * Z :=
  let c := s32 (c + 1) in
  let l := if b =? 10 then s32 (l + 1) else l in
  match strchr blanks b with
  | Some _ => (l, w, c, 0)
  | None => if negb (truthy inword) then (l, s32 (w + 1), c, 1) else (l, w, c, inword)
  end.

Definition wc_loop (fd : Z) : itree sysE (Z * Z * Z * Z) :=
  ITree.iter (fun st =>
    '(n, buf) ← sys (CRead fd 512);
    if n >? 0 then mret (inl (foldl wc_char st (take (Z.to_nat n) buf)))
    else if n <? 0 then
      printf (ln "wc: read error") [] ;;
      exit 1
    else mret (inr st)) (0, 0, 0, 0).

Definition wc (fd : Z) (name : list Z) : itree sysE unit :=
  '(l, w, c, _) ← wc_loop fd;
  printf (ln "%d %d %d %s") [AInt l; AInt w; AInt c; AStr (Some name)].

Fixpoint wc_files (files : list (list Z)) : itree sysE unit :=
  match files with
  | [] => exit 0
  | f :: r =>
      '(fd, _) ← sys (COpen f O_RDONLY);
      if fd <? 0 then
        printf (ln "wc: cannot open %s") [AStr (Some f)] ;;
        exit 1
      else
        wc fd f ;;
        sys (CClose fd) ;;
        wc_files r
  end.

Definition wc_main (argv : list (list Z)) : itree sysE unit :=
  if (length argv <=? 1)%nat then wc 0 [] ;; exit 0 else wc_files (tail argv).

(** The words of a text are its non-empty fields between blanks. *)
Definition blank (b : Z) : bool := bool_decide (b ∈ blanks).
Fixpoint fields (s : list Z) : list (list Z) :=
  match s with
  | [] => [[]]
  | b :: r =>
      if blank b then [] :: fields r
      else match fields r with f :: fs => (b :: f) :: fs | [] => [[b]] end
  end.
Definition words (s : list Z) : nat := length (filter (fun f => f <> []) (fields s)).
Definition newlines (s : list Z) : nat := length (filter (fun b => b = 10) s).

Definition wc_line (data name : list Z) : list Z :=
  vprintf (ln "%d %d %d %s")
    [AInt (s32 (Z.of_nat (newlines data))); AInt (s32 (Z.of_nat (words data)));
     AInt (s32 (Z.of_nat (length data))); AStr (Some name)].

Lemma strchr_blanks b : (if strchr blanks b is Some _ then true else false) = blank b.
Proof.
  unfold blank, blanks. cbn [str chr strchr truthy].
  destruct (bool_decide_reflect (b ∈ str " " ++ [13; 9; 10; 11])) as [Hin|Hin].
  - set_unfold. cbn in Hin. repeat destruct Hin as [->|Hin]; done.
  - set_unfold. cbn in *. zcases; naive_solver.
Qed.

Lemma fields_cons s : exists f fs, fields s = f :: fs.
Proof. destruct s as [|b s]; cbn; [eauto|]. destruct (blank b); [eauto|]. destruct (fields s); eauto. Qed.

Lemma s32_add_l x y : s32 (s32 x + y) = s32 (x + y).
Proof. apply (wrap_s_add_l 32); lia. Qed.

Lemma counts_eq (l w c l' w' c' iw : Z) :
  l = l' -> w = w' -> c = c' -> (s32 l, s32 w, s32 c, iw) = (s32 l', s32 w', s32 c', iw).
Proof. by intros -> -> ->. Qed.

(** Does the text start inside a word? *)
Definition starts_word (s : list Z) : Z := match fields s with (_ :: _) :: _ => 1 | _ => 0 end.

(** What the loop has counted after [s], when it was in a word before or not. *)
Lemma wc_fold s l w c iw :
  iw = 0 \/ iw = 1 ->
  exists iw', (iw' = 0 \/ iw' = 1) /\ foldl wc_char (s32 l, s32 w, s32 c, iw) s =
    (s32 (l + Z.of_nat (newlines s)), s32 (w + (Z.of_nat (words s) - iw * starts_word s)),
     s32 (c + Z.of_nat (length s)), iw').
Proof.
  revert l w c iw. induction s as [|b s IH]; intros l w c iw Hiw.
  { exists iw. split; [done|]. change (words []) with O. change (starts_word []) with 0. apply counts_eq; cbn; lia. }
  assert (Z.of_nat (newlines (b :: s)) = (if b =? 10 then 1 else 0) + Z.of_nat (newlines s)) as Hn.
  { unfold newlines. rewrite filter_cons. case_decide; destruct (Z.eqb_spec b 10); cbn [length]; try lia; done. }
  destruct (fields_cons s) as (f & fs & Ef).
  set (l' := l + if b =? 10 then 1 else 0).
  assert ((if b =? 10 then s32 (s32 l + 1) else s32 l) = s32 l') as El
    by (unfold l'; destruct (b =? 10); [apply s32_add_l|f_equal; lia]).
  cbn [foldl]. unfold wc_char at 2. rewrite El, s32_add_l. pose proof (strchr_blanks b) as Hb.
  destruct (strchr blanks b); symmetry in Hb.
  - destruct (IH l' w (c + 1) 0 ltac:(by left)) as (iw' & Hiw' & E). exists iw'. split; [done|]. rewrite E, Hn.
    unfold words, starts_word. cbn [fields length]. rewrite Hb. unfold l'.
    rewrite filter_cons_False by (intros H; by apply H). apply counts_eq; lia.
  - assert (Z.of_nat (words s) - starts_word s = Z.of_nat (length (filter (fun f => f <> []) fs))
      /\ Z.of_nat (words (b :: s)) = 1 + Z.of_nat (length (filter (fun f => f <> []) fs))
      /\ starts_word (b :: s) = 1) as (H1 & H2 & H3).
    { unfold words, starts_word. cbn [fields]. rewrite Hb, Ef. split_and!; [|rewrite filter_cons_True by done; cbn [length]; lia|done].
      rewrite filter_cons. destruct f; case_decide; cbn [length]; done || lia. }
    assert (exists w1, (if negb (truthy iw) then (s32 l', s32 (s32 w + 1), s32 (c + 1), 1)
              else (s32 l', s32 w, s32 (c + 1), iw)) = (s32 l', s32 w1, s32 (c + 1), 1) /\ w1 = w + 1 - iw) as (w1 & -> & ->).
    { exists (w + 1 - iw). split; [|done]. rewrite s32_add_l. destruct Hiw as [-> | ->]; cbn;
        apply counts_eq; lia. }
    destruct (IH l' (w + 1 - iw) (c + 1) 1 ltac:(by right)) as (iw' & Hiw' & E). exists iw'. split; [done|].
    rewrite E, Hn, H2, H3. cbn [length]. unfold l'. apply counts_eq; lia.
Qed.

Lemma wc_counts_text s :
  exists iw, foldl wc_char (0, 0, 0, 0) s =
    (s32 (Z.of_nat (newlines s)), s32 (Z.of_nat (words s)), s32 (Z.of_nat (length s)), iw).
Proof.
  destruct (wc_fold s 0 0 0 0 ltac:(by left)) as (iw & _ & E). exists iw.
  change (s32 0) with 0 in E. rewrite E. apply counts_eq; lia.
Qed.

(** The part of a history that deals with one file. *)
Definition wc_part (paths : list (list Z)) (name : list Z) (seg : history) : Prop :=
  opened seg = paths /\ sent 1 seg = wc_line (received seg) name.

Definition wc_seen (argv : list (list Z)) (e : stop) (h : history) : Prop :=
  match e with
  | Running => True
  | Exited st =>
      if st =? 0 then
        if (length argv <=? 1)%nat then wc_part [] [] h
        else exists segs, h = concat segs /\ Forall2 (fun name => wc_part [name] name) (tail argv) segs
      else st = 1 /\ Exists (fun e => refused e = true) h
  | Became _ _ => False
  end.

Lemma wc_complains {R} argv fmt args (Q : state R -> history -> Prop) h :
  (forall e h, wc_seen argv e h -> Q (Stopped e) h) ->
  Exists (fun e => refused e = true) h -> wlp (printf fmt args ;; exit 1) Q h.
Proof.
  intros HQ He. apply wlp_puts; [intros; by apply HQ|]. intros h' _.
  apply wlp_exit; apply HQ; [done|]. split; [done|]. apply Exists_app. by left.
Qed.

(** The part of a file that has been opened so far, and nothing printed yet. *)
Definition wc_reading (paths : list (list Z)) (h0 : history) (st : Z * Z * Z * Z) (h : history) : Prop :=
  exists seg, h = h0 ++ seg /\ opened seg = paths /\ sent 1 seg = [] /\
    st = foldl wc_char (0, 0, 0, 0) (received seg).

Lemma wc_ok {R} argv paths name fd (k : unit -> itree sysE R) Q h0 seg0 :
  (forall e h, wc_seen argv e h -> Q (Stopped e) h) ->
  opened seg0 = paths -> sent 1 seg0 = [] -> received seg0 = [] ->
  (forall seg, wc_part paths name seg -> wlp (k tt) Q (h0 ++ seg)) ->
  wlp (mbind k (wc fd name)) Q (h0 ++ seg0).
Proof.
  intros HQ Ho Hs Hr Hk. apply wlp_bind. unfold wc. apply wlp_bind.
  apply (wlp_iter _ (wc_reading paths h0)); [|by intros; apply HQ|by exists seg0; rewrite Hr].
  intros st h (seg & -> & Hop & Hse & ->). apply wlp_call; [done|by apply HQ|].
  intros [n buf] Ha. cbn [answer_ok fst snd] in Ha.
  set (e := (CRead fd 512, (n, buf)) : call * answer).
  assert (opened (seg ++ [e]) = paths /\ sent 1 (seg ++ [e]) = []) as [Ho' Hs']
    by (rewrite opened_app, sent_app, Hop, Hse, app_nil_r; done).
  destruct (Z.gtb_spec n 0); [|destruct (Z.ltb_spec n 0)].
  - apply wlp_ret. exists (seg ++ [e]). rewrite app_assoc. split_and!; try done.
    assert (n = Z.of_nat (length buf)) as -> by lia. rewrite Nat2Z.id, firstn_all.
    unfold e. by rewrite received_read, foldl_app.
  - eapply wc_complains; [by intros; apply HQ|]. apply Exists_app. right. constructor. cbn. lia.
  - apply wlp_ret. assert (buf = []) as -> by (apply nil_length_inv; lia).
    destruct (wc_counts_text (received seg)) as (iw & E). rewrite <- app_assoc. cbn [seq_post].
    change (wlp (let '(l, w, c, _) := foldl wc_char (0, 0, 0, 0) (received seg) in
      printf (ln "%d %d %d %s") [AInt l; AInt w; AInt c; AStr (Some name)]) (seq_post k Q) (h0 ++ seg ++ [e])).
    rewrite E. apply wlp_puts_last; [by intros; apply HQ|]. intros h' Hh. cbn [seq_post].
    rewrite <- !app_assoc. apply Hk. split.
    + by rewrite app_assoc, opened_app, Ho', (opened_puts _ _ _ Hh), app_nil_r.
    + rewrite app_assoc, sent_app, Hs', (sent_puts _ _ _ _ Hh). cbn [app]. rewrite Z.eqb_refl.
      unfold wc_line, e. by rewrite received_app, received_read, (received_puts _ _ _ Hh), !app_nil_r.
Qed.

Lemma wc_files_ok argv files ran segs :
  (1 < length argv)%nat -> tail argv = ran ++ files ->
  Forall2 (fun name => wc_part [name] name) ran segs ->
  wlp (wc_files files) (fun s h => if s is Stopped e then wc_seen argv e h else False) (concat segs).
Proof.
  intros Hlen. revert ran segs. induction files as [|f files IH]; intros ran segs Ha Hsegs; cbn [wc_files].
  { apply wlp_exit; [done|]. cbn. replace (length argv <=? 1)%nat with false by (symmetry; apply Nat.leb_gt; lia).
    exists segs. by rewrite Ha, app_nil_r. }
  apply wlp_call; [done|done|]. intros [fd b] Hfd. destruct (Z.ltb_spec fd 0).
  { eapply wc_complains; [done|]. apply Exists_app. right. constructor. cbn. lia. }
  eapply wc_ok; [done|reflexivity|reflexivity|reflexivity|]. intros seg [Ho Hs].
  apply wlp_call; [done|done|]. intros a _. rewrite <- app_assoc.
  replace (concat segs ++ seg ++ [(CClose fd, a)]) with (concat (segs ++ [seg ++ [(CClose fd, a)]]))
    by (rewrite concat_app; cbn; by rewrite app_nil_r).
  apply (IH (ran ++ [f])); [by rewrite <- app_assoc|]. apply Forall2_app; [done|]. constructor; [|constructor].
  split; [by rewrite opened_app, Ho|]. by rewrite sent_app, received_app, Hs, !app_nil_r.
Qed.

Lemma wc_main_ok argv :
  wlp (wc_main argv) (fun s h => if s is Stopped e then wc_seen argv e h else False) [].
Proof.
  unfold wc_main. destruct (Nat.leb_spec (length argv) 1) as [Hl|Hl]; [|by apply (wc_files_ok _ _ [] [])].
  apply (wc_ok argv [] [] _ _ _ [] []); [done|done|done|done|]. intros seg Hseg. cbn [app].
  apply wlp_exit; [done|]. cbn. by rewrite (proj2 (Nat.leb_le _ _) Hl).
Qed.

(** A kernel that serves a file to wc, and accepts what it prints. *)
Definition wc_served (name : list Z) (pieces : list (list Z)) : list answer :=
  (3, []) :: map (fun b => (Z.of_nat (length b), b)) pieces ++ [(0, [])] ++
  replicate (length (wc_line (concat pieces) name)) (1, []) ++ [(0, [])].

Lemma run_wc_loop fd pieces st f ans :
  Forall piece_ok pieces ->
  exists h, run (1 + 2 * length pieces + f)
    (ITree.iter (fun st =>
      '(n, buf) ← sys (CRead fd 512);
      if n >? 0 then mret (inl (foldl wc_char st (take (Z.to_nat n) buf)))
      else if n <? 0 then printf (ln "wc: read error") [] ;; exit 1
      else mret (inr st)) st) (map (fun b => (Z.of_nat (length b), b)) pieces ++ [(0, [])] ++ ans)
    = mkRan h (Returned (foldl wc_char st (concat pieces))) f ans.
Proof.
  intros Hp. revert st. induction Hp as [|b pieces [Hne Hlen] _ IH]; intros st.
  { eexists. cbn [map app length Nat.mul Nat.add]. rewrite run_iter, run_call by done. cbv beta iota.
    change (0 >? 0) with false. change (0 <? 0) with false. cbv iota. rewrite run_ret. by destruct f. }
  destruct (IH (foldl wc_char st b)) as (h & E). eexists.
  replace (1 + 2 * length (b :: pieces) + f)%nat with (S (S (1 + 2 * length pieces + f))) by (cbn; lia).
  assert (0 < Z.of_nat (length b)) as Hpos by (destruct b; [done|cbn; lia]).
  cbn [map app]. rewrite run_iter, run_call by (reflexivity || cbn [answer_ok fst snd]; lia). cbv beta iota.
  destruct (Z.gtb_spec (Z.of_nat (length b)) 0); [|lia]. rewrite Nat2Z.id, firstn_all, run_ret.
  unfold after, made, prepend, again. cbn [r_hist r_state r_fuel r_answers app concat].
  change (run (S ?f) (Tau ?t) ?l) with (run f t l). cbn [app] in E. rewrite E, foldl_app. reflexivity.
Qed.

Lemma run_wc fd name pieces f ans :
  Forall piece_ok pieces ->
  exists f' h, run f' (wc fd name) (tail (wc_served name pieces) ++ ans)
    = mkRan h (Returned tt) f ((0, []) :: ans).
Proof.
  intros Hp. set (n := length (wc_line (concat pieces) name)).
  destruct (run_wc_loop fd pieces (0, 0, 0, 0) (n + f) (replicate n (1, []) ++ (0, []) :: ans) Hp) as (h & E).
  destruct (run_puts 1 (wc_line (concat pieces) name) f ((0, []) :: ans)) as (h' & E' & _).
  destruct (wc_counts_text (concat pieces)) as (iw & Ec). rewrite Ec in E.
  exists (1 + 2 * length pieces + (n + f))%nat, (h ++ h'). unfold wc_served. cbn [tail]. rewrite <- !app_assoc. cbn [app] in *.
  unfold wc. erewrite run_seq by exact E. cbv beta iota. unfold printf, fprintf.
  subst n. unfold wc_line in E' |- *. rewrite E'. reflexivity.
Qed.

Lemma run_wc_files names files ans :
  length names = length files -> Forall (Forall piece_ok) files ->
  exists f h, run f (wc_files names) (concat (zip_with wc_served names files) ++ ans)
    = mkRan h (Stopped (Exited 0)) 0 ans.
Proof.
  revert names. induction files as [|pieces files IH]; intros names Hl Hf.
  { destruct names; [|done]. by exists 1%nat, []. }
  destruct names as [|n names]; [done|]. injection Hl as Hl. inversion Hf as [|? ? Hp Hf']; subst.
  destruct (IH names Hl Hf') as (f & h & Hrun).
  destruct (run_wc 3 n pieces (S f) (concat (zip_with wc_served names files) ++ ans) Hp) as (f' & h' & Hwc).
  eexists (S f'), _. cbn [wc_files zip_with concat].
  rewrite <- app_assoc. change (wc_served n pieces) with ((3, []) :: tail (wc_served n pieces)). cbn [app].
  rewrite run_call by done. change (3 <? 0) with false. cbv beta iota.
  erewrite run_seq by exact Hwc. rewrite run_call by done. cbv beta. rewrite Hrun. reflexivity.
Qed.

(** C24: wc counts.  Whatever the kernel answers and however read() cuts the
    files into pieces: wc exits 0 only after its history is one part for each
    file, in order, in which it opened the file and printed one line with the
    number of newlines, of words (non-empty fields between blanks) and of
    bytes of exactly what it read in that part, and its name; it exits 1 only
    after a call that failed; and it does exit 0 when the kernel serves the
    files and accepts the output. *)
Theorem wc_counts argv :
  (forall f ans, exists e, r_state (run f (wc_main argv) ans) = Stopped e
     /\ wc_seen argv e (r_hist (run f (wc_main argv) ans))) /\
  (forall files, files <> [] -> length (tail argv) = length files -> Forall (Forall piece_ok) files ->
     exists f, r_state (run f (wc_main argv) (concat (zip_with wc_served (tail argv) files)))
               = Stopped (Exited 0)).
Proof.
  pose proof (wc_main_ok argv) as Hok. split.
  - intros f ans. specialize (Hok f ans). destruct (r_state _) as [|e]; [done|]. by exists e.
  - clear Hok. intros files Hne Hl Hf. destruct (run_wc_files (tail argv) files [] Hl Hf) as (f & h & E).
    rewrite app_nil_r in E. exists f.
    assert (wc_main argv = wc_files (tail argv)) as ->; [|by rewrite E].
    unfold wc_main. destruct (Nat.leb_spec (length argv) 1); [|done].
    destruct files; [done|]. destruct argv as [|? [|]]; cbn [length tail] in *; [done|done|lia].
Qed.

Lemma wc_counts_witness :
  words (str "a bc  d ") = 3%nat /\
  exists f, r_state (run f (wc_main [str "wc"; str "x"])
    (concat (zip_with wc_served [str "x"] [[str "a b"; str "c  d "]]))) = Stopped (Exited 0).
Proof.
  split; [reflexivity|]. apply (proj2 (wc_counts [str "wc"; str "x"])); [done|done|].
  repeat constructor; try done; cbn; lia.
Defined.
