(* ===== verification/Uinit.v ===== *)
(** * Uinit: the programs that start and watch others

    user/init.c, which runs for ever, user/trace.c, and the programs of one or
    two calls: echo.c, rm.c, ln.c, mkdir.c, kill.c, uptime.c, sync.c, hello.c
    and zombie.c. *)

From ITree Require Import Core.ITreeDefinition.
From S2P Require Import Prelude Params Machine Spinlock Strings Uart Printk Ulib Uprintf Uprog.

(** Texts are not computed while proofs are checked. *)
#[local] Opaque vprintf.

(** ** init *)

(** The inner loop: waits for the shell [pid]. *)
Definition init_wait (pid : Z) : itree sysE unit :=
  ITree.iter (fun _ : unit =>
    '(wpid, _) ← sys CWait;
    if wpid =? pid then mret (inr tt) (* the shell exited; restart it. *)
    else if wpid <? 0 then
      printf (ln "init: wait returned an error") [] ;;
      exit 1
    else mret (inl tt) (* it was a parentless process; do nothing. *)) tt.

Definition init_round : itree sysE unit :=
  printf (ln "init: starting sh") [] ;;
  '(pid, _) ← sys CFork;
  if pid <? 0 then
    printf (ln "init: fork failed") [] ;;
    exit 1
  else if pid =? 0 then
    sys (CExec (str "sh") [str "sh"]) ;;
    printf (ln "init: exec sh failed") [] ;;
    exit 1
  else init_wait pid.

Definition init_main : itree sysE unit :=
  '(r, _) ← sys (COpen (str "console") O_RDWR);
  (if r <? 0 then
     sys (CMknod (str "console") CONSOLE 0) ;;
     sys (COpen (str "console") O_RDWR) ;;
     mret tt
   else mret tt) ;;
  sys (CDup 0) ;; (* stdout *)
  sys (CDup 0) ;; (* stderr *)
  ITree.iter (fun _ : unit => init_round ;; mret (inl tt)) tt.

(** ** trace *)
Definition trace_main (argv : list (list Z)) : itree sysE unit :=
  match argv with
  | a0 :: a1 :: a2 :: _ =>
      let trace_on := atoi a1 in
      '(r, _) ← sys (CTrace trace_on);
      if r <? 0 then
        fprintf 2 (ln "%s: trace failed") [AStr (Some a0)] ;;
        exit 1
      else
        sys (CExec a2 (drop 2 argv)) ;;
        fprintf 2 (ln "exec %s failed") [AStr (Some a2)] ;;
        exit 1
  | _ =>
      fprintf 2 (ln "Usage: %s <0|1> <command> [args...]") [AStr (head argv)] ;;
      exit 1
  end.

(** ** The others *)

(** for (i = 1; i < argc; i++) of echo. *)
Fixpoint echo_loop (args : list (list Z)) : itree sysE unit :=
  match args with
  | [] => exit 0
  | a :: r =>
      sys (CWrite 1 (take (Z.to_nat (strlen a)) a)) ;;
      sys (CWrite 1 (if r is [] then [10] else str " ")) ;;
      echo_loop r
  end.
Definition echo_main (argv : list (list Z)) : itree sysE unit := echo_loop (tail argv).

Fixpoint rm_loop (args : list (list Z)) : itree sysE unit :=
  match args with
  | [] => exit 0
  | a :: r =>
      '(e, _) ← sys (CUnlink a);
      if e <? 0 then
        fprintf 2 (ln "rm: %s failed to delete") [AStr (Some a)] ;;
        exit 0
      else rm_loop r
  end.
Definition rm_main (argv : list (list Z)) : itree sysE unit :=
  if (length argv <? 2)%nat then
    fprintf 2 (ln "Usage: rm files...") [] ;;
    exit 1
  else rm_loop (tail argv).

Definition ln_main (argv : list (list Z)) : itree sysE unit :=
  match argv with
  | [_; old; new] =>
      '(e, _) ← sys (CLink old new);
      (if e <? 0 then fprintf 2 (ln "link %s %s: failed") [AStr (Some old); AStr (Some new)] else mret tt) ;;
      exit 0
  | _ =>
      fprintf 2 (ln "Usage: ln old new") [] ;;
      exit 1
  end.

Fixpoint mkdir_loop (args : list (list Z)) : itree sysE unit :=
  match args with
  | [] => exit 0
  | a :: r =>
      '(e, _) ← sys (CMkdir a);
      if e <? 0 then
        fprintf 2 (ln "mkdir: %s failed to create") [AStr (Some a)] ;;
        exit 0
      else mkdir_loop r
  end.
Definition mkdir_main (argv : list (list Z)) : itree sysE unit :=
  if (length argv <? 2)%nat then
    fprintf 2 (ln "Usage: mkdir files...") [] ;;
    exit 1
  else mkdir_loop (tail argv).

Fixpoint kill_loop (args : list (list Z)) : itree sysE unit :=
  match args with
  | [] => exit 0
  | a :: r => sys (CKill (atoi a)) ;; kill_loop r
  end.
Definition kill_main (argv : list (list Z)) : itree sysE unit :=
  if (length argv <? 2)%nat then
    fprintf 2 (ln "usage: kill pid...") [] ;;
    exit 1
  else kill_loop (tail argv).

Definition uptime_main : itree sysE unit :=
  '(t, _) ← sys CUptime;
  printf (ln "uptime: %d ticks") [AInt t] ;;
  exit 0.

Definition sync_main : itree sysE unit := sys CSync ;; exit 0.

Definition hello_main : itree sysE unit :=
  printf (ln "HI How R U") [] ;;
  printf (ln "Greetings from the xv6 kernel!") [] ;;
  exit 0.

Definition zombie_main : itree sysE unit :=
  '(pid, _) ← sys CFork;
  (if pid >? 0 then sys (CPause 5) ;; mret tt else mret tt) ;; (* Let child exit before parent. *)
  exit 0.

(** ** At most one shell *)

(** The shells init has started and not yet waited for. *)
Definition shell_event (alive : list Z) (e : call * answer) : list Z :=
  match e.1 with
  | CFork => if e.2.1 >? 0 then alive ++ [e.2.1] else alive
  | CWait => filter (fun p => p <> e.2.1) alive
  | _ => alive
  end.
Definition shells (h : history) : list Z := foldl shell_event [] h.

(** The answer to the last fork(). *)
Definition last_fork (h : history) : option Z :=
  foldl (fun r e => match e.1 with CFork => Some e.2.1 | _ => r end) None h.

(** What init asked for and was refused. *)
Definition init_refused (e : call * answer) : bool :=
  match e.1 with
  | CFork | CWait | CExec _ _ => e.2.1 <? 0
  | _ => false
  end.

Definition init_seen (e : stop) (h : history) : Prop :=
  (length (shells h) <= 1)%nat /\
  match e with
  | Running => True
  | Exited st => st = 1 /\ Exists (fun e => init_refused e = true) h
  | Became path argv => path = str "sh" /\ argv = [str "sh"] /\ last_fork h = Some 0
  end.

Lemma shells_app h1 h2 : shells (h1 ++ h2) = foldl shell_event (shells h1) h2.
Proof. apply foldl_app. Qed.

(** Calls other than fork() and wait() do not change the shells. *)
Lemma shells_snoc h c a : c <> CFork -> c <> CWait -> shells (h ++ [(c, a)]) = shells h.
Proof. intros. rewrite shells_app. cbn. by destruct c. Qed.

Lemma shells_puts h fd bytes h' : puts_hist fd bytes h' -> shells (h ++ h') = shells h.
Proof.
  intros Hh. rewrite shells_app. generalize (shells h). induction Hh as [|c [ca a] bytes h' E _ IH]; intros l; [done|].
  cbn in E. subst ca. apply IH.
Qed.
Lemma last_fork_puts h fd bytes h' : puts_hist fd bytes h' -> last_fork (h ++ h') = last_fork h.
Proof.
  intros Hh. unfold last_fork. rewrite foldl_app.
  generalize (foldl (fun r (e : call * answer) => match e.1 with CFork => Some e.2.1 | _ => r end) None h).
  induction Hh as [|c [ca a] bytes h' E _ IH]; intros l; [done|]. cbn in E. subst ca. apply IH.
Qed.

Section init.
Context {R : Type} (Q : state R -> history -> Prop).
Context (HQ : forall e h, init_seen e h -> Q (Stopped e) h).

Lemma init_running h : (length (shells h) <= 1)%nat -> Q (Stopped Running) h.
Proof using HQ. intros H. by apply HQ. Qed.

(** What init prints does not matter. *)
Lemma init_prints fmt args (k : unit -> itree sysE R) h :
  (length (shells h) <= 1)%nat ->
  (forall h', shells (h ++ h') = shells h -> last_fork (h ++ h') = last_fork h -> wlp (k tt) Q (h ++ h')) ->
  wlp (mbind k (printf fmt args)) Q h.
Proof using HQ.
  intros Hs Hk. apply wlp_puts.
  - intros b1 b2 h' _ Hb. apply init_running. by rewrite (shells_puts _ _ _ _ Hb).
  - intros h' Hb. apply Hk; [by eapply shells_puts|by eapply last_fork_puts].
Qed.

Lemma init_complains fmt args h :
  (length (shells h) <= 1)%nat -> Exists (fun e => init_refused e = true) h ->
  wlp (printf fmt args ;; exit 1) Q h.
Proof using HQ.
  intros Hs He. apply init_prints; [done|]. intros h' E _.
  apply wlp_exit; apply HQ; (split; [by rewrite E|]); [done|]. split; [done|]. apply Exists_app. by left.
Qed.

End init.

(** The stopped states of a part are those of the whole. *)
Lemma seq_post_stopped {R T} (k : R -> itree sysE T) (Q : state T -> history -> Prop) :
  (forall e h, init_seen e h -> Q (Stopped e) h) -> forall e h, init_seen e h -> seq_post k Q (Stopped e) h.
Proof. done. Qed.

Lemma init_wait_ok (Q : state unit -> history -> Prop) pid h :
  (forall e h, init_seen e h -> Q (Stopped e) h) -> (forall h, shells h = [] -> Q (Returned tt) h) ->
  0 < pid -> shells h = [pid] -> wlp (init_wait pid) Q h.
Proof.
  intros HQ Hk Hpid Hs.
  assert (forall h, shells h = [pid] -> Q (Stopped Running) h) as HR
    by (intros h' E; apply HQ; split; [by rewrite E|done]).
  apply (wlp_iter _ (fun _ h => shells h = [pid])); [|by eauto|done].
  clear h Hs. intros _ h Hs. apply wlp_call; [done|by apply HR|]. intros [w b] Ha.
  assert (shells (h ++ [(CWait, (w, b))]) = if decide (pid = w) then [] else [pid]) as E.
  { rewrite shells_app, Hs. cbn. repeat case_decide; done. }
  destruct (Z.eqb_spec w pid) as [->|Hne].
  { apply wlp_ret, Hk. by rewrite E, decide_True. }
  rewrite decide_False in E by done. destruct (Z.ltb_spec w 0); [|by apply wlp_ret].
  apply init_complains; [by intros; apply HQ|by rewrite E; cbn; lia|].
  apply Exists_app. right. constructor. cbn. lia.
Qed.

Lemma init_round_ok (Q : state unit -> history -> Prop) h :
  (forall e h, init_seen e h -> Q (Stopped e) h) -> (forall h, shells h = [] -> Q (Returned tt) h) ->
  shells h = [] -> wlp init_round Q h.
Proof.
  intros HQ Hk Hs. apply init_prints; [done|by rewrite Hs; cbn; lia|]. intros h1 E1 _. rewrite Hs in E1.
  apply wlp_call; [done|apply HQ; split; [rewrite E1; cbn; lia|done]|]. intros [pid b] Ha.
  assert (shells ((h ++ h1) ++ [(CFork, (pid, b))]) = if pid >? 0 then [pid] else []) as E.
  { rewrite shells_app, E1. done. }
  destruct (Z.ltb_spec pid 0); [|destruct (Z.eqb_spec pid 0) as [->|]].
  - apply init_complains; [done|rewrite E; destruct (pid >? 0); cbn; lia|].
    apply Exists_app. right. constructor. cbn. lia.
  - cbn in E. assert (last_fork ((h ++ h1) ++ [(CFork, (0, b))]) = Some 0) as Hf
      by (unfold last_fork; by rewrite foldl_app).
    apply wlp_exec; [apply HQ; split; [rewrite E; cbn; lia|done]|apply HQ; split; [rewrite E; cbn; lia|done]|].
    intros [r b'] Hr. apply init_complains; [done|by rewrite shells_snoc, E by done; cbn; lia|].
    apply Exists_app. right. constructor. cbn in *. lia.
  - apply init_wait_ok; [done|done|lia|]. rewrite E. destruct (Z.gtb_spec pid 0); [done|lia].
Qed.

Definition init_final (s : state unit) (h : history) : Prop :=
  if s is Stopped e then init_seen e h else False.

Lemma init_loop_ok h :
  shells h = [] -> wlp (ITree.iter (fun _ : unit => init_round ;; mret (inl tt)) tt) init_final h.
Proof.
  intros Hs. apply (wlp_iter _ (fun _ h => shells h = [])); [|intros _ h' E; split; [by rewrite E; cbn; lia|done]|done].
  clear h Hs. intros _ h Hs. apply wlp_bind. apply init_round_ok; [done| |done].
  intros h' Hs'. by apply wlp_ret.
Qed.

(** A call of init that is neither fork() nor wait(). *)
Lemma init_call {R} c (k : answer -> itree sysE R) (Q : state R -> history -> Prop) h :
  (forall e h, init_seen e h -> Q (Stopped e) h) ->
  c <> CFork -> c <> CWait -> (forall ans, leaves c ans = None) -> shells h = [] ->
  (forall a h', shells h' = [] -> wlp (k a) Q h') -> wlp (mbind k (sys c)) Q h.
Proof.
  intros HQ H1 H2 Hl Hs Hk. apply wlp_call; [done|apply HQ; split; [rewrite Hs; cbn; lia|done]|].
  intros a _. apply Hk. by rewrite shells_snoc.
Qed.

Lemma init_main_ok : wlp init_main init_final [].
Proof.
  apply init_call; [done..|]. intros [r b] h1 H1. apply wlp_bind.
  assert (forall h, shells h = [] -> wlp (sys (CDup 0) ;; sys (CDup 0) ;;
    ITree.iter (fun _ : unit => init_round ;; mret (inl tt)) tt) init_final h) as Hrest.
  { intros h Hs. apply init_call; [done..|]. intros _ h2 H2. apply init_call; [done..|].
    intros _ h3 H3. by apply init_loop_ok. }
  destruct (r <? 0); [|apply wlp_ret; by apply Hrest].
  apply init_call; [done..|]. intros _ h2 H2. apply init_call; [done..|]. intros _ h3 H3.
  apply wlp_ret. by apply Hrest.
Qed.

(** The shell lives: fork() gives [pid], the shell exits after [n] orphans. *)
Definition init_day (pid : Z) (n : nat) : list answer :=
  replicate (length (vprintf (ln "init: starting sh") [])) (1, []) ++
  [(pid, [])] ++ replicate n (pid + 1, []) ++ [(pid, [])].

Lemma run_init_wait pid n f ans :
  0 < pid ->
  exists h, run (2 * n + 1 + f) (init_wait pid) (replicate n (pid + 1, []) ++ [(pid, [])] ++ ans)
    = mkRan h (Returned tt) f ans.
Proof.
  intros Hp. induction n as [|n [h IH]].
  { eexists. cbn [Nat.mul Nat.add replicate app]. unfold init_wait. rewrite run_iter, run_call by (done || cbn; lia).
    cbv beta iota. rewrite Z.eqb_refl, run_ret. destruct f; reflexivity. }
  eexists. replace (2 * S n + 1 + f)%nat with (S (S (2 * n + 1 + f))) by lia. cbn [replicate app].
  unfold init_wait. rewrite run_iter, run_call by (done || cbn; lia). cbv beta iota.
  rewrite (proj2 (Z.eqb_neq (pid + 1) pid)), (proj2 (Z.ltb_ge (pid + 1) 0)) by lia. rewrite run_ret.
  unfold after, made, prepend, again. cbn [r_hist r_state r_fuel r_answers app].
  change (run (S ?f) (Tau ?t) ?l) with (run f t l). fold (init_wait pid). cbn [app] in IH. rewrite IH. reflexivity.
Qed.

(** One round returns, and the next one begins. *)
Lemma run_init_round pid n f ans :
  0 < pid -> exists f' h, run f' init_round (init_day pid n ++ ans) = mkRan h (Returned tt) f ans.
Proof.
  intros Hp. set (text := vprintf (ln "init: starting sh") []).
  destruct (run_init_wait pid n f ans Hp) as (h & E).
  destruct (run_puts 1 text (S (2 * n + 1 + f)) ((pid, []) :: replicate n (pid + 1, []) ++ [(pid, [])] ++ ans)) as (h' & E' & _).
  eexists (length text + S (2 * n + 1 + f))%nat, _. unfold init_round, init_day, printf, fprintf. fold text.
  rewrite <- !app_assoc. cbn [app] in *. erewrite run_seq by exact E'. rewrite run_call by (done || cbn; lia).
  cbv beta iota. rewrite (proj2 (Z.ltb_ge pid 0)), (proj2 (Z.eqb_neq pid 0)) by lia. rewrite E. reflexivity.
Qed.


(** What may be seen of trace: it becomes the command, with the command's
    arguments, after the kernel has accepted the tracing word. *)
Definition trace_seen (argv : list (list Z)) (e : stop) (h : history) : Prop :=
  match e with
  | Running => True
  | Exited st => st = 1
  | Became path args =>
      exists a0 a1 r b, argv = a0 :: a1 :: args /\ head args = Some path /\
        h = [(CTrace (atoi a1), (r, b))] /\ 0 <= r
  end.

Lemma trace_complains argv fmt args h :
  wlp (fprintf 2 fmt args ;; exit 1) (fun (s : state unit) h => if s is Stopped e then trace_seen argv e h else False) h.
Proof. apply wlp_puts; [done|]. intros h' _. by apply wlp_exit. Qed.

Lemma trace_main_ok argv :
  wlp (trace_main argv) (fun s h => if s is Stopped e then trace_seen argv e h else False) [].
Proof.
  unfold trace_main. destruct argv as [|a0 [|a1 [|a2 rest]]]; try apply trace_complains.
  cbn zeta. apply wlp_call; [done|done|]. intros [r b] _. destruct (Z.ltb_spec r 0); [apply trace_complains|].
  apply wlp_exec; [done| |].
  - exists a0, a1, r, b. by split_and!.
  - intros a _. apply trace_complains.
Qed.

(** C26: trace.  Whatever the kernel answers, the trace command becomes another
    program only by exec() of its second argument with the arguments from
    there on, after exactly one other call: trace() with the number its first
    argument denotes, which the kernel accepted; in every other case it exits
    with status 1, and with two arguments or more it does become the command
    when both calls succeed. *)
Theorem trace_runs_command argv :
  (forall f ans, exists e, r_state (run f (trace_main argv) ans) = Stopped e
     /\ trace_seen argv e (r_hist (run f (trace_main argv) ans))) /\
  (forall a0 a1 cmd rest, argv = a0 :: a1 :: cmd :: rest ->
     r_state (run 2 (trace_main argv) [(0, []); (0, [])]) = Stopped (Became cmd (cmd :: rest))).
Proof.
  split; [|by intros a0 a1 cmd rest ->].
  intros f ans. pose proof (trace_main_ok argv f ans) as H. destruct (r_state _) as [|e]; [done|]. by exists e.
Qed.

(** echo hands its arguments, separated by blanks and ended by a newline, to
    write(). *)
Fixpoint echoed (args : list (list Z)) : list Z :=
  match args with
  | [] => []
  | [a] => a ++ [10]
  | a :: r => a ++ [32] ++ echoed r
  end.

Lemma strlen_cstring a : Forall (fun c => c <> 0) a -> strlen a = Z.of_nat (length a).
Proof.
  induction 1 as [|c a Hc _ IH]; [done|]. cbn [strlen length]. unfold truthy.
  rewrite (proj2 (Z.eqb_neq c 0) Hc). cbn. rewrite IH. lia.
Qed.

Lemma echo_ok argv :
  Forall (Forall (fun c => c <> 0)) argv ->
  wlp (echo_main argv) (fun s h => match s with
    | Stopped (Exited st) => st = 0 /\ sent 1 h = echoed (tail argv)
    | Stopped Running => sent 1 h `prefix_of` echoed (tail argv)
    | _ => False
    end) [].
Proof.
  intros Ha. unfold echo_main. assert (Forall (Forall (fun c => c <> 0)) (tail argv)) as Ht by (destruct Ha; done).
  assert (forall args pre h, Forall (Forall (fun c => c <> 0)) args -> echoed (tail argv) = pre ++ echoed args ->
    sent 1 h = pre -> wlp (echo_loop args) (fun s h => match s with
      | Stopped (Exited st) => st = 0 /\ sent 1 h = echoed (tail argv)
      | Stopped Running => sent 1 h `prefix_of` echoed (tail argv)
      | _ => False
      end) h) as Hloop; [|by apply (Hloop _ [])].
  clear Ha Ht. induction args as [|a args IH]; intros pre h Hargs E Hh; cbn [echo_loop].
  { apply wlp_exit; rewrite Hh, E, ?app_nil_r; done. }
  inversion Hargs as [|? ? Ha Hr]; subst. rewrite strlen_cstring, Nat2Z.id, firstn_all by done.
  assert (exists sep, (if args is [] then [10] else str " ") = sep /\ echoed (a :: args) = a ++ sep ++ echoed args)
    as (sep & Es & Ea) by (destruct args; eexists; split; try reflexivity; done).
  rewrite Es. rewrite Ea in E.
  assert (forall h b x, sent 1 (h ++ [(CWrite 1 b, x)]) = sent 1 h ++ b) as Hw
    by (intros h' b x; rewrite sent_app; unfold sent at 2; cbn; by rewrite app_nil_r).
  apply wlp_call; [done|rewrite E; by eexists|]. intros x _.
  apply wlp_call; [done|rewrite E, Hw, app_assoc; by eexists|]. intros y _.
  apply (IH ((sent 1 h ++ a) ++ sep)); [done| |by rewrite !Hw]. by rewrite E, <- !app_assoc.
Qed.


Lemma trace_runs_command_witness :
  r_state (run 2 (trace_main [str "trace"; str "32"; str "grep"; str "x"]) [(0, []); (0, [])])
  = Stopped (Became (str "grep") [str "grep"; str "x"]).
Proof. exact (proj2 (trace_runs_command _) _ _ _ _ eq_refl). Defined.
