(* ===== verification/Uls.v ===== *)
(** * Uls: user/ls.c

    fmtname() on strings, and ls() as a program of [Uprog]; stat() is the
    library's (user/ulib.c). *)

From ITree Require Import Core.ITreeDefinition.
From S2P Require Import Prelude Params Machine Spinlock Strings Uart Printk Ulib Uprintf Uprog.

(** Texts are not computed while proofs are checked. *)
#[local] Opaque vprintf.

Definition SLASH : Z := 47.

(** ** Names *)

(** [p], [n] characters into [path], moves back to after the last slash. *)
Fixpoint fmtname_scan (path : list Z) (n : nat) : nat :=
  if nth n path 0 =? SLASH then S n
  else match n with O => O | S n' => fmtname_scan path n' end.

Definition fmtname (path : list Z) : list Z :=
  let p := drop (fmtname_scan path (Z.to_nat (strlen path))) path in
  if strlen p >=? DIRSIZ then p
  else take (Z.to_nat (strlen p)) p ++ replicate (Z.to_nat (DIRSIZ - strlen p)) 32.

(** ** struct stat *)
Record stat_buf := mkStat { st_type : Z; st_ino : Z; st_size : Z }.

(** The fields at their offsets. *)
Definition stat_of (b : list Z) : stat_buf :=
  mkStat (s16 (le_val (take 2 (drop 8 b)))) (le_val (take 4 (drop 4 b))) (le_val (take 8 (drop 16 b))).

Definition fstat (fd : Z) : itree sysE (Z * stat_buf) :=
  '(r, b) ← sys (CFstat fd); mret (r, stat_of b).

Definition stat (n : list Z) : itree sysE (Z * stat_buf) :=
  '(fd, _) ← sys (COpen n O_RDONLY);
  if fd <? 0 then mret (-1, stat_of []) else
  '(r, st) ← fstat fd;
  sys (CClose fd) ;;
  mret (r, st).

Definition ls_line (name : list Z) (st : stat_buf) : list Z :=
  vprintf (ln "%s %d %d %d") [AStr (Some (fmtname name)); AInt (st_type st); AInt (st_ino st); AInt (s32 (st_size st))].

(** One round of while (read(fd, &de, sizeof(de)) == sizeof(de)). *)
Definition ls_entry (path : list Z) (fd : Z) : itree sysE (unit + unit) :=
  '(n, de) ← sys (CRead fd DIRENT_SIZE);
  if negb (n =? DIRENT_SIZE) then mret (inr tt) else
  if le_val (take 2 de) =? 0 then mret (inl tt) else
  let buf := path ++ [SLASH] ++ cstr (take (Z.to_nat DIRSIZ) (drop 2 de)) in
  '(r, st) ← stat buf;
  if r <? 0 then
    printf (ln "ls: cannot stat %s") [AStr (Some buf)] ;;
    mret (inl tt)
  else
    puts 1 (ls_line buf st) ;;
    mret (inl tt).

Definition ls_dir (path : list Z) (fd : Z) : itree sysE unit :=
  ITree.iter (fun _ : unit => ls_entry path fd) tt.

Definition ls (path : list Z) : itree sysE unit :=
  '(fd, _) ← sys (COpen path O_RDONLY);
  if fd <? 0 then fprintf 2 (ln "ls: cannot open %s") [AStr (Some path)] else
  '(r, st) ← fstat fd;
  if r <? 0 then
    fprintf 2 (ln "ls: cannot stat %s") [AStr (Some path)] ;;
    sys (CClose fd) ;;
    mret tt
  else
    (if (st_type st =? T_DEVICE) || (st_type st =? T_FILE) then puts 1 (ls_line path st)
     else if st_type st =? T_DIR then
       if strlen path + 1 + DIRSIZ + 1 >? 512 then printf (ln "ls: path too long") []
       else ls_dir path fd
     else mret tt) ;;
    sys (CClose fd) ;;
    mret tt.

Fixpoint ls_args (args : list (list Z)) : itree sysE unit :=
  match args with
  | [] => exit 0
  | a :: r => ls a ;; ls_args r
  end.
Definition ls_main (argv : list (list Z)) : itree sysE unit :=
  if (length argv <? 2)%nat then ls (str ".") ;; exit 0 else ls_args (tail argv).

(** ** fmtname() is the last element of the path, padded *)

Lemma fmtname_scan_above path n m :
  (forall i, (m < i <= m + n)%nat -> nth i path 0 <> SLASH) -> fmtname_scan path (m + n) = fmtname_scan path m.
Proof.
  induction n as [|n IH]; intros H; [by rewrite Nat.add_0_r|].
  rewrite Nat.add_succ_r. cbn [fmtname_scan]. rewrite (proj2 (Z.eqb_neq _ _)) by (apply H; lia).
  apply IH. intros i Hi. apply H. lia.
Qed.

Lemma strlen_chars s : Forall (fun c => c <> 0) s -> strlen s = Z.of_nat (length s).
Proof.
  induction 1 as [|c s Hc _ IH]; [done|]. cbn [strlen length]. unfold truthy.
  rewrite (proj2 (Z.eqb_neq c 0) Hc). cbn. rewrite IH. lia.
Qed.

Lemma fmtname_element dir name :
  Forall (fun c => c <> 0) dir -> Forall (fun c => c <> 0 /\ c <> SLASH) name ->
  fmtname (dir ++ [SLASH] ++ name) = name ++ replicate (14 - length name) 32.
Proof.
  intros Hd Hn. set (path := dir ++ [SLASH] ++ name).
  assert (Forall (fun c => c <> 0) name) as Hn0 by (eapply Forall_impl; [exact Hn|naive_solver]).
  assert (length path = (length dir + S (length name))%nat) as Hlen by (unfold path; rewrite !length_app; cbn; lia).
  assert (strlen path = Z.of_nat (length path)) as Hs.
  { apply strlen_chars. unfold path. rewrite !Forall_app. split_and!; [done| |done]. by repeat constructor. }
  assert (fmtname_scan path (Z.to_nat (strlen path)) = S (length dir)) as Escan.
  { rewrite Hs, Nat2Z.id, Hlen. rewrite fmtname_scan_above.
    - assert (nth (length dir) path 0 = SLASH) as E by (unfold path; by rewrite app_nth2, Nat.sub_diag by lia).
      destruct (length dir); cbn [fmtname_scan]; by rewrite E, Z.eqb_refl.
    - intros i Hi. unfold path. rewrite app_nth2 by lia. cbn [app].
      destruct (i - length dir)%nat as [|j] eqn:Ej; [lia|]. cbn [nth].
      destruct (decide (j < length name)%nat) as [Hj|Hj].
      + rewrite Forall_forall in Hn. apply Hn. apply list_elem_of_In, nth_In. lia.
      + rewrite nth_overflow by lia. done. }
  unfold fmtname. rewrite Escan.
  assert (drop (S (length dir)) path = name) as ->.
  { unfold path. rewrite (app_assoc dir), drop_app_length' by (rewrite length_app; cbn; lia). done. }
  rewrite (strlen_chars name) by done. unfold DIRSIZ. rewrite Nat2Z.id, firstn_all. cbn zeta.
  replace (Z.to_nat (14 - Z.of_nat (length name))) with (14 - length name)%nat by lia.
  destruct (Z.geb_spec (Z.of_nat (length name)) 14); [|done].
  by replace (14 - length name)%nat with O by lia; rewrite app_nil_r.
Qed.

(** ** A directory is listed *)

(** An entry: the inode number, the name as the directory stores it, and what
    fstat() delivers for it. *)
Record entry := mkEntry { en_inum : Z; en_name : list Z; en_stat : list Z }.

Definition entry_ok (e : entry) : Prop := 0 <= en_inum e < 2 ^ 16 /\ length (en_name e) = 14%nat.

Definition entry_path (path : list Z) (e : entry) : list Z := path ++ [SLASH] ++ cstr (en_name e).

(** The lines of a listing: the entries in use, in order. *)
Definition listing (path : list Z) (es : list entry) : list Z :=
  concat (map (fun e => if en_inum e =? 0 then [] else ls_line (entry_path path e) (stat_of (en_stat e))) es).

(** A kernel that serves the directory: an entry, and for one in use the
    calls of stat() and the bytes of its line. *)
Definition serve_entry (path : list Z) (e : entry) : list answer :=
  (16, le_bytes 2 (en_inum e) ++ en_name e) ::
  if en_inum e =? 0 then []
  else [(4, []); (0, en_stat e); (0, [])] ++
       replicate (length (ls_line (entry_path path e) (stat_of (en_stat e)))) (1, []).

Definition serve_dir (path st : list Z) (es : list entry) : list answer :=
  [(3, []); (0, st)] ++ concat (map (serve_entry path) es) ++ [(0, []); (0, [])].

Lemma run_stat n st f ans :
  exists h, run (3 + f) (stat n) ([(4, []); (0, st); (0, [])] ++ ans) = mkRan h (Returned (0, stat_of st)) f ans
    /\ sent 1 h = [].
Proof.
  eexists [(COpen n O_RDONLY, (4, [])); (CFstat 4, (0, st)); (CClose 4, (0, []))]. split; [|done].
  unfold stat. cbn [app Nat.add]. rewrite run_call by done. change (4 <? 0) with false. cbv beta iota.
  assert (run (S (S f)) (fstat 4) ((0, st) :: (0, []) :: ans)
    = mkRan [(CFstat 4, (0, st))] (Returned (0, stat_of st)) (S f) ((0, []) :: ans)) as E
    by (unfold fstat; rewrite run_call by done; cbv beta iota; by rewrite run_ret).
  erewrite run_seq by exact E. cbv beta iota. rewrite run_call by done. cbv beta. by rewrite run_ret.
Qed.

Lemma le_val_inum v rest : 0 <= v < 2 ^ 16 -> le_val (take 2 (le_bytes 2 v ++ rest)) = v.
Proof.
  intros Hv. rewrite take_app_length' by (by rewrite le_bytes_length). rewrite le_val_le_bytes. apply Z.mod_small. done.
Qed.

Definition entry_lines (path : list Z) (e : entry) : list Z :=
  if en_inum e =? 0 then [] else ls_line (entry_path path e) (stat_of (en_stat e)).

Lemma run_ls_entry path fd e f ans :
  entry_ok e ->
  exists f' h, run f' (ls_entry path fd) (serve_entry path e ++ ans) = mkRan h (Returned (inl tt)) f ans
    /\ sent 1 h = entry_lines path e.
Proof.
  intros [Hin Hname]. unfold serve_entry, entry_lines. set (de := le_bytes 2 (en_inum e) ++ en_name e).
  assert (length de = 16%nat) as Hde by (unfold de; rewrite length_app, le_bytes_length; lia).
  assert (le_val (take 2 de) = en_inum e) as Hi by (by apply le_val_inum).
  assert (take (Z.to_nat DIRSIZ) (drop 2 de) = en_name e) as Hn.
  { unfold de. rewrite drop_app_length' by (by rewrite le_bytes_length).
    change (Z.to_nat DIRSIZ) with 14%nat. rewrite <- Hname. apply firstn_all. }
  assert (answer_ok (CRead fd DIRENT_SIZE) (16, de) = true) as Hok by (cbn [answer_ok fst snd]; rewrite Hde; done).
  destruct (en_inum e =? 0) eqn:Ez.
  - exists (S f), [(CRead fd DIRENT_SIZE, (16, de))]. split; [|done]. unfold ls_entry. cbn [app].
    rewrite run_call by done. cbv beta iota. change (negb (16 =? DIRENT_SIZE)) with false. cbv iota.
    by rewrite Hi, Ez, run_ret.
  - set (line := ls_line (entry_path path e) (stat_of (en_stat e))).
    destruct (run_puts 1 line f ans) as (hp & Ep & Hp).
    destruct (run_stat (entry_path path e) (en_stat e) (length line + f) (replicate (length line) (1, []) ++ ans))
      as (hs & Es & Hs).
    exists (S (3 + (length line + f))), ((CRead fd DIRENT_SIZE, (16, de)) :: hs ++ hp). split.
    + unfold ls_entry. rewrite <- app_comm_cons, <- app_assoc. rewrite run_call by done. cbv beta iota.
      change (negb (16 =? DIRENT_SIZE)) with false. cbv iota zeta. rewrite Hi, Ez, Hn. fold (entry_path path e).
      erewrite run_seq by exact Es. cbv beta iota. change (0 <? 0) with false. cbv iota. fold line.
      erewrite run_seq by exact Ep. cbv beta. rewrite run_ret. unfold made, prepend. cbn. by rewrite app_nil_r.
    + change (sent 1 (hs ++ hp) = line). by rewrite sent_app, Hs, (sent_puts _ _ _ _ Hp).
Qed.

Lemma run_ls_dir path fd es f ans :
  Forall entry_ok es ->
  exists f' h, run f' (ls_dir path fd) (concat (map (serve_entry path) es) ++ (0, []) :: ans)
    = mkRan h (Returned tt) f ans /\ sent 1 h = listing path es.
Proof.
  induction 1 as [|e es He _ (f' & h & IH & Hh)].
  { exists (S f), [(CRead fd DIRENT_SIZE, (0, []))]. split; [|done]. apply run_iter_last.
    cbn [map concat app]. unfold ls_entry. rewrite run_call by done. cbv beta iota.
    change (negb (0 =? DIRENT_SIZE)) with true. cbv iota. by rewrite run_ret. }
  destruct (run_ls_entry path fd e (S f') (concat (map (serve_entry path) es) ++ (0, []) :: ans) He)
    as (f1 & h1 & E1 & H1).
  exists f1, (h1 ++ h). cbn [map concat]. rewrite <- app_assoc. split.
  - unfold ls_dir. erewrite run_iter_again by exact E1. unfold ls_dir in IH. by rewrite IH.
  - by rewrite sent_app, H1, Hh.
Qed.

(** ls prints a directory: when the kernel serves the entries of [path] and
    accepts the output, ls exits 0 and has written one line for each entry in
    use, in order, and nothing else. *)
Lemma ls_lists path st es name :
  Forall (fun c => c <> 0) path -> (length path <= 496)%nat -> st_type (stat_of st) = T_DIR ->
  Forall entry_ok es ->
  exists f, let x := run f (ls_main [name; path]) (serve_dir path st es) in
    r_state x = Stopped (Exited 0) /\ sent 1 (r_hist x) = listing path es.
Proof.
  intros Hp Hlen Hst Hes. destruct (run_ls_dir path 3 es 2 [(0, [])] Hes) as (f & h & E & Hh).
  exists (2 + f)%nat. unfold ls_main. cbn [length Nat.ltb Nat.leb tail ls_args].
  assert (run (2 + f) (ls path) (serve_dir path st es)
    = mkRan ((COpen path O_RDONLY, (3, [])) :: (CFstat 3, (0, st)) :: h ++ [(CClose 3, (0, []))]) (Returned tt) 1 []) as E2.
  { unfold ls, serve_dir. cbn [app Nat.add]. rewrite run_call by done. change (3 <? 0) with false. cbv beta iota.
    assert (forall f ans, run (S f) (fstat 3) ((0, st) :: ans)
      = mkRan [(CFstat 3, (0, st))] (Returned (0, stat_of st)) f ans) as Ef
      by (intros; unfold fstat; rewrite run_call by done; cbv beta iota; by rewrite run_ret).
    erewrite run_seq by apply Ef. cbv beta iota. change (0 <? 0) with false. cbv iota. rewrite Hst.
    change ((T_DIR =? T_DEVICE) || (T_DIR =? T_FILE)) with false. change (T_DIR =? T_DIR) with true. cbv iota.
    rewrite (strlen_chars path) by done. unfold DIRSIZ.
    destruct (Z.gtb_spec (Z.of_nat (length path) + 1 + 14 + 1) 512); [lia|].
    erewrite run_seq by exact E. rewrite run_call by done. cbv beta. rewrite run_ret. reflexivity. }
  erewrite run_seq by exact E2. cbn [ls_args]. rewrite run_exit. split; [reflexivity|].
  cbn [prepend r_hist]. rewrite app_nil_r.
  change (sent 1 (h ++ [(CClose 3, (0, []))]) = listing path es). by rewrite sent_app, Hh, app_nil_r.
Qed.
