(* ===== verification/Utests.v ===== *)
(** * Utests: the small test programs, and the wrappers of user/ulib.c

    user/forktest.c, user/stressfs.c, user/logstress.c, user/forphan.c and
    user/dorphan.c as interaction trees over system calls, and start(),
    sbrk() and sbrklazy() of user/ulib.c. *)

From ITree Require Import Core.ITreeDefinition.
From S2P Require Import Prelude Params Machine Spinlock Strings Uart Printk Ulib Uprintf Uprog Uls.

#[local] Opaque vprintf.

(** ** user/ulib.c *)

(** wrapper so that it's OK if main() does not call exit(). *)
Definition start {A} (main : itree sysE Z) : itree sysE A := r ← main; exit r.

Definition sbrk (n : Z) : itree sysE Z := '(r, _) ← sys (CSbrk n SBRK_EAGER); mret r.
Definition sbrklazy (n : Z) : itree sysE Z := '(r, _) ← sys (CSbrk n SBRK_LAZY); mret r.

(** ** forktest *)
Definition FORKTEST_N : nat := 1000.

Definition print (s : list Z) : itree sysE unit := sys (CWrite 1 (take (Z.to_nat (strlen s)) s)) ;; mret tt.

(** for (n = 0; n < N; n++) fork(): how many children were made. *)
Fixpoint forktest_forks (more n : nat) : itree sysE nat :=
  match more with
  | O => mret n
  | S more =>
      '(pid, _) ← sys CFork;
      if pid <? 0 then mret n else
      if pid =? 0 then exit 0 else
      forktest_forks more (S n)
  end.

(** for (; n > 0; n--) wait(0). *)
Fixpoint forktest_waits (n : nat) : itree sysE unit :=
  match n with
  | O => mret tt
  | S n =>
      '(r, _) ← sys CWait;
      if r <? 0 then
        print (ln "wait stopped early") ;;
        exit 1
      else forktest_waits n
  end.

Definition forktest : itree sysE unit :=
  print (ln "fork test") ;;
  n ← forktest_forks FORKTEST_N 0;
  if (n =? FORKTEST_N)%nat then
    print (ln "fork claimed to work N times!") ;;
    exit 1
  else
  forktest_waits n ;;
  '(r, _) ← sys CWait;
  if negb (r =? -1) then
    print (ln "wait got too many") ;;
    exit 1
  else
  print (ln "fork test OK").

Definition forktest_main : itree sysE unit := forktest ;; exit 0.

(** ** forphan, dorphan *)

(** for (;;) pause(1000): sit around until killed. *)
Definition sit_around : itree sysE unit := ITree.iter (fun _ : unit => sys (CPause 1000) ;; mret (inl tt)) tt.

Definition forphan_main (argv : list (list Z)) : itree sysE unit :=
  let s := head argv in
  let ff := str "file0" in
  '(fd, _) ← sys (COpen ff (Z.lor O_CREATE O_WRONLY));
  if fd <? 0 then
    printf (ln "%s: open failed") [AStr s] ;;
    exit 1
  else
  '(r, st) ← fstat fd;
  if r <? 0 then
    fprintf 2 (ln "%s: cannot stat %s") [AStr s; AStr (Some (str "ff"))] ;;
    exit 1
  else
  '(r, _) ← sys (CUnlink ff);
  if r <? 0 then
    printf (ln "%s: unlink failed") [AStr s] ;;
    exit 1
  else
  '(r, _) ← sys (COpen ff O_RDONLY);
  if negb (r =? -1) then
    printf (ln "%s: open successed") [AStr s] ;;
    exit 1
  else
  printf (ln "wait for kill and reclaim %d") [AInt (st_ino st)] ;;
  sit_around.

Definition dorphan_main (argv : list (list Z)) : itree sysE unit :=
  let s := head argv in
  '(r, _) ← sys (CMkdir (str "dd"));
  if negb (r =? 0) then
    printf (ln "%s: mkdir dd failed") [AStr s] ;;
    exit 1
  else
  '(r, _) ← sys (CChdir (str "dd"));
  if negb (r =? 0) then
    printf (ln "%s: chdir dd failed") [AStr s] ;;
    exit 1
  else
  '(r, _) ← sys (CUnlink (str "../dd"));
  if r <? 0 then
    printf (ln "%s: unlink failed") [AStr s] ;;
    exit 1
  else
  printf (ln "wait for kill and reclaim") [] ;;
  sit_around.

(** ** stressfs *)
Fixpoint repeat_ (n : nat) (m : itree sysE unit) : itree sysE unit :=
  match n with O => mret tt | S n => m ;; repeat_ n m end.

(** for (i = 0; i < 4; i++) if (fork() > 0) break: the value of [i]. *)
Fixpoint stressfs_forks (more : nat) (i : Z) : itree sysE Z :=
  match more with
  | O => mret i
  | S more =>
      '(r, _) ← sys CFork;
      if r >? 0 then mret i else stressfs_forks more (i + 1)
  end.

(** path[8] += i *)
Definition stressfs_path (i : Z) : list Z := alter (fun c => u8 (c + i)) 8%nat (str "stressfs0").

Definition stressfs_main : itree sysE unit :=
  printf (ln "stressfs starting") [] ;;
  let data := replicate 512 (chr "a") in
  i ← stressfs_forks 4 0;
  printf (ln "write %d") [AInt i] ;;
  let path := stressfs_path i in
  '(fd, _) ← sys (COpen path (Z.lor O_CREATE O_RDWR));
  repeat_ 20 (sys (CWrite fd data) ;; mret tt) ;;
  sys (CClose fd) ;;
  printf (ln "read") [] ;;
  '(fd, _) ← sys (COpen path O_RDONLY);
  repeat_ 20 (sys (CRead fd 512) ;; mret tt) ;;
  sys (CClose fd) ;;
  sys CWait ;;
  exit 0.

(** ** logstress *)
Definition LOGSTRESS_N : nat := 250.
Definition SZ : Z := 2000.

(** The [N] writes of the child. *)
Fixpoint logstress_writes (n : nat) (fd : Z) (buf : list Z) : itree sysE unit :=
  match n with
  | O => exit 0
  | S n =>
      '(r, _) ← sys (CWrite fd buf);
      if negb (r =? SZ) then
        printf (ln "write failed %d") [AInt r] ;;
        exit 1
      else logstress_writes n fd buf
  end.

(** The child for argument [i]; memset() fills [SZ] bytes from [buf] on. *)
Definition logstress_child (argv0 : option (list Z)) (i : Z) (path : list Z) : itree sysE unit :=
  '(fd, _) ← sys (COpen path (Z.lor O_CREATE O_RDWR));
  if fd <? 0 then
    printf (ln "%s: create %s failed") [AStr argv0; AStr (Some path)] ;;
    exit 1
  else logstress_writes LOGSTRESS_N fd (replicate (Z.to_nat SZ) (u8 (chr "0" + i))).

Fixpoint logstress_forks (argv0 : option (list Z)) (i : Z) (args : list (list Z)) : itree sysE unit :=
  match args with
  | [] => mret tt
  | a :: r =>
      '(pid1, _) ← sys CFork;
      if pid1 <? 0 then
        printf (ln "%s: fork failed") [AStr argv0] ;;
        exit 1
      else if pid1 =? 0 then logstress_child argv0 i a
      else logstress_forks argv0 (i + 1) r
  end.

(** wait(&xstatus): a failed wait() leaves [xstatus] as it is. *)
Fixpoint logstress_waits (args : list (list Z)) (xstatus : Z) : itree sysE Z :=
  match args with
  | [] => mret 0
  | _ :: r =>
      '(pid, b) ← sys CWait;
      let xstatus := if pid <? 0 then xstatus else s32 (le_val (take 4 b)) in
      if negb (xstatus =? 0) then exit xstatus else logstress_waits r xstatus
  end.

(** [uninit]: the value of the local [xstatus] before the first wait(). *)
Definition logstress_main (argv : list (list Z)) (uninit : Z) : itree sysE Z :=
  logstress_forks (head argv) 1 (tail argv) ;;
  logstress_waits (tail argv) uninit.

(** ** What a successful forktest shows *)

(** The children made, and those collected. *)
Definition made_child (e : call * answer) : bool := if e.1 is CFork then 0 <? e.2.1 else false.
Definition got_child (e : call * answer) : bool := if e.1 is CWait then 0 <=? e.2.1 else false.
Definition forked (h : history) : nat := length (List.filter made_child h).
Definition reaped (h : history) : nat := length (List.filter got_child h).

Lemma forked_snoc h e : forked (h ++ [e]) = (forked h + if made_child e then 1 else 0)%nat.
Proof. unfold forked. rewrite List.filter_app, length_app. cbn. by destruct (made_child e). Qed.
Lemma reaped_snoc h e : reaped (h ++ [e]) = (reaped h + if got_child e then 1 else 0)%nat.
Proof. unfold reaped. rewrite List.filter_app, length_app. cbn. by destruct (got_child e). Qed.

Definition refused (c : call) (h : history) : Prop := exists a : answer, (c, a) ∈ h /\ a.1 < 0.

Lemma refused_app c h h' : refused c h -> refused c (h ++ h').
Proof. intros (a & Ha & ?). exists a. split; [apply elem_of_app; by left|done]. Qed.

(** The parent exits with status 0 only when a fork() was refused, every
    child was collected and one more wait() found nothing; a child does right
    after its fork(). *)
Definition forktest_seen (e : stop) (h : history) : Prop :=
  match e with
  | Running => True
  | Exited st =>
      st = 1 \/ st = 0 /\ ((exists h0 b, h = h0 ++ [(CFork, (0, b))])
                        \/ refused CFork h /\ forked h = reaped h /\ refused CWait h)
  | Became _ _ => False
  end.
Definition forktest_post {R} (P : R -> history -> Prop) (s : state R) (h : history) : Prop :=
  match s with Returned r => P r h | Stopped e => forktest_seen e h end.

Lemma wlp_print {R} s (k : unit -> itree sysE R) (P : R -> history -> Prop) h :
  (forall a, wlp (k tt) (forktest_post P) (h ++ [(CWrite 1 (take (Z.to_nat (strlen s)) s), a)])) ->
  wlp (mbind k (print s)) (forktest_post P) h.
Proof. intros H. apply wlp_bind, wlp_call; [done|done|]. intros a _. apply wlp_ret, H. Qed.

Lemma forktest_forks_ok m n h :
  forked h = n ->
  wlp (forktest_forks m n) (forktest_post (fun n' h' =>
    forked h' = n' /\ reaped h' = reaped h /\ (n' = (n + m)%nat \/ refused CFork h'))) h.
Proof.
  revert n h. induction m as [|m IH]; intros n h Hn; cbn [forktest_forks].
  { apply wlp_ret. split_and!; [done|done|left; lia]. }
  apply wlp_call; [done|done|]. intros [pid b] _. destruct (Z.ltb_spec pid 0).
  { apply wlp_ret. cbn. rewrite forked_snoc, reaped_snoc. cbn. rewrite (proj2 (Z.ltb_ge 0 pid)) by lia.
    split_and!; [lia|lia|]. right. exists (pid, b). split; [|cbn; lia]. apply elem_of_app. right. by left. }
  destruct (Z.eqb_spec pid 0) as [->|].
  { apply wlp_exit; [done|]. right. split; [done|]. left. by eexists _, _. }
  eapply wlp_mono; [|apply (IH (S n))].
  - intros [n'|e] h'; [|done]. intros (H1 & H2 & H3). cbn. rewrite reaped_snoc in H2. cbn in H2.
    split_and!; [done|lia|destruct H3; [left; lia|by right]].
  - rewrite forked_snoc. cbn. rewrite (proj2 (Z.ltb_lt 0 pid)) by lia. lia.
Qed.

Lemma forktest_waits_ok n h :
  refused CFork h ->
  wlp (forktest_waits n) (forktest_post (fun _ h' =>
    refused CFork h' /\ forked h' = forked h /\ reaped h' = (reaped h + n)%nat)) h.
Proof.
  revert h. induction n as [|n IH]; intros h Hr; cbn [forktest_waits].
  { apply wlp_ret. split_and!; [done|done|lia]. }
  apply wlp_call; [done|done|]. intros [r b] _. destruct (Z.ltb_spec r 0).
  { apply wlp_print. intros a. apply wlp_exit; [done|by left]. }
  eapply wlp_mono; [|apply IH; destruct Hr as (a & Ha & ?); exists a; split; [apply elem_of_app; by left|done]].
  intros [[]|e] h'; [|done]. intros (H1 & H2 & H3). cbn. rewrite forked_snoc in H2. rewrite reaped_snoc in H3.
  cbn in H2, H3. rewrite (proj2 (Z.leb_le 0 r)) in H3 by lia. split_and!; [done|lia|lia].
Qed.

(** Whatever the kernel answers, forktest reports success only if it has
    been refused a child and has collected exactly the children it made. *)
Lemma forktest_honest f ans :
  exists e, r_state (run f forktest_main ans) = Stopped e /\ forktest_seen e (r_hist (run f forktest_main ans)).
Proof.
  assert (wlp forktest_main (forktest_post (fun _ _ => False)) []) as H.
  2:{ specialize (H f ans). cbn [app] in H. destruct (r_state _) as [|e]; [done|by exists e]. }
  apply wlp_bind, wlp_print. intros a0. apply wlp_bind.
  eapply wlp_mono; [|by apply forktest_forks_ok]. intros [n|e] h1; [|done]. intros (H1 & H2 & H3).
  rewrite reaped_snoc in H2. change (reaped h1 = 0%nat) in H2. cbn [seq_post]. destruct (Nat.eqb_spec n FORKTEST_N) as [->|Hn].
  { apply wlp_print. intros a. apply wlp_exit; [done|by left]. }
  destruct H3 as [?|Hr]; [done|]. apply wlp_bind. eapply wlp_mono; [|by apply forktest_waits_ok].
  intros [[]|e] h2; [|done]. intros (H4 & H5 & H6). cbn [seq_post].
  apply wlp_call; [done|done|]. intros [r b] _. destruct (Z.eqb_spec r (-1)) as [->|]; cbn [negb].
  2:{ apply wlp_print. intros a. apply wlp_exit; [done|by left]. }
  apply wlp_call; [done|done|]. intros a _. apply wlp_ret. apply wlp_exit; [done|]. right. split; [done|].
  right. rewrite !forked_snoc, !reaped_snoc. cbn [made_child got_child fst snd].
  change (0 <=? -1) with false. cbn [Nat.add]. rewrite !Nat.add_0_r.
  split_and!; [by apply refused_app, refused_app|lia|]. apply refused_app. exists (-1, b). split; [|done].
  apply elem_of_app. right. by left.
Qed.

(** A kernel with room for three children passes. *)
Definition forktest_room : list answer :=
  [(10, [])] ++ [(2, []); (3, []); (4, []); (-1, [])] ++ [(3, []); (2, []); (4, []); (-1, [])] ++ [(13, [])].
Example forktest_passes :
  r_state (run 1000 forktest_main forktest_room) = Stopped (Exited 0).
Proof. vm_compute. reflexivity. Qed.

(** ** stressfs and logstress *)

(** The processes of stressfs use different files. *)
Lemma stressfs_paths i j :
  0 <= i <= 4 -> 0 <= j <= 4 -> stressfs_path i = stressfs_path j -> i = j.
Proof.
  intros Hi Hj E. apply (f_equal (fun l => l !! 8%nat)) in E. unfold stressfs_path in E.
  rewrite !list_lookup_alter_eq in E. cbn in E. injection E as E. unfold u8, wrap_u in E.
  rewrite !Z.mod_small in E by (cbn; lia). lia.
Qed.

(** The status of logstress: 0 if every child collected reported 0, otherwise
    what the first other one reported. *)
Fixpoint first_failure (x : Z) (ans : list answer) : Z :=
  match ans with
  | [] => 0
  | a :: r =>
      let x := if a.1 <? 0 then x else s32 (le_val (take 4 a.2)) in
      if x =? 0 then first_failure x r else x
  end.

Lemma logstress_reports args x f ans :
  (length args < f)%nat -> length ans = length args -> Forall (fun a : answer => -1 <= a.1) ans ->
  r_state (run f (start (A := unit) (logstress_waits args x)) ans) = Stopped (Exited (first_failure x ans)).
Proof.
  revert x f ans. induction args as [|w args IH]; intros x f ans Hf Hl Hok.
  { destruct ans; [|done]. destruct f as [|f]; [cbn in Hf; lia|]. unfold start. cbn [logstress_waits].
    erewrite run_seq by apply run_ret. reflexivity. }
  destruct ans as [|a ans]; [done|]. apply Forall_cons in Hok as [Ha Hok]. cbn [length] in Hf, Hl.
  destruct f as [|f]; [lia|].
  assert (forall t : itree sysE Z, run f (start (A := unit) t) ans = after (run f t ans) (fun r => exit r)) as Es
    by (intros t; apply run_bind).
  unfold start. change (mbind ?k ?t) with (ITree.bind t k). rewrite run_bind. cbn [logstress_waits].
  rewrite run_call by (done || cbn; lia). destruct a as [pid b]. cbv beta iota. rewrite after_made.
  cbn [r_state made first_failure fst snd]. set (y := if pid <? 0 then x else _).
  destruct (Z.eqb_spec y 0) as [Hy|Hy]; cbn [negb].
  - rewrite <- Es. apply IH; [lia|lia|done].
  - destruct f as [|f]; [lia|]. by rewrite run_exit.
Qed.
