(* ===== verification/Ufiles.v ===== *)
(** * Ufiles: the file system tests of user/usertests.c

    Each test as an interaction tree over system calls, as in [Utests].  A
    test gets its name [s]; it runs in a process of its own, started with the
    buffer [buf] still zero.  [u] is what an uninitialised local integer
    holds: it is seen when wait() fails and so stores no status. *)

From ITree Require Import Core.ITreeDefinition.
From S2P Require Import Prelude Params Machine Spinlock Strings Uart Printk Ulib Uprintf Uprog Uls Utests.

#[local] Opaque vprintf.

(** ** The calls, by their results *)
Definition open (path : list Z) (mode : Z) : itree sysE Z := '(r, _) ← sys (COpen path mode); mret r.
Definition close (fd : Z) : itree sysE unit := sys (CClose fd) ;; mret tt.
Definition unlink (path : list Z) : itree sysE Z := '(r, _) ← sys (CUnlink path); mret r.
Definition link (old new : list Z) : itree sysE Z := '(r, _) ← sys (CLink old new); mret r.
Definition mkdir (path : list Z) : itree sysE Z := '(r, _) ← sys (CMkdir path); mret r.
Definition chdir (path : list Z) : itree sysE Z := '(r, _) ← sys (CChdir path); mret r.
Definition write (fd : Z) (bytes : list Z) : itree sysE Z := '(r, _) ← sys (CWrite fd bytes); mret r.
Definition read (fd n : Z) : itree sysE (Z * list Z) := sys (CRead fd n).
Definition fork : itree sysE Z := '(r, _) ← sys CFork; mret r.
Definition pause (n : Z) : itree sysE unit := sys (CPause n) ;; mret tt.
Definition kill (pid : Z) : itree sysE unit := sys (CKill pid) ;; mret tt.

(** wait(0) and wait(&xstatus); the status keeps its value if wait() fails. *)
Definition wait0 : itree sysE Z := '(r, _) ← sys CWait; mret r.
Definition wstatus (xstatus : Z) (a : answer) : Z := if a.1 <? 0 then xstatus else s32 (le_val (take 4 a.2)).
Definition wait (xstatus : Z) : itree sysE (Z * Z) := a ← sys CWait; mret (a.1, wstatus xstatus a).

(** [if (bad) { printf(fmt, ...); exit(1); }] *)
Definition check (bad : bool) (fmt : list Z) (args : list varg) : itree sysE unit :=
  if bad then printf fmt args ;; exit 1 else mret tt.

(** [for] over the given values, and with a [break] where the body says so. *)
Fixpoint for_ {A} (l : list A) (f : A -> itree sysE unit) : itree sysE unit :=
  match l with [] => mret tt | x :: r => f x ;; for_ r f end.
Fixpoint for_break {A} (l : list A) (f : A -> itree sysE bool) : itree sysE unit :=
  match l with [] => mret tt | x :: r => stop ← f x; if stop : bool then mret tt else for_break r f end.

Definition BUFSZ : Z := (MAXOPBLOCKS + 2) * BSIZE.
Definition buf0 : list Z := replicate (Z.to_nat BUFSZ) 0.

(** A byte of a name: a character plus a number. *)
Definition plus (c : string) (i : Z) : Z := u8 (chr c + i).

Section files.
Context (u : Z) (s : list Z).
Let S_ : varg := AStr (Some s).

(** test O_TRUNC. *)
Definition truncate1 : itree sysE unit :=
  let f := str "truncfile" in
  unlink f ;;
  fd1 ← open f (Z.lor (Z.lor O_CREATE O_WRONLY) O_TRUNC);
  write fd1 (str "abcd") ;;
  close fd1 ;;
  fd2 ← open f O_RDONLY;
  '(n, _) ← read fd2 32;
  check (negb (n =? 4)) (ln "%s: read %d bytes, wanted 4") [S_; AInt n] ;;
  fd1 ← open f (Z.lor O_WRONLY O_TRUNC);
  fd3 ← open f O_RDONLY;
  '(n, _) ← read fd3 32;
  (if negb (n =? 0) then
    printf (ln "aaa fd3=%d") [AInt fd3] ;;
    printf (ln "%s: read %d bytes, wanted 0") [S_; AInt n] ;;
    exit 1
  else mret tt) ;;
  '(n, _) ← read fd2 32;
  (if negb (n =? 0) then
    printf (ln "bbb fd2=%d") [AInt fd2] ;;
    printf (ln "%s: read %d bytes, wanted 0") [S_; AInt n] ;;
    exit 1
  else mret tt) ;;
  write fd1 (str "abcdef") ;;
  '(n, _) ← read fd3 32;
  check (negb (n =? 6)) (ln "%s: read %d bytes, wanted 6") [S_; AInt n] ;;
  '(n, _) ← read fd2 32;
  check (negb (n =? 2)) (ln "%s: read %d bytes, wanted 2") [S_; AInt n] ;;
  unlink f ;;
  close fd1 ;;
  close fd2 ;;
  close fd3.

(** write to an open FD whose file has just been truncated. *)
Definition truncate2 : itree sysE unit :=
  let f := str "truncfile" in
  unlink f ;;
  fd1 ← open f (Z.lor (Z.lor O_CREATE O_TRUNC) O_WRONLY);
  write fd1 (str "abcd") ;;
  fd2 ← open f (Z.lor O_TRUNC O_WRONLY);
  n ← write fd1 (str "x");
  check (negb (n =? -1)) (ln "%s: write returned %d, expected -1") [S_; AInt n] ;;
  unlink f ;;
  close fd1 ;;
  close fd2.

Definition truncate3 : itree sysE unit :=
  let f := str "truncfile" in
  fd ← open f (Z.lor (Z.lor O_CREATE O_TRUNC) O_WRONLY);
  close fd ;;
  pid ← fork;
  check (pid <? 0) (ln "%s: fork failed") [S_] ;;
  if pid =? 0 then
    for_ (seqZ 0 100) (fun _ =>
      fd ← open f O_WRONLY;
      check (fd <? 0) (ln "%s: open failed") [S_] ;;
      n ← write fd (str "1234567890");
      check (negb (n =? 10)) (ln "%s: write got %d, expected 10") [S_; AInt n] ;;
      close fd ;;
      fd ← open f O_RDONLY;
      read fd 32 ;;
      close fd) ;;
    exit 0
  else
  for_ (seqZ 0 150) (fun _ =>
    fd ← open f (Z.lor (Z.lor O_CREATE O_WRONLY) O_TRUNC);
    check (fd <? 0) (ln "%s: open failed") [S_] ;;
    n ← write fd (str "xxx");
    check (negb (n =? 3)) (ln "%s: write got %d, expected 3") [S_; AInt n] ;;
    close fd) ;;
  '(_, xstatus) ← wait u;
  unlink f ;;
  exit xstatus.

(** does chdir() call iput(p->cwd) in a transaction? *)
Definition iputtest : itree sysE unit :=
  r ← mkdir (str "iputdir");
  check (r <? 0) (ln "%s: mkdir failed") [S_] ;;
  r ← chdir (str "iputdir");
  check (r <? 0) (ln "%s: chdir iputdir failed") [S_] ;;
  r ← unlink (str "../iputdir");
  check (r <? 0) (ln "%s: unlink ../iputdir failed") [S_] ;;
  r ← chdir (str "/");
  check (r <? 0) (ln "%s: chdir / failed") [S_].

(** does exit() call iput(p->cwd) in a transaction? *)
Definition exitiputtest : itree sysE unit :=
  pid ← fork;
  check (pid <? 0) (ln "%s: fork failed") [S_] ;;
  (if pid =? 0 then
    r ← mkdir (str "iputdir");
    check (r <? 0) (ln "%s: mkdir failed") [S_] ;;
    r ← chdir (str "iputdir");
    check (r <? 0) (ln "%s: child chdir failed") [S_] ;;
    r ← unlink (str "../iputdir");
    check (r <? 0) (ln "%s: unlink ../iputdir failed") [S_] ;;
    exit 0
  else mret tt) ;;
  '(_, xstatus) ← wait u;
  exit xstatus.

(** does the error path in open() for attempt to write a directory call
    iput() in a transaction? *)
Definition openiputtest : itree sysE unit :=
  r ← mkdir (str "oidir");
  check (r <? 0) (ln "%s: mkdir oidir failed") [S_] ;;
  pid ← fork;
  check (pid <? 0) (ln "%s: fork failed") [S_] ;;
  (if pid =? 0 then
    fd ← open (str "oidir") O_RDWR;
    check (fd >=? 0) (ln "%s: open directory for write succeeded") [S_] ;;
    exit 0
  else mret tt) ;;
  pause 1 ;;
  r ← unlink (str "oidir");
  check (negb (r =? 0)) (ln "%s: unlink failed") [S_] ;;
  '(_, xstatus) ← wait u;
  exit xstatus.

(** simple file system tests *)
Definition opentest : itree sysE unit :=
  fd ← open (str "echo") 0;
  check (fd <? 0) (ln "%s: open echo failed!") [S_] ;;
  close fd ;;
  fd ← open (str "doesnotexist") 0;
  check (fd >=? 0) (ln "%s: open doesnotexist succeeded!") [S_].

Definition writetest : itree sysE unit :=
  let N := 100 in let SZ := 10 in
  fd ← open (str "small") (Z.lor O_CREATE O_RDWR);
  check (fd <? 0) (ln "%s: error: creat small failed!") [S_] ;;
  for_ (seqZ 0 N) (fun i =>
    r ← write fd (str "aaaaaaaaaa");
    check (negb (r =? SZ)) (ln "%s: error: write aa %d new file failed") [S_; AInt i] ;;
    r ← write fd (str "bbbbbbbbbb");
    check (negb (r =? SZ)) (ln "%s: error: write bb %d new file failed") [S_; AInt i]) ;;
  close fd ;;
  fd ← open (str "small") O_RDONLY;
  check (fd <? 0) (ln "%s: error: open small failed!") [S_] ;;
  '(i, _) ← read fd (N * SZ * 2);
  check (negb (i =? N * SZ * 2)) (ln "%s: read failed") [S_] ;;
  close fd ;;
  r ← unlink (str "small");
  check (r <? 0) (ln "%s: unlink small failed") [S_].

(** The first int of a buffer. *)
Definition int0 (b : list Z) : Z := s32 (le_val (take 4 b)).

(** for (;;) of writebig(): [n] blocks have been read, [b] is the buffer. *)
Definition writebig_reads (fd : Z) : Z * list Z -> itree sysE unit :=
  ITree.iter (fun '(n, b) =>
    '(i, d) ← read fd BSIZE;
    let b := put_bytes b 0 d in
    if i =? 0 then
      (if negb (n =? MAXFILE) then
        printf (str "%s: read only %d blocks from big") [S_; AInt n] ;;
        exit 1
      else mret (inr tt))
    else
    check (negb (i =? BSIZE)) (ln "%s: read failed %d") [S_; AInt i] ;;
    check (negb (int0 b =? n)) (ln "%s: read content of block %d is %d") [S_; AInt n; AInt (int0 b)] ;;
    mret (inl (n + 1, b))).

Definition writebig : itree sysE unit :=
  fd ← open (str "big") (Z.lor O_CREATE O_RDWR);
  check (fd <? 0) (ln "%s: error: creat big failed!") [S_] ;;
  for_ (seqZ 0 MAXFILE) (fun i =>
    r ← write fd (take (Z.to_nat BSIZE) (put_bytes buf0 0 (le_bytes 4 i)));
    check (negb (r =? BSIZE)) (ln "%s: error: write big file failed i=%d") [S_; AInt i]) ;;
  close fd ;;
  fd ← open (str "big") O_RDONLY;
  check (fd <? 0) (ln "%s: error: open big failed!") [S_] ;;
  writebig_reads fd (0, put_bytes buf0 0 (le_bytes 4 (MAXFILE - 1))) ;;
  close fd ;;
  r ← unlink (str "big");
  check (r <? 0) (ln "%s: unlink big failed") [S_].

(** many creates, followed by unlink test *)
Definition createtest : itree sysE unit :=
  let name i := [chr "a"; plus "0" i] in
  for_ (seqZ 0 52) (fun i =>
    fd ← open (name i) (Z.lor O_CREATE O_RDWR);
    close fd) ;;
  for_ (seqZ 0 52) (fun i => unlink (name i) ;; mret tt).

Definition dirtest : itree sysE unit :=
  r ← mkdir (str "dir0");
  check (r <? 0) (ln "%s: mkdir failed") [S_] ;;
  r ← chdir (str "dir0");
  check (r <? 0) (ln "%s: chdir dir0 failed") [S_] ;;
  r ← chdir (str "..");
  check (r <? 0) (ln "%s: chdir .. failed") [S_] ;;
  r ← unlink (str "dir0");
  check (r <? 0) (ln "%s: unlink dir0 failed") [S_].

(** two processes write to the same file descriptor *)
Definition SHARED_SZ : Z := 10.
Definition count (c : Z) (b : list Z) : Z := Z.of_nat (length (filter (fun x => x = c) b)).

(** while ((n = read(fd, buf, sizeof(buf))) > 0): the counts, and the buffer,
    all of which is looked at after each read(). *)
Definition sharedfd_reads (fd : Z) : list Z * Z * Z -> itree sysE (Z * Z) :=
  ITree.iter (fun '(b, nc, np) =>
    '(n, d) ← read fd SHARED_SZ;
    if negb (0 <? n) then mret (inr (nc, np)) else
    let b := put_bytes b 0 d in
    mret (inl (b, nc + count (chr "c") b, np + count (chr "p") b))).

Definition sharedfd : itree sysE unit :=
  let N := 1000 in
  unlink (str "sharedfd") ;;
  fd ← open (str "sharedfd") (Z.lor O_CREATE O_RDWR);
  check (fd <? 0) (str "%s: cannot open sharedfd for writing") [S_] ;;
  pid ← fork;
  let b := replicate (Z.to_nat SHARED_SZ) (if pid =? 0 then chr "c" else chr "p") in
  for_ (seqZ 0 N) (fun _ =>
    r ← write fd b;
    check (negb (r =? SHARED_SZ)) (ln "%s: write sharedfd failed") [S_]) ;;
  (if pid =? 0 then exit 0 else
    '(_, xstatus) ← wait u;
    if negb (xstatus =? 0) then exit xstatus else mret tt) ;;
  close fd ;;
  fd ← open (str "sharedfd") 0;
  check (fd <? 0) (ln "%s: cannot open sharedfd for reading") [S_] ;;
  '(nc, np) ← sharedfd_reads fd (b, 0, 0);
  close fd ;;
  unlink (str "sharedfd") ;;
  if (nc =? N * SHARED_SZ) && (np =? N * SHARED_SZ) then exit 0
  else
    printf (ln "%s: nc/np test fails") [S_] ;;
    exit 1.

(** four processes write different files at the same time, to test block
    allocation. *)
Definition FOUR_N : Z := 12.
Definition FOUR_SZ : Z := 500.
Definition four_name (i : Z) : list Z := [chr "f"; plus "0" i].

Definition fourfiles_child (pi : Z) : itree sysE unit :=
  fd ← open (four_name pi) (Z.lor O_CREATE O_RDWR);
  check (fd <? 0) (ln "%s: create failed") [S_] ;;
  for_ (seqZ 0 FOUR_N) (fun _ =>
    n ← write fd (replicate (Z.to_nat FOUR_SZ) (plus "0" pi));
    check (negb (n =? FOUR_SZ)) (ln "write failed %d") [AInt n]) ;;
  exit 0.

(** while ((n = read(fd, buf, sizeof(buf))) > 0): the total. *)
Definition fourfiles_reads (fd i : Z) : Z -> itree sysE Z :=
  ITree.iter (fun total =>
    '(n, d) ← read fd BUFSZ;
    if negb (0 <? n) then mret (inr total) else
    check (existsb (fun c => negb (c =? chr "0" + i)) (take (Z.to_nat n) d)) (ln "%s: wrong char") [S_] ;;
    mret (inl (total + n))).

(** for (pi = 0; pi < n; pi++) { wait(&xstatus); if (xstatus != 0) exit(f); } *)
Fixpoint wait_all (n : nat) (xstatus : Z) (f : Z -> Z) : itree sysE unit :=
  match n with
  | O => mret tt
  | S n =>
      '(_, xstatus) ← wait xstatus;
      if negb (xstatus =? 0) then exit (f xstatus) else wait_all n xstatus f
  end.

Definition fourfiles : itree sysE unit :=
  for_ (seqZ 0 4) (fun pi =>
    unlink (four_name pi) ;;
    pid ← fork;
    check (pid <? 0) (ln "%s: fork failed") [S_] ;;
    if pid =? 0 then fourfiles_child pi else mret tt) ;;
  wait_all 4 u (fun x => x) ;;
  for_ (seqZ 0 4) (fun i =>
    fd ← open (four_name i) 0;
    total ← fourfiles_reads fd i 0;
    close fd ;;
    check (negb (total =? FOUR_N * FOUR_SZ)) (ln "wrong length %d") [AInt total] ;;
    unlink (four_name i) ;;
    mret tt).

(** four processes create and delete different files in same directory *)
Definition cd_name (pi i : Z) : list Z := [plus "p" pi; plus "0" i].

Definition createdelete_child (pi : Z) : itree sysE unit :=
  for_ (seqZ 0 20) (fun i =>
    fd ← open (cd_name pi i) (Z.lor O_CREATE O_RDWR);
    check (fd <? 0) (ln "%s: create failed") [S_] ;;
    close fd ;;
    if (0 <? i) && (i mod 2 =? 0) then
      r ← unlink (cd_name pi (i / 2));
      check (r <? 0) (ln "%s: unlink failed") [S_]
    else mret tt) ;;
  exit 0.

Definition createdelete : itree sysE unit :=
  let N := 20 in
  for_ (seqZ 0 4) (fun pi =>
    pid ← fork;
    check (pid <? 0) (ln "%s: fork failed") [S_] ;;
    if pid =? 0 then createdelete_child pi else mret tt) ;;
  wait_all 4 u (fun _ => 1) ;;
  for_ (seqZ 0 N) (fun i => for_ (seqZ 0 4) (fun pi =>
    let name := cd_name pi i in
    fd ← open name 0;
    (if ((i =? 0) || (i >=? N / 2)) && (fd <? 0) then
      printf (ln "%s: oops createdelete %s didn't exist") [S_; AStr (Some name)] ;;
      exit 1
    else if ((i >=? 1) && (i <? N / 2)) && (fd >=? 0) then
      printf (ln "%s: oops createdelete %s did exist") [S_; AStr (Some name)] ;;
      exit 1
    else mret tt) ;;
    if fd >=? 0 then close fd else mret tt)) ;;
  for_ (seqZ 0 N) (fun i => for_ (seqZ 0 4) (fun pi => unlink (cd_name pi i) ;; mret tt)).

(** can I unlink a file and still read it? *)
Definition unlinkread : itree sysE unit :=
  let f := str "unlinkread" in let SZ := 5 in
  fd ← open f (Z.lor O_CREATE O_RDWR);
  check (fd <? 0) (ln "%s: create unlinkread failed") [S_] ;;
  write fd (str "hello") ;;
  close fd ;;
  fd ← open f O_RDWR;
  check (fd <? 0) (ln "%s: open unlinkread failed") [S_] ;;
  r ← unlink f;
  check (negb (r =? 0)) (ln "%s: unlink unlinkread failed") [S_] ;;
  fd1 ← open f (Z.lor O_CREATE O_RDWR);
  write fd1 (str "yyy") ;;
  close fd1 ;;
  '(n, d) ← read fd BUFSZ;
  let b := put_bytes buf0 0 d in
  check (negb (n =? SZ)) (str "%s: unlinkread read failed") [S_] ;;
  check (negb (b !!! 0%nat =? chr "h")) (ln "%s: unlinkread wrong data") [S_] ;;
  n ← write fd (take 10 b);
  check (negb (n =? 10)) (ln "%s: unlinkread write failed") [S_] ;;
  close fd ;;
  unlink f ;;
  mret tt.

Definition linktest : itree sysE unit :=
  let SZ := 5 in
  unlink (str "lf1") ;;
  unlink (str "lf2") ;;
  fd ← open (str "lf1") (Z.lor O_CREATE O_RDWR);
  check (fd <? 0) (ln "%s: create lf1 failed") [S_] ;;
  r ← write fd (str "hello");
  check (negb (r =? SZ)) (ln "%s: write lf1 failed") [S_] ;;
  close fd ;;
  r ← link (str "lf1") (str "lf2");
  check (r <? 0) (ln "%s: link lf1 lf2 failed") [S_] ;;
  unlink (str "lf1") ;;
  r ← open (str "lf1") 0;
  check (r >=? 0) (ln "%s: unlinked lf1 but it is still there!") [S_] ;;
  fd ← open (str "lf2") 0;
  check (fd <? 0) (ln "%s: open lf2 failed") [S_] ;;
  '(n, _) ← read fd BUFSZ;
  check (negb (n =? SZ)) (ln "%s: read lf2 failed") [S_] ;;
  close fd ;;
  r ← link (str "lf2") (str "lf2");
  check (r >=? 0) (ln "%s: link lf2 lf2 succeeded! oops") [S_] ;;
  unlink (str "lf2") ;;
  r ← link (str "lf2") (str "lf1");
  check (r >=? 0) (ln "%s: link non-existent succeeded! oops") [S_] ;;
  r ← link (str ".") (str "lf1");
  check (r >=? 0) (ln "%s: link . lf1 succeeded! oops") [S_].

(** test concurrent create/link/unlink of the same file *)
Definition CON_N : Z := 40.
Definition con_name (i : Z) : list Z := [chr "C"; plus "0" i].

(** The directory entries read so far: [fa] the files seen, [n] how many;
    [de] is the entry, as read() has left it. *)
Definition concreate_scan (fd : Z) : list Z * list Z * Z -> itree sysE Z :=
  ITree.iter (fun '(de, fa, n) =>
    '(r, d) ← read fd 16;
    if negb (0 <? r) then mret (inr n) else
    let de := put_bytes de 0 d in
    if le_val (take 2 de) =? 0 then mret (inl (de, fa, n)) else
    let name := drop 2 de in
    if (name !!! 0%nat =? chr "C") && (name !!! 2%nat =? 0) then
      let i := name !!! 1%nat - chr "0" in
      let shown := AStr (Some (cstr name)) in
      check ((i <? 0) || (i >=? CON_N)) (ln "%s: concreate weird file %s") [S_; shown] ;;
      check (truthy (fa !!! Z.to_nat i)) (ln "%s: concreate duplicate file %s") [S_; shown] ;;
      mret (inl (de, <[Z.to_nat i := 1]> fa, n + 1))
    else mret (inl (de, fa, n))).

(** [de0]: the uninitialised bytes of the local [de]. *)
Definition concreate (de0 : list Z) : itree sysE unit :=
  for_ (seqZ 0 CON_N) (fun i =>
    let file := con_name i in
    unlink file ;;
    pid ← fork;
    (if truthy pid && (i mod 3 =? 1) then link (str "C0") file ;; mret tt
     else if (pid =? 0) && (i mod 5 =? 1) then link (str "C0") file ;; mret tt
     else
       fd ← open file (Z.lor O_CREATE O_RDWR);
       check (fd <? 0) (ln "concreate create %s failed") [AStr (Some file)] ;;
       close fd) ;;
    if pid =? 0 then exit 0 else
    '(_, xstatus) ← wait u;
    if negb (xstatus =? 0) then exit 1 else mret tt) ;;
  fd ← open (str ".") 0;
  n ← concreate_scan fd (de0, replicate (Z.to_nat CON_N) 0, 0);
  close fd ;;
  check (negb (n =? CON_N)) (ln "%s: concreate not enough files in directory listing") [S_] ;;
  for_ (seqZ 0 CON_N) (fun i =>
    let file := con_name i in
    pid ← fork;
    check (pid <? 0) (ln "%s: fork failed") [S_] ;;
    (if ((i mod 3 =? 0) && (pid =? 0)) || ((i mod 3 =? 1) && negb (pid =? 0)) then
      for_ (seqZ 0 6) (fun _ => fd ← open file 0; close fd)
    else for_ (seqZ 0 6) (fun _ => unlink file ;; mret tt)) ;;
    if pid =? 0 then exit 0 else wait0 ;; mret tt).

(** another concurrent link/unlink/create test, to look for deadlocks.  The
    steps of a process, [x] being the random number. *)
Definition rand_next (x : Z) : Z := u32 (x * 1103515245 + 12345).
Fixpoint linkunlink_steps (n : nat) (x : Z) : itree sysE unit :=
  match n with
  | O => mret tt
  | S n =>
      let x := rand_next x in
      (if x mod 3 =? 0 then
        fd ← open (str "x") (Z.lor O_RDWR O_CREATE);
        close fd
      else if x mod 3 =? 1 then link (str "cat") (str "x") ;; mret tt
      else unlink (str "x") ;; mret tt) ;;
      linkunlink_steps n x
  end.

Definition linkunlink : itree sysE unit :=
  unlink (str "x") ;;
  pid ← fork;
  check (pid <? 0) (ln "%s: fork failed") [S_] ;;
  linkunlink_steps 100 (if truthy pid then 1 else 97) ;;
  if truthy pid then wait0 ;; mret tt else exit 0.

(** test writes that are larger than the log: the sizes 499, 970, ... *)
Definition bigwrite_sizes : list Z := (fun k => 499 + 471 * k) <$> seqZ 0 ((BUFSZ - 499 + 470) / 471).
Definition bigwrite : itree sysE unit :=
  let f := str "bigwrite" in
  unlink f ;;
  for_ bigwrite_sizes (fun sz =>
    fd ← open f (Z.lor O_CREATE O_RDWR);
    check (fd <? 0) (ln "%s: cannot create bigwrite") [S_] ;;
    for_ (seqZ 0 2) (fun _ =>
      cc ← write fd (take (Z.to_nat sz) buf0);
      check (negb (cc =? sz)) (ln "%s: write(%d) ret %d") [S_; AInt sz; AInt cc]) ;;
    close fd ;;
    unlink f ;;
    mret tt).

Definition BIG_SZ : Z := 600.
(** for (i = 0;; i++) of bigfile(): the total, [i] and the buffer. *)
Definition bigfile_reads (fd : Z) : Z * Z * list Z -> itree sysE Z :=
  ITree.iter (fun '(total, i, b) =>
    '(cc, d) ← read fd (BIG_SZ / 2);
    let b := put_bytes b 0 d in
    check (cc <? 0) (ln "%s: read bigfile failed") [S_] ;;
    if cc =? 0 then mret (inr total) else
    check (negb (cc =? BIG_SZ / 2)) (ln "%s: short read bigfile") [S_] ;;
    check (negb (b !!! 0%nat =? i / 2) || negb (b !!! Z.to_nat (BIG_SZ / 2 - 1) =? i / 2))
      (ln "%s: read bigfile wrong data") [S_] ;;
    mret (inl (total + cc, i + 1, b))).

Definition bigfile : itree sysE unit :=
  let f := str "bigfile.dat" in let N := 20 in
  unlink f ;;
  fd ← open f (Z.lor O_CREATE O_RDWR);
  check (fd <? 0) (str "%s: cannot create bigfile") [S_] ;;
  for_ (seqZ 0 N) (fun i =>
    r ← write fd (replicate (Z.to_nat BIG_SZ) i);
    check (negb (r =? BIG_SZ)) (ln "%s: write bigfile failed") [S_]) ;;
  close fd ;;
  fd ← open f 0;
  check (fd <? 0) (ln "%s: cannot open bigfile") [S_] ;;
  total ← bigfile_reads fd (0, 0, put_bytes buf0 0 (replicate (Z.to_nat BIG_SZ) (N - 1)));
  close fd ;;
  check (negb (total =? N * BIG_SZ)) (ln "%s: read bigfile wrong total") [S_] ;;
  unlink f ;;
  mret tt.

Definition subdir : itree sysE unit :=
  unlink (str "ff") ;;
  r ← mkdir (str "dd");
  check (negb (r =? 0)) (ln "%s: mkdir dd failed") [S_] ;;
  fd ← open (str "dd/ff") (Z.lor O_CREATE O_RDWR);
  check (fd <? 0) (ln "%s: create dd/ff failed") [S_] ;;
  write fd (str "ff") ;;
  close fd ;;
  r ← unlink (str "dd");
  check (r >=? 0) (ln "%s: unlink dd (non-empty dir) succeeded!") [S_] ;;
  r ← mkdir (str "/dd/dd");
  check (negb (r =? 0)) (ln "%s: subdir mkdir dd/dd failed") [S_] ;;
  fd ← open (str "dd/dd/ff") (Z.lor O_CREATE O_RDWR);
  check (fd <? 0) (ln "%s: create dd/dd/ff failed") [S_] ;;
  write fd (str "FF") ;;
  close fd ;;
  fd ← open (str "dd/dd/../ff") 0;
  check (fd <? 0) (ln "%s: open dd/dd/../ff failed") [S_] ;;
  '(cc, d) ← read fd BUFSZ;
  check (negb (cc =? 2) || negb (put_bytes buf0 0 d !!! 0%nat =? chr "f")) (ln "%s: dd/dd/../ff wrong content") [S_] ;;
  close fd ;;
  r ← link (str "dd/dd/ff") (str "dd/dd/ffff");
  check (negb (r =? 0)) (ln "%s: link dd/dd/ff dd/dd/ffff failed") [S_] ;;
  r ← unlink (str "dd/dd/ff");
  check (negb (r =? 0)) (ln "%s: unlink dd/dd/ff failed") [S_] ;;
  r ← open (str "dd/dd/ff") O_RDONLY;
  check (r >=? 0) (ln "%s: open (unlinked) dd/dd/ff succeeded") [S_] ;;
  r ← chdir (str "dd");
  check (negb (r =? 0)) (ln "%s: chdir dd failed") [S_] ;;
  r ← chdir (str "dd/../../dd");
  check (negb (r =? 0)) (ln "%s: chdir dd/../../dd failed") [S_] ;;
  r ← chdir (str "dd/../../../dd");
  check (negb (r =? 0)) (ln "%s: chdir dd/../../../dd failed") [S_] ;;
  r ← chdir (str "./..");
  check (negb (r =? 0)) (ln "%s: chdir ./.. failed") [S_] ;;
  fd ← open (str "dd/dd/ffff") 0;
  check (fd <? 0) (ln "%s: open dd/dd/ffff failed") [S_] ;;
  '(r, _) ← read fd BUFSZ;
  check (negb (r =? 2)) (ln "%s: read dd/dd/ffff wrong len") [S_] ;;
  close fd ;;
  r ← open (str "dd/dd/ff") O_RDONLY;
  check (r >=? 0) (ln "%s: open (unlinked) dd/dd/ff succeeded!") [S_] ;;
  r ← open (str "dd/ff/ff") (Z.lor O_CREATE O_RDWR);
  check (r >=? 0) (ln "%s: create dd/ff/ff succeeded!") [S_] ;;
  r ← open (str "dd/xx/ff") (Z.lor O_CREATE O_RDWR);
  check (r >=? 0) (ln "%s: create dd/xx/ff succeeded!") [S_] ;;
  r ← open (str "dd") O_CREATE;
  check (r >=? 0) (ln "%s: create dd succeeded!") [S_] ;;
  r ← open (str "dd") O_RDWR;
  check (r >=? 0) (ln "%s: open dd rdwr succeeded!") [S_] ;;
  r ← open (str "dd") O_WRONLY;
  check (r >=? 0) (ln "%s: open dd wronly succeeded!") [S_] ;;
  r ← link (str "dd/ff/ff") (str "dd/dd/xx");
  check (r =? 0) (ln "%s: link dd/ff/ff dd/dd/xx succeeded!") [S_] ;;
  r ← link (str "dd/xx/ff") (str "dd/dd/xx");
  check (r =? 0) (ln "%s: link dd/xx/ff dd/dd/xx succeeded!") [S_] ;;
  r ← link (str "dd/ff") (str "dd/dd/ffff");
  check (r =? 0) (ln "%s: link dd/ff dd/dd/ffff succeeded!") [S_] ;;
  r ← mkdir (str "dd/ff/ff");
  check (r =? 0) (ln "%s: mkdir dd/ff/ff succeeded!") [S_] ;;
  r ← mkdir (str "dd/xx/ff");
  check (r =? 0) (ln "%s: mkdir dd/xx/ff succeeded!") [S_] ;;
  r ← mkdir (str "dd/dd/ffff");
  check (r =? 0) (ln "%s: mkdir dd/dd/ffff succeeded!") [S_] ;;
  r ← unlink (str "dd/xx/ff");
  check (r =? 0) (ln "%s: unlink dd/xx/ff succeeded!") [S_] ;;
  r ← unlink (str "dd/ff/ff");
  check (r =? 0) (ln "%s: unlink dd/ff/ff succeeded!") [S_] ;;
  r ← chdir (str "dd/ff");
  check (r =? 0) (ln "%s: chdir dd/ff succeeded!") [S_] ;;
  r ← chdir (str "dd/xx");
  check (r =? 0) (ln "%s: chdir dd/xx succeeded!") [S_] ;;
  r ← unlink (str "dd/dd/ffff");
  check (negb (r =? 0)) (ln "%s: unlink dd/dd/ff failed") [S_] ;;
  r ← unlink (str "dd/ff");
  check (negb (r =? 0)) (ln "%s: unlink dd/ff failed") [S_] ;;
  r ← unlink (str "dd");
  check (r =? 0) (ln "%s: unlink non-empty dd succeeded!") [S_] ;;
  r ← unlink (str "dd/dd");
  check (r <? 0) (ln "%s: unlink dd/dd failed") [S_] ;;
  r ← unlink (str "dd");
  check (r <? 0) (ln "%s: unlink dd failed") [S_].

(** DIRSIZ is 14. *)
Definition fourteen : itree sysE unit :=
  r ← mkdir (str "12345678901234");
  check (negb (r =? 0)) (ln "%s: mkdir 12345678901234 failed") [S_] ;;
  r ← mkdir (str "12345678901234/123456789012345");
  check (negb (r =? 0)) (ln "%s: mkdir 12345678901234/123456789012345 failed") [S_] ;;
  fd ← open (str "123456789012345/123456789012345/123456789012345") O_CREATE;
  check (fd <? 0) (ln "%s: create 123456789012345/123456789012345/123456789012345 failed") [S_] ;;
  close fd ;;
  fd ← open (str "12345678901234/12345678901234/12345678901234") 0;
  check (fd <? 0) (ln "%s: open 12345678901234/12345678901234/12345678901234 failed") [S_] ;;
  close fd ;;
  r ← mkdir (str "12345678901234/12345678901234");
  check (r =? 0) (ln "%s: mkdir 12345678901234/12345678901234 succeeded!") [S_] ;;
  r ← mkdir (str "123456789012345/12345678901234");
  check (r =? 0) (ln "%s: mkdir 12345678901234/123456789012345 succeeded!") [S_] ;;
  unlink (str "123456789012345/12345678901234") ;;
  unlink (str "12345678901234/12345678901234") ;;
  unlink (str "12345678901234/12345678901234/12345678901234") ;;
  unlink (str "123456789012345/123456789012345/123456789012345") ;;
  unlink (str "12345678901234/123456789012345") ;;
  unlink (str "12345678901234") ;;
  mret tt.

Definition rmdot : itree sysE unit :=
  r ← mkdir (str "dots");
  check (negb (r =? 0)) (ln "%s: mkdir dots failed") [S_] ;;
  r ← chdir (str "dots");
  check (negb (r =? 0)) (ln "%s: chdir dots failed") [S_] ;;
  r ← unlink (str ".");
  check (r =? 0) (ln "%s: rm . worked!") [S_] ;;
  r ← unlink (str "..");
  check (r =? 0) (ln "%s: rm .. worked!") [S_] ;;
  r ← chdir (str "/");
  check (negb (r =? 0)) (ln "%s: chdir / failed") [S_] ;;
  r ← unlink (str "dots/.");
  check (r =? 0) (ln "%s: unlink dots/. worked!") [S_] ;;
  r ← unlink (str "dots/..");
  check (r =? 0) (ln "%s: unlink dots/.. worked!") [S_] ;;
  r ← unlink (str "dots");
  check (negb (r =? 0)) (ln "%s: unlink dots failed!") [S_].

Definition dirfile : itree sysE unit :=
  fd ← open (str "dirfile") O_CREATE;
  check (fd <? 0) (ln "%s: create dirfile failed") [S_] ;;
  close fd ;;
  r ← chdir (str "dirfile");
  check (r =? 0) (ln "%s: chdir dirfile succeeded!") [S_] ;;
  fd ← open (str "dirfile/xx") 0;
  check (fd >=? 0) (ln "%s: create dirfile/xx succeeded!") [S_] ;;
  fd ← open (str "dirfile/xx") O_CREATE;
  check (fd >=? 0) (ln "%s: create dirfile/xx succeeded!") [S_] ;;
  r ← mkdir (str "dirfile/xx");
  check (r =? 0) (ln "%s: mkdir dirfile/xx succeeded!") [S_] ;;
  r ← unlink (str "dirfile/xx");
  check (r =? 0) (ln "%s: unlink dirfile/xx succeeded!") [S_] ;;
  r ← link (str "README") (str "dirfile/xx");
  check (r =? 0) (ln "%s: link to dirfile/xx succeeded!") [S_] ;;
  r ← unlink (str "dirfile");
  check (negb (r =? 0)) (ln "%s: unlink dirfile failed!") [S_] ;;
  fd ← open (str ".") O_RDWR;
  check (fd >=? 0) (ln "%s: open . for writing succeeded!") [S_] ;;
  fd ← open (str ".") 0;
  r ← write fd (str "x");
  check (r >? 0) (ln "%s: write . succeeded!") [S_] ;;
  close fd.

(** test that iput() is called at the end of _namei(); also tests empty file
    names. *)
Definition iref : itree sysE unit :=
  for_ (seqZ 0 (Z.of_nat NINODE + 1)) (fun _ =>
    r ← mkdir (str "irefd");
    check (negb (r =? 0)) (ln "%s: mkdir irefd failed") [S_] ;;
    r ← chdir (str "irefd");
    check (negb (r =? 0)) (ln "%s: chdir irefd failed") [S_] ;;
    mkdir [] ;;
    link (str "README") [] ;;
    fd ← open [] O_CREATE;
    (if fd >=? 0 then close fd else mret tt) ;;
    fd ← open (str "xx") O_CREATE;
    (if fd >=? 0 then close fd else mret tt) ;;
    unlink (str "xx") ;;
    mret tt) ;;
  for_ (seqZ 0 (Z.of_nat NINODE + 1)) (fun _ =>
    chdir (str "..") ;;
    unlink (str "irefd") ;;
    mret tt) ;;
  chdir (str "/") ;;
  mret tt.

(** *** Tests that take a fair bit of time *)

(** directory that uses indirect blocks *)
Definition bd_name (i : Z) : list Z := [chr "x"; plus "0" (i / 64); plus "0" (i mod 64)].
Definition bigdir : itree sysE unit :=
  let N := 500 in
  unlink (str "bd") ;;
  fd ← open (str "bd") O_CREATE;
  check (fd <? 0) (ln "%s: bigdir create failed") [S_] ;;
  close fd ;;
  for_ (seqZ 0 N) (fun i =>
    r ← link (str "bd") (bd_name i);
    check (negb (r =? 0)) (ln "%s: bigdir i=%d link(bd, %s) failed") [S_; AInt i; AStr (Some (bd_name i))]) ;;
  unlink (str "bd") ;;
  for_ (seqZ 0 N) (fun i =>
    r ← unlink (bd_name i);
    check (negb (r =? 0)) (str "%s: bigdir unlink failed") [S_]).

(** concurrent writes to try to provoke deadlock in the virtio disk driver. *)
Definition manywrites_child (ci : Z) : itree sysE unit :=
  let name := [chr "b"; plus "a" ci] in
  unlink name ;;
  for_ (seqZ 0 30) (fun _ =>
    for_ (seqZ 0 (ci + 1)) (fun _ =>
      fd ← open name (Z.lor O_CREATE O_RDWR);
      check (fd <? 0) (ln "%s: cannot create %s") [S_; AStr (Some name)] ;;
      cc ← write fd buf0;
      check (negb (cc =? BUFSZ)) (ln "%s: write(%d) ret %d") [S_; AInt BUFSZ; AInt cc] ;;
      close fd) ;;
    unlink name ;;
    mret tt) ;;
  unlink name ;;
  exit 0.

Definition manywrites : itree sysE unit :=
  for_ (seqZ 0 4) (fun ci =>
    pid ← fork;
    check (pid <? 0) (ln "fork failed") [] ;;
    if pid =? 0 then manywrites_child ci else mret tt) ;;
  for_ (seqZ 0 4) (fun _ =>
    '(_, st) ← wait 0;
    if negb (st =? 0) then exit st else mret tt) ;;
  exit 0.

(** regression test. does write() with an invalid buffer pointer cause a
    block to be allocated for a file that is then not freed when the file is
    deleted? *)
Definition badwrite : itree sysE unit :=
  let f := str "junk" in
  unlink f ;;
  for_ (seqZ 0 600) (fun _ =>
    fd ← open f (Z.lor O_CREATE O_WRONLY);
    check (fd <? 0) (ln "open junk failed") [] ;;
    sys (CWriteAt fd 0xffffffffff 1) ;;
    close fd ;;
    unlink f ;;
    mret tt) ;;
  fd ← open f (Z.lor O_CREATE O_WRONLY);
  check (fd <? 0) (ln "open junk failed") [] ;;
  r ← write fd (str "x");
  check (negb (r =? 1)) (ln "write failed") [] ;;
  close fd ;;
  unlink f ;;
  exit 0.

(** can the kernel tolerate running out of disk space?  [junk]: the
    uninitialised block that is written. *)
Definition big_name (fi : Z) : list Z := str "big" ++ [plus "0" fi].
Definition zz_name (i : Z) : list Z := str "zz" ++ [plus "0" (i / 32); plus "0" (i mod 32)].
Definition BIGS : list Z := seqZ 0 (0x7f - chr "0").

(** The blocks of one file; [true] when the disk is full. *)
Fixpoint diskfull_fill (n : nat) (fd : Z) (junk : list Z) : itree sysE bool :=
  match n with
  | O => mret false
  | S n =>
      r ← write fd junk;
      if negb (r =? BSIZE) then
        close fd ;;
        mret true
      else diskfull_fill n fd junk
  end.

Definition diskfull (junk : list Z) : itree sysE unit :=
  unlink (str "diskfulldir") ;;
  for_break BIGS (fun fi =>
    unlink (big_name fi) ;;
    fd ← open (big_name fi) (Z.lor (Z.lor O_CREATE O_RDWR) O_TRUNC);
    if fd <? 0 then
      (* oops, ran out of inodes before running out of blocks. *)
      printf (ln "%s: could not create file %s") [S_; AStr (Some (big_name fi))] ;;
      mret true
    else
    done ← diskfull_fill (Z.to_nat MAXFILE) fd junk;
    close fd ;;
    mret done) ;;
  for_break (seqZ 0 128) (fun i =>
    unlink (zz_name i) ;;
    fd ← open (zz_name i) (Z.lor (Z.lor O_CREATE O_RDWR) O_TRUNC);
    if fd <? 0 then mret true else
    close fd ;;
    mret false) ;;
  (* this mkdir() is expected to fail. *)
  r ← mkdir (str "diskfulldir");
  (if r =? 0 then printf (ln "%s: mkdir(diskfulldir) unexpectedly succeeded!") [S_] else mret tt) ;;
  unlink (str "diskfulldir") ;;
  for_ (seqZ 0 128) (fun i => unlink (zz_name i) ;; mret tt) ;;
  for_ BIGS (fun i => unlink (big_name i) ;; mret tt).

Definition outofinodes : itree sysE unit :=
  let nzz := 32 * 32 in
  for_break (seqZ 0 nzz) (fun i =>
    unlink (zz_name i) ;;
    fd ← open (zz_name i) (Z.lor (Z.lor O_CREATE O_RDWR) O_TRUNC);
    if fd <? 0 then mret true else
    close fd ;;
    mret false) ;;
  for_ (seqZ 0 nzz) (fun i => unlink (zz_name i) ;; mret tt).

End files.

(** what happens when the file system runs out of blocks?  (In no table of
    tests.)  The bytes that go to one file, and the files. *)
Definition fsfull_name (n : Z) : list Z :=
  [chr "f"; plus "0" (n / 1000); plus "0" (n mod 1000 / 100); plus "0" (n mod 100 / 10); plus "0" (n mod 10)].
Definition fsfull_write (fd : Z) : itree sysE Z :=
  ITree.iter (fun total =>
    cc ← write fd (take (Z.to_nat BSIZE) buf0);
    if cc <? BSIZE then mret (inr total) else mret (inl (total + cc))) 0.
Definition fsfull_fill : itree sysE Z :=
  ITree.iter (fun nfiles =>
    let name := fsfull_name nfiles in
    printf (ln "writing %s") [AStr (Some name)] ;;
    fd ← open name (Z.lor O_CREATE O_RDWR);
    if fd <? 0 then
      printf (ln "open %s failed") [AStr (Some name)] ;;
      mret (inr nfiles)
    else
    total ← fsfull_write fd;
    printf (ln "wrote %d bytes") [AInt total] ;;
    close fd ;;
    if total =? 0 then mret (inr nfiles) else mret (inl (nfiles + 1))) 0.
Definition fsfull : itree sysE unit :=
  printf (ln "fsfull test") [] ;;
  nfiles ← fsfull_fill;
  for_ (reverse (seqZ 0 (nfiles + 1))) (fun n => unlink (fsfull_name n) ;; mret tt) ;;
  printf (ln "fsfull test finished") [].
