(* ===== verification/Uprocs.v ===== *)
(** * Uprocs: the tests of processes, pipes and pointers of user/usertests.c

    As in [Ufiles]: processes, pipes, exec(), sbrk(), and system calls with
    pointers that are not the program's. *)

From ITree Require Import Core.ITreeDefinition.
From S2P Require Import Prelude Params Machine Spinlock Strings Uart Printk Ulib Uprintf Uprog Uls Utests Ufiles.

#[local] Opaque vprintf.

Section procs.
Context (u : Z) (s : list Z).
Let S_ : varg := AStr (Some s).

(** *** Pointers that are not the program's *)
Definition bad_addrs : list Z := [0x80000000; 0x3fffffe000; 0x3ffffff000; 0x4000000000; 0xffffffffffffffff].

(** what if you pass ridiculous pointers to system calls that read user memory
    with copyin? *)
Definition copyin : itree sysE unit :=
  for_ bad_addrs (fun addr =>
    fd ← open (str "copyin1") (Z.lor O_CREATE O_WRONLY);
    check (fd <? 0) (ln "open(copyin1) failed") [] ;;
    '(n, _) ← sys (CWriteAt fd addr 8192);
    check (n >=? 0) (ln "write(fd, %p, 8192) returned %d, not -1") [AInt addr; AInt n] ;;
    close fd ;;
    unlink (str "copyin1") ;;
    '(n, _) ← sys (CWriteAt 1 addr 8192);
    check (n >? 0) (ln "write(1, %p, 8192) returned %d, not -1 or 0") [AInt addr; AInt n] ;;
    '(r, b) ← sys CPipe;
    check (r <? 0) (ln "pipe() failed") [] ;;
    let '(fd0, fd1) := pipe_fds b in
    '(n, _) ← sys (CWriteAt fd1 addr 8192);
    check (n >? 0) (ln "write(pipe, %p, 8192) returned %d, not -1 or 0") [AInt addr; AInt n] ;;
    close fd0 ;;
    close fd1).

(** what if you pass ridiculous pointers to system calls that write user memory
    with copyout? *)
Definition copyout : itree sysE unit :=
  for_ (0 :: bad_addrs) (fun addr =>
    fd ← open (str "README") 0;
    check (fd <? 0) (ln "open(README) failed") [] ;;
    '(n, _) ← sys (CReadAt fd addr 8192);
    check (n >? 0) (ln "read(fd, %p, 8192) returned %d, not -1 or 0") [AInt addr; AInt n] ;;
    close fd ;;
    '(r, b) ← sys CPipe;
    check (r <? 0) (ln "pipe() failed") [] ;;
    let '(fd0, fd1) := pipe_fds b in
    n ← write fd1 (str "x");
    check (negb (n =? 1)) (ln "pipe write failed") [] ;;
    '(n, _) ← sys (CReadAt fd0 addr 8192);
    check (n >? 0) (ln "read(pipe, %p, 8192) returned %d, not -1 or 0") [AInt addr; AInt n] ;;
    close fd0 ;;
    close fd1).

(** what if you pass ridiculous string pointers to system calls? *)
Definition copyinstr1 : itree sysE unit :=
  for_ bad_addrs (fun addr =>
    '(fd, _) ← sys (COpenAt addr (Z.lor O_CREATE O_WRONLY));
    check (fd >=? 0) (ln "open(%p) returned %d, not -1") [AInt addr; AInt fd]).

(** what if a string system call argument is exactly the size of the kernel
    buffer it is copied into? *)
Definition copyinstr2 : itree sysE unit :=
  let b := replicate (Z.to_nat MAXPATH) (chr "x") in
  let B_ := AStr (Some b) in
  ret ← unlink b;
  check (negb (ret =? -1)) (ln "unlink(%s) returned %d, not -1") [B_; AInt ret] ;;
  fd ← open b (Z.lor O_CREATE O_WRONLY);
  check (negb (fd =? -1)) (ln "open(%s) returned %d, not -1") [B_; AInt fd] ;;
  ret ← link b b;
  check (negb (ret =? -1)) (ln "link(%s, %s) returned %d, not -1") [B_; B_; AInt ret] ;;
  '(ret, _) ← sys (CExec b [str "xx"]);
  check (negb (ret =? -1)) (ln "exec(%s) returned %d, not -1") [B_; AInt fd] ;;
  pid ← fork;
  check (pid <? 0) (ln "fork failed") [] ;;
  (if pid =? 0 then
    let big := replicate (Z.to_nat PGSIZE) (chr "x") in
    '(ret, _) ← sys (CExec (str "echo") [big; big; big]);
    check (negb (ret =? -1)) (ln "exec(echo, BIG) returned %d, not -1") [AInt fd] ;;
    exit 747 (* OK *)
  else mret tt) ;;
  '(_, st) ← wait 0;
  check (negb (st =? 747)) (ln "exec(echo, BIG) succeeded, should have failed") [].

(** See if the kernel refuses to read/write user memory that the application
    doesn't have anymore, because it returned it. *)
Definition sbrk_failed (p : Z) : bool := u64 p =? u64 (-1).
Definition rwsbrk : itree sysE unit :=
  a ← sbrk 8192;
  check (sbrk_failed a) (ln "sbrk(rwsbrk) failed") [] ;;
  r ← sbrk (-8192);
  check (sbrk_failed r) (ln "sbrk(rwsbrk) shrink failed") [] ;;
  let p := u64 (a + PGSIZE) in
  fd ← open (str "rwsbrk") (Z.lor O_CREATE O_WRONLY);
  check (fd <? 0) (ln "open(rwsbrk) failed") [] ;;
  '(n, _) ← sys (CWriteAt fd p 1024);
  check (n >=? 0) (ln "write(fd, %p, 1024) returned %d, not -1") [AInt p; AInt n] ;;
  close fd ;;
  unlink (str "rwsbrk") ;;
  fd ← open (str "README") O_RDONLY;
  check (fd <? 0) (ln "open(README) failed") [] ;;
  '(n, _) ← sys (CReadAt fd p 10);
  check (n >=? 0) (ln "read(fd, %p, 10) returned %d, not -1") [AInt p; AInt n] ;;
  close fd ;;
  exit 0.

(** try to crash the kernel by passing in a bad string pointer *)
Definition validatetest : itree sysE unit :=
  let hi := 1100 * 1024 in
  for_ (seqZ 0 (hi / PGSIZE + 1)) (fun k =>
    '(r, _) ← sys (CLinkAt (str "nosuchfile") (k * PGSIZE));
    check (negb (r =? -1)) (ln "%s: link should not succeed") [S_]).

Definition argptest : itree sysE unit :=
  fd ← open (str "init") O_RDONLY;
  check (fd <? 0) (ln "%s: open failed") [S_] ;;
  top ← sbrk 0;
  sys (CReadAt fd (u64 (top - 1)) (-1)) ;;
  close fd.

(** does uninitialized data start out zero?  The array [uninit]. *)
Definition bsstest (uninit : list Z) : itree sysE unit :=
  for_ uninit (fun c => check (negb (c =? 0)) (ln "%s: bss test failed") [S_]).

(** *** Processes *)
Definition exectest : itree sysE unit :=
  let f := str "echo-ok" in
  unlink f ;;
  pid ← fork;
  check (pid <? 0) (ln "%s: fork failed") [S_] ;;
  (if pid =? 0 then
    '(errfd, _) ← sys (CDup 1);
    check (errfd <? 0) (ln "%s: dup failed") [S_] ;;
    close 1 ;;
    fd ← open f (Z.lor O_CREATE O_WRONLY);
    (if fd <? 0 then fprintf errfd (ln "%s: create failed") [S_] ;; exit 1 else mret tt) ;;
    (if negb (fd =? 1) then fprintf errfd (ln "%s: wrong fd") [S_] ;; exit 1 else mret tt) ;;
    '(r, _) ← sys (CExec (str "echo") [str "echo"; str "OK"]);
    (if r <? 0 then fprintf errfd (ln "%s: exec echo failed") [S_] ;; exit 1 else mret tt)
    (* won't get to here *)
  else mret tt) ;;
  '(r, xstatus) ← wait u;
  (if negb (r =? pid) then printf (ln "%s: wait failed!") [S_] else mret tt) ;;
  check (negb (xstatus =? 0)) (ln "%s: nonzero wait status %d") [S_; AInt xstatus] ;;
  fd ← open f O_RDONLY;
  check (fd <? 0) (ln "%s: open failed") [S_] ;;
  '(n, d) ← read fd 2;
  check (negb (n =? 2)) (ln "%s: read failed") [S_] ;;
  unlink f ;;
  if (d !!! 0%nat =? chr "O") && (d !!! 1%nat =? chr "K") then exit 0 else
  printf (ln "%s: wrong output") [S_] ;;
  exit 1.

(** simple fork and pipe read/write *)
Definition PIPE1_N : Z := 5.
Definition PIPE1_SZ : Z := 1033.

(** The bytes [seq], [seq + 1], ... *)
Definition pattern (seq n : Z) : list Z := u8 <$> seqZ seq n.

(** while ((n = read(fds[0], buf, cc)) > 0): [None] after wrong data, which
    ends the test, otherwise the total. *)
Definition pipe1_reads (fd : Z) : Z * Z * Z -> itree sysE (option Z) :=
  ITree.iter (fun '(seq, total, cc) =>
    '(n, d) ← read fd cc;
    if negb (0 <? n) then mret (inr (Some total)) else
    if negb (bool_decide (u8 <$> take (Z.to_nat n) d = pattern seq n)) then
      printf (ln "%s: pipe1 oops 2") [S_] ;;
      mret (inr None)
    else
    mret (inl (seq + n, total + n, if cc * 2 >? BUFSZ then BUFSZ else cc * 2))).

Definition pipe1 : itree sysE unit :=
  '(r, b) ← sys CPipe;
  check (negb (r =? 0)) (ln "%s: pipe() failed") [S_] ;;
  let '(fd0, fd1) := pipe_fds b in
  pid ← fork;
  if pid =? 0 then
    close fd0 ;;
    for_ (seqZ 0 PIPE1_N) (fun n =>
      r ← write fd1 (pattern (n * PIPE1_SZ) PIPE1_SZ);
      check (negb (r =? PIPE1_SZ)) (ln "%s: pipe1 oops 1") [S_]) ;;
    exit 0
  else if 0 <? pid then
    close fd1 ;;
    r ← pipe1_reads fd0 (0, 0, 1);
    match r with
    | None => mret tt
    | Some total =>
        check (negb (total =? PIPE1_N * PIPE1_SZ)) (ln "%s: pipe1 oops 3 total %d") [S_; AInt total] ;;
        close fd0 ;;
        '(_, xstatus) ← wait u;
        exit xstatus
    end
  else
    printf (ln "%s: fork() failed") [S_] ;;
    exit 1.

(** while (1) getpid(). *)
Definition getpid_forever : itree sysE unit := ITree.iter (fun _ : unit => sys CGetpid ;; mret (inl tt)) tt.

(** test if child is killed (status = -1); [xst] is the status so far. *)
Fixpoint killstatus_rounds (n : nat) (xst : Z) : itree sysE unit :=
  match n with
  | O => exit 0
  | S n =>
      pid1 ← fork;
      check (pid1 <? 0) (ln "%s: fork failed") [S_] ;;
      (if pid1 =? 0 then getpid_forever ;; exit 0 else mret tt) ;;
      pause 1 ;;
      kill pid1 ;;
      '(_, xst) ← wait xst;
      check (negb (xst =? -1)) (ln "%s: status should be -1") [S_] ;;
      killstatus_rounds n xst
  end.
Definition killstatus : itree sysE unit := killstatus_rounds 100 u.

(** meant to be run w/ at most two CPUs.  [fds0]: the uninitialised [pfds],
    which pipe() leaves as it is if it fails. *)
Definition preempt (fds0 : Z * Z) : itree sysE unit :=
  pid1 ← fork;
  check (pid1 <? 0) (str "%s: fork failed") [S_] ;;
  (if pid1 =? 0 then ITree.spin else mret tt) ;;
  pid2 ← fork;
  check (pid2 <? 0) (ln "%s: fork failed") [S_] ;;
  (if pid2 =? 0 then ITree.spin else mret tt) ;;
  '(r, b) ← sys CPipe;
  let '(fd0, fd1) := if r <? 0 then fds0 else pipe_fds b in
  pid3 ← fork;
  check (pid3 <? 0) (ln "%s: fork failed") [S_] ;;
  (if pid3 =? 0 then
    close fd0 ;;
    r ← write fd1 (str "x");
    (if negb (r =? 1) then printf (str "%s: preempt write error") [S_] else mret tt) ;;
    close fd1 ;;
    ITree.spin
  else mret tt) ;;
  close fd1 ;;
  '(n, _) ← read fd0 BUFSZ;
  if negb (n =? 1) then printf (str "%s: preempt read error") [S_] else
  close fd0 ;;
  printf (str "kill... ") [] ;;
  kill pid1 ;;
  kill pid2 ;;
  kill pid3 ;;
  printf (str "wait... ") [] ;;
  wait0 ;;
  wait0 ;;
  wait0 ;;
  mret tt.

(** try to find any races between exit and wait *)
Definition exitwait_round (i : Z) : itree sysE unit :=
  pid ← fork;
  check (pid <? 0) (ln "%s: fork failed") [S_] ;;
  if truthy pid then
    '(r, xstate) ← wait u;
    check (negb (r =? pid)) (ln "%s: wait wrong pid") [S_] ;;
    check (negb (i =? xstate)) (ln "%s: wait wrong exit status") [S_]
  else exit i.
Definition exitwait : itree sysE unit := for_ (seqZ 0 100) exitwait_round.

(** try to find races in the reparenting code that handles a parent exiting
    when it still has live children. *)
Definition reparent : itree sysE unit :=
  '(master_pid, _) ← sys CGetpid;
  for_ (seqZ 0 200) (fun _ =>
    pid ← fork;
    check (pid <? 0) (ln "%s: fork failed") [S_] ;;
    if truthy pid then
      r ← wait0;
      check (negb (r =? pid)) (ln "%s: wait wrong pid") [S_]
    else
      pid2 ← fork;
      (if pid2 <? 0 then kill master_pid ;; exit 1 else mret tt) ;;
      exit 0) ;;
  exit 0.

(** what if two children exit() at the same time? *)
Definition twochildren : itree sysE unit :=
  for_ (seqZ 0 1000) (fun _ =>
    pid1 ← fork;
    check (pid1 <? 0) (ln "%s: fork failed") [S_] ;;
    if pid1 =? 0 then exit 0 else
    pid2 ← fork;
    check (pid2 <? 0) (ln "%s: fork failed") [S_] ;;
    if pid2 =? 0 then exit 0 else
    wait0 ;;
    wait0 ;;
    mret tt).

(** concurrent forks to try to expose locking bugs. *)
Definition forkfork_child : itree sysE unit :=
  for_ (seqZ 0 200) (fun _ =>
    pid1 ← fork;
    (if pid1 <? 0 then exit 1 else mret tt) ;;
    (if pid1 =? 0 then exit 0 else mret tt) ;;
    wait0 ;;
    mret tt) ;;
  exit 0.

(** for (i = 0; i < n; i++) { wait(&xstatus); if (xstatus != 0) ... } *)
Fixpoint forkfork_waits (n : nat) (xstatus : Z) : itree sysE unit :=
  match n with
  | O => mret tt
  | S n =>
      '(_, xstatus) ← wait xstatus;
      check (negb (xstatus =? 0)) (str "%s: fork in child failed") [S_] ;;
      forkfork_waits n xstatus
  end.
Definition forkfork : itree sysE unit :=
  for_ (seqZ 0 2) (fun _ =>
    pid ← fork;
    check (pid <? 0) (str "%s: fork failed") [S_] ;;
    if pid =? 0 then forkfork_child else mret tt) ;;
  forkfork_waits 2 u.

Definition forkforkfork_child (f : list Z) : itree sysE unit :=
  ITree.iter (fun _ : unit =>
    fd ← open f 0;
    (if fd >=? 0 then exit 0 else mret tt) ;;
    r ← fork;
    (if r <? 0 then
      fd ← open f (Z.lor O_CREATE O_RDWR);
      close fd
    else mret tt) ;;
    mret (inl tt)) tt.
Definition forkforkfork : itree sysE unit :=
  let f := str "stopforking" in
  unlink f ;;
  pid ← fork;
  check (pid <? 0) (str "%s: fork failed") [S_] ;;
  (if pid =? 0 then forkforkfork_child f ;; exit 0 else mret tt) ;;
  pause 20 ;; (* two seconds *)
  fd ← open f (Z.lor O_CREATE O_RDWR);
  close fd ;;
  wait0 ;;
  pause 10. (* one second *)

(** regression test. does reparent() violate the parent-then-child locking
    order when giving away a child to init? *)
Definition reparent2 : itree sysE unit :=
  for_ (seqZ 0 800) (fun _ =>
    pid1 ← fork;
    check (pid1 <? 0) (ln "fork failed") [] ;;
    (if pid1 =? 0 then fork ;; fork ;; exit 0 else mret tt) ;;
    wait0 ;;
    mret tt) ;;
  exit 0.

(** test that fork fails gracefully *)
Definition forktest : itree sysE unit :=
  n ← forktest_forks FORKTEST_N 0;
  check (n =? 0)%nat (ln "%s: no fork at all!") [S_] ;;
  check (n =? FORKTEST_N)%nat (ln "%s: fork claimed to work 1000 times!") [S_] ;;
  for_ (seqZ 0 (Z.of_nat n)) (fun _ =>
    r ← wait0;
    check (r <? 0) (ln "%s: wait stopped early") [S_]) ;;
  r ← wait0;
  check (negb (r =? -1)) (ln "%s: wait got too many") [S_].

(** does exec return an error if the arguments are larger than a page? *)
Definition bigargtest : itree sysE unit :=
  let f := str "bigarg-ok" in
  unlink f ;;
  pid ← fork;
  (if pid =? 0 then
    let big := replicate 399 (chr " ") in
    sys (CExec (str "echo") (replicate (MAXARG - 1) big)) ;;
    fd ← open f O_CREATE;
    close fd ;;
    exit 0
  else check (pid <? 0) (ln "%s: bigargtest: fork failed") [S_]) ;;
  '(_, xstatus) ← wait u;
  (if negb (xstatus =? 0) then exit xstatus else mret tt) ;;
  fd ← open f 0;
  check (fd <? 0) (ln "%s: bigarg test failed!") [S_] ;;
  close fd.

(** test the exec() code that cleans up if it runs out of memory: allocate all
    of memory, then free a few pages, in order to let exec() make some
    progress. *)
Definition take_all_memory : itree sysE unit :=
  ITree.iter (fun _ : unit =>
    a ← sbrk PGSIZE;
    if sbrk_failed a then mret (inr tt) else mret (inl tt)) tt.
Definition execout : itree sysE unit :=
  for_ (seqZ 0 15) (fun avail =>
    pid ← fork;
    check (pid <? 0) (ln "fork failed") [] ;;
    if pid =? 0 then
      take_all_memory ;;
      for_ (seqZ 0 avail) (fun _ => sbrk (- PGSIZE) ;; mret tt) ;;
      close 1 ;;
      sys (CExec (str "echo") [str "echo"; str "x"]) ;;
      exit 0
    else wait0 ;; mret tt) ;;
  exit 0.

(** *** Growing and shrinking *)

(** if we run the system out of memory, does it clean up the last failed
    allocation?  The state is the pids of the children, most recent
    first, and the character last read from the pipe. *)
Definition BIG : Z := 100 * 1024 * 1024.
Fixpoint sbrkfail_forks (n : nat) (fds : Z * Z) (pids : list Z) (scratch : Z) (failed : bool) : itree sysE (list Z * bool) :=
  match n with
  | O => mret (rev pids, failed)
  | S n =>
      pid ← fork;
      (if pid =? 0 then
        (* allocate a lot of memory *)
        top ← sbrk 0;
        r ← sbrk (s32 (BIG - top));
        (if sbrk_failed r then write fds.2 (str "0") else write fds.2 (str "1")) ;;
        sit_around
      else mret tt) ;;
      if negb (pid =? -1) then
        '(r, d) ← read fds.1 1;
        let scratch := if r <? 1 then scratch else u8 (hd0 d) in
        sbrkfail_forks n fds (pid :: pids) scratch (failed || (scratch =? chr "0"))
      else sbrkfail_forks n fds (pid :: pids) scratch failed
  end.

(** [scratch0] is what the uninitialised [scratch] holds. *)
Definition sbrkfail (scratch0 : Z) : itree sysE unit :=
  '(r, b) ← sys CPipe;
  check (negb (r =? 0)) (ln "%s: pipe() failed") [S_] ;;
  '(pids, failed) ← sbrkfail_forks 10 (pipe_fds b) [] scratch0 false;
  (if negb failed then printf (ln "%s: no allocation failed; allocate more?") [S_] else mret tt) ;;
  (* if those failed allocations freed up the pages they did allocate, we'll
     be able to allocate here *)
  c ← sbrk PGSIZE;
  for_ pids (fun pid => if pid =? -1 then mret tt else kill pid ;; wait0 ;; mret tt) ;;
  check (sbrk_failed c) (ln "%s: failed sbrk leaked memory") [S_] ;;
  (* test running fork with the above allocated page *)
  pid ← fork;
  check (pid <? 0) (ln "%s: fork failed") [S_] ;;
  if pid =? 0 then
    (* allocate a lot of memory. this should produce an error *)
    a ← sbrk (10 * BIG);
    if sbrk_failed a then exit 0 else
    printf (ln "%s: allocate a lot of memory succeeded %d") [S_; AInt (10 * BIG)] ;;
    exit 1
  else
  '(_, xstatus) ← wait u;
  if negb (xstatus =? 0) then exit 1 else mret tt.

(** test reads/writes from/to allocated memory *)
Definition sbrkarg : itree sysE unit :=
  a ← sbrk PGSIZE;
  fd ← open (str "sbrk") (Z.lor O_CREATE O_WRONLY);
  unlink (str "sbrk") ;;
  check (fd <? 0) (ln "%s: open sbrk failed") [S_] ;;
  '(n, _) ← sys (CWriteAt fd a PGSIZE);
  check (n <? 0) (ln "%s: write sbrk failed") [S_] ;;
  close fd ;;
  a ← sbrk PGSIZE;
  '(r, _) ← sys (CPipeAt a);
  check (negb (r =? 0)) (ln "%s: pipe() failed") [S_].

(** copyin(), copyout(), and copyinstr() used to cast the virtual page address
    to uint. *)
Definition big_pointer : Z := 0xeaeb0b5b00002f5e.
Definition pgbug : itree sysE unit :=
  sys (CExecAt (inr big_pointer) [0]) ;;
  sys (CPipeAt big_pointer) ;;
  exit 0.

(** A child of sbrkbugs(), and the wait for it. *)
Definition sbrkbugs_child (child : itree sysE unit) : itree sysE unit :=
  pid ← fork;
  check (pid <? 0) (ln "fork failed") [] ;;
  (if pid =? 0 then child ;; exit 0 else mret tt) ;;
  wait0 ;;
  mret tt.

(** does the kernel panic if a process sbrk()s its size to be less than a page,
    or zero, or reduces the break by an amount too small to cause a page to be
    freed?  After the first sbrk() the process has no code left: the call does
    not return to it. *)
Definition sbrkbugs : itree sysE unit :=
  sbrkbugs_child (sz ← sbrk 0; sbrk (s32 (- s32 sz)) ;; mret tt) ;;
  sbrkbugs_child (sz ← sbrk 0; sbrk (s32 (- s32 (s32 sz - 3500))) ;; mret tt) ;;
  sbrkbugs_child (top ← sbrk 0; sbrk (s32 (10 * PGSIZE + 2048 - top)) ;; sbrk (-10) ;; mret tt) ;;
  exit 0.

(** test whether exec() leaks memory if one of the arguments is invalid. *)
Definition badarg : itree sysE unit :=
  for_ (seqZ 0 50000) (fun _ => sys (CExecAt (inl (str "echo")) [0xffffffff; 0]) ;; mret tt) ;;
  exit 0.

Definition lazy_bad : list Z :=
  [0x3fffffc000; 0x3fffffd000; 0x3fffffe000; 0x3ffffff000; 0x4000000000; 0x8000000000].
Definition lazy_copy : itree sysE unit :=
  (* copyinstr on lazy page *)
  p ← sbrk 0;
  sbrklazy (4 * PGSIZE) ;;
  sys (COpenAt (u64 (p + 8192)) 0) ;;
  xx ← sbrk 0;
  ret ← sbrk (s32 (- (xx + 1)));
  check (negb (u64 ret =? u64 xx)) (ln "sbrk(sbrk(0)+1) returned %p, not old sz") [AInt ret] ;;
  (* read() and write() to these addresses should fail. *)
  for_ lazy_bad (fun a =>
    fd ← open (str "README") 0;
    check (fd <? 0) (ln "cannot open README") [] ;;
    '(r, _) ← sys (CReadAt fd a 512);
    check (r >=? 0) (ln "read succeeded") [] ;;
    close fd ;;
    fd ← open (str "junk") (Z.lor (Z.lor O_CREATE O_RDWR) O_TRUNC);
    check (fd <? 0) (ln "cannot open junk") [] ;;
    '(r, _) ← sys (CWriteAt fd a 512);
    check (r >=? 0) (ln "write succeeded") [] ;;
    close fd) ;;
  exit 0.

End procs.
