(* ===== verification/Udrive.v ===== *)
(** * Udrive: the driver of user/usertests.c

    run(), runtests(), countfree(), drivetests() and main(), for any tables
    of tests, and what "ALL TESTS PASSED" means. *)

From ITree Require Import Core.ITreeDefinition.
From S2P Require Import Prelude Params Machine Spinlock Strings Uart Printk Ulib Uprintf Uprog Uls Utests Ufiles Uprocs.

#[local] Opaque vprintf.

(** [struct test]: the function and its name. *)
Record test := mkTest { t_f : list Z -> itree sysE unit; t_s : list Z }.

Section drive.
Context (u : Z).

(** run each test in its own process. run returns 1 if child's exit()
    indicates success. *)
Definition run_test (t : test) : itree sysE bool :=
  printf (str "test %s: ") [AStr (Some (t_s t))] ;;
  pid ← fork;
  check (pid <? 0) (ln "runtest: fork error") [] ;;
  if pid =? 0 then
    t_f t (t_s t) ;;
    exit 0
  else
  '(_, xstatus) ← wait u;
  (if negb (xstatus =? 0) then printf (ln "FAILED") [] else printf (ln "OK") []) ;;
  mret (xstatus =? 0).

Definition wanted (justone : option (list Z)) (t : test) : bool :=
  match justone with None => true | Some j => strcmp (t_s t) j =? 0 end.

(** The tests from [tests] on, [ntests] having been run. *)
Fixpoint runtests (tests : list test) (justone : option (list Z)) (continuous ntests : Z) : itree sysE Z :=
  match tests with
  | [] => mret ntests
  | t :: r =>
      if wanted justone t then
        ok ← run_test t;
        if negb ok && negb (continuous =? 2) then
          printf (ln "SOME TESTS FAILED") [] ;;
          mret (-1)
        else runtests r justone continuous (ntests + 1)
      else runtests r justone continuous ntests
  end.

(** use sbrk() to count how many free physical memory pages there are. *)
Definition countfree_loop : Z -> itree sysE Z :=
  ITree.iter (fun n =>
    a ← sbrk PGSIZE;
    if sbrk_failed a then mret (inr n) else mret (inl (n + 1))).
Definition countfree : itree sysE Z :=
  sz0 ← sbrk 0;
  n ← countfree_loop 0;
  top ← sbrk 0;
  sbrk (s32 (- (top - sz0))) ;;
  mret n.

Section tables.
Context (quicktests slowtests : list test) (quick : bool) (continuous : Z) (justone : option (list Z)).

(** if (n < 0) { if (continuous != 2) return 1; } else ntests += n: [None]
    for the return. *)
Definition counted (n ntests : Z) : option Z :=
  if n <? 0 then if negb (continuous =? 2) then None else Some ntests else Some (ntests + n).

(** The slow tests, unless only the quick ones are wanted. *)
Definition drive_slow (ntests : Z) : itree sysE (option Z) :=
  if quick then mret (Some ntests) else
  (if justone is None then printf (ln "usertests slow tests starting") [] else mret tt) ;;
  n ← runtests slowtests justone continuous 0;
  mret (counted n ntests).

(** The end of a round: the pages are counted again. *)
Definition drive_end (free0 ntests : Z) : itree sysE (unit + Z) :=
  free1 ← countfree;
  lost ← (if free1 <? free0 then
    printf (ln "FAILED -- lost some free pages %d (out of %d)") [AInt free1; AInt free0] ;;
    mret (negb (continuous =? 2))
  else mret false);
  if lost : bool then mret (inr 1) else
  if (if justone is Some _ then true else false) && (ntests =? 0) then
    printf (ln "NO TESTS EXECUTED") [] ;;
    mret (inr 1)
  else
  mret (if truthy continuous then inl tt else inr 0).

Definition drive_round (_ : unit) : itree sysE (unit + Z) :=
  printf (ln "usertests starting") [] ;;
  free0 ← countfree;
  n ← runtests quicktests justone continuous 0;
  match counted n 0 with
  | None => mret (inr 1)
  | Some ntests =>
      r ← drive_slow ntests;
      match r with
      | None => mret (inr 1)
      | Some ntests => drive_end free0 ntests
      end
  end.

Definition drivetests : itree sysE Z := ITree.iter drive_round tt.
End tables.

(** The options: [None] for a command line that is refused. *)
Definition drive_args (argv : list (list Z)) : option (bool * Z * option (list Z)) :=
  match argv with
  | [_; a] =>
      if strcmp a (str "-q") =? 0 then Some (true, 0, None)
      else if strcmp a (str "-c") =? 0 then Some (false, 1, None)
      else if strcmp a (str "-C") =? 0 then Some (false, 2, None)
      else if negb (hd0 a =? chr "-") then Some (false, 0, Some a)
      else None
  | _ :: _ :: _ => None
  | _ => Some (false, 0, None)
  end.

Definition usertests_main (quicktests slowtests : list test) (argv : list (list Z)) : itree sysE unit :=
  match drive_args argv with
  | None =>
      printf (ln "Usage: usertests [-c] [-C] [-q] [testname]") [] ;;
      exit 1
  | Some (quick, continuous, justone) =>
      r ← drivetests quicktests slowtests quick continuous justone;
      if truthy r then exit 1 else
      printf (ln "ALL TESTS PASSED") [] ;;
      exit 0
  end.
End drive.

(** ** The tables of tests *)

(** [other]: the tests that touch memory in ways a tree of calls does not
    show.  [junk] and [fds0] are what uninitialised locals hold. *)
Section tables.
Context (other : list Z -> list Z -> itree sysE unit) (u : Z) (junk : list Z) (fds0 : Z * Z).

Definition quicktests : list test := [
   mkTest (fun _ => copyin) (str "copyin");
   mkTest (fun _ => copyout) (str "copyout");
   mkTest (fun _ => copyinstr1) (str "copyinstr1");
   mkTest (fun _ => copyinstr2) (str "copyinstr2");
   mkTest (other (str "copyinstr3")) (str "copyinstr3");
   mkTest (fun _ => rwsbrk) (str "rwsbrk");
   mkTest truncate1 (str "truncate1");
   mkTest truncate2 (str "truncate2");
   mkTest (truncate3 u) (str "truncate3");
   mkTest (openiputtest u) (str "openiput");
   mkTest (exitiputtest u) (str "exitiput");
   mkTest iputtest (str "iput");
   mkTest opentest (str "opentest");
   mkTest writetest (str "writetest");
   mkTest writebig (str "writebig");
   mkTest (fun _ => createtest) (str "createtest");
   mkTest dirtest (str "dirtest");
   mkTest (exectest u) (str "exectest");
   mkTest (pipe1 u) (str "pipe1");
   mkTest (killstatus u) (str "killstatus");
   mkTest (fun s => preempt s fds0) (str "preempt");
   mkTest (exitwait u) (str "exitwait");
   mkTest reparent (str "reparent");
   mkTest twochildren (str "twochildren");
   mkTest (forkfork u) (str "forkfork");
   mkTest forkforkfork (str "forkforkfork");
   mkTest (fun _ => reparent2) (str "reparent2");
   mkTest (other (str "mem")) (str "mem");
   mkTest (sharedfd u) (str "sharedfd");
   mkTest (fourfiles u) (str "fourfiles");
   mkTest (createdelete u) (str "createdelete");
   mkTest unlinkread (str "unlinkread");
   mkTest linktest (str "linktest");
   mkTest (fun s => concreate u s (take 16 junk)) (str "concreate");
   mkTest linkunlink (str "linkunlink");
   mkTest subdir (str "subdir");
   mkTest bigwrite (str "bigwrite");
   mkTest bigfile (str "bigfile");
   mkTest fourteen (str "fourteen");
   mkTest rmdot (str "rmdot");
   mkTest dirfile (str "dirfile");
   mkTest iref (str "iref");
   mkTest forktest (str "forktest");
   mkTest (other (str "sbrkbasic")) (str "sbrkbasic");
   mkTest (other (str "sbrkmuch")) (str "sbrkmuch");
   mkTest (other (str "kernmem")) (str "kernmem");
   mkTest (other (str "MAXVAplus")) (str "MAXVAplus");
   mkTest (fun s => sbrkfail u s (hd0 junk)) (str "sbrkfail");
   mkTest sbrkarg (str "sbrkarg");
   mkTest validatetest (str "validatetest");
   mkTest (fun s => bsstest s (replicate (Z.to_nat 10000) 0)) (str "bsstest");
   mkTest (bigargtest u) (str "bigargtest");
   mkTest argptest (str "argptest");
   mkTest (other (str "stacktest")) (str "stacktest");
   mkTest (other (str "nowrite")) (str "nowrite");
   mkTest (fun _ => pgbug) (str "pgbug");
   mkTest (fun _ => sbrkbugs) (str "sbrkbugs");
   mkTest (other (str "sbrklast")) (str "sbrklast");
   mkTest (other (str "sbrk8000")) (str "sbrk8000");
   mkTest (fun _ => badarg) (str "badarg");
   mkTest (other (str "lazy_alloc")) (str "lazy_alloc");
   mkTest (other (str "lazy_unmap")) (str "lazy_unmap");
   mkTest (fun _ => lazy_copy) (str "lazy_copy");
   mkTest (other (str "lazy_sbrk")) (str "lazy_sbrk")].

Definition slowtests : list test := [
   mkTest bigdir (str "bigdir");
   mkTest manywrites (str "manywrites");
   mkTest (fun _ => badwrite) (str "badwrite");
   mkTest (fun _ => execout) (str "execout");
   mkTest (fun s => diskfull s junk) (str "diskfull");
   mkTest (fun _ => outofinodes) (str "outofinodes")].
End tables.

(** ** What the driver sees *)
Section honest.
Context (u : Z).

(** The process is one that runs a test. *)
Definition is_child (h : history) : Prop := exists b, (CFork, (0, b)) ∈ h.
(** The statuses collected by wait(): was it 0? *)
Definition verdict (e : call * answer) : option bool := if e.1 is CWait then Some (wstatus u e.2 =? 0) else None.
Definition verdicts (h : history) : list bool := omap verdict h.

Lemma verdicts_app h h' : verdicts (h ++ h') = verdicts h ++ verdicts h'.
Proof. apply omap_app. Qed.
Lemma verdicts_snoc h e : verdicts (h ++ [e]) = verdicts h ++ (if verdict e is Some b then [b] else []).
Proof. rewrite verdicts_app. unfold verdicts. cbn. by destruct (verdict e). Qed.

Lemma verdicts_puts fd bytes h h' : puts_hist fd bytes h' -> verdicts (h ++ h') = verdicts h.
Proof.
  intros H. rewrite verdicts_app. assert (verdicts h' = []) as ->; [|apply app_nil_r].
  induction H as [|c [ca a] bs h' E _ IH]; [done|]. cbn in E. subst ca. exact IH.
Qed.

Lemma is_child_app h h' : is_child h -> is_child (h ++ h').
Proof. intros (b & Hb). exists b. apply elem_of_app. by left. Qed.

(** The postconditions: nothing is said of children, and a parent exits with
    0 only if [ok]. *)
Section post.
Context (ok : history -> Prop).

Definition drive_post {A} (P : A -> history -> Prop) (st : state A) (h : history) : Prop :=
  is_child h \/
  match st with
  | Returned r => P r h
  | Stopped Running => True
  | Stopped (Exited x) => x = 1 \/ x = 0 /\ ok h
  | Stopped (Became _ _) => False
  end.

Lemma wlp_child {A} (t : itree sysE A) P h : is_child h -> wlp t (drive_post P) h.
Proof. intros H f ans. left. by apply is_child_app. Qed.

Lemma wlp_then {A B} (t : itree sysE A) (k : A -> itree sysE B) P Q h :
  wlp t (drive_post P) h -> (forall r h', P r h' -> wlp (k r) (drive_post Q) h') -> wlp (mbind k t) (drive_post Q) h.
Proof.
  intros H Hk. apply wlp_bind. eapply wlp_mono; [|exact H]. intros [r|e] h' [Hc|Hp]; cbn [seq_post].
  - by apply wlp_child.
  - by apply Hk.
  - by left.
  - right. done.
Qed.

Lemma wlp_answer {A} c (k : answer -> itree sysE A) P h :
  (forall ans, leaves c ans = None) -> (forall a, answer_ok c a = true -> wlp (k a) (drive_post P) (h ++ [(c, a)])) ->
  wlp (mbind k (sys c)) (drive_post P) h.
Proof. intros Hl Hk. apply wlp_call; [done|by right|done]. Qed.

Lemma wlp_done {A} (r : A) (P : A -> history -> Prop) h : P r h -> wlp (mret r) (drive_post P) h.
Proof. intros H. apply wlp_ret. by right. Qed.

Lemma wlp_loop {J A} (body : J -> itree sysE (J + A)) (I : J -> history -> Prop) (P : A -> history -> Prop) i h :
  (forall i h, I i h -> wlp (body i) (drive_post (fun r h' => match r with inl j => I j h' | inr a => P a h' end)) h) ->
  I i h -> wlp (ITree.iter body i) (drive_post P) h.
Proof.
  intros Hb HI. apply (wlp_iter body (fun j h => is_child h \/ I j h)); [|intros j h' _; by right|by right].
  clear i h HI. intros i h [Hc|HI].
  - intros f ans. pose proof (is_child_app h (r_hist (run f (body i) ans)) Hc) as Hc'.
    destruct (r_state (run f (body i) ans)) as [[j|a]|e]; by left.
  - eapply wlp_mono; [|by apply Hb]. intros [[j|a]|e] h' [Hc|Hp]; try (by left); by right.
Qed.

(** What has been collected is as before. *)
Definition same (h h' : history) : Prop := verdicts h' = verdicts h.

Lemma wlp_printf fmt args h : wlp (printf fmt args) (drive_post (fun _ h' => same h h')) h.
Proof. apply wlp_puts_last; [by right|]. intros h' Hh. right. by apply (verdicts_puts 1 (vprintf fmt args)). Qed.

Lemma wlp_check bad fmt args h : wlp (check bad fmt args) (drive_post (fun _ h' => bad = false /\ same h h')) h.
Proof.
  unfold check. destruct bad; [|by apply wlp_done].
  eapply wlp_then; [apply wlp_printf|]. intros [] h' _. apply wlp_exit; right; [done|by left].
Qed.

(** The calls of the driver. *)
Lemma wlp_fork h : wlp fork (drive_post (fun pid h' => same h h' /\ (pid = 0 -> is_child h'))) h.
Proof.
  apply wlp_answer; [done|]. intros [pid b] _. apply wlp_done.
  split; [unfold same; rewrite verdicts_snoc; apply app_nil_r|]. intros ->. exists b. set_solver.
Qed.
Lemma wlp_wait h : wlp (wait u) (drive_post (fun r h' => verdicts h' = verdicts h ++ [r.2 =? 0])) h.
Proof. apply wlp_answer; [done|]. intros a _. apply wlp_done. by rewrite verdicts_snoc. Qed.
Lemma wlp_sbrk n h : wlp (sbrk n) (drive_post (fun _ h' => same h h')) h.
Proof. apply wlp_answer; [done|]. intros [r b] _. apply wlp_done. unfold same. rewrite verdicts_snoc. apply app_nil_r. Qed.

(** A test that ends is one more verdict. *)
Lemma run_test_ok t h : wlp (run_test u t) (drive_post (fun b h' => verdicts h' = verdicts h ++ [b])) h.
Proof.
  unfold run_test. eapply wlp_then; [apply wlp_printf|]. intros [] h1 V1.
  eapply wlp_then; [apply wlp_fork|]. intros pid h2 [V2 Hz].
  destruct (Z.eqb_spec pid 0) as [->|Hne]; [by apply wlp_child, Hz|].
  eapply wlp_then; [apply wlp_check|]. intros [] h3 [_ V3].
  eapply wlp_then; [apply wlp_wait|]. intros [r st] h4 V4. cbn [snd] in V4.
  assert (forall fmt, wlp (printf fmt [] ;; mret (st =? 0)) (drive_post (fun b h' => verdicts h' = verdicts h ++ [b])) h4) as Hp.
  { intros fmt. eapply wlp_then; [apply wlp_printf|]. intros [] h5 V5. apply wlp_done. unfold same in *. congruence. }
  destruct (negb (st =? 0)); apply Hp.
Qed.

Definition selected (justone : option (list Z)) (tests : list test) : list test := List.filter (wanted justone) tests.

(** [vs] are the verdicts on the given tests; only with the option -C does
    runtests() go on after a failure. *)
Definition all_ran (c : Z) (tests : list test) (h h' : history) : Prop :=
  exists vs, verdicts h' = verdicts h ++ vs /\ length vs = length tests /\ (c <> 2 -> Forall (fun b => b = true) vs).

Lemma runtests_ok justone c tests : forall n h, 0 <= n ->
  wlp (runtests u tests justone c n) (drive_post (fun r h' => r = -1 /\ c <> 2 \/
    r = n + Z.of_nat (length (selected justone tests)) /\ all_ran c (selected justone tests) h h')) h.
Proof.
  induction tests as [|t tests IH]; intros n h Hn; cbn [runtests selected List.filter].
  { apply wlp_done. right. split; [cbn; lia|]. exists []. by rewrite app_nil_r. }
  fold (selected justone tests). destruct (wanted justone t); [|by apply IH].
  eapply wlp_then; [apply run_test_ok|]. intros b h1 V1. destruct (negb b && negb (c =? 2)) eqn:Eb.
  - eapply wlp_then; [apply wlp_printf|]. intros [] h2 _. apply wlp_done. left. split; [done|].
    intros ->. by rewrite andb_false_r in Eb.
  - eapply wlp_mono; [|apply (IH (n + 1)); lia]. intros [r|e] h2 [Hc|H2]; [by left|right|by left|right; done].
    destruct H2 as [?|(-> & vs & V2 & L2 & F2)]; [by left|right].
    split; [cbn; lia|]. exists (b :: vs). rewrite V2, V1, <- app_assoc. split_and!; [done|cbn; lia|].
    intros Hc. constructor; [|by apply F2]. destruct b, (Z.eqb_spec c 2); done.
Qed.

Lemma countfree_ok h : wlp countfree (drive_post (fun _ h' => same h h')) h.
Proof.
  unfold countfree. eapply wlp_then; [apply wlp_sbrk|]. intros sz0 h1 V1.
  eapply (wlp_then _ _ (fun _ h' => same h1 h')).
  { apply (wlp_loop _ (fun _ h' => same h1 h')); [|done]. intros n h2 V2. eapply wlp_then; [apply wlp_sbrk|].
    intros r h3 V3. unfold same in *. destruct (sbrk_failed r); apply wlp_done; congruence. }
  intros n h2 V2. eapply wlp_then; [apply wlp_sbrk|]. intros top h3 V3. eapply wlp_then; [apply wlp_sbrk|].
  intros r h4 V4. apply wlp_done. unfold same in *. congruence.
Qed.

(** ** One round of drivetests() *)
Section round.
Context (quicktests slowtests : list test) (quick : bool) (c : Z) (justone : option (list Z)).
Definition chosen : list test :=
  selected justone quicktests ++ (if quick then [] else selected justone slowtests).

(** A round that ends with 0 has run all the tests chosen, at least one if a
    name was given; it is the last one only without -c and -C. *)
Definition round_ok (h : history) (r : unit + Z) (h' : history) : Prop :=
  match r with
  | inl _ => c <> 0
  | inr x => x = 1 \/ x = 0 /\ c = 0 /\ all_ran c chosen h h' /\ (justone <> None -> chosen <> [])
  end.

Lemma drive_end_ok free0 ntests h h' :
  all_ran c chosen h h' -> ntests = Z.of_nat (length chosen) ->
  wlp (drive_end c justone free0 ntests) (drive_post (round_ok h)) h'.
Proof.
  intros (vs & V & L & F) Hn. unfold drive_end. eapply wlp_then; [apply countfree_ok|]. intros free1 h1 V1.
  eapply (wlp_then _ _ (fun _ h2 => same h1 h2)).
  { destruct (free1 <? free0); [|by apply wlp_done]. eapply wlp_then; [apply wlp_printf|]. intros [] h2 V2. by apply wlp_done. }
  intros [] h2 V2; [apply wlp_done; by left|].
  destruct ((if justone is Some _ then true else false) && (ntests =? 0)) eqn:Ej.
  { eapply wlp_then; [apply wlp_printf|]. intros [] h3 V3. apply wlp_done. by left. }
  apply wlp_done. unfold truthy. destruct (Z.eqb_spec c 0) as [Hc|Hc]; cbn [negb]; [|done].
  right. split_and!; [done|done| |].
  - exists vs. unfold same in *. split_and!; [congruence|done|done].
  - intros Hj E. destruct justone; [|done]. rewrite Hn, E in Ej. done.
Qed.

Lemma drive_round_ok h : wlp (drive_round u quicktests slowtests quick c justone tt) (drive_post (round_ok h)) h.
Proof.
  unfold drive_round. eapply wlp_then; [apply wlp_printf|]. intros [] h1 V1.
  eapply wlp_then; [apply countfree_ok|]. intros free0 h2 V2.
  eapply wlp_then; [by apply runtests_ok|]. intros n h3 Hq. unfold counted.
  destruct Hq as [[-> Hc]|(-> & vs & V3 & L3 & F3)].
  { rewrite (proj2 (Z.eqb_neq _ _) Hc). apply wlp_done. by left. }
  rewrite (proj2 (Z.ltb_ge _ 0)) by lia. unfold drive_slow. destruct quick eqn:Eq.
  { eapply (wlp_then _ _ (fun r h' => r = Some (0 + (0 + Z.of_nat (length (selected justone quicktests)))) /\ h' = h3)); [by apply wlp_done|].
    intros r h4 [-> ->]. apply drive_end_ok; unfold chosen; rewrite Eq, app_nil_r; [|lia].
    exists vs. unfold same in *. split_and!; [congruence|done|done]. }
  eapply (wlp_then _ _ (fun r h' => r = None \/
    r = Some (0 + (0 + Z.of_nat (length (selected justone quicktests))) + (0 + Z.of_nat (length (selected justone slowtests)))) /\
    all_ran c chosen h h')).
  { eapply (wlp_then _ _ (fun _ h' => same h3 h')); [destruct justone; [by apply wlp_done|apply wlp_printf]|]. intros [] h4 V4.
    eapply wlp_then; [by apply runtests_ok|]. intros n h5 Hs. apply wlp_done. unfold counted.
    destruct Hs as [[-> Hc]|(-> & ws & V5 & L5 & F5)].
    - rewrite (proj2 (Z.eqb_neq _ _) Hc). by left.
    - right. rewrite (proj2 (Z.ltb_ge _ 0)) by lia. split; [done|]. exists (vs ++ ws). unfold chosen. rewrite Eq, !length_app.
      unfold same in *. split_and!; [rewrite V5, V4, V3, app_assoc; congruence|lia|]. intros Hc. apply Forall_app. split; auto. }
  intros r h4 [->|[-> Ha]]; [apply wlp_done; by left|].
  apply drive_end_ok; [done|]. unfold chosen. rewrite Eq, length_app. lia.
Qed.
End round.
End post.
End honest.

(** What "ALL TESTS PASSED" stands for. *)
Definition passed (u : Z) (quicktests slowtests : list test) (argv : list (list Z)) (h : history) : Prop :=
  exists quick justone, drive_args argv = Some (quick, 0, justone) /\
    let tests := chosen quicktests slowtests quick justone in
    verdicts u h = replicate (length tests) true /\ (justone <> None -> tests <> []).

Lemma all_true (vs : list bool) : Forall (fun b => b = true) vs -> vs = replicate (length vs) true.
Proof. induction 1 as [|b vs -> _ IH]; [done|]. cbn. by rewrite <- IH. Qed.

(** C25: usertests reports the truth.  For all tables of tests, every command
    line and whatever the kernel answers, the process that drives the tests
    exits with 0 only if it was started without -c and -C, and has called
    wait() exactly once for every test of the tables that the command line
    selects, with the status 0 each time, and for at least one test if a name
    was given; if it ends in any other case it exits with 1, and it never
    becomes another program.  The processes that run the tests are the ones
    that have seen fork() return 0, and where wait() fails the status is the
    old contents [u] of the variable. *)
Theorem usertests_honest u quicktests slowtests argv f ans :
  let r := run f (usertests_main u quicktests slowtests argv) ans in
  is_child (r_hist r) \/
  r_state r = Stopped Running \/ r_state r = Stopped (Exited 1) \/
  r_state r = Stopped (Exited 0) /\ passed u quicktests slowtests argv (r_hist r).
Proof.
  assert (wlp (usertests_main u quicktests slowtests argv)
    (drive_post (passed u quicktests slowtests argv) (fun _ _ => False)) []) as H.
  2:{ specialize (H f ans). cbn [app] in H. destruct H as [H|H]; [by left|right].
      destruct (r_state _) as [|[x| |]]; [done| |done|by left]. destruct H as [->|[-> H]]; [by right; left|by right; right]. }
  unfold usertests_main. destruct (drive_args argv) as [[[quick c] justone]|] eqn:Ea.
  2:{ eapply wlp_then; [apply (wlp_printf u)|]. intros [] h1 _. apply wlp_exit; right; [done|by left]. }
  eapply (wlp_then _ _ _ (fun r h' => r = 1 \/ r = 0 /\ passed u quicktests slowtests argv h')).
  - unfold drivetests. apply (wlp_loop _ _ (fun _ h => c <> 0 \/ h = [])); [|by right]. intros [] h Hh.
    eapply wlp_mono; [|apply (drive_round_ok u)]. intros [[[]|x]|e] h' [Hc|Hp]; try (by left); right; [by left| |done].
    destruct Hp as [->|(-> & Hc & (vs & V & L & F) & Hj)]; [by left|right]. split; [done|]. subst c.
    destruct Hh as [?| ->]; [done|]. exists quick, justone. split; [done|]. split; [|done].
    rewrite V, (all_true vs) by by apply F. cbn [app]. by rewrite <- L.
  - intros r h [->|[-> Hp]]; cbn [truthy].
    + apply wlp_exit; right; [done|by left].
    + eapply wlp_then; [apply (wlp_printf u)|]. intros [] h1 V. apply wlp_exit; right; [done|right].
      split; [done|]. destruct Hp as (q & j & E & V' & Hj). exists q, j. unfold same in V. by rewrite V.
Qed.

(** A kernel that accepts [n] bytes one by one. *)
Definition accepts (n : nat) : list answer := replicate n (1, []).

(** usertests -q with one test, on a kernel with one free page. *)
Definition one_page : list answer := [(40960, []); (40960, []); (-1, []); (45056, []); (45056, [])].
Example usertests_passes :
  r_state (run 200 (usertests_main 0 [mkTest opentest (str "opentest")] [] [str "usertests"; str "-q"])
    (accepts 19 ++ one_page ++ accepts 15 ++ [(7, []); (7, le_bytes 4 0)] ++ accepts 3 ++ one_page ++ accepts 17))
  = Stopped (Exited 0).
Proof. vm_compute. reflexivity. Qed.

(** ** Two tests *)

(** pipe1() gives up with [return] on wrong data: the process of the test then
    exits with 0, which run() takes for success. *)
Definition corrupt_pipe : list answer :=
  [(0, le_bytes 4 3 ++ le_bytes 4 4); (9, []); (0, []); (1, [66])].
Lemma pipe1_accepts_wrong_data :
  let r := run 100 (pipe1 0 (str "pipe1") ;; exit (A := unit) 0) (corrupt_pipe ++ accepts 20) in
  r_state r = Stopped (Exited 0) /\ received (r_hist r) = [66].
Proof. vm_compute. split; reflexivity. Qed.
