(* ===== verification/Grind.v ===== *)
(** * Grind: random system calls in parallel (user/grind.c)

    The random numbers are those of Park and Miller, computed without a wide
    product; go() makes random calls for ever.  The theorems: do_rand()
    computes the generator it says, and go() keeps no descriptor but one and
    no child from one round to the next. *)

From ITree Require Import Core.ITreeDefinition.
From S2P Require Import Prelude Params Machine Spinlock Strings Uart Printk Ulib Uprintf Uprog Uls Utests.

#[local] Opaque vprintf.

(** ** Random numbers *)

(** do_rand(): the new context, and the number. *)
Definition do_rand (ctx : Z) : Z * Z :=
  (* Transform to [1, 0x7ffffffe] range. *)
  let x := ctx mod 0x7ffffffe + 1 in
  let hi := Z.quot x 127773 in
  let lo := Z.rem x 127773 in
  let x := s64 (16807 * lo - 2836 * hi) in
  let x := if x <? 0 then x + 0x7fffffff else x in
  (* Transform to [0, 0x7ffffffd] range. *)
  let x := x - 1 in
  (u64 x, s32 x).

(** ** go() *)

(** What go() and its caller keep between two rounds: [fd], the static [buf],
    [iters] and [rand_next]. *)
Record grind := mkGrind { g_fd : Z; g_buf : list Z; g_iters : Z; g_rand : Z }.
Definition set_g_fd (v : Z) (g : grind) : grind := mkGrind v (g_buf g) (g_iters g) (g_rand g).
Definition set_g_buf (v : list Z) (g : grind) : grind := mkGrind (g_fd g) v (g_iters g) (g_rand g).

Definition CREATE : Z := Z.lor O_CREATE O_RDWR.

(** close(open(path, O_CREATE | O_RDWR)) *)
Definition close_open (path : string) : itree sysE unit :=
  '(fd, _) ← sys (COpen (str path) CREATE);
  sys (CClose fd) ;; mret tt.

(** fork(), and the message when there is no child. *)
Definition grind_fork {A} (child : itree sysE A) (parent : Z -> itree sysE A) : itree sysE A :=
  '(pid, _) ← sys CFork;
  if pid =? 0 then child
  else if pid <? 0 then
    printf (ln "grind: fork failed") [] ;;
    exit 1
  else parent pid.

Definition chdir_or_exit (path msg : string) : itree sysE unit :=
  '(r, _) ← sys (CChdir (str path));
  if negb (r =? 0) then
    printf (ln msg) [] ;;
    exit 1
  else mret tt.

(** The rounds on files: 1 to 12. *)
Definition grind_files (what : Z) (g : grind) : itree sysE grind :=
  if what =? 1 then close_open "grindir/../a" ;; mret g
  else if what =? 2 then close_open "grindir/../grindir/../b" ;; mret g
  else if what =? 3 then sys (CUnlink (str "grindir/../a")) ;; mret g
  else if what =? 4 then
    chdir_or_exit "grindir" "grind: chdir grindir failed" ;;
    sys (CUnlink (str "../b")) ;;
    sys (CChdir (str "/")) ;; mret g
  else if what =? 5 then
    sys (CClose (g_fd g)) ;;
    '(fd, _) ← sys (COpen (str "/grindir/../a") CREATE);
    mret (set_g_fd fd g)
  else if what =? 6 then
    sys (CClose (g_fd g)) ;;
    '(fd, _) ← sys (COpen (str "/./grindir/./../b") CREATE);
    mret (set_g_fd fd g)
  else if what =? 7 then sys (CWrite (g_fd g) (g_buf g)) ;; mret g
  else if what =? 8 then
    '(_, b) ← sys (CRead (g_fd g) 999);
    mret (set_g_buf (b ++ drop (length b) (g_buf g)) g)
  else if what =? 9 then
    sys (CMkdir (str "grindir/../a")) ;;
    close_open "a/../a/./a" ;;
    sys (CUnlink (str "a/a")) ;; mret g
  else if what =? 10 then
    sys (CMkdir (str "/../b")) ;;
    close_open "grindir/../b/b" ;;
    sys (CUnlink (str "b/b")) ;; mret g
  else if what =? 11 then
    sys (CUnlink (str "b")) ;;
    sys (CLink (str "../grindir/./../a") (str "../b")) ;; mret g
  else if what =? 12 then
    sys (CUnlink (str "../grindir/../a")) ;;
    sys (CLink (str ".././b") (str "/grindir/../a")) ;; mret g
  else mret g.

(** The rounds on processes and memory: 13 to 20. *)
Definition grind_procs (what break0 : Z) (g : grind) : itree sysE grind :=
  if what =? 13 then
    grind_fork (exit 0) (fun _ => sys CWait ;; mret g)
  else if what =? 14 then
    grind_fork (sys CFork ;; sys CFork ;; exit 0) (fun _ => sys CWait ;; mret g)
  else if what =? 15 then sbrk 6011 ;; mret g
  else if what =? 16 then
    b ← sbrk 0;
    (if b >? break0 then b ← sbrk 0; sbrk (s32 (- (b - break0))) ;; mret tt else mret tt) ;;
    mret g
  else if what =? 17 then
    grind_fork (close_open "a" ;; exit 0) (fun pid =>
      chdir_or_exit "../grindir/.." "grind: chdir failed" ;;
      sys (CKill pid) ;;
      sys CWait ;; mret g)
  else if what =? 18 then
    grind_fork ('(me, _) ← sys CGetpid; sys (CKill me) ;; exit 0) (fun _ => sys CWait ;; mret g)
  else if what =? 19 then
    '(r, b) ← sys CPipe;
    let fds := pipe_fds b in
    if r <? 0 then
      printf (ln "grind: pipe failed") [] ;;
      exit 1
    else
    grind_fork
      (sys CFork ;;
       sys CFork ;;
       '(r, _) ← sys (CWrite fds.2 (str "x"));
       (if negb (r =? 1) then printf (ln "grind: pipe write failed") [] else mret tt) ;;
       '(r, _) ← sys (CRead fds.1 1);
       (if negb (r =? 1) then printf (ln "grind: pipe read failed") [] else mret tt) ;;
       exit 0)
      (fun _ =>
       sys (CClose fds.1) ;;
       sys (CClose fds.2) ;;
       sys CWait ;; mret g)
  else if what =? 20 then
    grind_fork
      (sys (CUnlink (str "a")) ;;
       sys (CMkdir (str "a")) ;;
       sys (CChdir (str "a")) ;;
       sys (CUnlink (str "../a")) ;;
       sys (COpen (str "x") CREATE) ;;
       sys (CUnlink (str "x")) ;;
       exit 0)
      (fun _ => sys CWait ;; mret g)
  else mret g.

(** Round 21: creating, writing and measuring a file should always succeed. *)
Definition grind_create : itree sysE unit :=
  sys (CUnlink (str "c")) ;;
  '(fd1, _) ← sys (COpen (str "c") CREATE);
  if fd1 <? 0 then
    printf (ln "grind: create c failed") [] ;;
    exit 1
  else
  '(r, _) ← sys (CWrite fd1 (str "x"));
  if negb (r =? 1) then
    printf (ln "grind: write c failed") [] ;;
    exit 1
  else
  '(r, st) ← fstat fd1;
  if negb (r =? 0) then
    printf (ln "grind: fstat failed") [] ;;
    exit 1
  else if negb (st_size st =? 1) then
    printf (ln "grind: fstat reports wrong size %d") [AInt (s32 (st_size st))] ;;
    exit 1
  else if st_ino st >? 200 then
    printf (ln "grind: fstat reports crazy i-number %d") [AInt (st_ino st)] ;;
    exit 1
  else
  sys (CClose fd1) ;;
  sys (CUnlink (str "c")) ;; mret tt.

(** if (dup(fd) != want) exit(code) *)
Definition dup_onto {A} (fd want code : Z) (k : itree sysE A) : itree sysE A :=
  '(r, _) ← sys (CDup fd);
  if negb (r =? want) then
    fprintf 2 (ln "grind: dup failed") [] ;;
    exit code
  else k.

(** read(fd, buf + i, 1) *)
Definition read1 (fd : Z) (i : nat) (buf : list Z) : itree sysE (list Z) :=
  '(_, b) ← sys (CRead fd 1);
  mret (if b is c :: _ then <[i := c]> buf else buf).

(** wait(&st) *)
Definition wait_st (st : Z) : itree sysE Z :=
  '(pid, b) ← sys CWait;
  mret (if pid <? 0 then st else s32 (le_val (take 4 b))).

(** The left side of echo hi | cat. *)
Definition pipeline_echo {A} (aa bb : Z * Z) : itree sysE A :=
  sys (CClose bb.1) ;;
  sys (CClose bb.2) ;;
  sys (CClose aa.1) ;;
  sys (CClose 1) ;;
  dup_onto aa.2 1 1 (
  sys (CClose aa.2) ;;
  sys (CExec (str "grindir/../echo") [str "echo"; str "hi"]) ;;
  fprintf 2 (ln "grind: echo: not found") [] ;;
  exit 2).

(** The right side. *)
Definition pipeline_cat {A} (aa bb : Z * Z) : itree sysE A :=
  sys (CClose aa.2) ;;
  sys (CClose bb.1) ;;
  sys (CClose 0) ;;
  dup_onto aa.1 0 4 (
  sys (CClose aa.1) ;;
  sys (CClose 1) ;;
  dup_onto bb.2 1 5 (
  sys (CClose bb.2) ;;
  sys (CExec (str "/cat") [str "cat"]) ;;
  fprintf 2 (ln "grind: cat: not found") [] ;;
  exit 6)).

(** What the parent makes of the pipeline's output and statuses; [st1] and
    [st2] hold anything before the calls of wait(). *)
Definition pipeline_check (junk : Z) (aa bb : Z * Z) : itree sysE unit :=
  sys (CClose aa.1) ;;
  sys (CClose aa.2) ;;
  sys (CClose bb.2) ;;
  buf ← read1 bb.1 0 [0; 0; 0; 0];
  buf ← read1 bb.1 1 buf;
  buf ← read1 bb.1 2 buf;
  sys (CClose bb.1) ;;
  st1 ← wait_st junk;
  st2 ← wait_st junk;
  if negb (st1 =? 0) || negb (st2 =? 0) || negb (Ulib.strcmp buf (ln "hi") =? 0) then
    printf (str "grind: exec pipeline failed %d %d " ++ [34] ++ str "%s" ++ [34; 10])
      [AInt st1; AInt st2; AStr (Some buf)] ;;
    exit 1
  else mret tt.

(** Round 22: echo hi | cat. *)
Definition grind_pipeline (junk : Z) : itree sysE unit :=
  '(r, b) ← sys CPipe;
  let aa := pipe_fds b in
  if r <? 0 then
    fprintf 2 (ln "grind: pipe failed") [] ;;
    exit 1
  else
  '(r, b) ← sys CPipe;
  let bb := pipe_fds b in
  if r <? 0 then
    fprintf 2 (ln "grind: pipe failed") [] ;;
    exit 1
  else
  '(pid1, _) ← sys CFork;
  if pid1 =? 0 then pipeline_echo aa bb
  else if pid1 <? 0 then
    fprintf 2 (ln "grind: fork failed") [] ;;
    exit 3
  else
  '(pid2, _) ← sys CFork;
  if pid2 =? 0 then pipeline_cat aa bb
  else if pid2 <? 0 then
    fprintf 2 (ln "grind: fork failed") [] ;;
    exit 7
  else pipeline_check junk aa bb.

(** One turn of while (1). *)
Definition go_round (which_child break0 junk : Z) (g : grind) : itree sysE grind :=
  let iters := u64 (g_iters g + 1) in
  (if iters mod 500 =? 0 then sys (CWrite 1 (if truthy which_child then str "B" else str "A")) ;; mret tt
   else mret tt) ;;
  let '(rand_next, r) := do_rand (g_rand g) in
  let what := Z.rem r 23 in
  let g := mkGrind (g_fd g) (g_buf g) iters rand_next in
  if (1 <=? what) && (what <=? 12) then grind_files what g
  else if (13 <=? what) && (what <=? 20) then grind_procs what break0 g
  else if what =? 21 then grind_create ;; mret g
  else if what =? 22 then grind_pipeline junk ;; mret g
  else mret g.

Definition go (which_child rand_next junk : Z) : itree sysE unit :=
  break0 ← sbrk 0;
  sys (CMkdir (str "grindir")) ;;
  chdir_or_exit "grindir" "grind: chdir grindir failed" ;;
  sys (CChdir (str "/")) ;;
  ITree.iter (fun g => g ← go_round which_child break0 junk g; mret (inl g))
    (mkGrind (-1) (replicate 999 0) 0 rand_next).

(** ** iter(), main() *)
Definition iter (rand_next junk : Z) : itree sysE unit :=
  sys (CUnlink (str "a")) ;;
  sys (CUnlink (str "b")) ;;
  '(pid1, _) ← sys CFork;
  if pid1 <? 0 then
    printf (ln "grind: fork failed") [] ;;
    exit 1
  else if pid1 =? 0 then go 0 (Z.lxor rand_next 31) junk ;; exit 0
  else
  '(pid2, _) ← sys CFork;
  if pid2 <? 0 then
    printf (ln "grind: fork failed") [] ;;
    exit 1
  else if pid2 =? 0 then go 1 (Z.lxor rand_next 7177) junk ;; exit 0
  else
  st1 ← wait_st (-1);
  (if negb (st1 =? 0) then sys (CKill pid1) ;; sys (CKill pid2) ;; mret tt else mret tt) ;;
  wait_st (-1) ;;
  exit 0.

Definition grind_main (junk : Z) : itree sysE unit :=
  ITree.iter (fun rand_next =>
    '(pid, _) ← sys CFork;
    if pid =? 0 then iter rand_next junk ;; exit 0
    else
    (if pid >? 0 then sys CWait ;; mret tt else mret tt) ;;
    sys (CPause 20) ;;
    mret (inl (u64 (rand_next + 1)))) 1.

(** ** The generator *)

Definition MINSTD (x : Z) : Z := (7 ^ 5 * x) mod (2 ^ 31 - 1).

(** Schrage's way to multiply: no intermediate result leaves 32 bits. *)
Lemma schrage x :
  1 <= x <= 0x7ffffffe ->
  let y := 16807 * (x mod 127773) - 2836 * (x / 127773) in
  - 2 ^ 31 < y < 2 ^ 31 /\ (if y <? 0 then y + 0x7fffffff else y) = MINSTD x.
Proof.
  intros Hx y. unfold MINSTD. change (7 ^ 5) with 16807. change (2 ^ 31 - 1) with 2147483647. change (2 ^ 31) with 2147483648.
  pose proof (Z.div_mod x 127773) as Hd. pose proof (Z.mod_pos_bound x 127773) as Hm.
  assert (0 <= x / 127773 < 16808) as Hq by (split; [apply Z.div_pos; lia|apply Z.div_lt_upper_bound; lia]).
  assert (16807 * x = 2147483647 * (x / 127773) + y) as E by (unfold y; lia).
  assert (-2147483647 < y < 2147483647) as Hy by (unfold y; lia). split; [lia|]. clearbody y. rewrite E.
  destruct (Z.ltb_spec y 0).
  - apply Z.mod_unique with (q := x / 127773 - 1); lia.
  - apply Z.mod_unique with (q := x / 127773); lia.
Qed.

(** The multiplication can be undone: 7^5 has an inverse. *)
Lemma MINSTD_range x : 1 <= x <= 0x7ffffffe -> 1 <= MINSTD x <= 0x7ffffffe.
Proof.
  intros Hx. unfold MINSTD. change (7 ^ 5) with 16807. change (2 ^ 31 - 1) with 2147483647.
  pose proof (Z.mod_pos_bound (16807 * x) 2147483647). enough ((16807 * x) mod 2147483647 <> 0) by lia.
  intros Hz. apply Z.mod_divide in Hz; [|lia].
  apply Z.gauss in Hz; [|by vm_compute]. destruct Hz as [q Hq]. nia.
Qed.

Lemma MINSTD_inj x y : 1 <= x <= 0x7ffffffe -> 1 <= y <= 0x7ffffffe -> MINSTD x = MINSTD y -> x = y.
Proof.
  assert (forall x, 1 <= x <= 0x7ffffffe -> (1407677000 * MINSTD x) mod 2147483647 = x) as Hinv.
  { intros z Hz. unfold MINSTD. change (7 ^ 5) with 16807. change (2 ^ 31 - 1) with 2147483647.
    rewrite Z.mul_mod_idemp_r by lia. symmetry. apply Z.mod_unique with (q := 11017 * z); lia. }
  intros Hx Hy E. by rewrite <- (Hinv x Hx), <- (Hinv y Hy), E.
Qed.

Lemma do_rand_MINSTD ctx :
  do_rand ctx = (MINSTD (ctx mod 0x7ffffffe + 1) - 1, MINSTD (ctx mod 0x7ffffffe + 1) - 1).
Proof.
  unfold do_rand. set (x := ctx mod 0x7ffffffe + 1).
  assert (1 <= x <= 0x7ffffffe) as Hx by (unfold x; pose proof (Z.mod_pos_bound ctx 0x7ffffffe); lia).
  clearbody x. destruct (schrage x Hx) as [Hy E]. pose proof (MINSTD_range x Hx) as Hr.
  rewrite Z.quot_div_nonneg, Z.rem_mod_nonneg by lia.
  rewrite s64_small by lia. cbv zeta in E |- *. rewrite E, u64_small, s32_small by lia. done.
Qed.

(** do_rand() is the generator x -> 7^5 x mod (2^31 - 1) of Park and Miller on
    1 .. 2^31 - 2, shifted to 0 .. 2^31 - 3, and never runs into one state
    from two. *)
Lemma do_rand_minstd ctx :
  let '(ctx', r) := do_rand ctx in
  ctx' = r /\ 0 <= r <= 0x7ffffffd /\ r + 1 = MINSTD (ctx mod 0x7ffffffe + 1)
  /\ forall ctx2, do_rand ctx2 = do_rand ctx -> ctx2 mod 0x7ffffffe = ctx mod 0x7ffffffe.
Proof.
  assert (forall c, 1 <= c mod 0x7ffffffe + 1 <= 0x7ffffffe) as Hr
    by (intros c; pose proof (Z.mod_pos_bound c 0x7ffffffe); lia).
  rewrite do_rand_MINSTD. pose proof (MINSTD_range _ (Hr ctx)). split_and!; [done|lia|lia|lia|].
  intros ctx2. rewrite do_rand_MINSTD. intros [= E _]. pose proof (MINSTD_inj _ _ (Hr ctx2) (Hr ctx)). lia.
Qed.

(** ** What go() keeps *)

(** Descriptors that a call gives and takes back, and children. *)
Definition fds_of (e : call * answer) : Z :=
  match e.1 with
  | COpen _ _ | CDup _ => if e.2.1 <? 0 then 0 else 1
  | CPipe => if e.2.1 <? 0 then 0 else 2
  | CClose fd => if fd <? 0 then 0 else -1
  | _ => 0
  end.
Definition kids_of (e : call * answer) : Z :=
  match e.1 with
  | CFork => if 0 <? e.2.1 then 1 else 0
  | CWait => -1
  | _ => 0
  end.
Definition fds (h : history) : Z := foldr (fun e n => fds_of e + n) 0 h.
Definition kids (h : history) : Z := foldr (fun e n => kids_of e + n) 0 h.

Lemma fds_snoc h e : fds (h ++ [e]) = fds h + fds_of e.
Proof. unfold fds. rewrite foldr_app. cbn. induction h as [|x h IH]; cbn; [|rewrite IH]; lia. Qed.
Lemma kids_snoc h e : kids (h ++ [e]) = kids h + kids_of e.
Proof. unfold kids. rewrite foldr_app. cbn. induction h as [|x h IH]; cbn; [|rewrite IH]; lia. Qed.

Definition within (h : history) : Prop := fds h <= 5 /\ kids h <= 2.

(** A run from a point with [a] descriptors and [b] children never has more
    than five and two, and when it returns [P] holds of its result and of the
    descriptors and children then. *)
Definition tidy {R} (t : itree sysE R) (P : R -> Z -> Z -> Prop) (a b : Z) : Prop :=
  forall h, fds h = a -> kids h = b ->
    wlp t (fun s h' => match s with Returned r => P r (fds h') (kids h') | Stopped _ => within h' end) h.

Lemma tidy_ret {R} (r : R) (P : R -> Z -> Z -> Prop) a b : P r a b -> tidy (mret r) P a b.
Proof. intros H h <- <-. by apply wlp_ret. Qed.

Lemma tidy_call {R} c (k : answer -> itree sysE R) (P : R -> Z -> Z -> Prop) a b :
  a <= 5 /\ b <= 2 ->
  (forall x, answer_ok c x = true -> tidy (k x) P (a + fds_of (c, x)) (b + kids_of (c, x))) ->
  tidy (mbind k (sys c)) P a b.
Proof.
  intros Hab Hk h <- <-. apply wlp_sys; [done|done|]. intros x Hx. apply Hk; [done|apply fds_snoc|apply kids_snoc].
Qed.

Lemma tidy_exit {R} st (P : R -> Z -> Z -> Prop) a b : a <= 5 /\ b <= 2 -> tidy (exit st) P a b.
Proof. intros Hab h <- <-. by apply wlp_exit. Qed.

Lemma tidy_bind {R T} (t : itree sysE R) (k : R -> itree sysE T) (P : T -> Z -> Z -> Prop) a b :
  tidy t (fun r a b => tidy (k r) P a b) a b -> tidy (mbind k t) P a b.
Proof.
  intros H h Ha Hb. apply wlp_bind. eapply wlp_mono; [|by apply H]. intros [r|e] h' Hr; [|done].
  by apply Hr.
Qed.

Lemma tidy_puts fd bytes (P : unit -> Z -> Z -> Prop) a b :
  a <= 5 /\ b <= 2 -> P tt a b -> tidy (puts fd bytes) P a b.
Proof.
  intros Hab Hk. induction bytes as [|c bytes IH]; cbn [puts]; [by apply tidy_ret|].
  apply tidy_call; [done|]. intros x _. cbn [fds_of kids_of fst]. by rewrite !Z.add_0_r.
Qed.

(** The counters of [tidy] as numerals. *)
Ltac tidy_num :=
  match goal with
  | |- tidy _ _ ?a ?b =>
      let a' := eval vm_compute in a in let b' := eval vm_compute in b in
      change a with a'; change b with b'
  end.

(** One step through a program: a call with the cases of its answer, a text,
    a sequence, a test, or its end. *)
Ltac tidy_cases :=
  repeat match goal with
  | H : ?b = _ |- context [if ?b then _ else _] => rewrite H
  | |- tidy _ _ (?a + (if ?b then _ else _)) _ => destruct b eqn:?
  | |- tidy _ _ _ (?a + (if ?b then _ else _)) => destruct b eqn:?
  end.
Lemma pipe_ok r b :
  answer_ok CPipe (r, b) = true -> (r <? 0) = false ->
  ((pipe_fds b).1 <? 0) = false /\ ((pipe_fds b).2 <? 0) = false.
Proof. cbn [answer_ok fst snd]. intros H1 H2. lia. Qed.
Ltac tidy_pipes :=
  repeat match goal with
  | H : answer_ok CPipe (?r, ?b) = true, H' : (?r <? 0) = false |- _ =>
      destruct (pipe_ok r b H H'); clear H
  end.
Ltac tidy_step :=
  lazymatch goal with
  | |- tidy (mbind _ (sys _)) _ _ _ =>
      apply tidy_call; [lia|]; intros [? ?] ?; cbn [fds_of kids_of fst snd]; cbv beta iota zeta; tidy_cases; tidy_pipes; tidy_num
  | |- tidy (puts _ _) _ _ _ => apply tidy_puts; [lia|]; cbv beta
  | |- tidy (printf _ _) _ _ _ => apply tidy_puts; [lia|]; cbv beta
  | |- tidy (fprintf _ _ _) _ _ _ => apply tidy_puts; [lia|]; cbv beta
  | |- tidy (exit _) _ _ _ => apply tidy_exit; lia
  | |- tidy (mret _) _ _ _ => apply tidy_ret; cbv beta
  | |- tidy (mbind _ _) _ _ _ => apply tidy_bind
  | |- tidy (if ?b then _ else _) _ _ _ => destruct b eqn:?
  end.
Ltac tidy_run := repeat tidy_step.

(** Between two rounds: one descriptor if [fd] is open, no child. *)
Definition kept (g : grind) (a b : Z) : Prop := a = (if g_fd g <? 0 then 0 else 1) /\ b = 0.

Ltac tidy_kept :=
  first [split; [by repeat match goal with H : ?b = _ |- context [if ?b then _ else _] => rewrite H end|done]
        |exfalso; lia].

Lemma grind_files_tidy what g a b : kept g a b -> tidy (grind_files what g) kept a b.
Proof.
  intros [-> ->]. destruct (g_fd g <? 0) eqn:Hfd; unfold grind_files, close_open, chdir_or_exit.
  all: tidy_run; unfold kept; cbn [g_fd set_g_fd set_g_buf]; tidy_kept.
Qed.

Lemma grind_procs_tidy what break0 g a b : kept g a b -> tidy (grind_procs what break0 g) kept a b.
Proof.
  intros [-> ->]. destruct (g_fd g <? 0) eqn:Hfd; unfold grind_procs, grind_fork, close_open, chdir_or_exit, sbrk.
  all: tidy_run; unfold kept; cbn [g_fd set_g_fd set_g_buf]; tidy_kept.
Qed.

Lemma grind_create_tidy n b : 0 <= n <= 1 -> b = 0 -> tidy grind_create (fun _ a' b' => a' = n /\ b' = b) n b.
Proof.
  intros Hn ->. assert (n = 0 \/ n = 1) as [-> | ->] by lia; unfold grind_create, fstat.
  all: tidy_run; try done; exfalso; lia.
Qed.

Lemma grind_pipeline_tidy junk n b :
  0 <= n <= 1 -> b = 0 -> tidy (grind_pipeline junk) (fun _ a' b' => a' = n /\ b' = b) n b.
Proof.
  intros Hn ->. assert (n = 0 \/ n = 1) as [-> | ->] by lia.
  all: unfold grind_pipeline, pipeline_echo, pipeline_cat, pipeline_check, dup_onto, read1, wait_st.
  all: tidy_run; try done; exfalso; lia.
Qed.

Lemma tidy_mono {R} (t : itree sysE R) (P P' : R -> Z -> Z -> Prop) a b :
  (forall r a b, P r a b -> P' r a b) -> tidy t P a b -> tidy t P' a b.
Proof. intros HP H h Ha Hb. eapply wlp_mono; [|by apply H]. intros [r|e] h' Hr; [by apply HP|done]. Qed.

Lemma go_round_tidy which break0 junk g a b : kept g a b -> tidy (go_round which break0 junk g) kept a b.
Proof.
  intros Hk. assert (a = 0 \/ a = 1) as Ha by (destruct Hk as [-> _]; destruct (g_fd g <? 0); lia).
  assert (b = 0) as -> by apply Hk. unfold go_round. cbv zeta. apply tidy_bind.
  assert (forall x : unit, tidy (if u64 (g_iters g + 1) mod 500 =? 0
    then sys (CWrite 1 (if truthy which then str "B" else str "A")) ;; mret tt else mret tt)
    (fun _ a' b' => a' = a /\ b' = 0) a 0) as Hw.
  { intros _. destruct Ha as [-> | ->]; tidy_run; done. }
  eapply tidy_mono; [|apply (Hw tt)]. intros _ a' b' [-> ->]. destruct (do_rand (g_rand g)) as [rn r].
  set (g' := mkGrind _ _ _ _). assert (kept g' a 0) as Hk' by exact Hk. clearbody g'.
  destruct (_ && _); [by apply grind_files_tidy|]. destruct (_ && _); [by apply grind_procs_tidy|].
  destruct (_ =? 21); [|destruct (_ =? 22); [|by apply tidy_ret]]; apply tidy_bind.
  - eapply tidy_mono; [|apply (grind_create_tidy a 0); [lia|done]]. intros _ ? ? [-> ->]. by apply tidy_ret.
  - eapply tidy_mono; [|apply (grind_pipeline_tidy junk a 0); [lia|done]]. intros _ ? ? [-> ->]. by apply tidy_ret.
Qed.

(** Whatever the kernel answers, and at every moment of its endless run, go()
    has at most five descriptors of its own open and at most two children it
    has not waited for; a round that is completed leaves exactly the
    descriptor in [fd], if any, and no child. *)
Lemma grind_keeps_nothing which rand_next junk f ans :
  (let x := run f (go which rand_next junk) ans in fds (r_hist x) <= 5 /\ kids (r_hist x) <= 2) /\
  (forall break0 g h, kept g (fds h) (kids h) ->
     let x := run f (go_round which break0 junk g) ans in
     forall g', r_state x = Returned g' -> kept g' (fds (h ++ r_hist x)) (kids (h ++ r_hist x))).
Proof.
  split.
  2:{ intros break0 g h Hk x g' Hg. pose proof (go_round_tidy which break0 junk g _ _ Hk h eq_refl eq_refl f ans) as H.
      fold x in H. by rewrite Hg in H. }
  assert (tidy (go which rand_next junk) (fun _ _ _ => False) 0 0) as H.
  2:{ specialize (H [] eq_refl eq_refl f ans). cbn [app] in H. destruct (r_state _); [done|exact H]. }
  unfold go, sbrk, chdir_or_exit. tidy_run; try (exfalso; lia).
  intros h Ha Hb.
  eapply wlp_iter with (I := fun g h => kept g (fds h) (kids h)).
  - clear. intros g h Hk. apply wlp_bind. eapply wlp_mono; [|by eapply (go_round_tidy which z junk g _ _ Hk)].
    intros [g'|e] h' Hg; [|done]. by apply wlp_ret.
  - clear. intros g h [Hf Hk]. split; [destruct (g_fd g <? 0); lia|lia].
  - by split.
Qed.
