(* ===== verification/Grep.v ===== *)
(** * Grep: the pattern matcher and the line filter (user/grep.c)

    A [char *] to a C string is the list of its bytes before the NUL.  The
    matcher is compared with the usual meaning of the patterns it supports:
    literals, [.], a star after either, [^] at the start and [$] at the
    end. *)

From S2P Require Import Prelude Ulib.

Definition STAR : Z := chr "*".
Definition DOT : Z := chr ".".
Definition CARET : Z := chr "^".
Definition DOLLAR : Z := chr "$".
Definition NEWLINE : Z := 10.

(** ** The matcher *)

(** matchstar(): [here] is matchhere(re, _) for the rest of the pattern. *)
Fixpoint matchstar (here : list Z -> bool) (c : Z) (text : list Z) : bool :=
  here text ||
  match text with
  | [] => false
  | t :: text1 => ((t =? c) || (c =? DOT)) && matchstar here c text1
  end.

Fixpoint matchhere (re text : list Z) {struct re} : bool :=
  match re with
  | [] => true
  | c :: re1 =>
      match re1 with
      | c1 :: re2 =>
          if c1 =? STAR then matchstar (matchhere re2) c text else
          match text with
          | t :: text1 => ((c =? DOT) || (c =? t)) && matchhere re1 text1
          | [] => false
          end
      | [] =>
          if c =? DOLLAR then bool_decide (text = []) else
          match text with
          | t :: text1 => ((c =? DOT) || (c =? t)) && matchhere re1 text1
          | [] => false
          end
      end
  end.

(** The loop of match(): every suffix of the text, the empty one included. *)
Fixpoint match_at (re text : list Z) : bool :=
  matchhere re text ||
  match text with [] => false | _ :: text1 => match_at re text1 end.
Definition match_ (re text : list Z) : bool :=
  match re with
  | c :: re1 => if c =? CARET then matchhere re1 text else match_at re text
  | [] => match_at re text
  end.

(** ** The filter *)
Definition BUF_SIZE : nat := 1024.

(** The inner loop of grep(): [p] is the unread part of the buffer; the
    result is what is left when no newline is found, and the output. *)
Fixpoint scan_lines (fuel : nat) (pattern p out : list Z) : list Z * list Z :=
  match fuel with
  | O => (p, out)
  | S n =>
      match strchr p NEWLINE with
      | None => (p, out)
      | Some q =>
          let line := take q p in
          scan_lines n pattern (drop (S q) p)
            (if match_ pattern line then out ++ line ++ [NEWLINE] else out)
      end
  end.

(** read(): call number [t] is willing to return [S (want t)] bytes; it
    returns at least one when there are any, and at most [max]. *)
Definition read_count (want : nat -> nat) (t max : nat) (input : list Z) : nat :=
  Nat.min max (Nat.min (S (want t)) (length input)).

(** The outer loop; [None] when [fuel] rounds were not enough. *)
Fixpoint grep_loop (fuel : nat) (want : nat -> nat) (pattern : list Z) (t : nat)
    (buf input out : list Z) : option (list Z) :=
  match fuel with
  | O => None
  | S n =>
      let k := read_count want t (BUF_SIZE - length buf - 1) input in
      if decide (k = 0)%nat then Some out else
      let buf := buf ++ take k input in
      let '(rest, out) := scan_lines (S (length buf)) pattern buf out in
      grep_loop n want pattern (S t) rest (drop k input) out
  end.
Definition grep (want : nat -> nat) (pattern input : list Z) : option (list Z) :=
  grep_loop (S (length input)) want pattern 0 [] input [].

(** ** What patterns mean *)
Inductive item := One (x : Z) | Many (x : Z).

Definition fits (x c : Z) : bool := (x =? DOT) || (x =? c).

(** The strings a sequence of items describes. *)
Inductive denotes : list item -> list Z -> Prop :=
| den_nil : denotes [] []
| den_one x c l s : fits x c = true -> denotes l s -> denotes (One x :: l) (c :: s)
| den_many x s1 l s2 : Forall (fun c => fits x c = true) s1 -> denotes l s2 -> denotes (Many x :: l) (s1 ++ s2).

(** The items of a pattern, and whether it ends with the anchor. *)
Fixpoint items (re : list Z) : list item * bool :=
  match re with
  | [] => ([], false)
  | c :: re1 =>
      match re1 with
      | c1 :: re2 => if c1 =? STAR then (Many c :: (items re2).1, (items re2).2)
                     else (One c :: (items re1).1, (items re1).2)
      | [] => if c =? DOLLAR then ([], true) else ([One c], false)
      end
  end.

(** [text] starts with a string of the pattern, all of it if anchored. *)
Definition starts_with (re text : list Z) : Prop :=
  exists s r, text = s ++ r /\ denotes (items re).1 s /\ ((items re).2 = true -> r = []).

Lemma matchstar_spec (here : list Z -> bool) (P : list Z -> Prop) c text :
  (forall t, here t = true <-> P t) ->
  matchstar here c text = true <-> exists s r, text = s ++ r /\ Forall (fun x => fits c x = true) s /\ P r.
Proof.
  intros Hh. induction text as [|t text IH]; cbn [matchstar]; rewrite orb_true_iff, Hh.
  - split; [intros [H|H]; [by exists [], []|done]|].
    intros (s & r & E & _ & H). symmetry in E. apply app_nil in E as [-> ->]. by left.
  - rewrite andb_true_iff, IH. unfold fits. split.
    + intros [H|[Hc (s & r & -> & Hs & H)]]; [by exists [], (t :: text)|].
      exists (t :: s), r. split; [done|]. split; [|done]. constructor; [|done]. cbn.
      rewrite (Z.eqb_sym c t), orb_comm. exact Hc.
    + intros ([|x s] & r & E & Hs & H); [left; cbn in E; by subst|]. right. injection E as <- ->.
      apply Forall_cons in Hs as [Hx Hs]. cbn in Hx. rewrite (Z.eqb_sym c t), orb_comm in Hx.
      split; [done|]. by exists s, r.
Qed.

(** One character of the pattern against the first of the text. *)
Lemma starts_with_one c l b text :
  (exists s r, text = s ++ r /\ denotes (One c :: l) s /\ (b = true -> r = []))
  <-> exists t text1, text = t :: text1 /\ fits c t = true
      /\ exists s r, text1 = s ++ r /\ denotes l s /\ (b = true -> r = []).
Proof.
  split.
  - intros (s & r & -> & Hd & Hb). inversion Hd as [|x t l' s' Hf Hd'|]; subst.
    exists t, (s' ++ r). split; [done|]. split; [done|]. by exists s', r.
  - intros (t & text1 & -> & Hf & s & r & -> & Hd & Hb). exists (t :: s), r. split; [done|].
    split; [by constructor|done].
Qed.

Lemma matchhere_spec re text : matchhere re text = true <-> starts_with re text.
Proof.
  revert text. induction re as [re IH] using (induction_ltof1 _ length). intros text.
  unfold ltof in IH. destruct re as [|c re1]; unfold starts_with; cbn [matchhere items].
  { split; [|done]. intros _. exists [], text. split; [done|]. split; [constructor|done]. }
  assert (Hone : forall l b, (forall t, matchhere re1 t = true <-> exists s r, t = s ++ r /\ denotes l s /\ (b = true -> r = [])) ->
    match text with t :: text1 => ((c =? DOT) || (c =? t)) && matchhere re1 text1 | [] => false end = true
    <-> exists s r, text = s ++ r /\ denotes (One c :: l) s /\ (b = true -> r = [])).
  { intros l b Hr. rewrite starts_with_one. destruct text as [|t text1].
    - split; [done|]. by intros (t & text1 & E & _).
    - rewrite andb_true_iff, Hr. split.
      + intros [Hf H]. by exists t, text1.
      + intros (t' & text' & E & Hf & H). injection E as <- <-. done. }
  destruct re1 as [|c1 re2].
  - destruct (c =? DOLLAR); [|apply (Hone [] false), (IH []); cbn; lia].
    rewrite bool_decide_eq_true. cbn. split.
    + intros ->. exists [], []. split; [done|]. split; [constructor|done].
    + intros (s & r & -> & Hd & Hr). inversion Hd. cbn. by apply Hr.
  - destruct (c1 =? STAR); cbn [fst snd].
    + rewrite (matchstar_spec _ (starts_with re2)) by (intros t; apply IH; cbn; lia). split.
      * intros (s1 & r1 & -> & Hs & s2 & r & -> & Hd & Hb). exists (s1 ++ s2), r.
        split; [by rewrite app_assoc|]. split; [by constructor|done].
      * intros (s & r & -> & Hd & Hb). inversion Hd as [| |x s1 l s2 Hf Hd']; subst.
        exists s1, (s2 ++ r). split; [by rewrite app_assoc|]. split; [done|]. by exists s2, r.
    + apply Hone. intros t. apply (IH (c1 :: re2)). cbn. lia.
Qed.

Lemma match_at_spec re text :
  match_at re text = true <-> exists pre suf, text = pre ++ suf /\ starts_with re suf.
Proof.
  induction text as [|t text IH]; cbn [match_at]; rewrite orb_true_iff, matchhere_spec.
  - split; [intros [H|H]; [by exists [], []|done]|].
    intros (pre & suf & E & H). symmetry in E. apply app_nil in E as [-> ->]. by left.
  - rewrite IH. split.
    + intros [H|(pre & suf & -> & H)]; [by exists [], (t :: text)|by exists (t :: pre), suf].
    + intros ([|x pre] & suf & E & H); [left; cbn in E; by subst|right]. injection E as <- ->. by exists pre, suf.
Qed.

(** C36: the matcher is correct.  match() answers 1 exactly when some part of
    the text is a string of the pattern: literal characters stand for
    themselves, [.] for any character, [x*] for any number of [x] (or of any
    characters for [.*]); after [^] the part must begin at the start of the
    text, before a final [$] it must reach its end. *)
Theorem match_correct re text :
  let anchored := match re with c :: _ => c =? CARET | [] => false end in
  let body := if anchored then tail re else re in
  match_ re text = true <->
  exists pre mid suf, text = pre ++ mid ++ suf /\ denotes (items body).1 mid
    /\ (anchored = true -> pre = []) /\ ((items body).2 = true -> suf = []).
Proof.
  assert (Hfree : forall re, match_at re text = true <->
    exists pre mid suf, text = pre ++ mid ++ suf /\ denotes (items re).1 mid
      /\ (false = true -> pre = []) /\ ((items re).2 = true -> suf = [])).
  { intros re0. rewrite match_at_spec. split.
    - intros (pre & suf & -> & mid & r & -> & Hd & Hr). by exists pre, mid, r.
    - intros (pre & mid & suf & -> & Hd & _ & Hs). exists pre, (mid ++ suf). split; [done|]. by exists mid, suf. }
  intros anchored body. unfold anchored, body, match_. destruct re as [|c re1]; [apply Hfree|].
  destruct (c =? CARET); [|apply Hfree]. cbn [tail]. rewrite matchhere_spec. split.
  - intros (mid & suf & -> & Hd & Hs). exists [], mid, suf. done.
  - intros (pre & mid & suf & -> & Hd & Hp & Hs). rewrite Hp by done. by exists mid, suf.
Qed.

(** ** Lines *)

(** The newline-terminated lines of a text, and what follows the last one. *)
Fixpoint lines (l : list Z) : list (list Z) * list Z :=
  match l with
  | [] => ([], [])
  | c :: r =>
      let '(ls, last) := lines r in
      if c =? NEWLINE then ([] :: ls, last)
      else match ls with [] => ([], c :: last) | x :: ls => ((c :: x) :: ls, last) end
  end.

(** The lines that match, as printed. *)
Definition matched (pattern l : list Z) : list Z :=
  mjoin ((fun x => if match_ pattern x then x ++ [NEWLINE] else []) <$> (lines l).1).

(** Every line, and the unterminated rest, is shorter than the buffer. *)
Definition short_lines (l : list Z) : Prop :=
  Forall (fun x => (length x < BUF_SIZE - 1)%nat) ((lines l).2 :: (lines l).1).

Definition plain (l : list Z) : Prop := Forall (fun c => c <> 0) l.

Lemma lines_nonl p r :
  NEWLINE ∉ p -> lines (p ++ NEWLINE :: r) = (p :: (lines r).1, (lines r).2).
Proof.
  induction p as [|c p IH]; intros Hp; cbn.
  - by destruct (lines r).
  - apply not_elem_of_cons in Hp as [Hc Hp]. rewrite IH by done.
    by rewrite (proj2 (Z.eqb_neq c NEWLINE)) by congruence.
Qed.

Lemma lines_last p : NEWLINE ∉ p -> lines p = ([], p).
Proof.
  induction p as [|c p IH]; intros Hp; [done|]. apply not_elem_of_cons in Hp as [Hc Hp]. cbn. rewrite IH by done.
  by rewrite (proj2 (Z.eqb_neq c NEWLINE)) by congruence.
Qed.

Lemma strchr_spec p c :
  plain p -> c <> 0 ->
  match strchr p c with
  | None => c ∉ p
  | Some q => p = take q p ++ c :: drop (S q) p /\ c ∉ take q p
  end.
Proof.
  intros Hp Hc. induction Hp as [|x p Hx Hp IH]; cbn [strchr]; [apply not_elem_of_nil|].
  rewrite (proj2 (truthy_true x)) by done. cbn [negb]. destruct (Z.eqb_spec x c) as [->|Hne].
  { split; [done|apply not_elem_of_nil]. }
  destruct (strchr p c) as [q|]; cbn.
  - destruct IH as [E Hq]. split; [f_equal; exact E|]. rewrite not_elem_of_cons. done.
  - rewrite not_elem_of_cons. done.
Qed.

Lemma plain_app l1 l2 : plain (l1 ++ l2) <-> plain l1 /\ plain l2.
Proof. apply Forall_app. Qed.

(** The inner loop takes the complete lines off the front. *)
Lemma scan_lines_spec fuel pattern p out r :
  (length p < fuel)%nat -> plain p ->
  let '(rest, out') := scan_lines fuel pattern p out in
  (NEWLINE ∉ rest) /\ plain rest /\ out' ++ matched pattern (rest ++ r) = out ++ matched pattern (p ++ r)
  /\ (short_lines (p ++ r) -> short_lines (rest ++ r)) /\ (length rest <= length p)%nat.
Proof.
  revert p out. induction fuel as [|n IH]; intros p out Hf Hp; [lia|]. cbn [scan_lines].
  pose proof (strchr_spec p NEWLINE Hp) as Hs. destruct (strchr p NEWLINE) as [q|]; [|by split_and!; [apply Hs|..]].
  destruct Hs as [E Hq]; [done|]. set (line := take q p) in *. set (p' := drop (S q) p) in *.
  assert (length p = length line + S (length p'))%nat as Hl.
  { apply (f_equal length) in E. rewrite length_app in E. exact E. }
  assert (plain p') as Hp' by (rewrite E in Hp; apply plain_app in Hp as [_ Hp]; by apply Forall_cons in Hp as [_ ?]).
  specialize (IH p' (if match_ pattern line then out ++ line ++ [NEWLINE] else out) ltac:(lia) Hp').
  destruct (scan_lines n pattern p' _) as [rest out']. destruct IH as (H1 & H2 & H3 & H4 & H5).
  assert (lines (p ++ r) = (line :: (lines (p' ++ r)).1, (lines (p' ++ r)).2)) as El.
  { rewrite E, <- app_assoc. by apply lines_nonl. }
  split_and!; [done|done| | |lia].
  - rewrite H3. unfold matched. rewrite El. cbn. destruct (match_ pattern line); cbn; [|done].
    by rewrite <- !app_assoc.
  - intros Hsh. apply H4. unfold short_lines in *. rewrite El in Hsh. cbn in Hsh.
    apply Forall_cons in Hsh as [Ha Hb]. apply Forall_cons in Hb as [_ Hb]. by constructor.
Qed.

Lemma short_front buf input : NEWLINE ∉ buf -> short_lines (buf ++ input) -> (length buf < BUF_SIZE - 1)%nat.
Proof.
  intros Hb Hs. unfold short_lines in Hs.
  destruct (decide (NEWLINE ∈ input)) as [Hin|Hin].
  - apply list_elem_of_split_l in Hin as (l1 & l2 & -> & Hl1).
    rewrite app_assoc, lines_nonl in Hs by (rewrite elem_of_app; tauto). cbn [fst snd] in Hs.
    apply Forall_cons in Hs as [_ Hs]. apply Forall_cons in Hs as [Hs _]. rewrite length_app in Hs. lia.
  - rewrite lines_last in Hs by (rewrite elem_of_app; tauto). cbn [fst snd] in Hs. apply Forall_cons in Hs as [Hs _].
    rewrite length_app in Hs. lia.
Qed.

Lemma grep_loop_spec fuel want pattern t buf input out :
  (length input < fuel)%nat -> plain (buf ++ input) -> NEWLINE ∉ buf -> short_lines (buf ++ input) ->
  grep_loop fuel want pattern t buf input out = Some (out ++ matched pattern (buf ++ input)).
Proof.
  revert t buf input out. induction fuel as [|n IH]; intros t buf input out Hf Hp Hb Hs; [lia|]. cbn [grep_loop].
  pose proof (short_front buf input Hb Hs) as Hlen. apply plain_app in Hp as [Hp1 Hp2].
  set (k := read_count want t (BUF_SIZE - length buf - 1) input). destruct (decide (k = 0)%nat) as [E|E].
  - assert (input = []) as -> by (destruct input; [done|]; unfold k, read_count in E; cbn [length] in E; lia).
    rewrite app_nil_r. unfold matched. rewrite lines_last by done. cbn. by rewrite app_nil_r.
  - assert (k <= length input)%nat as Hk by (unfold k, read_count; lia).
    rewrite <- (take_drop k input) in Hp2. apply plain_app in Hp2 as [Hp2 Hp3].
    assert (Hcat : (buf ++ take k input) ++ drop k input = buf ++ input) by (by rewrite <- app_assoc, take_drop).
    pose proof (scan_lines_spec (S (length (buf ++ take k input))) pattern (buf ++ take k input) out (drop k input)) as Hsc.
    destruct (scan_lines _ _ _ _) as [rest out'].
    destruct Hsc as (H1 & H2 & H3 & H4 & _); [lia|by apply plain_app|]. rewrite Hcat in H3, H4.
    rewrite IH; [by rewrite H3|rewrite length_drop; lia|by apply plain_app|done|by apply H4].
Qed.


