(* ===== verification/Sh.v ===== *)
(** * Sh: the shell (user/sh.c)

    The parser and the command runner.  A [char *] into the command line is
    the rest of the line from there on, so that [s < es] is [s <> []]; the
    strings of a parsed command are pairs of such pointers (the start, and
    one past the end) until nulterminate() cuts the line up. *)

From S2P Require Import Prelude Params Machine Spinlock Strings Uart Printk Ulib Uprintf.

(** ** Commands; [T] is the type of strings *)
Inductive cmd (T : Type) :=
| EXEC (argv : list T)
| REDIR (c : cmd T) (file : T) (mode fd : Z)
| PIPE (left right : cmd T)
| LIST (left right : cmd T)
| BACK (c : cmd T).
Arguments EXEC {T} argv.
Arguments REDIR {T} c file mode fd.
Arguments PIPE {T} left right.
Arguments LIST {T} left right.
Arguments BACK {T} c.

Fixpoint cmap {A B} (f : A -> B) (c : cmd A) : cmd B :=
  match c with
  | EXEC argv => EXEC (f <$> argv)
  | REDIR c file mode fd => REDIR (cmap f c) (f file) mode fd
  | PIPE l r => PIPE (cmap f l) (cmap f r)
  | LIST l r => LIST (cmap f l) (cmap f r)
  | BACK c => BACK (cmap f c)
  end.

Definition MAXARGS : nat := 10.

(** ** Tokens *)
Definition ptr : Type := list Z.
Definition whitespace : list Z := str " " ++ [9; 13; 10; 11].
Definition symbols : list Z := str "<|>&;()".

(** [strchr(set, c) != 0] *)
Definition among (set : list Z) (c : Z) : bool := bool_decide (c ∈ set).
Arguments whitespace : simpl never.
Arguments symbols : simpl never.
Arguments among : simpl never.

Fixpoint skip_ws (s : ptr) : ptr :=
  match s with
  | [] => []
  | c :: r => if among whitespace c then skip_ws r else s
  end.
Fixpoint skip_word (s : ptr) : ptr :=
  match s with
  | [] => []
  | c :: r => if negb (among whitespace c) && negb (among symbols c) then skip_word r else s
  end.

(** gettoken(): the token, [*q], [*eq] and the new [*ps]. *)
Definition gettoken (s : ptr) : Z * ptr * ptr * ptr :=
  let q := skip_ws s in
  let '(ret, eq) :=
    match q with
    | [] => (0, [])
    | c :: r =>
        if c =? 0 then (0, q)
        else if among (str "|();&<") c then (c, r)
        else if c =? chr ">" then
          match r with
          | d :: r' => if d =? chr ">" then (chr "+", r') else (chr ">", r)
          | [] => (chr ">", r)
          end
        else (chr "a", skip_word q)
    end in
  (ret, q, eq, skip_ws eq).

(** peek(): the answer and the new [*ps]. *)
Definition peek (s : ptr) (toks : list Z) : bool * ptr :=
  let s := skip_ws s in
  (match s with [] => false | c :: _ => truthy c && among toks c end, s).

(** ** The parser *)

(** What panic(s) writes to descriptor 2 before it exits. *)
Definition panic_text (s : list Z) : list Z := vprintf (str "%s" ++ [10]) [AStr (Some s)].
Arguments panic_text : simpl never.

(** [Bad out]: the process has printed [out] and called exit(1). *)
Inductive pres (A : Type) := Ok (a : A) | Bad (out : list Z) | NoFuel.
Arguments Ok {A} a.
Arguments Bad {A} out.
Arguments NoFuel {A}.

#[global] Instance pres_ret : MRet pres := @Ok.
#[global] Instance pres_bind : MBind pres := fun A B f m =>
  match m with Ok a => f a | Bad out => Bad out | NoFuel => NoFuel end.

Definition token : Type := ptr * ptr.

(** A redirection, and the constructor redircmd() applied in order. *)
Record redir (T : Type) := mkRedir { rd_file : T; rd_mode : Z; rd_fd : Z }.
Arguments mkRedir {T} _ _ _.
Arguments rd_file {T} _.
Arguments rd_mode {T} _.
Arguments rd_fd {T} _.
Definition wrap {T} (c : cmd T) (rs : list (redir T)) : cmd T :=
  foldl (fun c r => REDIR c (rd_file r) (rd_mode r) (rd_fd r)) c rs.

(** The redirection of operator [tok] to a file. *)
Definition redir_of {T} (tok : Z) (file : T) : redir T :=
  if tok =? chr "<" then mkRedir file O_RDONLY 0
  else if tok =? chr ">" then mkRedir file (Z.lor (Z.lor O_WRONLY O_CREATE) O_TRUNC) 1
  else mkRedir file (Z.lor O_WRONLY O_CREATE) 1.

(** parseredirs(), collecting the redirections found. *)
Fixpoint parseredirs (fuel : nat) (rs : list (redir token)) (s : ptr) : pres (list (redir token) * ptr) :=
  match fuel with
  | O => NoFuel
  | S n =>
      let '(b, s) := peek s (str "<>") in
      if b then
        let '(tok, _, _, s) := gettoken s in
        let '(t, q, eq, s) := gettoken s in
        if negb (t =? chr "a") then Bad (panic_text (str "missing file for redirection"))
        else parseredirs n (rs ++ [redir_of tok (q, eq)]) s
      else Ok (rs, s)
  end.

(** The argument loop of parseexec().  [cmd] is filled in while [ret] wraps
    redirections around it, so both are collected: arguments and
    redirections. *)
Fixpoint exec_loop (fuel : nat) (argv : list token) (rs : list (redir token)) (s : ptr)
    : pres (list token * list (redir token) * ptr) :=
  match fuel with
  | O => NoFuel
  | S n =>
      let '(b, s) := peek s (str "|)&;") in
      if b then Ok (argv, rs, s) else
      let '(tok, q, eq, s) := gettoken s in
      if tok =? 0 then Ok (argv, rs, s) else
      if negb (tok =? chr "a") then Bad (panic_text (str "syntax")) else
      let argv := argv ++ [(q, eq)] in
      if decide (MAXARGS <= length argv)%nat then Bad (panic_text (str "too many args")) else
      '(rs, s) ← parseredirs (S (length s)) rs s;
      exec_loop n argv rs s
  end.

(** [while (peek(ps, es, "&")) { gettoken(ps, es, 0, 0); cmd = backcmd(cmd); }] *)
Fixpoint back_loop (fuel : nat) (c : cmd token) (s : ptr) : pres (cmd token * ptr) :=
  match fuel with
  | O => NoFuel
  | S n =>
      let '(b, s) := peek s (str "&") in
      if b then let '(_, _, _, s) := gettoken s in back_loop n (BACK c) s else Ok (c, s)
  end.

Fixpoint parseline (fuel : nat) (s : ptr) : pres (cmd token * ptr) :=
  match fuel with
  | O => NoFuel
  | S n =>
      '(c, s) ← parsepipe n s;
      '(c, s) ← back_loop (S (length s)) c s;
      let '(b, s) := peek s (str ";") in
      if b then
        let '(_, _, _, s) := gettoken s in
        '(c2, s) ← parseline n s;
        Ok (LIST c c2, s)
      else Ok (c, s)
  end
with parsepipe (fuel : nat) (s : ptr) : pres (cmd token * ptr) :=
  match fuel with
  | O => NoFuel
  | S n =>
      '(c, s) ← parseexec n s;
      let '(b, s) := peek s (str "|") in
      if b then
        let '(_, _, _, s) := gettoken s in
        '(c2, s) ← parsepipe n s;
        Ok (PIPE c c2, s)
      else Ok (c, s)
  end
with parseexec (fuel : nat) (s : ptr) : pres (cmd token * ptr) :=
  match fuel with
  | O => NoFuel
  | S n =>
      let '(b, s) := peek s (str "(") in
      if b then parseblock n s else
      '(rs, s) ← parseredirs (S (length s)) [] s;
      '(argv, rs, s) ← exec_loop (S (length s)) [] rs s;
      Ok (wrap (EXEC argv) rs, s)
  end
with parseblock (fuel : nat) (s : ptr) : pres (cmd token * ptr) :=
  match fuel with
  | O => NoFuel
  | S n =>
      let '(b, s) := peek s (str "(") in
      if negb b then Bad (panic_text (str "parseblock")) else
      let '(_, _, _, s) := gettoken s in
      '(c, s) ← parseline n s;
      let '(b, s) := peek s (str ")") in
      if negb b then Bad (panic_text (str "syntax - missing )")) else
      let '(_, _, _, s) := gettoken s in
      '(rs, s) ← parseredirs (S (length s)) [] s;
      Ok (wrap c rs, s)
  end.

(** Nesting of the parser's calls on a line of [n] bytes. *)
Definition parse_fuel (n : nat) : nat := 4 * (n + 1).

(** nulterminate(): the places it sets to NUL, in order. *)
Fixpoint ends {T} (c : cmd (T * ptr)) : list ptr :=
  match c with
  | EXEC argv => snd <$> argv
  | REDIR c file _ _ => ends c ++ [file.2]
  | PIPE l r | LIST l r => ends l ++ ends r
  | BACK c => ends c
  end.

(** The address of a pointer as an offset into the line. *)
Definition offset (line : list Z) (p : ptr) : nat := length line - length p.

Definition nulterminate {T} (line : list Z) (c : cmd (T * ptr)) : list Z :=
  foldl (fun buf p => <[offset line p := 0]> buf) (line ++ [0]) (ends c).

(** The C string at a pointer, in the line as it is after nulterminate(). *)
Definition string_at (line buf : list Z) (p : ptr) : list Z := cstr (drop (offset line p) buf).

Definition parsetree (line : list Z) : pres (cmd token) :=
  '(c, s) ← parseline (parse_fuel (length line)) line;
  let s := (peek s []).2 in
  if decide (s = []) then Ok c
  else Bad (vprintf (str "leftovers: %s" ++ [10]) [AStr (Some s)] ++ panic_text (str "syntax")).

(** parsecmd(): the command, with the strings its pointers now point to. *)
Definition parsecmd (buf : list Z) : pres (cmd (list Z)) :=
  let line := cstr buf in
  c ← parsetree line;
  let buf' := nulterminate line c in
  Ok (cmap (fun t => string_at line buf' t.1) c).

(** Examples. *)
Example parse_pipeline :
  parsecmd (str "grep x < in | wc > out ; (a; b)&" ++ [10]) =
  Ok (LIST (PIPE (REDIR (EXEC [str "grep"; str "x"]) (str "in") O_RDONLY 0)
                 (REDIR (EXEC [str "wc"]) (str "out") 0x601 1))
           (BACK (LIST (EXEC [str "a"]) (EXEC [str "b"])))).
Proof. vm_compute. reflexivity. Qed.

(** ** What the parser guarantees *)
Definition word_char (c : Z) : bool := negb (among whitespace c) && negb (among symbols c).

(** A token of the line: a non-empty run of word characters that does not go
    on. *)
Record tok_ok (line : list Z) (t : token) : Prop := {
  to_line : t.1 `suffix_of` line;
  to_word : exists w, t.1 = w ++ t.2 /\ w <> [] /\ Forall (fun c => word_char c = true) w;
  to_end : match t.2 with [] => True | c :: _ => word_char c = false end
}.

Definition redir_ok (mode fd : Z) : Prop :=
  (mode = O_RDONLY /\ fd = 0)
  \/ ((mode = Z.lor O_WRONLY O_CREATE \/ mode = Z.lor (Z.lor O_WRONLY O_CREATE) O_TRUNC) /\ fd = 1).

(** A well-formed command over strings that satisfy [P]. *)
Fixpoint cmd_wf {T} (P : T -> Prop) (c : cmd T) : Prop :=
  match c with
  | EXEC argv => Forall P argv /\ (length argv < MAXARGS)%nat
  | REDIR c file mode fd => cmd_wf P c /\ P file /\ redir_ok mode fd
  | PIPE l r | LIST l r => cmd_wf P l /\ cmd_wf P r
  | BACK c => cmd_wf P c
  end.

Lemma skip_ws_suffix s : skip_ws s `suffix_of` s.
Proof. induction s as [|c s IH]; cbn; [done|]. destruct (among whitespace c); [by apply suffix_cons_r|done]. Qed.

Lemma skip_ws_head s : match skip_ws s with [] => True | c :: _ => among whitespace c = false end.
Proof. induction s as [|c s IH]; cbn; [done|]. destruct (among whitespace c) eqn:E; [done|by rewrite E]. Qed.

Lemma skip_word_spec s :
  exists w, s = w ++ skip_word s /\ Forall (fun c => word_char c = true) w
    /\ match skip_word s with [] => True | c :: _ => word_char c = false end.
Proof.
  induction s as [|c s IH]; cbn; [by exists []|]. fold (word_char c). destruct (word_char c) eqn:E.
  - destruct IH as (w & E1 & Hw & He). exists (c :: w). split; [cbn; by f_equal|]. split; [by constructor|done].
  - exists []. rewrite E. done.
Qed.

Lemma suffix_length {A} (l k : list A) : l `suffix_of` k -> (length l <= length k)%nat.
Proof. intros [x ->]. rewrite length_app. lia. Qed.

(** What one call of gettoken() does. *)
Record token_spec (line s : ptr) (r : Z * ptr * ptr * ptr) : Prop := {
  ts_suffix : r.2 `suffix_of` s;
  ts_short : r.1.1.1 <> 0 -> (length r.2 < length s)%nat;
  ts_tok : r.1.1.1 = chr "a" -> tok_ok line (r.1.1.2, r.1.2)
}.

Lemma symbol_not_word c : among (str "|();&<") c = true -> word_char c = false.
Proof.
  intros H%bool_decide_eq_true. revert c H. apply Forall_forall. vm_compute. repeat constructor.
Qed.

Lemma other_symbol c : among symbols c = true -> among (str "|();&<") c = true \/ c = chr ">".
Proof.
  intros H%bool_decide_eq_true. revert c H. apply Forall_forall. vm_compute. repeat (constructor; [first [by left|by right]|]). constructor.
Qed.

Lemma gettoken_spec line s : s `suffix_of` line -> token_spec line s (gettoken s).
Proof.
  intros Hs. unfold gettoken. pose proof (skip_ws_suffix s) as Hq. pose proof (skip_ws_head s) as Hh.
  pose proof (suffix_length _ _ Hq) as Hl.
  assert (Hstep : forall c r t k, skip_ws s = c :: r -> t <> chr "a" -> k `suffix_of` r -> token_spec line s (t, c :: r, k, skip_ws k)).
  { intros c r t k E Ht Hk. rewrite E in Hq, Hl. pose proof (skip_ws_suffix k) as Hk'.
    pose proof (suffix_length _ _ Hk). pose proof (suffix_length _ _ Hk'). cbn in Hl.
    split; cbn; [|lia|done]. trans k; [done|]. trans r; [done|]. trans (c :: r); [by apply suffix_cons_r|done]. }
  destruct (skip_ws s) as [|c r] eqn:E.
  { split; cbn; [apply suffix_nil|done|done]. }
  destruct (Z.eqb_spec c 0) as [->|Hc0].
  { split; cbn [fst snd]; [|done|done]. trans (0 :: r); [apply skip_ws_suffix|done]. }
  destruct (among (str "|();&<") c) eqn:Ea.
  { apply Hstep; [done| |done]. intros ->. by vm_compute in Ea. }
  destruct (Z.eqb_spec c (chr ">")) as [->|Hgt].
  { destruct r as [|d r']; [by apply Hstep|]. destruct (d =? chr ">"); apply Hstep; try done. by apply suffix_cons_r. }
  assert (word_char c = true) as Hw.
  { unfold word_char. rewrite Hh. destruct (among symbols c) eqn:Es; [|done].
    apply other_symbol in Es as [Es|Es]; congruence. }
  destruct (skip_word_spec (c :: r)) as (w & Ew & Hww & He).
  assert (w <> []) as Hne.
  { intros ->. cbn in Ew. unfold word_char in Hw. rewrite Hw in Ew. destruct (skip_word_spec r) as (w' & Ew' & _).
    rewrite Ew' in Ew at 1. apply (f_equal length) in Ew. cbn in Ew. rewrite length_app in Ew. lia. }
  set (eq := skip_word (c :: r)) in *.
  assert (eq `suffix_of` c :: r) as Heq by (by exists w). pose proof (skip_ws_suffix eq) as Hs'.
  pose proof (suffix_length _ _ Hs').
  assert (length (c :: r) = length w + length eq)%nat as Hlw by (rewrite Ew at 1; by rewrite length_app).
  assert (0 < length w)%nat by (destruct w; [done|cbn; lia]).
  split; cbn [fst snd].
  - trans eq; [done|]. by trans (c :: r).
  - intros _. lia.
  - intros _. split; cbn [fst snd]; [by trans s|by exists w|done].
Qed.

Section parser_spec.
Context (line : list Z).

Definition redirs_ok (rs : list (redir token)) : Prop :=
  Forall (fun r => tok_ok line (rd_file r) /\ redir_ok (rd_mode r) (rd_fd r)) rs.

Lemma peek_suffix s toks : (peek s toks).2 `suffix_of` s.
Proof. apply skip_ws_suffix. Qed.

(** A token that peek() has seen is not the end of the line. *)
Lemma peek_token s toks s' : peek s toks = (true, s') -> (gettoken s').1.1.1 <> 0.
Proof.
  unfold peek. intros [= Hb Es]. pose proof (skip_ws_head s) as Hh. rewrite Es in *.
  destruct s' as [|c r]; [done|]. apply andb_true_iff in Hb as [Hc _]. apply truthy_true in Hc.
  unfold gettoken. cbn [skip_ws]. rewrite Hh. rewrite (proj2 (Z.eqb_neq c 0)) by done.
  destruct (among (str "|();&<") c); [done|]. destruct (c =? chr ">"); [|done].
  destruct r as [|d r]; [done|]. by destruct (d =? chr ">").
Qed.

Lemma redir_of_ok tok t : tok_ok line t -> tok_ok line (rd_file (redir_of tok t)) /\ redir_ok (rd_mode (redir_of tok t)) (rd_fd (redir_of tok t)).
Proof.
  intros Ht. unfold redir_of, redir_ok. destruct (tok =? chr "<"); [cbn; tauto|]. destruct (tok =? chr ">"); cbn; tauto.
Qed.

Lemma parseredirs_spec fuel rs s :
  s `suffix_of` line -> redirs_ok rs ->
  match parseredirs fuel rs s with
  | Ok (rs', s') => redirs_ok rs' /\ s' `suffix_of` s
  | Bad _ => True
  | NoFuel => (fuel <= length s)%nat
  end.
Proof.
  revert rs s. induction fuel as [|n IH]; intros rs s Hs Hrs; cbn [parseredirs]; [lia|].
  pose proof (peek_suffix s (str "<>")) as Hp. destruct (peek s (str "<>")) as [b s1] eqn:Ep. cbn in Hp.
  destruct b; [|done]. pose proof (peek_token _ _ _ Ep) as Ht0.
  assert (s1 `suffix_of` line) as Hs1 by by trans s.
  pose proof (gettoken_spec line s1 Hs1) as T1. destruct (gettoken s1) as [[[tok q0] eq0] s2]. cbn in Ht0.
  destruct T1 as [A1 B1 _]. cbn in A1, B1. assert (s2 `suffix_of` line) as Hs2 by by trans s1.
  pose proof (gettoken_spec line s2 Hs2) as T2. destruct (gettoken s2) as [[[t q] eq] s3].
  destruct T2 as [A2 B2 C2]. cbn in A2, B2, C2.
  destruct (Z.eqb_spec t (chr "a")) as [->|]; [|done]. cbn [negb].
  assert (s3 `suffix_of` line) as Hs3 by by trans s2.
  specialize (IH (rs ++ [redir_of tok (q, eq)]) s3 Hs3).
  assert (redirs_ok (rs ++ [redir_of tok (q, eq)])) as Hrs'.
  { apply Forall_app. split; [done|]. apply Forall_singleton, redir_of_ok. by apply C2. }
  specialize (IH Hrs'). pose proof (suffix_length _ _ Hp). pose proof (suffix_length _ _ A2). specialize (B1 Ht0).
  destruct (parseredirs n _ s3) as [[rs' s']|msg|]; [|done|lia].
  destruct IH as [K1 K2]. split; [done|]. trans s3; [done|]. trans s2; [done|]. by trans s1.
Qed.

Lemma exec_loop_spec fuel argv rs s :
  s `suffix_of` line -> redirs_ok rs -> Forall (tok_ok line) argv -> (length argv < MAXARGS)%nat ->
  match exec_loop fuel argv rs s with
  | Ok (argv', rs', s') => Forall (tok_ok line) argv' /\ (length argv' < MAXARGS)%nat /\ redirs_ok rs' /\ s' `suffix_of` s
  | Bad _ => True
  | NoFuel => (fuel <= length s)%nat
  end.
Proof.
  revert argv rs s. induction fuel as [|n IH]; intros argv rs s Hs Hrs Ha Hl; cbn [exec_loop]; [lia|].
  pose proof (peek_suffix s (str "|)&;")) as Hp. destruct (peek s (str "|)&;")) as [b s1] eqn:Ep. cbn in Hp.
  destruct b; [done|]. assert (s1 `suffix_of` line) as Hs1 by by trans s.
  pose proof (gettoken_spec line s1 Hs1) as T1. destruct (gettoken s1) as [[[tok q] eq] s2].
  destruct T1 as [A1 B1 C1]. cbn in A1, B1, C1. pose proof (suffix_length _ _ Hp).
  destruct (Z.eqb_spec tok 0) as [|H0]; [split_and!; [done..|by trans s1]|].
  destruct (Z.eqb_spec tok (chr "a")) as [->|]; [|done]. cbn [negb].
  destruct (decide _) as [|Hmax]; [done|]. specialize (B1 H0).
  assert (s2 `suffix_of` line) as Hs2 by by trans s1.
  pose proof (parseredirs_spec (S (length s2)) rs s2 Hs2 Hrs) as Hr.
  destruct (parseredirs (S (length s2)) rs s2) as [[rs' s3]|msg|]; cbn [mbind pres_bind]; [|done|lia].
  destruct Hr as [Hrs' Hs3]. pose proof (suffix_length _ _ Hs3).
  specialize (IH (argv ++ [(q, eq)]) rs' s3 ltac:(by trans s2) Hrs').
  assert (Forall (tok_ok line) (argv ++ [(q, eq)])) as Ha'.
  { apply Forall_app. split; [done|]. apply Forall_singleton. by apply C1. }
  specialize (IH Ha' ltac:(lia)).
  destruct (exec_loop n _ rs' s3) as [[[argv' rs''] s']|msg|]; [|done|lia].
  destruct IH as (K1 & K2 & K3 & K4). split_and!; [done..|]. trans s3; [done|]. trans s2; [done|]. by trans s1.
Qed.

Lemma wrap_wf c rs : cmd_wf (tok_ok line) c -> redirs_ok rs -> cmd_wf (tok_ok line) (wrap c rs).
Proof.
  intros Hc Hr. unfold wrap. revert c Hc. induction Hr as [|r rs [Hr1 Hr2] Hr IH]; intros c Hc; [done|].
  cbn [foldl]. apply IH. done.
Qed.

(** The result of a parsing function: a well-formed command and a shorter
    rest, an error, or [n] was below [bound]. *)
Definition parsed_ok (s : ptr) (n bound : nat) (r : pres (cmd token * ptr)) : Prop :=
  match r with
  | Ok (c, s') => cmd_wf (tok_ok line) c /\ s' `suffix_of` s
  | Bad _ => True
  | NoFuel => (n < bound)%nat
  end.

Lemma back_loop_spec fuel c s :
  s `suffix_of` line -> cmd_wf (tok_ok line) c -> parsed_ok s fuel (S (length s)) (back_loop fuel c s).
Proof.
  revert c s. induction fuel as [|n IH]; intros c s Hs Hc; cbn [back_loop]; [cbn; lia|].
  pose proof (peek_suffix s (str "&")) as Hp. destruct (peek s (str "&")) as [b s1] eqn:Ep. cbn in Hp.
  destruct b; [|done]. pose proof (peek_token _ _ _ Ep) as Ht0. assert (s1 `suffix_of` line) as Hs1 by by trans s.
  pose proof (gettoken_spec line s1 Hs1) as T1. destruct (gettoken s1) as [[[tok q] eq] s2]. cbn in Ht0.
  destruct T1 as [A1 B1 _]. cbn in A1, B1. specialize (B1 Ht0). pose proof (suffix_length _ _ Hp).
  specialize (IH (BACK c) s2 ltac:(by trans s1) Hc). unfold parsed_ok in *.
  destruct (back_loop n (BACK c) s2) as [[c' s']|msg|]; [|done|lia].
  destruct IH as [K1 K2]. split; [done|]. trans s2; [done|]. by trans s1.
Qed.

(** peek() a token and take it. *)
Lemma peek_gettoken s toks s1 :
  s `suffix_of` line -> peek s toks = (true, s1) ->
  (gettoken s1).2 `suffix_of` s /\ (length (gettoken s1).2 < length s)%nat.
Proof.
  intros Hs Ep. pose proof (peek_suffix s toks) as Hp. rewrite Ep in Hp. cbn in Hp.
  pose proof (peek_token _ _ _ Ep) as Ht. pose proof (suffix_length _ _ Hp).
  destruct (gettoken_spec line s1 ltac:(by trans s)) as [A B _]. specialize (B Ht).
  split; [by trans s1|lia].
Qed.

Lemma parser_spec n :
  (forall s, s `suffix_of` line -> parsed_ok s n (4 * length s + 4) (parseline n s))
  /\ (forall s, s `suffix_of` line -> parsed_ok s n (4 * length s + 3) (parsepipe n s))
  /\ (forall s, s `suffix_of` line -> parsed_ok s n (4 * length s + 2) (parseexec n s))
  /\ (forall s, s `suffix_of` line -> parsed_ok s n (4 * length s + 1) (parseblock n s)).
Proof.
  induction n as [|n (IHl & IHp & IHe & IHb)]; [split_and!; intros s _; cbn [parseline parsepipe parseexec parseblock parsed_ok]; lia|].
  split_and!; intros s Hs.
  - cbn [parseline]. specialize (IHp s Hs). destruct (parsepipe n s) as [[c s1]|msg|]; cbn [mbind pres_bind parsed_ok] in *; [|done|lia].
    destruct IHp as [Hc1 Hs1]. pose proof (suffix_length _ _ Hs1).
    pose proof (back_loop_spec (S (length s1)) c s1 ltac:(by trans s) Hc1) as Hb.
    destruct (back_loop (S (length s1)) c s1) as [[c' s2]|msg|]; cbn [mbind pres_bind parsed_ok] in *; [|done|lia].
    destruct Hb as [Hc2 Hs2]. assert (s2 `suffix_of` line) as Hl2 by (trans s1; [done|by trans s]).
    pose proof (peek_suffix s2 (str ";")) as Hp. destruct (peek s2 (str ";")) as [b s3] eqn:Ep. cbn in Hp.
    destruct b; [|split; [done|]; trans s2; [done|]; by trans s1].
    destruct (peek_gettoken s2 (str ";") s3 Hl2 Ep) as [A B].
    destruct (gettoken s3) as [[[tok q] eq] s4]. cbn in A, B. pose proof (suffix_length _ _ Hs2).
    specialize (IHl s4 ltac:(by trans s2)).
    destruct (parseline n s4) as [[c2 s5]|msg|]; cbn [mbind pres_bind parsed_ok] in *; [|done|lia].
    destruct IHl as [K1 K2]. split; [by split|]. trans s4; [done|]. trans s2; [done|]. by trans s1.
  - cbn [parsepipe]. specialize (IHe s Hs). destruct (parseexec n s) as [[c s1]|msg|]; cbn [mbind pres_bind parsed_ok] in *; [|done|lia].
    destruct IHe as [Hc1 Hs1]. pose proof (suffix_length _ _ Hs1). assert (s1 `suffix_of` line) as Hl1 by by trans s.
    pose proof (peek_suffix s1 (str "|")) as Hp. destruct (peek s1 (str "|")) as [b s3] eqn:Ep. cbn in Hp.
    destruct b; [|split; [done|]; by trans s1].
    destruct (peek_gettoken s1 (str "|") s3 Hl1 Ep) as [A B].
    destruct (gettoken s3) as [[[tok q] eq] s4]. cbn in A, B.
    specialize (IHp s4 ltac:(by trans s1)).
    destruct (parsepipe n s4) as [[c2 s5]|msg|]; cbn [mbind pres_bind parsed_ok] in *; [|done|lia].
    destruct IHp as [K1 K2]. split; [by split|]. trans s4; [done|]. by trans s1.
  - cbn [parseexec]. pose proof (peek_suffix s (str "(")) as Hp. destruct (peek s (str "(")) as [b s1] eqn:Ep.
    cbn in Hp. pose proof (suffix_length _ _ Hp). assert (s1 `suffix_of` line) as Hl1 by by trans s. destruct b.
    { specialize (IHb s1 Hl1). unfold parsed_ok in *. destruct (parseblock n s1) as [[c s2]|msg|]; [|done|lia].
      destruct IHb as [K1 K2]. split; [done|]. by trans s1. }
    pose proof (parseredirs_spec (S (length s1)) [] s1 Hl1 (Forall_nil_2 _)) as Hr.
    destruct (parseredirs (S (length s1)) [] s1) as [[rs s2]|msg|]; cbn [mbind pres_bind parsed_ok] in *; [|done|lia].
    destruct Hr as [Hrs Hs2]. pose proof (suffix_length _ _ Hs2).
    pose proof (exec_loop_spec (S (length s2)) [] rs s2 ltac:(by trans s1) Hrs (Forall_nil_2 _) ltac:(cbn; unfold MAXARGS; lia)) as He.
    destruct (exec_loop (S (length s2)) [] rs s2) as [[[argv rs'] s3]|msg|]; cbn [mbind pres_bind parsed_ok] in *; [|done|lia].
    destruct He as (K1 & K2 & K3 & K4). split; [by apply wrap_wf|]. trans s2; [done|]. by trans s1.
  - cbn [parseblock]. destruct (peek s (str "(")) as [b s1] eqn:Ep. destruct b; cbn [negb]; [|done].
    destruct (peek_gettoken s (str "(") s1 Hs Ep) as [A B].
    destruct (gettoken s1) as [[[tok q] eq] s2]. cbn in A, B. assert (s2 `suffix_of` line) as Hl2 by by trans s.
    specialize (IHl s2 Hl2). destruct (parseline n s2) as [[c s3]|msg|]; cbn [mbind pres_bind parsed_ok] in *; [|done|lia].
    destruct IHl as [Hc Hs3]. assert (s3 `suffix_of` line) as Hl3 by by trans s2.
    destruct (peek s3 (str ")")) as [b s4] eqn:Ep4. destruct b; cbn [negb]; [|done].
    destruct (peek_gettoken s3 (str ")") s4 Hl3 Ep4) as [A4 B4].
    destruct (gettoken s4) as [[[tok' q'] eq'] s5]. cbn in A4, B4. assert (s5 `suffix_of` line) as Hl5 by by trans s3.
    pose proof (parseredirs_spec (S (length s5)) [] s5 Hl5 (Forall_nil_2 _)) as Hr.
    destruct (parseredirs (S (length s5)) [] s5) as [[rs s6]|msg|]; cbn [mbind pres_bind parsed_ok] in *; [|done|lia].
    destruct Hr as [Hrs Hs6]. split; [by apply wrap_wf|]. trans s5; [done|]. trans s3; [done|]. by trans s2.
Qed.
End parser_spec.

(** ** Cutting the line up *)

(** The text of a token. *)
Definition slice (t : token) : list Z := take (length t.1 - length t.2) t.1.

Lemma slice_app (w r : list Z) : slice (w ++ r, r) = w.
Proof. unfold slice. cbn. rewrite length_app. replace (_ - _)%nat with (length w) by lia. apply take_app_length. Qed.

Lemma foldl_nul_lookup (f : ptr -> nat) ps (b : list Z) k :
  foldl (fun b p => <[f p := 0]> b) b ps !! k
  = if decide (k ∈ f <$> ps) then (fun _ => 0) <$> b !! k else b !! k.
Proof.
  revert b. induction ps as [|p ps IH]; intros b; cbn [foldl fmap list_fmap].
  - by rewrite decide_False by apply not_elem_of_nil.
  - rewrite IH. destruct (decide (k = f p)) as [->|Hne].
    + rewrite (decide_True (P := f p ∈ f p :: _)) by set_solver.
      assert ((fun _ => 0) <$> <[f p:=0]> b !! f p = (fun _ : Z => 0) <$> b !! f p) as E.
      { destruct (decide (f p < length b)%nat) as [Hl|Hl].
        - rewrite list_lookup_insert_eq by done. destruct (lookup_lt_is_Some_2 b (f p) Hl) as [x ->]. done.
        - rewrite !lookup_ge_None_2; [done|lia|rewrite length_insert; lia]. }
      case_decide; [done|]. destruct (decide (f p < length b)%nat) as [Hl|Hl].
      * rewrite list_lookup_insert_eq by done. destruct (lookup_lt_is_Some_2 b (f p) Hl) as [x ->]. done.
      * rewrite !lookup_ge_None_2; [done|lia|rewrite length_insert; lia].
    + rewrite list_lookup_insert_ne by done. repeat case_decide; try done; set_solver.
Qed.

Lemma cstr_cut (l w : list Z) :
  Forall (fun c => c <> 0) w -> take (length w) l = w -> l !! length w = Some 0 -> cstr l = w.
Proof.
  intros Hw Ht H0. rewrite <- (take_drop (length w) l), Ht. rewrite cstr_app_nonzero by done.
  rewrite (drop_S l 0 (length w) H0). cbn. apply app_nil_r.
Qed.

(** Pointers of a command that satisfy a property of tokens. *)
Fixpoint tokens {T} (c : cmd T) : list T :=
  match c with
  | EXEC argv => argv
  | REDIR c file _ _ => tokens c ++ [file]
  | PIPE l r | LIST l r => tokens l ++ tokens r
  | BACK c => tokens c
  end.

Lemma ends_tokens {T} (c : cmd (T * ptr)) : ends c = snd <$> tokens c.
Proof.
  induction c as [argv|c IH file mode fd|l IHl r IHr|l IHl r IHr|c IH]; cbn;
    rewrite ?fmap_app, ?IH, ?IHl, ?IHr; done.
Qed.

Lemma wf_tokens {T} (P : T -> Prop) c t : cmd_wf P c -> t ∈ tokens c -> P t.
Proof.
  induction c as [argv|c IH file mode fd|l IHl r IHr|l IHl r IHr|c IH]; cbn.
  - intros [H _]. rewrite Forall_forall in H. apply H.
  - intros (H1 & H2 & _) [H|H]%elem_of_app; [by apply IH|]. by apply list_elem_of_singleton in H as ->.
  - intros [H1 H2] [H|H]%elem_of_app; auto.
  - intros [H1 H2] [H|H]%elem_of_app; auto.
  - done.
Qed.

Lemma cmap_ext {A B} (f g : A -> B) c : (forall t, t ∈ tokens c -> f t = g t) -> cmap f c = cmap g c.
Proof.
  induction c as [argv|c IH file mode fd|l IHl r IHr|l IHl r IHr|c IH]; cbn; intros H.
  - f_equal. apply list_fmap_ext. intros i t Ht. apply H. by eapply list_elem_of_lookup_2.
  - rewrite IH, (H file); [done|set_solver..].
  - rewrite IHl, IHr; [done|set_solver..].
  - rewrite IHl, IHr; [done|set_solver..].
  - by rewrite IH.
Qed.

(** After nulterminate(), the pointers of the command point to the words. *)
Lemma nulterminate_string line c t :
  Forall (fun x => x <> 0) line -> cmd_wf (tok_ok line) c -> t ∈ tokens c ->
  string_at line (nulterminate line c) t.1 = slice t.
Proof.
  intros Hnz Hwf Ht. pose proof (wf_tokens _ _ _ Hwf Ht) as [[pre El] (w & Ew & Hne & Hww) _].
  assert (slice t = w) as ->. { destruct t as [q eq]. cbn in *. subst q. apply slice_app. }
  destruct t as [q eq]. cbn [fst snd] in *. subst q. unfold string_at.
  assert (length line = length pre + (length w + length eq))%nat as Hlen by (rewrite El, !length_app; lia).
  assert (offset line (w ++ eq) = length pre) as Eo by (unfold offset; rewrite Hlen, length_app; lia). rewrite Eo.
  assert (Forall (fun x => x <> 0) w) as Hwz.
  { rewrite El in Hnz. apply Forall_app in Hnz as [_ Hnz]. by apply Forall_app in Hnz as [? _]. }
  (* places that are set to NUL are not word characters *)
  assert (forall k, k ∈ offset line <$> ends c -> forall x, line !! k = Some x -> word_char x = false) as Hcut.
  { intros k (p & -> & Hp)%list_elem_of_fmap x Hx. rewrite ends_tokens in Hp.
    apply list_elem_of_fmap in Hp as ([q' e'] & -> & Ht'). cbn [snd] in *.
    pose proof (wf_tokens _ _ _ Hwf Ht') as [[pre' El'] (w' & Ew' & _) He']. cbn [fst snd] in *. subst q'.
    unfold offset in Hx. rewrite El' in Hx.
    replace (length (pre' ++ w' ++ e') - length e')%nat with (length (pre' ++ w'))%nat in Hx
      by (rewrite !length_app; lia).
    rewrite app_assoc, lookup_app_r, Nat.sub_diag in Hx by lia. destruct e' as [|y e']; [done|]. by injection Hx as <-. }
  assert (Hbuf : forall j, (j <= length w)%nat -> nulterminate line c !! (length pre + j)%nat
    = if decide (j = length w) then Some 0 else w !! j).
  { intros j Hj. unfold nulterminate. rewrite foldl_nul_lookup. destruct (decide (j = length w)) as [->|Hjw].
    - rewrite decide_True.
      + destruct (lookup_lt_is_Some_2 (line ++ [0]) (length pre + length w)) as [x ->]; [|done].
        rewrite length_app. cbn. lia.
      + apply list_elem_of_fmap. exists eq. split; [unfold offset; lia|].
        rewrite ends_tokens. apply list_elem_of_fmap. by exists (w ++ eq, eq).
    - assert (line !! (length pre + j)%nat = w !! j) as Elj.
      { rewrite El, lookup_app_r by lia. rewrite lookup_app_l by lia. f_equal. lia. }
      rewrite lookup_app_l by lia. rewrite Elj. destruct (decide _) as [Hk|]; [|done].
      destruct (lookup_lt_is_Some_2 w j) as [x Hx]; [lia|]. pose proof (Hcut _ Hk x) as Hc. rewrite Elj in Hc.
      rewrite Forall_lookup in Hww. specialize (Hww j x Hx). rewrite (Hc Hx) in Hww. done. }
  apply cstr_cut; [done| |].
  - apply list_eq. intros j. destruct (decide (j < length w)%nat) as [Hj|Hj].
    + rewrite lookup_take_lt by done. rewrite lookup_drop, Hbuf by lia. by rewrite decide_False by lia.
    + rewrite !lookup_ge_None_2; [done|lia|]. rewrite length_take. lia.
  - rewrite lookup_drop, Hbuf by lia. by rewrite decide_True.
Qed.

(** ** The properties of the parser *)
Definition is_word (w : list Z) : Prop := w <> [] /\ Forall (fun c => word_char c = true /\ c <> 0) w.

Lemma parsetree_spec line :
  match parsetree line with
  | Ok c => cmd_wf (tok_ok line) c
  | Bad _ => True
  | NoFuel => False
  end.
Proof.
  unfold parsetree. destruct (parser_spec line (parse_fuel (length line))) as (H & _).
  specialize (H line (reflexivity _)). unfold parse_fuel in *.
  destruct (parseline _ line) as [[c s]|msg|]; cbn [mbind pres_bind parsed_ok] in *; [|done|lia].
  destruct (decide _); [apply H|done].
Qed.

Lemma slice_word line t : Forall (fun x => x <> 0) line -> tok_ok line t -> is_word (slice t).
Proof.
  destruct t as [q e]. intros Hnz [[pre El] (w & Ew & Hne & Hw) _]. cbn [fst snd] in *. subst q. rewrite slice_app.
  split; [done|]. rewrite El in Hnz. apply Forall_app in Hnz as [_ Hnz]. apply Forall_app in Hnz as [Hnz _].
  rewrite Forall_forall in *. auto.
Qed.

Lemma cmap_wf {A B} (f : A -> B) (P : A -> Prop) (Q : B -> Prop) c :
  (forall t, P t -> Q (f t)) -> cmd_wf P c -> cmd_wf Q (cmap f c).
Proof.
  intros HPQ. induction c as [argv|c IH file mode fd|l IHl r IHr|l IHl r IHr|c IH]; cbn; [|naive_solver..].
  intros [H1 H2]. rewrite length_fmap. split; [|done]. apply Forall_fmap. eapply Forall_impl; [exact H1|exact HPQ].
Qed.

Lemma parsecmd_eq buf : parsecmd buf = (c ← parsetree (cstr buf); Ok (cmap slice c)).
Proof.
  unfold parsecmd. pose proof (parsetree_spec (cstr buf)) as H.
  destruct (parsetree (cstr buf)) as [c|msg|]; [|done..]. cbn [mbind pres_bind]. f_equal. apply cmap_ext.
  intros t Ht. apply nulterminate_string; [apply cstr_Forall_nonzero|done|done].
Qed.

(** C35: parsing terminates.  The parser's recursion (lines, pipes, blocks) and
    its loops (arguments, redirections, background marks) end on every input,
    within a nesting of 4 calls for each byte of the line: parsecmd() returns
    a command or stops with an error message. *)
Theorem parsecmd_terminates buf : (exists c, parsecmd buf = Ok c) \/ (exists msg, parsecmd buf = Bad msg).
Proof.
  rewrite parsecmd_eq. pose proof (parsetree_spec (cstr buf)) as H.
  destruct (parsetree (cstr buf)) as [c|msg|]; [left|right|done]; by eexists.
Qed.

(** C34: parsed commands are well formed.  Every string of a command that
    parsecmd() returns, read from the line after nulterminate() has cut it
    up, is a non-empty word without white space, symbols or NUL; a command
    has fewer than MAXARGS arguments, so that the terminating null pointer
    fits in argv; and redirections open for reading on descriptor 0 or for
    writing on descriptor 1. *)
Theorem parsecmd_wf buf c : parsecmd buf = Ok c -> cmd_wf is_word c.
Proof.
  rewrite parsecmd_eq. pose proof (parsetree_spec (cstr buf)) as H.
  destruct (parsetree (cstr buf)) as [t|msg|]; [|done..]. intros [= <-].
  eapply cmap_wf; [|exact H]. intros tk. apply slice_word, cstr_Forall_nonzero.
Qed.

Lemma parsecmd_wf_witness : cmd_wf is_word (BACK (REDIR (EXEC [str "ls"; str "-l"]) (str "f") 0x201 1)).
Proof. apply (parsecmd_wf (str "ls>>f -l&")). vm_compute. reflexivity. Defined.
