(* ===== verification/Shprint.v ===== *)
(** * Shprint: parsing is the inverse of printing (user/sh.c)

    Every command over words has a command line: [show] writes it with the
    fewest parentheses that the grammar of parseline(), parsepipe() and
    parseexec() needs.  Parsing that line gives the command back. *)

From S2P Require Import Prelude Params Machine Spinlock Strings Uart Printk Ulib Uprintf Sh.

(** ** Writing a command *)
Definition SP : Z := 32.
Definition words (ws : list (list Z)) : list Z := mjoin ((fun w => w ++ [SP]) <$> ws).
Definition operator (mode : Z) : list Z :=
  if mode =? O_RDONLY then str "<" else if mode =? Z.lor O_WRONLY O_CREATE then str ">>" else str ">".
Definition show_redir (file : list Z) (mode : Z) : list Z := operator mode ++ file ++ [SP].

(** [lvl]: 0 in a line, 1 before a semicolon or ampersand, 2 in a pipe, 3
    where parseexec() is called. *)
Fixpoint show (lvl : nat) (c : cmd (list Z)) : list Z :=
  let paren (own : nat) (s : list Z) := if decide (own < lvl)%nat then str "(" ++ s ++ str ")" else s in
  match c with
  | EXEC argv => words argv
  | REDIR c file mode fd => show 3 c ++ show_redir file mode
  | PIPE l r => paren 2%nat (show 3 l ++ str "|" ++ show 2 r)
  | LIST l r => paren 0%nat (show 1 l ++ str ";" ++ show 0 r)
  | BACK c => paren 1%nat (show 1 c ++ str "&")
  end.

Example show_pipeline :
  show 0 (PIPE (LIST (EXEC [str "a"]) (EXEC [str "b"; str "c"])) (REDIR (EXEC [str "wc"]) (str "f") O_RDONLY 0))
  = str "(a ;b c )|wc <f ".
Proof. reflexivity. Qed.

(** ** Scanning what was written *)
Definition first (P : Z -> Prop) (s : list Z) : Prop := match s with [] => True | c :: _ => P c end.
Definition is_sym (c : Z) : Prop := c ∈ symbols.
Definition nows (s : list Z) : Prop := first (fun c => among whitespace c = false) s.

Lemma skip_ws_nows s : nows s -> skip_ws s = s.
Proof. destruct s as [|c s]; [done|]. cbn. by intros ->. Qed.

Lemma word_first w r : is_word w -> nows (w ++ r) /\ exists c t, w = c :: t /\ word_char c = true /\ c <> 0.
Proof.
  intros [Hne Hw]. destruct w as [|c t]; [done|]. apply Forall_cons in Hw as [[Hc Hz] _].
  split; [|by exists c, t]. cbn. unfold word_char in Hc. apply andb_true_iff in Hc as [Hc _]. by apply negb_true_iff in Hc.
Qed.

Lemma sym_first c : c ∈ symbols -> among whitespace c = false /\ c <> 0 /\ word_char c = false.
Proof.
  intros H. revert c H. apply Forall_forall. vm_compute. repeat (constructor; [done|]). constructor.
Qed.

Lemma word_not_sym c l : word_char c = true -> (forall x, x ∈ l -> x ∈ symbols) -> among l c = false.
Proof.
  intros Hc Hl. apply bool_decide_eq_false. intros Hin. destruct (sym_first c) as (_ & _ & E); [auto|]. congruence.
Qed.

Lemma skip_word_app w r : Forall (fun c => word_char c = true) w -> first (fun c => word_char c = false) r -> skip_word (w ++ r) = r.
Proof.
  induction 1 as [|c w Hc Hw IH]; intros Hr.
  - cbn [app]. destruct r as [|c r]; [done|]. cbn [skip_word]. cbn in Hr. fold (word_char c). by rewrite Hr.
  - cbn [app skip_word]. fold (word_char c). rewrite Hc. by apply IH.
Qed.

Lemma gettoken_word w r : is_word w -> nows r -> gettoken (w ++ SP :: r) = (chr "a", w ++ SP :: r, SP :: r, r).
Proof.
  intros Hw Hr. destruct (word_first w (SP :: r) Hw) as (Hn & c & t & -> & Hc & Hz).
  unfold gettoken. rewrite (skip_ws_nows _ Hn).
  rewrite skip_word_app; [|destruct Hw as [_ Hw]; eapply Forall_impl; [exact Hw|]; by intros x [? _]|done].
  cbn [app]. rewrite (proj2 (Z.eqb_neq c 0)) by done.
  rewrite (word_not_sym c _ Hc) by (vm_compute; set_solver).
  assert (c <> chr ">") as Hg by (intros ->; by vm_compute in Hc).
  rewrite (proj2 (Z.eqb_neq c (chr ">"))) by done. f_equal. cbn. by apply skip_ws_nows.
Qed.

Lemma gettoken_sym c r : among (str "|();&<") c = true -> nows r -> gettoken (c :: r) = (c, c :: r, r, r).
Proof.
  intros Hc Hr. assert (among whitespace c = false /\ c <> 0) as [Hw Hz].
  { apply bool_decide_eq_true in Hc. revert c Hc. apply Forall_forall. vm_compute. repeat (constructor; [done|]). constructor. }
  unfold gettoken. rewrite skip_ws_nows by done. rewrite (proj2 (Z.eqb_neq c 0)) by done. rewrite Hc.
  by rewrite skip_ws_nows.
Qed.

Lemma peek_nows s toks : nows s -> peek s toks = (match s with [] => false | c :: _ => truthy c && among toks c end, s).
Proof. intros H. unfold peek. by rewrite skip_ws_nows. Qed.

Lemma peek_no s toks : nows s -> first (fun c => among toks c = false) s -> peek s toks = (false, s).
Proof. intros H Hf. rewrite peek_nows by done. destruct s as [|c s]; [done|]. cbn in Hf. by rewrite Hf, andb_false_r. Qed.

Lemma peek_yes c s toks : among whitespace c = false -> c <> 0 -> among toks c = true -> peek (c :: s) toks = (true, c :: s).
Proof. intros Hw Hz Hc. rewrite peek_nows by done. by rewrite (proj2 (truthy_true c)), Hc. Qed.

(** ** Redirections *)
Definition rmap {A B} (f : A -> B) (r : redir A) : redir B := mkRedir (f (rd_file r)) (rd_mode r) (rd_fd r).
Definition rd_wf (r : redir (list Z)) : Prop := is_word (rd_file r) /\ redir_ok (rd_mode r) (rd_fd r).
Definition show_redirs (rds : list (redir (list Z))) : list Z :=
  mjoin ((fun r => show_redir (rd_file r) (rd_mode r)) <$> rds).

Lemma among_in l c : among l c = true <-> c ∈ l.
Proof. apply bool_decide_eq_true. Qed.

(** The operator is read as a token that stands for the mode. *)
Lemma operator_token r file more :
  rd_wf r -> is_word file ->
  exists tok, gettoken (operator (rd_mode r) ++ file ++ SP :: more)
      = (tok, operator (rd_mode r) ++ file ++ SP :: more, file ++ SP :: more, file ++ SP :: more)
    /\ (forall T (x : T), redir_of tok x = mkRedir x (rd_mode r) (rd_fd r))
    /\ peek (operator (rd_mode r) ++ file ++ SP :: more) (str "<>")
       = (true, operator (rd_mode r) ++ file ++ SP :: more).
Proof.
  intros [_ Hr] Hf. destruct (word_first file (SP :: more) Hf) as (Hn & c & t & Ef & Hc & Hz).
  assert (c <> chr ">") as Hg by (intros ->; by vm_compute in Hc).
  destruct Hr as [[-> ->]|[[-> | ->] ->]].
  - exists (chr "<"). split; [by apply (gettoken_sym (chr "<"))|]. split; [done|]. by apply peek_yes.
  - exists (chr "+"). split; [|split; [done|by apply peek_yes]].
    change (operator (Z.lor O_WRONLY O_CREATE)) with [chr ">"; chr ">"]. unfold gettoken. rewrite skip_ws_nows by done.
    cbn [app]. change (chr ">" =? 0) with false. change (among (str "|();&<") (chr ">")) with false.
    rewrite Z.eqb_refl. cbv iota. by rewrite skip_ws_nows.
  - exists (chr ">"). split; [|split; [done|by apply peek_yes]].
    change (operator (Z.lor (Z.lor O_WRONLY O_CREATE) O_TRUNC)) with [chr ">"]. unfold gettoken. rewrite skip_ws_nows by done.
    cbn [app]. change (chr ">" =? 0) with false. change (among (str "|();&<") (chr ">")) with false.
    rewrite Z.eqb_refl. cbv iota. rewrite Ef in *. cbn [app]. rewrite (proj2 (Z.eqb_neq c (chr ">"))) by done.
    by rewrite skip_ws_nows.
Qed.

Lemma nows_redirs rds rest : nows rest -> nows (show_redirs rds ++ rest).
Proof.
  destruct rds as [|r rds]; [done|]. intros _. unfold show_redirs. cbn. unfold show_redir, operator.
  repeat case_match; done.
Qed.

Lemma show_redirs_cons r rds rest :
  show_redirs (r :: rds) ++ rest = operator (rd_mode r) ++ rd_file r ++ SP :: (show_redirs rds ++ rest).
Proof. unfold show_redirs, show_redir. cbn. by rewrite <- !app_assoc. Qed.

Lemma parseredirs_show rds n rs rest :
  Forall rd_wf rds -> nows rest -> first (fun c => among (str "<>") c = false) rest -> (length rds < n)%nat ->
  exists rts, parseredirs n rs (show_redirs rds ++ rest) = Ok (rs ++ rts, rest) /\ (rmap slice <$> rts) = rds.
Proof.
  intros Hwf Hn Hf. revert n rs. induction Hwf as [|r rds Hr Hwf IH]; intros n rs Hl; (destruct n as [|n]; [lia|]); cbn [parseredirs].
  - change (show_redirs [] ++ rest) with rest. rewrite peek_no by done. exists []. by rewrite app_nil_r.
  - rewrite show_redirs_cons. set (more := show_redirs rds ++ rest).
    destruct (operator_token r (rd_file r) more Hr) as (tok & Et & Er & Ep); [apply Hr|]. rewrite Ep, Et.
    rewrite gettoken_word by (apply Hr || by apply nows_redirs). change (chr "a" =? chr "a") with true. cbn [negb].
    destruct (IH n (rs ++ [redir_of tok (rd_file r ++ SP :: more, SP :: more)])) as (rts & E & Hs); [cbn in Hl; lia|].
    eexists. split; [etransitivity; [exact E|]; by rewrite <- app_assoc|].
    cbn [app fmap list_fmap]. rewrite Hs, (Er token). f_equal.
    unfold rmap. cbn [rd_file rd_mode rd_fd]. rewrite slice_app. by destruct r.
Qed.

(** ** Simple commands *)

(** What may follow a simple command, a pipe, a line. *)
Definition stopE (s : list Z) : Prop := first (fun c => c ∈ str "|)&;") s.
Definition stopP (s : list Z) : Prop := first (fun c => c ∈ str ")&;") s.
Definition stopL (s : list Z) : Prop := first (fun c => c = chr ")") s.

Lemma stopE_facts s : stopE s -> nows s /\ first (fun c => among (str "<>") c = false /\ among (str "(") c = false
  /\ among (str "|)&;") c = true /\ c <> 0) s.
Proof.
  destruct s as [|c s]; [done|]. cbn. intros H. revert c H. apply (proj1 (Forall_forall _ _)).
  vm_compute. repeat (constructor; [by split_and!|]). constructor.
Qed.

Lemma nows_words ws rest : Forall is_word ws -> nows rest -> nows (words ws ++ rest).
Proof.
  intros Hw Hr. destruct Hw as [|w ws Hw _]; [done|]. unfold words. cbn. rewrite <- !app_assoc. by apply word_first.
Qed.

Lemma words_cons w ws rest : words (w :: ws) ++ rest = w ++ SP :: (words ws ++ rest).
Proof. unfold words. cbn. by rewrite <- !app_assoc. Qed.

Lemma length_show_redirs rds : (length rds <= length (show_redirs rds))%nat.
Proof.
  induction rds as [|r rds IH]; [cbn; lia|]. rewrite <- (app_nil_r (show_redirs (r :: rds))), show_redirs_cons.
  rewrite !length_app. cbn [length]. rewrite length_app. cbn [length]. lia.
Qed.

(** No redirection before the next word. *)
Lemma parseredirs_none n rs s :
  nows s -> first (fun c => among (str "<>") c = false) s -> (0 < n)%nat -> parseredirs n rs s = Ok (rs, s).
Proof. intros Hn Hf Hl. destruct n as [|n]; [lia|]. cbn [parseredirs]. by rewrite peek_no. Qed.

Lemma exec_loop_stop n argv rs rest : stopE rest -> (0 < n)%nat -> exec_loop n argv rs rest = Ok (argv, rs, rest).
Proof.
  intros Hs Hl. destruct n as [|n]; [lia|]. cbn [exec_loop]. destruct (stopE_facts rest Hs) as [Hn Hf].
  destruct rest as [|c rest].
  - reflexivity.
  - cbn in Hf. destruct Hf as (_ & _ & Hc & Hz). by rewrite peek_yes.
Qed.

Lemma exec_loop_words ws rds n argv rs rest :
  Forall is_word ws -> ws <> [] -> Forall rd_wf rds -> stopE rest -> (length argv + length ws < MAXARGS)%nat ->
  (length ws < n)%nat ->
  exists ts rts, exec_loop n argv rs (words ws ++ show_redirs rds ++ rest) = Ok (argv ++ ts, rs ++ rts, rest)
    /\ (slice <$> ts) = ws /\ (rmap slice <$> rts) = rds.
Proof.
  intros Hw Hne Hrd Hs. revert n argv. induction Hw as [|w ws Hw Hws IH]; intros n argv Hm Hl; [done|]. clear Hne.
  destruct n as [|n]; [lia|]. cbn [exec_loop length] in *. destruct (stopE_facts rest Hs) as [Hn Hf].
  rewrite words_cons. set (more := words ws ++ show_redirs rds ++ rest).
  assert (nows more) as Hmore by (by apply nows_words, nows_redirs).
  destruct (word_first w (SP :: more) Hw) as (Hnw & c & t & Ew & Hc & Hz).
  rewrite peek_no; [|done|]. 2:{ rewrite Ew. apply word_not_sym; [done|]. vm_compute. set_solver. }
  rewrite gettoken_word by done. change (chr "a" =? 0) with false. change (chr "a" =? chr "a") with true. cbn [negb].
  rewrite decide_False by (rewrite length_app; cbn; lia).
  set (tk := (w ++ SP :: more, SP :: more)). assert (slice tk = w) as Etk by apply slice_app.
  destruct ws as [|w2 ws].
  - assert (more = show_redirs rds ++ rest) as Em by done.
    destruct (parseredirs_show rds (S (length more)) rs rest Hrd Hn) as (rts & E & Er).
    { destruct rest; [done|]. by destruct Hf. }
    { rewrite Em, length_app.
      pose proof (length_show_redirs rds). lia. }
    rewrite <- Em in E. rewrite E. cbn [mbind pres_bind].
    rewrite exec_loop_stop by (done || lia). exists [tk], rts. cbn [fmap list_fmap]. by rewrite Etk, Er.
  - rewrite parseredirs_none; [|done| |lia].
    2:{ apply Forall_cons in Hws as [Hw2 _]. destruct (word_first w2 [] Hw2) as (_ & c2 & t2 & E2 & Hc2 & _).
        unfold more. rewrite words_cons, E2. cbn. apply word_not_sym; [done|]. vm_compute. set_solver. }
    cbn [mbind pres_bind].
    destruct (IH ltac:(done) n (argv ++ [tk])) as (ts & rts & E & Es & Er); [rewrite length_app; cbn in *; lia|cbn in *; lia|].
    exists (tk :: ts), rts. split; [etransitivity; [exact E|]; by rewrite <- app_assoc|]. cbn [fmap list_fmap]. by rewrite Etk, Es.
Qed.

(** ** Compound commands *)

(** A command as redirections around one that is not a redirection, and as
    ampersands after one that does not end in one. *)
Fixpoint peel (c : cmd (list Z)) : cmd (list Z) * list (redir (list Z)) :=
  match c with
  | REDIR c file mode fd => ((peel c).1, (peel c).2 ++ [mkRedir file mode fd])
  | _ => (c, [])
  end.
Fixpoint unback (c : cmd (list Z)) : cmd (list Z) * nat :=
  match c with BACK c => ((unback c).1, S (unback c).2) | _ => (c, O) end.

Fixpoint csize {T} (c : cmd T) : nat :=
  match c with
  | EXEC _ => 1
  | REDIR c _ _ _ | BACK c => S (csize c)
  | PIPE l r | LIST l r => S (csize l + csize r)
  end.

Lemma wrap_snoc {T} (c : cmd T) rs r : wrap c (rs ++ [r]) = REDIR (wrap c rs) (rd_file r) (rd_mode r) (rd_fd r).
Proof. unfold wrap. by rewrite foldl_app. Qed.

Definition not_redir {T} (c : cmd T) : Prop := match c with REDIR _ _ _ _ => False | _ => True end.
Definition not_back {T} (c : cmd T) : Prop := match c with BACK _ => False | _ => True end.

Lemma peel_spec c :
  cmd_wf is_word c -> let '(b, rds) := peel c in
  c = wrap b rds /\ show 3 c = show 3 b ++ show_redirs rds /\ not_redir b /\ cmd_wf is_word b /\ Forall rd_wf rds
  /\ (csize b <= csize c)%nat.
Proof.
  induction c as [argv|c IH file mode fd|l IHl r IHr|l IHl r IHr|c IH]; intros Hwf;
    try by (cbn [peel]; split_and!; [done|by rewrite app_nil_r|done|done|constructor|lia]).
  cbn [peel]. destruct Hwf as (Hc & Hf & Hr). specialize (IH Hc). destruct (peel c) as [b rds].
  destruct IH as (E1 & E2 & E3 & E4 & E5 & E6). cbn [fst snd]. split_and!; [|..|done|done| |].
  - by rewrite wrap_snoc, <- E1.
  - cbn [show]. rewrite E2, <- app_assoc. f_equal. unfold show_redirs. rewrite fmap_app, join_app. cbn. by rewrite app_nil_r.
  - apply Forall_app. split; [done|]. by apply Forall_singleton.
  - cbn. lia.
Qed.

Fixpoint backs {T} (c : cmd T) (k : nat) : cmd T := match k with O => c | S k => backs (BACK c) k end.
Lemma backs_back {T} (c : cmd T) k : backs (BACK c) k = BACK (backs c k).
Proof. revert c. induction k as [|k IH]; intros c; [done|]. cbn. by rewrite IH. Qed.

Lemma unback_spec c :
  cmd_wf is_word c -> let '(b, k) := unback c in
  c = backs b k /\ show 1 c = show 2 b ++ replicate k (chr "&") /\ not_back b /\ cmd_wf is_word b /\ (csize b <= csize c)%nat.
Proof.
  induction c as [argv|c IH file mode fd|l IHl r IHr|l IHl r IHr|c IH]; intros Hwf;
    try by (cbn [unback]; split_and!; [done|by rewrite app_nil_r|done|done|lia]).
  cbn [unback]. specialize (IH Hwf). destruct (unback c) as [b k]. destruct IH as (E1 & E2 & E3 & E4 & E5).
  cbn [fst snd]. split_and!; [|..|done|done|cbn; lia].
  - cbn [backs]. by rewrite backs_back, <- E1.
  - cbn [show]. rewrite decide_False by lia. rewrite E2, <- app_assoc. f_equal.
    change (str "&") with [chr "&"]. by rewrite <- replicate_cons_app.
Qed.

(** At the level of a line only a list or a background command differs from
    the inner levels. *)
Lemma show_0_1 c : match c with LIST _ _ => True | _ => show 0 c = show 1 c end.
Proof. by destruct c. Qed.
Lemma show_3_paren c : match c with EXEC _ | REDIR _ _ _ _ => True | _ => show 3 c = str "(" ++ show 0 c ++ str ")" end.
Proof. by destruct c. Qed.
Lemma show_2_3 c : match c with PIPE _ _ => True | _ => show 2 c = show 3 c end.
Proof. by destruct c. Qed.

Lemma nows_show lvl c rest : cmd_wf is_word c -> nows rest -> nows (show lvl c ++ rest).
Proof.
  revert lvl rest. induction c as [argv|c IH file mode fd|l IHl r IHr|l IHl r IHr|c IH]; intros lvl rest Hwf Hr; cbn [show].
  - apply nows_words; [apply Hwf|done].
  - rewrite <- app_assoc. apply IH; [apply Hwf|]. unfold show_redir, operator. repeat case_match; done.
  - case_decide; [done|]. rewrite <- !app_assoc. by apply IHl; [apply Hwf|].
  - case_decide; [done|]. rewrite <- !app_assoc. by apply IHl; [apply Hwf|].
  - case_decide; [done|]. rewrite <- !app_assoc. by apply IH.
Qed.

Lemma back_loop_show k n (a : cmd token) rest :
  nows rest -> first (fun c => among (str "&") c = false) rest -> (k < n)%nat ->
  back_loop n a (replicate k (chr "&") ++ rest) = Ok (backs a k, rest).
Proof.
  intros Hn Hf. revert n a. induction k as [|k IH]; intros n a Hl; (destruct n as [|n]; [lia|]); cbn [replicate app backs back_loop].
  - by rewrite peek_no.
  - rewrite peek_yes by done. rewrite gettoken_sym; [apply IH; lia|done|]. by destruct k.
Qed.

Lemma cmap_backs {A B} (f : A -> B) c k : cmap f (backs c k) = backs (cmap f c) k.
Proof. revert c. induction k as [|k IH]; intros c; [done|]. cbn. by rewrite IH. Qed.
Lemma cmap_wrap {A B} (f : A -> B) c rs : cmap f (wrap c rs) = wrap (cmap f c) (rmap f <$> rs).
Proof. revert c. induction rs as [|r rs IH]; intros c; [done|]. cbn. unfold wrap in *. cbn. by rewrite IH. Qed.

(** ** Parsing what was written *)
Definition exec_good (c : cmd (list Z)) : Prop := forall n rest, stopE rest -> (4 * length (show 3 c ++ rest) + 2 <= n)%nat ->
  exists a, parseexec n (show 3 c ++ rest) = Ok (a, rest) /\ cmap slice a = c.
Definition pipe_good (c : cmd (list Z)) : Prop := forall n rest, stopP rest -> (4 * length (show 2 c ++ rest) + 3 <= n)%nat ->
  exists a, parsepipe n (show 2 c ++ rest) = Ok (a, rest) /\ cmap slice a = c.
Definition line_good (c : cmd (list Z)) : Prop := forall n rest, stopL rest -> (4 * length (show 0 c ++ rest) + 4 <= n)%nat ->
  exists a, parseline n (show 0 c ++ rest) = Ok (a, rest) /\ cmap slice a = c.

Lemma simple_good ws rds n rest :
  cmd_wf is_word (EXEC ws) -> Forall rd_wf rds -> stopE rest -> (1 <= n)%nat ->
  exists a, parseexec n (words ws ++ show_redirs rds ++ rest) = Ok (a, rest) /\ cmap slice a = wrap (EXEC ws) rds.
Proof.
  intros [Hw Hm] Hrd Hs Hn. destruct n as [|n]; [lia|]. cbn [parseexec]. destruct (stopE_facts rest Hs) as [Hnr Hf].
  set (s := words ws ++ show_redirs rds ++ rest). assert (nows s) as Hns by (by apply nows_words, nows_redirs).
  assert (first (fun c => among (str "(") c = false) s) as Hop.
  { unfold s. destruct ws as [|w ws].
    - destruct rds as [|r rds]; [destruct rest; [done|by destruct Hf as (_ & ? & _)]|].
      change (words []) with (@nil Z). cbn [app]. rewrite show_redirs_cons. unfold operator. repeat case_match; done.
    - apply Forall_cons in Hw as [Hw _]. destruct (word_first w [] Hw) as (_ & c & t & -> & Hc & _).
      rewrite words_cons. cbn. apply word_not_sym; [done|]. vm_compute. set_solver. }
  rewrite peek_no by done. destruct ws as [|w ws].
  - destruct (parseredirs_show rds (S (length s)) [] rest Hrd Hnr) as (rts & E & Er).
    { destruct rest; [done|]. by destruct Hf as (? & _). }
    { unfold s. change (words []) with (@nil Z). cbn [app]. rewrite length_app. pose proof (length_show_redirs rds). lia. }
    change (show_redirs rds ++ rest) with s in E. rewrite E. cbn [mbind pres_bind app].
    rewrite exec_loop_stop by (done || lia). cbn [mbind pres_bind]. eexists. split; [done|].
    by rewrite cmap_wrap, Er.
  - rewrite parseredirs_none; [|done| |lia].
    2:{ apply Forall_cons in Hw as [Hw _]. destruct (word_first w [] Hw) as (_ & c & t & -> & Hc & _).
        unfold s. rewrite words_cons. cbn. apply word_not_sym; [done|]. vm_compute. set_solver. }
    cbn [mbind pres_bind].
    destruct (exec_loop_words (w :: ws) rds (S (length s)) [] [] rest Hw ltac:(done) Hrd Hs Hm) as (ts & rts & E & Es & Er).
    { unfold s. rewrite length_app. assert (length (w :: ws) <= length (words (w :: ws)))%nat; [|lia].
      generalize (w :: ws). clear. induction l as [|x l IH]; [cbn; lia|].
      rewrite <- (app_nil_r (words (x :: l))), words_cons, length_app, app_nil_r. cbn [length]. lia. }
    fold s in E. rewrite E. cbn [mbind pres_bind app]. eexists. split; [done|].
    rewrite cmap_wrap, Er. cbn [cmap]. by rewrite Es.
Qed.

Lemma block_good b rds n rest :
  line_good b -> cmd_wf is_word b -> Forall rd_wf rds -> stopE rest ->
  (4 * length (str "(" ++ show 0 b ++ str ")" ++ show_redirs rds ++ rest) + 2 <= n)%nat ->
  exists a, parseexec n (str "(" ++ show 0 b ++ str ")" ++ show_redirs rds ++ rest) = Ok (a, rest)
    /\ cmap slice a = wrap b rds.
Proof.
  intros Hb Hwf Hrd Hs Hn. destruct (stopE_facts rest Hs) as [Hnr Hf].
  change (str "(" ++ ?x) with (chr "(" :: x) in *. change (str ")" ++ ?x) with (chr ")" :: x) in *.
  set (more := show_redirs rds ++ rest) in *. assert (nows more) as Hmore by (by apply nows_redirs).
  cbn [length] in Hn. rewrite length_app in Hn. cbn [length] in Hn.
  destruct n as [|[|n]]; [lia..|]. cbn [parseexec]. rewrite peek_yes by done. cbn [parseblock].
  rewrite peek_yes by done. cbn [negb].
  rewrite gettoken_sym by (done || by apply nows_show).
  destruct (Hb n (chr ")" :: more)) as (a & E & Ea); [done|rewrite length_app; cbn [length]; lia|].
  rewrite E. cbn [mbind pres_bind]. rewrite peek_yes by done. cbn [negb]. rewrite gettoken_sym by done.
  destruct (parseredirs_show rds (S (length more)) [] rest Hrd Hnr) as (rts & E2 & Er).
  { destruct rest; [done|]. by destruct Hf as (? & _). }
  { unfold more. rewrite length_app. pose proof (length_show_redirs rds). lia. }
  fold more in E2. rewrite E2. cbn [mbind pres_bind app]. eexists. split; [done|]. by rewrite cmap_wrap, Er, Ea.
Qed.

Lemma stopP_E s : stopP s -> stopE s.
Proof. destruct s as [|x s]; [done|]. cbn. vm_compute. set_solver. Qed.
Lemma stopP_no s : stopP s -> nows s /\ first (fun x => among (str "|") x = false) s.
Proof.
  destruct s as [|x s]; [done|]. cbn. intros H. revert x H. apply (proj1 (Forall_forall _ _)).
  vm_compute. repeat (constructor; [done|]). constructor.
Qed.
Lemma stopL_no s : stopL s -> nows s /\ stopP s /\ first (fun x => among (str "&") x = false /\ among (str ";") x = false) s.
Proof. destruct s as [|x s]; [done|]. cbn. intros ->. vm_compute. split; [done|]. split; [set_solver|done]. Qed.

(** What is not a pipe is parsed by parseexec() alone. *)
Lemma exec_pipe c : exec_good c -> match c with PIPE _ _ => True | _ => pipe_good c end.
Proof.
  intros He. pose proof (show_2_3 c) as E. assert (show 2 c = show 3 c -> pipe_good c) as H.
  { intros E' n rest Hs Hn. rewrite E' in *. destruct n as [|n]; [lia|]. cbn [parsepipe].
    destruct (stopP_no rest Hs) as [Hnr Hf].
    destruct (He n rest (stopP_E rest Hs)) as (a & Ea & Hc); [lia|]. rewrite Ea. cbn [mbind pres_bind].
    rewrite peek_no by done. by exists a. }
  destruct c; auto.
Qed.

Section step.
Context (c : cmd (list Z)) (Hwf : cmd_wf is_word c).
Context (IH : forall c', (csize c' < csize c)%nat -> cmd_wf is_word c' -> exec_good c' /\ pipe_good c' /\ line_good c').

(** Redirections around a simple command or around a smaller block. *)
Lemma step_exec_simple : match c with EXEC _ | REDIR _ _ _ _ => exec_good c | _ => True end.
Proof using Hwf IH.
  pose proof (peel_spec c Hwf) as Hp. destruct (peel c) as [b rds].
  destruct Hp as (E1 & E2 & Hnr & Hb & Hrd & Hsz).
  assert (forall ws, b = EXEC ws -> exec_good c) as Hsimple.
  { intros ws -> n rest Hs Hn. rewrite E2, <- app_assoc. rewrite E1. cbn [show].
    apply simple_good; [done|done|done|lia]. }
  assert (not_redir c -> b = c /\ rds = []) as Hid.
  { intros Hc. destruct rds as [|r rds] using rev_ind; [done|]. rewrite wrap_snoc in E1. by rewrite E1 in Hc. }
  destruct c as [argv|c0 file mode fd| | |] eqn:Ec; try done.
  - destruct Hid as [-> _]; [done|]. by apply (Hsimple argv).
  - assert (csize b < csize (REDIR c0 file mode fd))%nat as Hlt.
    { destruct rds as [|r rds _] using rev_ind; [unfold wrap in E1; cbn in E1; by rewrite <- E1 in Hnr|]. rewrite wrap_snoc in E1. injection E1 as E1 _ _ _.
      assert (forall rs (d : cmd (list Z)), (csize d <= csize (wrap d rs))%nat) as Hw.
      { induction rs as [|x rs IHr] using rev_ind; intros d; [done|]. rewrite wrap_snoc. cbn. specialize (IHr d). lia. }
      cbn [csize]. rewrite E1. specialize (Hw rds b). lia. }
    destruct (IH b Hlt Hb) as (_ & _ & HL). pose proof (show_3_paren b) as Hpar.
    destruct b as [ws| | | |]; [by apply (Hsimple ws)|done|..];
      (intros n rest Hs Hn; rewrite E2, Hpar in *; rewrite E1; rewrite <- !app_assoc in *; by apply block_good).
Qed.

Lemma step_pipe_inner : match c with EXEC _ | REDIR _ _ _ _ | PIPE _ _ => pipe_good c | _ => True end.
Proof using Hwf IH.
  pose proof step_exec_simple as Hx. pose proof (exec_pipe c) as Hxp.
  destruct c as [argv|c0 file mode fd|l r|l r|c0] eqn:Ec; try done; [by apply Hxp|by apply Hxp|]. clear Hx Hxp.
  destruct Hwf as [Hl Hr]. destruct (IH l) as (He & _ & _); [cbn; lia|done|].
  destruct (IH r) as (_ & Hp & _); [cbn; lia|done|].
  intros n rest Hs Hn. cbn [show] in *. rewrite decide_False in * by lia. rewrite <- !app_assoc in *.
  change (str "|" ++ ?x) with (chr "|" :: x) in *. destruct n as [|n]; [lia|]. cbn [parsepipe].
  rewrite length_app in Hn. cbn [length] in Hn.
  assert (nows (show 2 r ++ rest)) as Hnr by (apply nows_show; [done|by apply stopP_no]).
  destruct (He n (chr "|" :: show 2 r ++ rest)) as (a & Ea & Ha); [vm_compute; set_solver|rewrite length_app; cbn [length]; lia|].
  rewrite Ea. cbn [mbind pres_bind]. rewrite peek_yes by done. rewrite gettoken_sym by done.
  destruct (Hp n rest Hs) as (a2 & Ea2 & Ha2); [lia|]. rewrite Ea2. cbn [mbind pres_bind].
  eexists. split; [done|]. cbn [cmap]. by rewrite Ha, Ha2.
Qed.

(** Before a semicolon: a pipe and its ampersands. *)
Lemma back_level d n rest :
  (csize d < csize c)%nat \/ (d = c /\ match c with LIST _ _ => False | _ => True end) -> cmd_wf is_word d -> stopP rest -> nows rest ->
  first (fun x => among (str "&") x = false) rest -> (4 * length (show 1 d ++ rest) + 3 <= n)%nat ->
  exists a a1 s1, parsepipe n (show 1 d ++ rest) = Ok (a1, s1) /\ back_loop (S (length s1)) a1 s1 = Ok (a, rest)
    /\ cmap slice a = d.
Proof using Hwf IH.
  intros Hd Hdw Hs Hnr Hf Hn. pose proof (unback_spec d Hdw) as Hu. destruct (unback d) as [b k].
  destruct Hu as (E1 & E2 & Hnb & Hbw & Hsz). rewrite E2 in *. rewrite <- app_assoc in *.
  assert (pipe_good b) as Hp.
  { destruct (decide (csize b < csize c)%nat) as [Hlt|Hge]; [by apply IH|].
    destruct Hd as [|[-> Hc]]; [lia|]. assert (b = c) as ->.
    { destruct k as [|k]; [done|]. cbn [backs] in E1. rewrite backs_back in E1.
      assert (forall k (x : cmd (list Z)), (csize x <= csize (backs x k))%nat) as Hb.
      { clear. induction k as [|k IHk]; intros x; [done|]. cbn. rewrite backs_back. cbn. specialize (IHk x). lia. }
      specialize (Hb k b). rewrite E1 in Hge. cbn in Hge. lia. }
    pose proof step_pipe_inner as Hin. destruct c; try done. }
  set (more := replicate k (chr "&") ++ rest) in *.
  assert (stopP more) as Hsm by (unfold more; destruct k; [done|vm_compute; set_solver]).
  destruct (Hp n more Hsm Hn) as (a1 & Ea & Ha). exists (backs a1 k), a1, more. split; [done|].
  split; [|by rewrite cmap_backs, Ha]. apply back_loop_show; [done|done|]. unfold more. rewrite length_app, length_replicate. lia.
Qed.

Lemma step_line : line_good c.
Proof using Hwf IH.
  intros n rest Hs Hn. destruct (stopL_no rest Hs) as (Hnr & HsP & Hf). destruct n as [|n]; [lia|]. cbn [parseline].
  assert (first (fun x => among (str "&") x = false) rest /\ first (fun x => among (str ";") x = false) rest) as [Hf1 Hf2]
    by (destruct rest; [done|by destruct Hf]).
  destruct (match c with LIST l r => Some (l, r) | _ => None end) as [[l r]|] eqn:El.
  - assert (c = LIST l r) as Ec by (by destruct c; simplify_eq). pose proof Hwf as Hlr. rewrite Ec in Hlr. destruct Hlr as [Hl Hr].
    assert (show 0 c ++ rest = show 1 l ++ chr ";" :: (show 0 r ++ rest)) as Es.
    { rewrite Ec. cbn [show]. rewrite decide_False by lia. by rewrite <- !app_assoc. }
    rewrite Es in *. assert (nows (show 0 r ++ rest)) as Hnr2 by (by apply nows_show).
    rewrite length_app in Hn. cbn [length] in Hn.
    destruct (back_level l n (chr ";" :: (show 0 r ++ rest))) as (a & a1 & s1 & Ea & Eb & Ha);
      [left; rewrite Ec; cbn; lia|done|vm_compute; set_solver|done|done|rewrite length_app; cbn [length]; lia|].
    rewrite Ea. cbn [mbind pres_bind]. rewrite Eb. cbn [mbind pres_bind]. rewrite peek_yes by done.
    rewrite gettoken_sym by done. destruct (IH r) as (_ & _ & Hp); [rewrite Ec; cbn; lia|done|].
    destruct (Hp n rest Hs) as (a2 & Ea2 & Ha2); [lia|]. rewrite Ea2. cbn [mbind pres_bind].
    eexists. split; [done|]. cbn [cmap]. by rewrite Ha, Ha2, Ec.
  - pose proof (show_0_1 c) as E01. assert (show 0 c = show 1 c) as E by (by destruct c). rewrite E in *.
    destruct (back_level c n rest) as (a & a1 & s1 & Ea & Eb & Ha);
      [right; split; [done|by destruct c]|done|done|done|done|lia|].
    rewrite Ea. cbn [mbind pres_bind]. rewrite Eb. cbn [mbind pres_bind]. rewrite peek_no by done. by exists a.
Qed.

Lemma step_all : exec_good c /\ pipe_good c /\ line_good c.
Proof using Hwf IH.
  pose proof step_line as HL. assert (exec_good c) as HE.
  { pose proof step_exec_simple as Hx. pose proof (show_3_paren c) as Hp.
    destruct c as [argv|c0 file mode fd|l r|l r|c0] eqn:Ec; try done;
      (intros n rest Hs Hn; rewrite Hp in *; rewrite <- !app_assoc in *;
       exact (block_good _ [] n rest HL Hwf (Forall_nil_2 _) Hs Hn)). }
  split; [done|]. split; [|done]. pose proof (exec_pipe c HE) as Hep. pose proof step_pipe_inner as Hpi. by destruct c.
Qed.
End step.

Lemma show_good c : cmd_wf is_word c -> exec_good c /\ pipe_good c /\ line_good c.
Proof.
  induction c as [c IH] using (induction_ltof1 _ csize). unfold ltof in IH. intros Hwf. by apply step_all.
Qed.

Definition nonul (l : list Z) : Prop := Forall (fun c => c <> 0) l.

Lemma nonul_word w : is_word w -> nonul w.
Proof. intros [_ H]. eapply Forall_impl; [exact H|]. by intros x [_ ?]. Qed.

Lemma nonul_words ws : Forall is_word ws -> nonul (words ws).
Proof.
  induction 1 as [|w ws Hw _ IH]; [constructor|]. rewrite <- (app_nil_r (words (w :: ws))), words_cons, app_nil_r.
  apply Forall_app. split; [by apply nonul_word|]. by constructor.
Qed.

Lemma nonul_paren lvl own s : nonul s -> nonul (if decide (own < lvl)%nat then str "(" ++ s ++ str ")" else s).
Proof.
  intros Hs. case_decide; [|done]. repeat (apply Forall_app; split); [by repeat constructor|done|by repeat constructor].
Qed.

Lemma nonul_show lvl c : cmd_wf is_word c -> nonul (show lvl c).
Proof.
  revert lvl. induction c as [argv|c IH file mode fd|l IHl r IHr|l IHl r IHr|c IH]; intros lvl Hwf; cbn [show].
  - apply nonul_words, Hwf.
  - destruct Hwf as (Hc & Hf & _). apply Forall_app. split; [by apply IH|]. unfold show_redir, operator.
    repeat (apply Forall_app; split); [repeat case_match; by repeat constructor|by apply nonul_word|by repeat constructor].
  - apply nonul_paren. destruct Hwf. repeat (apply Forall_app; split); [by apply IHl|by repeat constructor|by apply IHr].
  - apply nonul_paren. destruct Hwf. repeat (apply Forall_app; split); [by apply IHl|by repeat constructor|by apply IHr].
  - apply nonul_paren. apply Forall_app. split; [by apply IH|by repeat constructor].
Qed.

(** C32: parsing is the inverse of printing.  Every command over words (lists,
    background commands, pipes, redirections and simple commands nested in
    any way, with fewer than MAXARGS arguments) is what parsecmd() returns
    for the command line that [show] writes for it. *)
Theorem parsecmd_show c : cmd_wf is_word c -> parsecmd (show 0 c) = Ok c.
Proof.
  intros Hwf. rewrite parsecmd_eq.
  assert (cstr (show 0 c) = show 0 c) as ->.
  { rewrite <- (app_nil_r (show 0 c)) at 1. rewrite cstr_app_nonzero by by apply nonul_show. apply app_nil_r. }
  destruct (show_good c Hwf) as (_ & _ & HL). unfold parsetree, parse_fuel.
  destruct (HL (4 * (length (show 0 c) + 1))%nat []) as (a & E & Ha); [done|rewrite app_nil_r; lia|].
  rewrite app_nil_r in E. rewrite E. cbn [mbind pres_bind]. rewrite decide_True by done. cbn [mbind pres_bind]. by rewrite Ha.
Qed.

Lemma parsecmd_show_witness :
  let c := PIPE (LIST (EXEC [str "a"]) (EXEC [str "b"; str "c"])) (REDIR (EXEC [str "wc"]) (str "f") O_RDONLY 0) in
  parsecmd (str "(a ;b c )|wc <f ") = Ok c.
Proof.
  intros c. apply (parsecmd_show c). unfold c. cbn [cmd_wf]. unfold is_word, redir_ok, MAXARGS.
  repeat match goal with
  | |- _ /\ _ => split
  | |- Forall _ _ => constructor
  | |- _ <> _ => discriminate
  | |- (_ < _)%nat => cbn; lia
  | |- _ \/ _ => left
  | |- _ = _ => reflexivity
  end.
Defined.
