(* ===== verification/Shrun.v ===== *)
(** * Shrun: how the shell runs commands (user/sh.c)

    runcmd() and main() as programs over system calls.  A program is the tree
    of the calls it makes; a call that the kernel may refuse has a branch for
    every answer, and fork has one for the child.  [launches] is what a
    command means: which programs are started, and with which files on their
    descriptors. *)

From S2P Require Import Prelude Params Machine Spinlock Strings Uart Printk Ulib Uprintf Sh.

(** ** Programs *)
Inductive prog :=
| PExit (status : Z)
| PExec (path : list Z) (argv : list (list Z)) (failed : prog)
| PFork (child : prog) (parent : Z -> prog)
| PWait (k : prog)
| PPipe (k : option (Z * Z) -> prog)
| POpen (path : list Z) (mode : Z) (k : Z -> prog)
| PClose (fd : Z) (k : prog)
| PDup (fd : Z) (k : prog)
| PWrite (fd : Z) (bytes : list Z) (k : prog)
| PChdir (path : list Z) (k : Z -> prog).

(** fprintf(): one write() for each byte. *)
Definition fprintf (fd : Z) (fmt : list Z) (args : list varg) (k : prog) : prog :=
  foldr (fun c k => PWrite fd [c] k) k (vprintf fmt args).

Definition shpanic (s : list Z) : prog := fprintf 2 (str "%s" ++ [10]) [AStr (Some s)] (PExit 1).

(** [if (fork1() == 0) child; parent] *)
Definition fork1 (child parent : prog) : prog :=
  PFork child (fun pid => if pid =? -1 then shpanic (str "fork") else parent).

Fixpoint runcmd (c : cmd (list Z)) : prog :=
  match c with
  | EXEC argv =>
      match argv with
      | [] => PExit 1
      | a :: _ =>
          PExec a argv (fprintf 2 (str "exec %s failed" ++ [10]) [AStr (Some a)] (PExit 0))
      end
  | REDIR c file mode fd =>
      PClose fd
        (POpen file mode (fun r =>
           if r <? 0 then fprintf 2 (str "open %s failed" ++ [10]) [AStr (Some file)] (PExit 1)
           else runcmd c))
  | LIST l r => fork1 (runcmd l) (PWait (runcmd r))
  | PIPE l r =>
      PPipe (fun p =>
        match p with
        | None => shpanic (str "pipe")
        | Some (p0, p1) =>
            fork1 (PClose 1 (PDup p1 (PClose p0 (PClose p1 (runcmd l)))))
              (fork1 (PClose 0 (PDup p0 (PClose p0 (PClose p1 (runcmd r)))))
                 (PClose p0 (PClose p1 (PWait (PWait (PExit 0))))))
        end)
  | BACK c => fork1 (runcmd c) (PExit 0)
  end.

(** ** The main loop; [input] is what is left to read on descriptor 0 *)
Fixpoint open_console (fuel : nat) (k : prog) : prog :=
  match fuel with
  | O => k
  | S n => POpen (str "console") O_RDWR (fun fd =>
      if fd >=? 0 then (if fd >=? 3 then PClose fd k else open_console n k) else k)
  end.

Fixpoint skip_blanks (s : list Z) : list Z :=
  match s with
  | c :: r => if (c =? 32) || (c =? 9) then skip_blanks r else s
  | [] => []
  end.

(** The child of main(): [runcmd(parsecmd(cmd))]. *)
Definition run_line (line : list Z) : prog :=
  match parsecmd line with
  | Ok c => runcmd c
  | Bad out => foldr (fun c k => PWrite 2 [c] k) (PExit 1) out
  | NoFuel => PExit 1
  end.

Fixpoint sh_loop (fuel : nat) (input : list Z) : prog :=
  match fuel with
  | O => PExit 0
  | S n =>
      PWrite 2 (str "$ ")
      (let '(buf, input) := gets 100 input in
       if hd0 buf =? 0 then PExit 0 else (* EOF *)
       let line := skip_blanks buf in
       if hd0 line =? 10 then sh_loop n input else (* is a blank command *)
       if (hd0 line =? chr "c") && (hd0 (tail line) =? chr "d") && (hd0 (drop 2 line) =? 32) then
         (* Chdir must be called by the parent, not the child. *)
         let dir := drop 3 (take (length (cstr line) - 1) line) in (* chop \n *)
         PChdir dir (fun r =>
           if r <? 0 then fprintf 2 (str "cannot cd %s" ++ [10]) [AStr (Some dir)] (sh_loop n input)
           else sh_loop n input)
       else fork1 (run_line line) (PWait (sh_loop n input)))
  end.
Definition main (input : list Z) : prog := open_console 4 (sh_loop (S (length input)) input).

(** ** What is started *)

(** What a descriptor refers to. *)
Inductive fobj := Console | Named (path : list Z) (mode : Z) | PipeRead (id : nat) | PipeWrite (id : nat).
Abbreviation fdtable := (gmap Z fobj).

(** The kernel gives the lowest free descriptor. *)
Definition lowest (fds : fdtable) : option Z :=
  List.find (fun fd => bool_decide (fds !! fd = None)) (Z.of_nat <$> seq 0 NOFILE).

(** A run in which no call fails for want of resources or files: the
    programs that are started, each with its descriptors, in the order of the
    process tree, and the next unused pipe. *)
Fixpoint launched (p : prog) (fds : fdtable) (id : nat) : list (list (list Z) * fdtable) * nat :=
  match p with
  | PExit _ => ([], id)
  | PExec _ argv _ => ([(argv, fds)], id)
  | PFork child parent =>
      let '(l1, id) := launched child fds id in
      let '(l2, id) := launched (parent 1) fds id in (l1 ++ l2, id)
  | PWait k => launched k fds id
  | PPipe k =>
      match lowest fds with
      | Some r =>
          let fds := <[r := PipeRead id]> fds in
          match lowest fds with
          | Some w => launched (k (Some (r, w))) (<[w := PipeWrite id]> fds) (S id)
          | None => launched (k None) fds id
          end
      | None => launched (k None) fds id
      end
  | POpen path mode k =>
      match lowest fds with
      | Some fd => launched (k fd) (<[fd := Named path mode]> fds) id
      | None => launched (k (-1)) fds id
      end
  | PClose fd k => launched k (delete fd fds) id
  | PDup fd k =>
      match fds !! fd, lowest fds with
      | Some f, Some fd' => launched k (<[fd' := f]> fds) id
      | _, _ => launched k fds id
      end
  | PWrite _ _ k => launched k fds id
  | PChdir _ k => launched (k 0) fds id
  end.

(** The meaning of a command. *)
Fixpoint launches (c : cmd (list Z)) (fds : fdtable) (id : nat) : list (list (list Z) * fdtable) * nat :=
  match c with
  | EXEC argv => (if decide (argv = []) then [] else [(argv, fds)], id)
  | REDIR c file mode fd => launches c (<[fd := Named file mode]> fds) id
  | LIST l r =>
      let '(l1, id) := launches l fds id in
      let '(l2, id) := launches r fds id in (l1 ++ l2, id)
  | PIPE l r =>
      let '(l1, id') := launches l (<[1 := PipeWrite id]> fds) (S id) in
      let '(l2, id') := launches r (<[0 := PipeRead id]> fds) id' in (l1 ++ l2, id')
  | BACK c => launches c fds id
  end.

(** Descriptors 0, 1 and 2, and no other. *)
Definition std_fds (fds : fdtable) : Prop := forall fd, is_Some (fds !! fd) <-> 0 <= fd <= 2.

Lemma lowest_spec fds n :
  (Z.to_nat n < NOFILE)%nat -> 0 <= n -> fds !! n = None -> (forall m, 0 <= m < n -> is_Some (fds !! m)) ->
  lowest fds = Some n.
Proof.
  intros Hn H0 Hfree Hused. unfold lowest.
  assert (Z.of_nat <$> seq 0 NOFILE = (Z.of_nat <$> seq 0 (Z.to_nat n)) ++ (Z.of_nat <$> seq (Z.to_nat n) (NOFILE - Z.to_nat n))) as ->.
  { rewrite <- fmap_app, <- seq_app. f_equal. f_equal. lia. }
  assert (forall l r, (forall m, m ∈ l -> 0 <= m < n) ->
    List.find (fun fd => bool_decide (fds !! fd = None)) (l ++ n :: r) = Some n) as Hf.
  { induction l as [|m l IH]; intros r Hl; cbn [app List.find].
    - by rewrite bool_decide_true.
    - destruct (Hused m) as [x Hx]; [apply Hl; set_solver|]. rewrite bool_decide_false by (by rewrite Hx). apply IH. set_solver. }
  destruct (NOFILE - Z.to_nat n)%nat as [|k] eqn:E; [lia|]. cbn [seq fmap list_fmap]. rewrite Z2Nat.id by lia.
  apply Hf. intros m (i & -> & Hi%elem_of_seq)%list_elem_of_fmap. lia.
Qed.

Lemma std_insert fds fd f : std_fds fds -> 0 <= fd <= 2 -> std_fds (<[fd := f]> fds).
Proof.
  intros Hs Hfd n. destruct (decide (n = fd)) as [->|Hne].
  - rewrite lookup_insert_eq. split; [done|by eexists].
  - rewrite lookup_insert_ne by done. apply Hs.
Qed.

Lemma std_none fds fd : std_fds fds -> ~ (0 <= fd <= 2) -> fds !! fd = None.
Proof. intros Hs Hn. apply eq_None_not_Some. by rewrite (Hs fd). Qed.

(** close() of a standard descriptor frees it for the next open or dup. *)
Lemma lowest_closed fds fds' fd :
  std_fds fds -> 0 <= fd <= 2 -> fds' !! fd = None -> (forall n, 0 <= n <= 2 -> n <> fd -> fds' !! n = fds !! n) ->
  lowest fds' = Some fd.
Proof.
  intros Hs Hfd Hn Ho. apply lowest_spec; [unfold NOFILE; lia|lia|done|].
  intros m Hm. rewrite Ho by lia. apply Hs. lia.
Qed.

Lemma launched_fork1 child parent fds id :
  launched (fork1 child parent) fds id
  = let '(l1, id1) := launched child fds id in let '(l2, id2) := launched parent fds id1 in (l1 ++ l2, id2).
Proof. done. Qed.

Section pipe.
Context (fds : fdtable) (Hs : std_fds fds) (id : nat).
#[local] Abbreviation piped := (<[4 := PipeWrite id]> (<[3 := PipeRead id]> fds)).

Lemma pipe_descriptors : lowest fds = Some 3 /\ lowest (<[3 := PipeRead id]> fds) = Some 4.
Proof using Hs.
  split; apply lowest_spec; try (unfold NOFILE; lia).
  - apply std_none; [done|lia].
  - intros m Hm. apply Hs. lia.
  - rewrite lookup_insert_ne by lia. apply std_none; [done|lia].
  - intros m Hm. destruct (decide (m = 3)) as [->|]; [rewrite lookup_insert_eq; by eexists|].
    rewrite lookup_insert_ne by lia. apply Hs. lia.
Qed.

(** Moving one end to a standard descriptor and closing the rest. *)
Lemma pipe_end (fd src : Z) (f : fobj) k j :
  0 <= fd <= 2 -> piped !! src = Some f -> (src = 3 \/ src = 4) ->
  launched (PClose fd (PDup src (PClose 3 (PClose 4 k)))) piped j = launched k (<[fd := f]> fds) j.
Proof using Hs.
  intros Hfd Hsrc H34. cbn [launched]. rewrite lookup_delete_ne by lia. rewrite Hsrc.
  rewrite (lowest_closed fds _ fd Hs Hfd).
  - f_equal. apply map_eq. intros n. rewrite !lookup_delete, !lookup_insert, !lookup_delete, !lookup_insert.
    pose proof (std_none fds 3 Hs ltac:(lia)). pose proof (std_none fds 4 Hs ltac:(lia)).
    repeat case_decide; subst; try lia; done.
  - apply lookup_delete_eq.
  - intros n Hn Hne. rewrite lookup_delete_ne by done. rewrite !lookup_insert_ne by lia. done.
Qed.
End pipe.


