(* ===== verification/Mkfs.v ===== *)
(** * Mkfs: the program that builds the file system (mkfs/mkfs.c)

    mkfs writes the image the kernel boots from: the super block, the
    inodes, the root directory and the files given on its command line, and
    the bitmap of the blocks in use.  It runs on the build machine and has its
    own code for the structures on disk.  The theorems relate the image to the
    kernel's own readers in [Fs] and [Inode]. *)

From S2P Require Import Prelude Params Machine Spinlock Strings Blockdev Bcache Fs Inode.

(** ** State

    The image is a list of sectors of [BSIZE] bytes.  die() and a failed
    assert() stop the program: [None]. *)
Record mkst := mkMk { m_img : list (list Z); m_freeinode : Z; m_freeblock : Z }.

Definition M (A : Type) : Type := mkst -> option (A * mkst).
#[global] Instance M_ret : MRet M := fun A a s => Some (a, s).
#[global] Instance M_bind : MBind M := fun A B f m s => match m s with Some (a, s') => f a s' | None => None end.
Definition die {A} : M A := fun _ => None.
Definition assert_ (b : bool) : M unit := fun s => if b then Some (tt, s) else None.

(** ** Layout: boot, super block, log, inodes, bitmap, data *)
Definition NINODES : Z := 200.
Definition nbitmap : Z := FSSIZE / BPB + 1.
Definition ninodeblocks : Z := NINODES / IPB + 1.
Definition nlog : Z := LOGBLOCKS + 1.
Definition nmeta : Z := 2 + nlog + ninodeblocks + nbitmap.
Definition nblocks : Z := FSSIZE - nmeta.
Definition sb : superblock :=
  mkSb FSMAGIC FSSIZE nblocks NINODES nlog 2 (2 + nlog) (2 + nlog + ninodeblocks).

Definition zeroes : list Z := replicate (Z.to_nat BSIZE) 0.

(** xshort() and xint(): the bytes of the value they return, which are stored
    as they are. *)
Definition xshort (x : Z) : list Z := [u8 x; u8 (Z.shiftr x 8)].
Definition xint (x : Z) : list Z := [u8 x; u8 (Z.shiftr x 8); u8 (Z.shiftr x 16); u8 (Z.shiftr x 24)].

(** They are little endian, as the structures of [Fs]. *)
Lemma xshort_le x : xshort x = le_bytes 2 x.
Proof. unfold xshort. cbn. by rewrite !Z.shiftr_div_pow2 by lia. Qed.
Lemma xint_le x : xint x = le_bytes 4 x.
Proof.
  unfold xint. cbn [le_bytes]. rewrite !Z.shiftr_div_pow2 by lia. rewrite !Z.div_div by lia. done.
Qed.

Definition sb_bytes : list Z :=
  mjoin (xint <$> [sb_magic sb; sb_size sb; sb_nblocks sb; sb_ninodes sb;
                         sb_nlog sb; sb_logstart sb; sb_inodestart sb; sb_bmapstart sb]).

(** ** Sectors *)
Definition wsect (sec : Z) (buf : list Z) : M unit := fun s =>
  let n := Z.to_nat sec in
  let img := m_img s in
  let img := if (n <? length img)%nat then <[n := buf]> img
             else img ++ replicate (n - length img) zeroes ++ [buf] in (* the file grows *)
  Some (tt, mkMk img (m_freeinode s) (m_freeblock s)).

(** A read past the end of the file delivers nothing. *)
Definition rsect (sec : Z) : M (list Z) := fun s =>
  match m_img s !! Z.to_nat sec with
  | Some buf => Some (buf, s)
  | None => None
  end.

(** ** Inodes *)
Definition winode (inum : Z) (ip : dinode) : M unit :=
  let bn := IBLOCK inum sb in
  buf ← rsect bn;
  wsect bn (write_dinode buf (dinode_off inum) ip).

Definition rinode (inum : Z) : M dinode :=
  let bn := IBLOCK inum sb in
  buf ← rsect bn;
  mret (read_dinode buf (dinode_off inum)).

Definition new_inode : M Z := fun s =>
  Some (m_freeinode s, mkMk (m_img s) (m_freeinode s + 1) (m_freeblock s)).
Definition new_block : M Z := fun s =>
  Some (m_freeblock s, mkMk (m_img s) (m_freeinode s) (m_freeblock s + 1)).

Definition ialloc (type : Z) : M Z :=
  inum ← new_inode;
  winode inum (mkDinode type 0 0 1 0 (replicate 13 0)) ;;
  mret inum.

(** ** Blocks *)
Fixpoint mark_used (n : nat) (i : Z) (buf : list Z) : list Z :=
  match n with
  | O => buf
  | S n' => mark_used n' (i + 1) (set_bit i buf)
  end.

Definition balloc (used : Z) : M unit :=
  assert_ (used <? BPB) ;;
  wsect (sb_bmapstart sb) (mark_used (Z.to_nat used) 0 zeroes).

Definition set_di_addr (k : nat) (a : Z) (d : dinode) : dinode :=
  mkDinode (di_type d) (di_major d) (di_minor d) (di_nlink d) (di_size d) (<[k := a]> (di_addrs d)).
Definition set_di_size (n : Z) (d : dinode) : dinode :=
  mkDinode (di_type d) (di_major d) (di_minor d) (di_nlink d) n (di_addrs d).

(** The block for block [fbn] of the file, which is allocated if need be. *)
Definition iappend_block (din : dinode) (fbn : Z) : M (dinode * Z) :=
  if fbn <? NDIRECT then
    let k := Z.to_nat fbn in
    if di_addrs din !!! k =? 0 then
      b ← new_block;
      mret (set_di_addr k b din, b)
    else mret (din, di_addrs din !!! k)
  else
    din ← (if di_addrs din !!! IND =? 0 then b ← new_block; mret (set_di_addr IND b din) else mret din);
    indirect ← rsect (di_addrs din !!! IND);
    let o := (4 * Z.to_nat (fbn - NDIRECT))%nat in
    if u32_at indirect o =? 0 then
      b ← new_block;
      wsect (di_addrs din !!! IND) (put32 indirect o b) ;;
      mret (din, b)
    else mret (din, u32_at indirect o).

(** while (n > 0); [p] is what is left to append. *)
Fixpoint iappend_loop (fuel : nat) (din : dinode) (off : Z) (p : list Z) : M (dinode * Z) :=
  match fuel with
  | O => die
  | S fuel =>
      match p with
      | [] => mret (din, off)
      | _ =>
          let fbn := off / BSIZE in
          assert_ (fbn <? MAXFILE) ;;
          '(din, x) ← iappend_block din fbn;
          let n1 := Z.min (Z.of_nat (length p)) ((fbn + 1) * BSIZE - off) in
          buf ← rsect x;
          wsect x (put_bytes buf (Z.to_nat (off - fbn * BSIZE)) (take (Z.to_nat n1) p)) ;;
          iappend_loop fuel din (off + n1) (drop (Z.to_nat n1) p)
      end
  end.

(** An iteration takes at least one byte. *)
Definition iappend (inum : Z) (p : list Z) : M unit :=
  din ← rinode inum;
  '(din, off) ← iappend_loop (S (length p)) din (di_size din) p;
  winode inum (set_di_size off din).

(** ** main() *)

(** struct dirent, and strncpy(de.name, name, DIRSIZ). *)
Definition dirent (inum : Z) (name : list Z) : list Z :=
  xshort inum ++ take (Z.to_nat DIRSIZ) (name ++ replicate (Z.to_nat DIRSIZ) 0).

(** get rid of "user/", and of a leading _ *)
Definition short_name (arg : list Z) : list Z :=
  if bool_decide (take 5 arg = str "user/") then drop 5 arg else arg.
Definition skip_underscore (name : list Z) : list Z :=
  if hd0 name =? chr "_" then tail name else name.

(** A file of the command line: its name, and its contents as read() delivers
    them. *)
Definition add_pieces (inum : Z) : list (list Z) -> M unit :=
  fix go pieces :=
    match pieces with
    | [] => mret tt
    | b :: r => iappend inum b ;; go r
    end.

Definition add_file (rootino : Z) (arg : list Z) (pieces : list (list Z)) : M unit :=
  let name := short_name arg in
  assert_ (negb (bool_decide (SLASH ∈ name))) ;;
  let name := skip_underscore name in
  assert_ (Z.of_nat (length name) <=? DIRSIZ) ;;
  inum ← ialloc T_FILE;
  iappend rootino (dirent inum name) ;;
  add_pieces inum pieces.

Fixpoint add_files (rootino : Z) (files : list (list Z * list (list Z))) : M unit :=
  match files with
  | [] => mret tt
  | (arg, pieces) :: r => add_file rootino arg pieces ;; add_files rootino r
  end.

Fixpoint zero_loop (n : nat) (i : Z) : M unit :=
  match n with
  | O => mret tt
  | S n' => wsect i zeroes ;; zero_loop n' (i + 1)
  end.

Definition fix_root_size (rootino : Z) : M unit :=
  din ← rinode rootino;
  let off := di_size din in
  let off := (off / BSIZE + 1) * BSIZE in
  winode rootino (set_di_size off din).

Definition mkfs (files : list (list Z * list (list Z))) : M unit :=
  zero_loop (Z.to_nat FSSIZE) 0 ;;
  wsect 1 (put_bytes zeroes 0 sb_bytes) ;;
  rootino ← ialloc T_DIR;
  assert_ (rootino =? ROOTINO) ;;
  iappend rootino (dirent rootino (str ".")) ;;
  iappend rootino (dirent rootino (str "..")) ;;
  add_files rootino files ;;
  fix_root_size rootino ;;
  s ← (fun s => Some (s, s));
  balloc (m_freeblock s).

(** The image of an empty disk. *)
Definition mk_start : mkst := mkMk [] 1 nmeta.
