(* ===== verification/Mkblocks.v ===== *)
(** * Mkblocks: one file of the image mkfs builds

    A file of the image is a list of data blocks and an indirect block
    ([data_rep]).  The loop of iappend() extends them so that they hold the
    bytes appended, takes the blocks it needs from the free ones, and changes
    nothing else ([ext]). *)

From S2P Require Import Prelude Params Machine Spinlock Strings Blockdev Bcache Fs Inode Mkfs.

(** ** Arithmetic and layout *)
Abbreviation B := 1024%nat.
Definition sect (img : list (list Z)) (n : Z) : list Z := img !!! Z.to_nat n.

Definition img_ok (img : list (list Z)) : Prop :=
  length img = Z.to_nat FSSIZE /\ Forall (fun b => length b = B) img.

(** Block [k] of the contents [b], filled up with zeroes. *)
Definition block (k : nat) (b : list Z) : list Z :=
  let c := take B (drop (B * k) b) in c ++ replicate (B - length c) 0.

Lemma length_block k b : length (block k b) = B.
Proof. unfold block. rewrite length_app, length_replicate, length_take. lia. Qed.

(** A block past the end. *)
Lemma block_past k b : (length b <= B * k)%nat -> block k b = zeroes.
Proof. intros H. unfold block. rewrite drop_ge by lia. done. Qed.

(** A full block does not change when something is appended. *)
Lemma block_full k b p : (B * S k <= length b)%nat -> block k (b ++ p) = block k b.
Proof.
  intros H. unfold block. rewrite drop_app_le, take_app_le by (rewrite ?length_drop; lia). done.
Qed.

(** Appending to the last block. *)
Lemma block_append k b p :
  (B * k <= length b)%nat -> (length b + length p <= B * S k)%nat ->
  put_bytes (block k b) (length b - B * k) p = block k (b ++ p).
Proof.
  intros H1 H2. unfold block, put_bytes.
  assert (drop (B * k) (b ++ p) = drop (B * k) b ++ p) as -> by (rewrite drop_app_le by lia; done).
  set (c := drop (B * k) b). assert (length c = (length b - B * k)%nat) as Hc by apply length_drop.
  rewrite (take_ge c B) by lia. rewrite (take_ge (c ++ p) B) by (rewrite length_app; lia).
  rewrite <- Hc, take_app_length, <- app_assoc. f_equal. f_equal.
  rewrite drop_app_ge by lia. rewrite length_app, drop_replicate. f_equal. lia.
Qed.

(** *** The addresses of a dinode *)
Definition addrs_of (bl : list Z) (ib : Z) : list Z :=
  take 12 bl ++ replicate (12 - length bl) 0 ++ [ib].

Lemma length_addrs_of bl ib : length (addrs_of bl ib) = 13%nat.
Proof. unfold addrs_of. rewrite !length_app, length_replicate, length_take. cbn [length]. lia. Qed.

Lemma addrs_of_ind bl ib : addrs_of bl ib !!! IND = ib.
Proof.
  unfold addrs_of, IND. apply list_lookup_total_correct.
  rewrite lookup_app_r by (rewrite length_take; lia).
  rewrite lookup_app_r by (rewrite length_take, length_replicate; lia).
  rewrite length_take, length_replicate. by replace (12 - 12 `min` length bl - (12 - length bl))%nat with O by lia.
Qed.

Lemma addrs_of_direct bl ib k :
  (k < 12)%nat -> addrs_of bl ib !!! k = if decide (k < length bl)%nat then bl !!! k else 0.
Proof.
  intros Hk. unfold addrs_of. case_decide.
  - rewrite list_lookup_total_alt, lookup_app_l, lookup_take_lt by (rewrite ?length_take; lia). by rewrite <- list_lookup_total_alt.
  - apply list_lookup_total_correct. rewrite lookup_app_r by (rewrite length_take; lia).
    rewrite lookup_app_l by (rewrite length_take, length_replicate; lia).
    apply lookup_replicate. split; [done|]. rewrite length_take. lia.
Qed.

Lemma addrs_of_snoc bl ib x :
  (length bl < 12)%nat -> <[length bl := x]> (addrs_of bl ib) = addrs_of (bl ++ [x]) ib.
Proof.
  intros H. unfold addrs_of. rewrite !take_ge by (rewrite ?length_app; cbn; lia).
  rewrite insert_app_r_alt, Nat.sub_diag by lia. rewrite <- app_assoc. f_equal.
  rewrite length_app. cbn [length]. replace (12 - length bl)%nat with (S (12 - (length bl + 1))) by lia. done.
Qed.

Lemma addrs_of_set_ind bl ib ib' : <[IND := ib']> (addrs_of bl ib) = addrs_of bl ib'.
Proof.
  unfold addrs_of, IND. rewrite insert_app_r_alt by (rewrite length_take; lia).
  rewrite insert_app_r_alt by (rewrite length_take, length_replicate; lia).
  rewrite length_take, length_replicate. by replace (12 - 12 `min` length bl - (12 - length bl))%nat with O by lia.
Qed.

Lemma addrs_of_more bl ib x : (12 <= length bl)%nat -> addrs_of (bl ++ [x]) ib = addrs_of bl ib.
Proof.
  intros H. unfold addrs_of. rewrite take_app_le by lia. rewrite length_app.
  by replace (12 - (length bl + length [x]))%nat with (12 - length bl)%nat by (cbn; lia).
Qed.

(** *** The indirect block *)
Definition ind_block (bl : list Z) : list Z :=
  let e := drop 12 bl in mjoin (le_bytes 4 <$> e) ++ replicate (B - 4 * length e) 0.

Lemma length_ind_block bl : (length bl <= 268)%nat -> length (ind_block bl) = B.
Proof. intros H. unfold ind_block. rewrite length_app, length_array, length_replicate, length_drop. lia. Qed.

Lemma ind_block_none bl : length bl = 12%nat -> ind_block bl = zeroes.
Proof. intros H. unfold ind_block. rewrite drop_ge by lia. done. Qed.

Lemma u32_at_zero l n o : (o + 4 <= n)%nat -> u32_at (l ++ replicate n 0) (length l + o) = 0.
Proof.
  intros H. unfold u32_at, bytes_at. rewrite drop_app_ge by lia.
  replace (length l + o - length l)%nat with o by lia. rewrite drop_replicate, take_replicate.
  by replace (4 `min` (n - o))%nat with 4%nat by lia.
Qed.

Lemma ind_block_at bl k :
  (12 <= k < 268)%nat -> Forall (fun x => 0 <= x < 2 ^ 32) bl ->
  u32_at (ind_block bl) (4 * (k - 12)) = if decide (k < length bl)%nat then bl !!! k else 0.
Proof.
  intros Hk Hr. unfold ind_block. case_decide as Hlt.
  - destruct (lookup_lt_is_Some_2 bl k Hlt) as [x Hx]. rewrite (list_lookup_total_correct _ _ _ Hx).
    unfold u32_at, bytes_at. rewrite drop_app_le, take_app_le
      by (rewrite ?length_drop, ?length_array, ?length_drop; lia).
    change (take 4 (drop ?o ?l)) with (bytes_at l o 4). rewrite (bytes_at_array 4 (drop 12 bl) (k - 12) x)
      by (rewrite lookup_drop; by replace (12 + (k - 12))%nat with k by lia).
    apply u32_le_bytes. by apply (Forall_lookup_1 _ _ _ _ Hr Hx).
  - replace (4 * (k - 12))%nat with (length (mjoin (le_bytes 4 <$> drop 12 bl)) + 4 * (k - 12 - length (drop 12 bl)))%nat
      by (rewrite length_array, length_drop; lia).
    apply u32_at_zero. rewrite length_drop. lia.
Qed.

Lemma ind_block_snoc bl x :
  (12 <= length bl < 268)%nat -> put32 (ind_block bl) (4 * (length bl - 12)) x = ind_block (bl ++ [x]).
Proof.
  intros H. unfold put32, put_bytes, ind_block.
  assert (drop 12 (bl ++ [x]) = drop 12 bl ++ [x]) as -> by (by rewrite drop_app_le by lia).
  set (e := drop 12 bl). assert (length e = (length bl - 12)%nat) as He by apply length_drop.
  rewrite fmap_app, join_app, length_app, le_bytes_length. cbn [fmap list_fmap mjoin list_join length].
  rewrite take_app_length' by (rewrite length_array; lia). rewrite app_nil_r, <- app_assoc. f_equal. f_equal.
  rewrite drop_app_ge by (rewrite length_array; lia). rewrite length_array, drop_replicate. f_equal. lia.
Qed.

(** ** One file *)

(** The blocks of a file, the indirect one included. *)
Definition blocks_of (bl : list Z) (ib : Z) : list Z := bl ++ if decide (12 < length bl)%nat then [ib] else [].

Record data_rep (img : list (list Z)) (b bl : list Z) (ib : Z) : Prop := {
  dr_none : (length bl <= 12)%nat -> ib = 0;
  dr_ind : (12 < length bl)%nat -> sect img ib = ind_block bl;
  dr_data k x : bl !! k = Some x -> sect img x = block k b
}.

(** The blocks that have not been given out are zero. *)
Record good (s : mkst) : Prop := {
  gd_img : img_ok (m_img s);
  gd_fb : nmeta <= m_freeblock s <= FSSIZE;
  gd_fresh n : m_freeblock s <= n < FSSIZE -> sect (m_img s) n = zeroes
}.

(** [b] is stored in the blocks [bl] and [ib]. *)
Record holds (s : mkst) (b bl : list Z) (ib : Z) : Prop := {
  ho_data : data_rep (m_img s) b bl ib;
  ho_range : Forall (fun x => nmeta <= x < m_freeblock s) (blocks_of bl ib);
  ho_nodup : NoDup (blocks_of bl ib)
}.

(** From [s] to [s'] only blocks of this file have changed, and the blocks it
    has got are the next free ones. *)
Record ext (s : mkst) (bl : list Z) (ib : Z) (s' : mkst) (bl' : list Z) (ib' : Z) : Prop := {
  ex_mono : m_freeblock s <= m_freeblock s';
  ex_perm : blocks_of bl' ib' ≡ₚ blocks_of bl ib ++ seqZ (m_freeblock s) (m_freeblock s' - m_freeblock s);
  ex_frame n : 0 <= n < m_freeblock s -> n ∉ blocks_of bl ib -> sect (m_img s') n = sect (m_img s) n;
  ex_inode : m_freeinode s' = m_freeinode s
}.

Lemma ext_refl s bl ib : ext s bl ib s bl ib.
Proof. split; try done. rewrite Z.sub_diag. by rewrite app_nil_r. Qed.

Lemma ext_trans s1 bl1 ib1 s2 bl2 ib2 s3 bl3 ib3 :
  ext s1 bl1 ib1 s2 bl2 ib2 -> ext s2 bl2 ib2 s3 bl3 ib3 -> ext s1 bl1 ib1 s3 bl3 ib3.
Proof.
  intros [M1 P1 F1 I1] [M2 P2 F2 I2]. split; [lia| | |congruence].
  - rewrite P2, P1, <- app_assoc. f_equiv.
    replace (m_freeblock s3 - m_freeblock s1)
      with ((m_freeblock s2 - m_freeblock s1) + (m_freeblock s3 - m_freeblock s2)) by lia.
    rewrite seqZ_app by lia. by replace (m_freeblock s1 + (m_freeblock s2 - m_freeblock s1)) with (m_freeblock s2) by lia.
  - intros n Hn Hnot. rewrite F2; [by apply F1|lia|]. rewrite P1, elem_of_app, elem_of_seqZ. intros [|]; [done|lia].
Qed.

(** *** Sectors *)
Lemma bind_M {A C} (f : A -> M C) (m : M A) s a s' : m s = Some (a, s') -> mbind f m s = f a s'.
Proof. intros E. unfold mbind, M_bind. by rewrite E. Qed.

Definition set_img (img : list (list Z)) (s : mkst) : mkst := mkMk img (m_freeinode s) (m_freeblock s).
Definition put_sect (x : Z) (d : list Z) (s : mkst) : mkst := set_img (<[Z.to_nat x := d]> (m_img s)) s.

Lemma rsect_ok x s : img_ok (m_img s) -> 0 <= x < FSSIZE -> rsect x s = Some (sect (m_img s) x, s).
Proof.
  intros [Hl _] Hx. unfold rsect, sect.
  destruct (lookup_lt_is_Some_2 (m_img s) (Z.to_nat x)) as [d Hd]; [lia|].
  by rewrite Hd, (list_lookup_total_correct _ _ _ Hd).
Qed.

Lemma wsect_ok x d s : img_ok (m_img s) -> 0 <= x < FSSIZE -> wsect x d s = Some (tt, put_sect x d s).
Proof.
  intros [Hl _] Hx. unfold wsect. rewrite (proj2 (Nat.ltb_lt _ _)) by lia. done.
Qed.

Lemma sect_put x d s n :
  img_ok (m_img s) -> 0 <= x < FSSIZE -> 0 <= n ->
  sect (m_img (put_sect x d s)) n = if decide (n = x) then d else sect (m_img s) n.
Proof.
  intros [Hl _] Hx Hn. unfold sect. cbn. case_decide as Hd.
  - subst. apply list_lookup_total_correct, list_lookup_insert_eq. lia.
  - rewrite !list_lookup_total_alt, list_lookup_insert_ne by lia. done.
Qed.

Lemma img_ok_put x d s : img_ok (m_img s) -> length d = B -> img_ok (m_img (put_sect x d s)).
Proof.
  intros [Hl Hf] Hd. split; cbn; [by rewrite length_insert|]. by apply Forall_insert.
Qed.

Lemma good_put x d s :
  good s -> 0 <= x < m_freeblock s -> length d = B -> good (put_sect x d s).
Proof.
  intros [Hi Hb Hf] Hx Hd. split; [by apply img_ok_put|done|]. intros n Hn. cbn in Hn.
  rewrite sect_put by (done || lia). rewrite decide_False by lia. by apply Hf.
Qed.

(** Taking the next block. *)
Definition took (s : mkst) : mkst := mkMk (m_img s) (m_freeinode s) (m_freeblock s + 1).

Lemma good_took s : good s -> m_freeblock s < FSSIZE -> good (took s).
Proof. intros [Hi Hb Hf] Hlt. split; [done|cbn; lia|]. intros n Hn. apply Hf. cbn in Hn. lia. Qed.

(** *** The block for an offset *)
Section block.
Context (t sz : Z).
Abbreviation D a := (mkDinode t 0 0 1 sz a).

Lemma holds_block s b bl ib k : holds s b bl ib -> (k < length bl)%nat -> nmeta <= bl !!! k < m_freeblock s.
Proof.
  intros [_ Hr _] Hk. destruct (lookup_lt_is_Some_2 bl k Hk) as [x Hx]. rewrite (list_lookup_total_correct _ _ _ Hx).
  apply (Forall_lookup_1 _ _ k x Hr). by apply lookup_app_l_Some.
Qed.

Lemma holds_ib s b bl ib : holds s b bl ib -> (12 < length bl)%nat -> nmeta <= ib < m_freeblock s.
Proof.
  intros [_ Hr _] Hk. unfold blocks_of in Hr. rewrite decide_True in Hr by done.
  apply Forall_app in Hr as [_ Hr]. by inversion Hr.
Qed.

Lemma nmeta_val : nmeta = 47.
Proof. reflexivity. Qed.

Lemma range_u32 s bl ib : good s -> Forall (fun x => nmeta <= x < m_freeblock s) (blocks_of bl ib) ->
  Forall (fun x => 0 <= x < 2 ^ 32) bl.
Proof.
  intros [_ Hb _] [Hr _]%Forall_app. eapply Forall_impl; [exact Hr|]. cbn. intros x Hx.
  rewrite nmeta_val in *. unfold FSSIZE in *. lia.
Qed.

Lemma iappend_block_old s b bl ib k :
  good s -> holds s b bl ib -> (k < length bl <= 268)%nat ->
  iappend_block (D (addrs_of bl ib)) (Z.of_nat k) s = Some ((D (addrs_of bl ib), bl !!! k), s).
Proof.
  intros Hg Hh Hk. pose proof (holds_block _ _ _ _ k Hh ltac:(lia)) as Hx. rewrite nmeta_val in Hx.
  unfold iappend_block. cbn [di_addrs]. change NDIRECT with 12.
  destruct (Z.ltb_spec (Z.of_nat k) 12).
  - rewrite Nat2Z.id, addrs_of_direct, decide_True by lia. cbn zeta. by rewrite (proj2 (Z.eqb_neq _ _)) by lia.
  - pose proof (holds_ib _ _ _ _ Hh ltac:(lia)) as Hib. pose proof (gd_fb _ Hg). rewrite nmeta_val in *.
    rewrite addrs_of_ind, (proj2 (Z.eqb_neq _ _)) by lia.
    erewrite bind_M by reflexivity. cbn [di_addrs]. rewrite addrs_of_ind.
    erewrite bind_M by (apply rsect_ok; [apply Hg|lia]). cbn zeta.
    rewrite (dr_ind _ _ _ _ (ho_data _ _ _ _ Hh)) by lia.
    replace (Z.to_nat (Z.of_nat k - 12)) with (k - 12)%nat by lia.
    rewrite ind_block_at, decide_True by (lia || by eapply range_u32, Hh).
    by rewrite (proj2 (Z.eqb_neq _ _)) by lia.
Qed.

(** A direct block. *)
Lemma iappend_block_direct s b bl ib :
  good s -> holds s b bl ib -> (length bl < 12)%nat -> (length b <= B * length bl)%nat ->
  m_freeblock s < FSSIZE ->
  let x := m_freeblock s in
  iappend_block (D (addrs_of bl ib)) (Z.of_nat (length bl)) s = Some ((D (addrs_of (bl ++ [x]) ib), x), took s)
  /\ holds (took s) b (bl ++ [x]) ib /\ ext s bl ib (took s) (bl ++ [x]) ib.
Proof.
  intros Hg [[Hn Hi Hd] Hr Hnd] Hlen Hb Hlt x.
  assert (blocks_of bl ib = bl) as Eb by (unfold blocks_of; rewrite decide_False, app_nil_r by lia; done).
  assert (blocks_of (bl ++ [x]) ib = bl ++ [x]) as Eb'
    by (unfold blocks_of; rewrite decide_False, app_nil_r by (rewrite length_app; cbn; lia); done).
  rewrite Eb in *. split_and!.
  - unfold iappend_block. cbn [di_addrs]. change NDIRECT with 12. rewrite (proj2 (Z.ltb_lt _ _)) by lia.
    rewrite Nat2Z.id, addrs_of_direct, decide_False by lia. cbn zeta. rewrite Z.eqb_refl.
    erewrite bind_M by reflexivity. unfold set_di_addr. cbn [di_addrs di_type di_major di_minor di_nlink di_size].
    by rewrite addrs_of_snoc by done.
  - split; rewrite ?Eb'.
    + split; [intros _; apply Hn; lia|rewrite length_app; cbn; lia|]. intros k y [Hy|[Hk Hy]]%lookup_app_Some.
      * by apply Hd.
      * apply list_lookup_singleton_Some in Hy as [Hk' <-]. assert (k = length bl) as -> by lia.
        rewrite block_past by lia. apply (gd_fresh _ Hg). lia.
    + apply Forall_app. split; [eapply Forall_impl; [exact Hr|]; cbn; lia|].
      pose proof (gd_fb _ Hg). constructor; [|done]. cbn. lia.
    + apply NoDup_app. split_and!; [done| |apply NoDup_singleton]. intros y Hy ->%list_elem_of_singleton.
      rewrite Forall_forall in Hr. apply Hr in Hy. lia.
  - split; [cbn; lia| |done|done]. rewrite Eb, Eb'. cbn [m_freeblock took].
    by replace (m_freeblock s + 1 - m_freeblock s) with 1 by lia.
Qed.

(** The indirect block [ib] describes [bl]. *)
Record indirect (s : mkst) (b bl : list Z) (ib : Z) : Prop := {
  in_ind : sect (m_img s) ib = ind_block bl;
  in_data k x : bl !! k = Some x -> sect (m_img s) x = block k b;
  in_range : Forall (fun x => nmeta <= x < m_freeblock s) (bl ++ [ib]);
  in_nodup : NoDup (bl ++ [ib])
}.

Lemma indirect_holds s b bl ib : (12 < length bl)%nat -> indirect s b bl ib <-> holds s b bl ib.
Proof.
  intros Hl. assert (blocks_of bl ib = bl ++ [ib]) as E by (unfold blocks_of; by rewrite decide_True by done).
  split; [intros [H1 H2 H3 H4]|intros [[H1 H2 H3] H4 H5]]; rewrite ?E in *.
  - split; rewrite ?E; try done. split; [lia|done|done].
  - split; try done. by apply H2.
Qed.

Lemma indirect_ib s b bl ib : indirect s b bl ib -> nmeta <= ib < m_freeblock s.
Proof. intros [_ _ Hr _]. apply Forall_app in Hr as [_ Hr]. by inversion Hr. Qed.

(** A new entry in the indirect block. *)
Lemma indirect_snoc s b bl ib :
  good s -> indirect s b bl ib -> (12 <= length bl < 268)%nat -> (length b <= B * length bl)%nat ->
  m_freeblock s < FSSIZE ->
  let x := m_freeblock s in
  let s' := put_sect ib (ind_block (bl ++ [x])) (took s) in
  good s' /\ indirect s' b (bl ++ [x]) ib.
Proof.
  intros Hg Hin Hlen Hb Hlt x s'. assert (x = m_freeblock s) as Ex by done. pose proof (indirect_ib _ _ _ _ Hin) as Hib. destruct Hin as [Hi Hd Hr Hnd].
  pose proof (good_took s Hg Hlt) as Hgt. pose proof (gd_fb _ Hg) as Hfb. rewrite nmeta_val in *.
  assert (forall n, 0 <= n -> sect (m_img s') n = if decide (n = ib) then ind_block (bl ++ [x]) else sect (m_img s) n) as Hs.
  { intros n Hn. unfold s'. rewrite sect_put by (apply Hgt || lia). done. }
  apply NoDup_app in Hnd as (Hnd & Hnot & _). apply Forall_app in Hr as [Hr _].
  rewrite Forall_forall in Hr. assert (x ∉ bl) as Hx by (intros Hx%Hr; lia).
  assert (forall y, y ∈ bl -> y <> ib) as Hne by (intros y Hy ->; apply (Hnot ib Hy); by left).
  split; [apply good_put; [done|cbn; lia|apply length_ind_block; rewrite length_app; cbn; lia]|]. split.
  - rewrite Hs by lia. by rewrite decide_True.
  - intros k y [Hy|[Hk Hy]]%lookup_app_Some.
    + pose proof (list_elem_of_lookup_2 _ _ _ Hy) as Hyin. pose proof (Hr _ Hyin).
      rewrite Hs, decide_False by (lia || by apply Hne). by apply Hd.
    + apply list_lookup_singleton_Some in Hy as [Hk' <-]. assert (k = length bl) as -> by lia.
      rewrite Hs, decide_False by lia. rewrite block_past by lia. apply (gd_fresh _ Hg). lia.
  - rewrite !Forall_app, !Forall_singleton, nmeta_val. split_and!; cbn; try lia.
    rewrite Forall_forall. intros y Hy%Hr. lia.
  - rewrite <- app_assoc. apply NoDup_app. split_and!; [done| |].
    + intros y Hy [->|[->|[]%elem_of_nil]%elem_of_cons]%elem_of_cons; [done|]. by apply (Hne ib).
    + apply NoDup_cons. split; [intros ->%list_elem_of_singleton; lia|apply NoDup_singleton].
Qed.

(** The code that fills the indirect block. *)
Lemma iappend_block_ind s bl ib :
  good s -> nmeta <= ib < m_freeblock s -> sect (m_img s) ib = ind_block bl ->
  Forall (fun x => 0 <= x < 2 ^ 32) bl -> (12 <= length bl < 268)%nat ->
  let x := m_freeblock s in
  (ind ← rsect ib;
   let o := (4 * Z.to_nat (Z.of_nat (length bl) - NDIRECT))%nat in
   if u32_at ind o =? 0 then
     b ← new_block;
     wsect ib (put32 ind o b) ;;
     mret (D (addrs_of bl ib), b)
   else mret (D (addrs_of bl ib), u32_at ind o)) s
  = Some ((D (addrs_of (bl ++ [x]) ib), x), put_sect ib (ind_block (bl ++ [x])) (took s)).
Proof.
  intros Hg Hib Hi Hr Hlen x. pose proof (gd_fb _ Hg) as Hfb. rewrite nmeta_val in *.
  erewrite bind_M by (apply rsect_ok; [apply Hg|lia]). cbn zeta. change NDIRECT with 12.
  replace (Z.to_nat (Z.of_nat (length bl) - 12)) with (length bl - 12)%nat by lia.
  rewrite Hi, ind_block_at, decide_False by (lia || done). rewrite Z.eqb_refl.
  erewrite bind_M by reflexivity. erewrite bind_M by (apply wsect_ok; [apply Hg|lia]).
  rewrite ind_block_snoc, addrs_of_more by lia. reflexivity.
Qed.

(** The first block past the direct ones. *)
Lemma indirect_start s b bl ib :
  good s -> holds s b bl ib -> length bl = 12%nat -> m_freeblock s < FSSIZE ->
  indirect (took s) b bl (m_freeblock s).
Proof.
  intros Hg [[Hn Hi Hd] Hr Hnd] Hlen Hlt. pose proof (gd_fb _ Hg) as Hfb. unfold blocks_of in *.
  rewrite decide_False, app_nil_r in * by lia. split.
  - rewrite ind_block_none by done. apply (gd_fresh _ Hg). lia.
  - exact Hd.
  - apply Forall_app. split; [eapply Forall_impl; [exact Hr|]; cbn; lia|]. constructor; [cbn; lia|done].
  - apply NoDup_app. split_and!; [done| |apply NoDup_singleton]. intros y Hy ->%list_elem_of_singleton.
    rewrite Forall_forall in Hr. apply Hr in Hy. lia.
Qed.

(** Blocks in use by a file of [n] blocks. *)
Definition used (n : nat) : nat := (n + if decide (12 < n) then 1 else 0)%nat.
Lemma length_blocks_of bl ib : length (blocks_of bl ib) = used (length bl).
Proof. unfold blocks_of, used. rewrite length_app. by case_decide. Qed.

Lemma indirect_ext s s0 b bl ib :
  good s -> indirect s b bl ib -> (12 <= length bl)%nat -> m_freeblock s < FSSIZE ->
  m_freeblock s0 <= m_freeblock s -> m_freeinode s = m_freeinode s0 -> m_img s = m_img s0 ->
  forall bl0 ib0,
  bl ++ [ib] ≡ₚ blocks_of bl0 ib0 ++ seqZ (m_freeblock s0) (m_freeblock s - m_freeblock s0) ->
  ext s0 bl0 ib0 (put_sect ib (ind_block (bl ++ [m_freeblock s])) (took s)) (bl ++ [m_freeblock s]) ib.
Proof.
  intros Hg Hin Hlen Hlt Hmono Hfi Himg bl0 ib0 Hp. pose proof (indirect_ib _ _ _ _ Hin) as Hib.
  pose proof (gd_fb _ Hg) as Hfb. rewrite nmeta_val in *. split; [cbn; lia| | |done].
  - unfold blocks_of at 1. rewrite decide_True by (rewrite length_app; cbn; lia). cbn [m_freeblock put_sect set_img took].
    rewrite <- app_assoc, (Permutation_app_comm [m_freeblock s] [ib]), app_assoc, Hp, <- app_assoc. f_equiv.
    replace (m_freeblock s + 1 - m_freeblock s0) with ((m_freeblock s - m_freeblock s0) + 1) by lia.
    rewrite seqZ_app by lia. by replace (m_freeblock s0 + (m_freeblock s - m_freeblock s0)) with (m_freeblock s) by lia.
  - intros n Hn Hnot. rewrite sect_put by (apply Hg || cbn; lia || lia). rewrite decide_False; [by cbn; rewrite Himg|].
    intros ->. assert (ib ∈ blocks_of bl0 ib0 ++ seqZ (m_freeblock s0) (m_freeblock s - m_freeblock s0)) as Hin'
      by (rewrite <- Hp; apply elem_of_app; right; by left).
    apply elem_of_app in Hin' as [|Hin'%elem_of_seqZ]; [done|lia].
Qed.

(** A new block at the end of the file. *)
Lemma iappend_block_new s b bl ib :
  good s -> holds s b bl ib -> (length bl < 268)%nat -> (length b <= B * length bl)%nat ->
  m_freeblock s + Z.of_nat (used (S (length bl)) - used (length bl)) <= FSSIZE ->
  exists x ib' s', iappend_block (D (addrs_of bl ib)) (Z.of_nat (length bl)) s
      = Some ((D (addrs_of (bl ++ [x]) ib'), x), s')
    /\ good s' /\ holds s' b (bl ++ [x]) ib' /\ ext s bl ib s' (bl ++ [x]) ib'.
Proof.
  intros Hg Hh Hlen Hb Hcap. unfold used in Hcap.
  assert (m_freeblock s < FSSIZE) as Hlt by (repeat case_decide; lia).
  destruct (decide (length bl < 12)%nat) as [H12|H12].
  { destruct (iappend_block_direct s b bl ib Hg Hh H12 Hb Hlt) as (E & Hh' & He).
    eexists _, _, _. split; [exact E|]. split; [by apply good_took|done]. }
  unfold iappend_block. cbn [di_addrs]. rewrite addrs_of_ind.
  rewrite (proj2 (Z.ltb_ge _ _)) by (change NDIRECT with 12; lia).
  pose proof (range_u32 s bl ib Hg (ho_range _ _ _ _ Hh)) as Hr.
  destruct (decide (length bl = 12)%nat) as [E12|E12].
  - rewrite (dr_none _ _ _ _ (ho_data _ _ _ _ Hh)) by lia. rewrite Z.eqb_refl.
    pose proof (indirect_start s b bl ib Hg Hh E12 Hlt) as Hin. pose proof (good_took s Hg Hlt) as Hgt.
    assert (m_freeblock (took s) < FSSIZE) as Hlt' by (cbn; repeat case_decide; lia).
    destruct (indirect_snoc (took s) b bl _ Hgt Hin ltac:(lia) Hb Hlt') as [Hg' Hin'].
    eexists _, _, _. split_and!; [|exact Hg'|by apply indirect_holds; [rewrite length_app; cbn; lia|]|].
    + erewrite bind_M by reflexivity. unfold set_di_addr.
      cbn [di_addrs di_type di_major di_minor di_nlink di_size]. rewrite addrs_of_set_ind, addrs_of_ind.
      apply (iappend_block_ind (took s)); [done|by eapply indirect_ib|apply Hin|done|lia].
    + apply (indirect_ext (took s) s b); try done; [lia|cbn; lia|]. unfold blocks_of.
      rewrite decide_False, app_nil_r by lia. cbn [m_freeblock took].
      by replace (m_freeblock s + 1 - m_freeblock s) with 1 by lia.
  - pose proof (proj2 (indirect_holds s b bl ib ltac:(lia)) Hh) as Hin. pose proof (indirect_ib _ _ _ _ Hin) as Hib.
    destruct (indirect_snoc s b bl ib Hg Hin ltac:(lia) Hb Hlt) as [Hg' Hin'].
    rewrite (proj2 (Z.eqb_neq _ _)) by (rewrite nmeta_val in Hib; lia).
    eexists _, _, _. split_and!; [|exact Hg'|by apply indirect_holds; [rewrite length_app; cbn; lia|]|].
    + erewrite bind_M by reflexivity. cbn [di_addrs]. rewrite addrs_of_ind.
      apply iappend_block_ind; [done|done|apply Hin|done|lia].
    + apply (indirect_ext s s b); try done; [lia|]. unfold blocks_of. rewrite decide_True by lia.
      by rewrite Z.sub_diag, app_nil_r.
Qed.

End block.

(** ** Appending *)

(** Blocks for [n] bytes. *)
Definition nblk (n : nat) : nat := Z.to_nat ((Z.of_nat n + 1023) / 1024).

Lemma nblk_spec n : (n <= B * nblk n < n + B)%nat.
Proof.
  unfold nblk. pose proof (Z.div_mod (Z.of_nat n + 1023) 1024). pose proof (Z.mod_pos_bound (Z.of_nat n + 1023) 1024).
  pose proof (Z.div_pos (Z.of_nat n + 1023) 1024). lia.
Qed.

Lemma nblk_unique n k : (n <= B * k < n + B)%nat -> nblk n = k.
Proof. intros H. pose proof (nblk_spec n). lia. Qed.

Lemma nblk_mono n m : (n <= m)%nat -> (nblk n <= nblk m)%nat.
Proof. intros H. pose proof (nblk_spec n). pose proof (nblk_spec m). lia. Qed.

Lemma used_mono n m : (n <= m)%nat -> (used n <= used m)%nat.
Proof. intros H. unfold used. repeat case_decide; lia. Qed.

Lemma ext_used s bl ib s' bl' ib' :
  ext s bl ib s' bl' ib' ->
  m_freeblock s' = m_freeblock s + (Z.of_nat (used (length bl')) - Z.of_nat (used (length bl))).
Proof.
  intros [Hm Hp _ _]. apply Permutation_length in Hp. rewrite length_app, !length_blocks_of, length_seqZ in Hp. lia.
Qed.

(** Storing a piece in the last block. *)
Lemma write_piece s b bl ib k p :
  good s -> holds s b bl ib -> length bl = S k -> (S k <= 268)%nat ->
  (B * k <= length b)%nat -> (length b + length p <= B * S k)%nat ->
  let x := bl !!! k in
  let s' := put_sect x (put_bytes (sect (m_img s) x) (length b - B * k) p) s in
  good s' /\ holds s' (b ++ p) bl ib /\ ext s bl ib s' bl ib.
Proof.
  intros Hg Hh Hlen Hk H1 H2 x s'. pose proof (holds_block _ _ _ _ k Hh ltac:(lia)) as Hx. fold x in Hx.
  destruct Hh as [[Hn Hi Hd] Hr Hnd]. pose proof (gd_fb _ Hg) as Hfb. rewrite nmeta_val in *.
  assert (bl !! k = Some x) as Hbk by (apply list_lookup_lookup_total_lt; lia).
  assert (put_bytes (sect (m_img s) x) (length b - B * k) p = block k (b ++ p)) as E
    by (rewrite (Hd _ _ Hbk); by apply block_append).
  assert (forall n, 0 <= n -> sect (m_img s') n = if decide (n = x) then block k (b ++ p) else sect (m_img s) n) as Hs
    by (intros n Hn0; unfold s'; rewrite E, sect_put by (apply Hg || lia); done).
  assert (x ∈ blocks_of bl ib) as Hxin by (apply elem_of_app; left; by eapply list_elem_of_lookup_2).
  split_and!.
  - unfold s'. rewrite E. apply good_put; [done|lia|apply length_block].
  - split; [|done|done]. split; [done| |].
    + intros Hl. specialize (Hi Hl). assert (ib ∈ blocks_of bl ib /\ x <> ib) as [Hib Hne].
      { unfold blocks_of in *. rewrite decide_True in * by lia. split; [apply elem_of_app; right; by left|].
        intros <-. apply NoDup_app in Hnd as (_ & Hnot & _). apply (Hnot x); [by eapply list_elem_of_lookup_2|by left]. }
      rewrite Forall_forall in Hr. apply Hr in Hib. rewrite Hs, decide_False by (lia || done). done.
    + intros j y Hy. assert (y ∈ blocks_of bl ib) as Hyin by (apply elem_of_app; left; by eapply list_elem_of_lookup_2).
      rewrite Forall_forall in Hr. apply Hr in Hyin. rewrite Hs by lia. pose proof (lookup_lt_Some _ _ _ Hy).
      apply NoDup_app in Hnd as (Hnd & _). case_decide as Hyx.
      * subst. by rewrite (NoDup_lookup _ _ _ _ Hnd Hy Hbk).
      * assert (j <> k) by congruence. rewrite block_full by lia. by apply Hd.
  - split; [done|by rewrite Z.sub_diag, app_nil_r| |done].
    intros n Hn0 Hnot. rewrite Hs, decide_False by (lia || congruence). done.
Qed.

Section append.
Context (t sz : Z).
Abbreviation D a := (mkDinode t 0 0 1 sz a).

(** The block for the end of the file, old or new. *)
Lemma iappend_block_ok s b bl ib k :
  good s -> holds s b bl ib -> length bl = nblk (length b) -> k = (length b `div` B)%nat -> (k < 268)%nat ->
  m_freeblock s + (Z.of_nat (used (S k)) - Z.of_nat (used (length bl))) <= FSSIZE ->
  exists bl1 ib1 s1, iappend_block (D (addrs_of bl ib)) (Z.of_nat k) s
      = Some ((D (addrs_of bl1 ib1), bl1 !!! k), s1)
    /\ length bl1 = S k /\ good s1 /\ holds s1 b bl1 ib1 /\ ext s bl ib s1 bl1 ib1.
Proof.
  intros Hg Hh Hlen Hk Hk' Hcap. pose proof (nblk_spec (length b)) as Hnb.
  pose proof (Nat.div_mod_eq (length b) B) as Hdm. pose proof (Nat.mod_upper_bound (length b) B ltac:(lia)) as Hmod.
  pose proof (used_mono k (S k) ltac:(lia)).
  rewrite <- Hk in Hdm. rewrite <- Hlen in Hnb. destruct (decide (length bl = k)) as [E|E].
  - destruct (iappend_block_new t sz s b bl ib Hg Hh) as (x & ib1 & s1 & Ex & Hg1 & Hh1 & He1); [lia|lia|rewrite E in *; lia|].
    exists (bl ++ [x]), ib1, s1. rewrite <- E at 1. rewrite Ex, length_app. cbn [length]. split_and!; try done; [|lia].
    rewrite <- E. by rewrite (list_lookup_total_middle bl []).
  - exists bl, ib, s. assert (length bl = S k) as El by lia.
    split_and!; try done; [by apply (iappend_block_old t sz s b); [..|lia]|apply ext_refl].
Qed.

Lemma iappend_loop_ok fuel : forall s b bl ib p,
  good s -> holds s b bl ib -> length bl = nblk (length b) ->
  (length (b ++ p) <= 268 * B)%nat -> (length p < fuel)%nat ->
  m_freeblock s + (Z.of_nat (used (nblk (length (b ++ p)))) - Z.of_nat (used (length bl))) <= FSSIZE ->
  exists s' bl' ib', iappend_loop fuel (D (addrs_of bl ib)) (Z.of_nat (length b)) p s
      = Some ((D (addrs_of bl' ib'), Z.of_nat (length (b ++ p))), s')
    /\ good s' /\ holds s' (b ++ p) bl' ib' /\ length bl' = nblk (length (b ++ p)) /\ ext s bl ib s' bl' ib'.
Proof.
  induction fuel as [|fuel IH]; intros s b bl ib p Hg Hh Hlen Hmax Hfuel Hcap; [lia|].
  destruct p as [|c0 p0] eqn:Ep.
  { exists s, bl, ib. rewrite app_nil_r. split_and!; try done. apply ext_refl. }
  rewrite <- Ep in *. assert (0 < length p)%nat as Hp by (subst; cbn; lia). clear Ep. rewrite length_app in *.
  set (k := (length b `div` B)%nat).
  pose proof (Nat.div_mod_eq (length b) B) as Hdm. pose proof (Nat.mod_upper_bound (length b) B ltac:(lia)) as Hmod.
  fold k in Hdm. assert (Z.of_nat (length b) / BSIZE = Z.of_nat k) as Ek
    by (unfold k; rewrite Nat2Z.inj_div; done).
  remember (Nat.min (length p) (B * S k - length b)) as n1 eqn:En1.
  set (piece := take n1 p). assert (length piece = n1) as Hpl by (apply length_take_le; lia).
  assert (nblk (length (b ++ piece)) = S k) as Hnp by (apply nblk_unique; rewrite length_app; lia).
  pose proof (nblk_mono (length (b ++ piece)) (length b + length p) ltac:(rewrite length_app; lia)) as Hmono.
  pose proof (used_mono _ _ Hmono) as Humono. rewrite Hnp in *.
  destruct (iappend_block_ok s b bl ib k) as (bl1 & ib1 & s1 & E1 & Hl1 & Hg1 & Hh1 & He1); [done|done|done|done|lia|lia|].
  destruct (write_piece s1 b bl1 ib1 k piece) as (Hg2 & Hh2 & He2); [done|done|done|lia|lia|lia|].
  destruct (IH _ (b ++ piece) bl1 ib1 (drop n1 p) Hg2 Hh2) as (s' & bl' & ib' & E3 & Hg3 & Hh3 & Hl3 & He3).
  { by rewrite Hl1, Hnp. }
  { rewrite <- app_assoc. unfold piece. rewrite take_drop, length_app. lia. }
  { rewrite length_drop. lia. }
  { rewrite <- app_assoc. unfold piece at 2. rewrite take_drop, length_app, Hl1.
    apply ext_used in He1. cbn [m_freeblock put_sect set_img]. rewrite Hl1 in He1. lia. }
  rewrite <- app_assoc in *. unfold piece in *. rewrite take_drop in *. rewrite length_app in Hl3.
  exists s', bl', ib'. split_and!; try done; [|by eapply ext_trans; [exact He1|]; eapply ext_trans].
  cbn [iappend_loop]. destruct p as [|c1 p1] eqn:Ep'; [cbn in Hp; lia|]. rewrite <- Ep' in *. cbn zeta. rewrite Ek.
  change MAXFILE with 268. unfold assert_ at 1. erewrite bind_M by (rewrite (proj2 (Z.ltb_lt _ _)) by lia; reflexivity).
  erewrite bind_M by exact E1. cbv beta iota. pose proof (holds_block _ _ _ _ k Hh1 ltac:(lia)) as Hx.
  pose proof (gd_fb _ Hg1) as Hfb. rewrite nmeta_val in *. change BSIZE with 1024.
  erewrite bind_M by (apply rsect_ok; [apply Hg1|lia]).
  replace (Z.min (Z.of_nat (length p)) ((Z.of_nat k + 1) * 1024 - Z.of_nat (length b))) with (Z.of_nat n1) by lia.
  rewrite Nat2Z.id. replace (Z.to_nat (Z.of_nat (length b) - Z.of_nat k * 1024)) with (length b - B * k)%nat by lia.
  erewrite bind_M by (apply wsect_ok; [apply Hg1|lia]).
  replace (Z.of_nat (length b) + Z.of_nat n1) with (Z.of_nat (length (b ++ take n1 p))) by (rewrite length_app; lia).
  rewrite E3. rewrite length_app. done.
Qed.

End append.
