(* ===== verification/Mkimage.v ===== *)
(** * Mkimage: the image mkfs builds is the file system it was asked for

    The image as a whole stores a list of files in blocks that they do not
    share ([rep]).  ialloc() adds a file, iappend() appends to one and leaves
    the others alone, and the kernel's readers see in the final image the files
    of the command line. *)

From S2P Require Import Prelude Params Machine Spinlock Strings Blockdev Bcache Fs Inode Mkfs Mkblocks.

(** ** The inodes *)
Definition dinode_at (img : list (list Z)) (inum : Z) : dinode :=
  read_dinode (sect img (IBLOCK inum sb)) (dinode_off inum).

Lemma IBLOCK_range inum : 0 <= inum < 208 -> IBLOCK inum sb = inum / 16 + 33 /\ 33 <= IBLOCK inum sb < 46.
Proof.
  intros H. unfold IBLOCK. change IPB with 16. change (sb_inodestart sb) with 33.
  assert (0 <= inum / 16 < 13) by (split; [apply Z.div_pos|apply Z.div_lt_upper_bound]; lia).
  unfold u32, wrap_u. rewrite Z.mod_small by lia. lia.
Qed.

Definition put_dinode (inum : Z) (d : dinode) (s : mkst) : mkst :=
  put_sect (IBLOCK inum sb) (write_dinode (sect (m_img s) (IBLOCK inum sb)) (dinode_off inum) d) s.

Lemma sect_length img n : img_ok img -> 0 <= n < FSSIZE -> length (sect img n) = B.
Proof.
  intros [Hl Hf] Hn. unfold sect. apply (Forall_lookup_total_1 (fun b => length b = B) img); [done|lia].
Qed.

Lemma winode_ok inum d s :
  img_ok (m_img s) -> 0 <= inum < 208 -> dinode_ok d ->
  winode inum d s = Some (tt, put_dinode inum d s)
  /\ img_ok (m_img (put_dinode inum d s))
  /\ dinode_at (m_img (put_dinode inum d s)) inum = d
  /\ (forall j, 0 <= j < 208 -> j <> inum -> dinode_at (m_img (put_dinode inum d s)) j = dinode_at (m_img s) j)
  /\ (forall n, 0 <= n < FSSIZE -> ~ (33 <= n < 46) -> sect (m_img (put_dinode inum d s)) n = sect (m_img s) n).
Proof.
  intros Hi Hin Hd. destruct (IBLOCK_range inum Hin) as [Eb Hb]. unfold FSSIZE in *.
  assert (Z.of_nat (length (sect (m_img s) (IBLOCK inum sb))) = BSIZE) as Hl
    by (rewrite sect_length by (done || unfold FSSIZE; lia); done).
  destruct (dinode_roundtrip (sect (m_img s) (IBLOCK inum sb)) d inum inum) as (Hlen & Hrd & _); [done|done|lia|lia|].
  assert (forall n, 0 <= n -> sect (m_img (put_dinode inum d s)) n = if decide (n = IBLOCK inum sb)
    then write_dinode (sect (m_img s) (IBLOCK inum sb)) (dinode_off inum) d else sect (m_img s) n) as Hs
    by (intros n Hn; apply sect_put; [done|unfold FSSIZE; lia|done]).
  split_and!.
  - unfold winode. cbn zeta. erewrite bind_M by (apply rsect_ok; [done|unfold FSSIZE; lia]).
    by apply wsect_ok; [|unfold FSSIZE; lia].
  - apply img_ok_put; [done|]. rewrite Hlen. apply sect_length; [done|unfold FSSIZE; lia].
  - unfold dinode_at. rewrite Hs, decide_True by (lia || done). exact Hrd.
  - intros j Hj Hne. destruct (IBLOCK_range j Hj) as [Ej Hbj]. unfold dinode_at. rewrite Hs by lia.
    case_decide as Hd'; [|done]. rewrite Hd'.
    destruct (dinode_roundtrip (sect (m_img s) (IBLOCK inum sb)) d inum j) as (_ & _ & Hother); [done|done|lia|lia|].
    apply Hother. change IPB with 16. pose proof (Z.div_mod inum 16). pose proof (Z.div_mod j 16). lia.
  - intros n Hn Hout. rewrite Hs, decide_False by lia. done.
Qed.

Lemma rinode_ok inum s :
  img_ok (m_img s) -> 0 <= inum < 208 -> rinode inum s = Some (dinode_at (m_img s) inum, s).
Proof.
  intros Hi Hin. destruct (IBLOCK_range inum Hin) as [_ Hb]. unfold rinode. cbn zeta.
  erewrite bind_M by (apply rsect_ok; [done|unfold FSSIZE; lia]). done.
Qed.

(** ** The image *)
Definition all_blocks (L : list (list Z * Z)) : list Z := flat_map (fun e => blocks_of e.1 e.2) L.

(** File [i] has inode number [i + 1]. *)
Definition inum_of (i : nat) : Z := Z.of_nat i + 1.

Record file_rep (s : mkst) (i : nat) (t : Z) (b bl : list Z) (ib : Z) : Prop := {
  fr_dinode : dinode_at (m_img s) (inum_of i) = mkDinode t 0 0 1 (Z.of_nat (length b)) (addrs_of bl ib);
  fr_size : length bl = nblk (length b) /\ (length b <= 268 * B)%nat;
  fr_type : - 2 ^ 15 <= t < 2 ^ 15;
  fr_data : data_rep (m_img s) b bl ib
}.

(** The image stores the files [fs], each as its type and contents, in the
    blocks [L]. *)
Record rep (s : mkst) (fs : list (Z * list Z)) (L : list (list Z * Z)) : Prop := {
  rp_good : good s;
  rp_sb : sect (m_img s) 1 = put_bytes zeroes 0 sb_bytes;
  rp_free : m_freeinode s = inum_of (length fs);
  rp_len : length L = length fs;
  rp_range : Forall (fun x => nmeta <= x < m_freeblock s) (all_blocks L);
  rp_nodup : NoDup (all_blocks L);
  rp_count : m_freeblock s = nmeta + Z.of_nat (length (all_blocks L));
  rp_file i t b bl ib : fs !! i = Some (t, b) -> L !! i = Some (bl, ib) -> file_rep s i t b bl ib
}.

#[global] Instance all_blocks_proper : Proper ((≡ₚ) ==> (≡ₚ)) all_blocks.
Proof. intros L L' H. by apply Permutation_flat_map. Qed.

Lemma all_blocks_delete L i bl ib :
  L !! i = Some (bl, ib) -> all_blocks L ≡ₚ blocks_of bl ib ++ all_blocks (delete i L).
Proof. intros H. exact (all_blocks_proper _ _ (delete_Permutation _ _ _ H)). Qed.

Lemma all_blocks_insert L i e bl ib :
  L !! i = Some e -> all_blocks (<[i := (bl, ib)]> L) ≡ₚ blocks_of bl ib ++ all_blocks (delete i L).
Proof.
  intros H. assert (<[i := (bl, ib)]> L !! i = Some (bl, ib)) as H'
    by (apply list_lookup_insert_eq; by eapply lookup_lt_Some).
  rewrite (all_blocks_delete _ _ _ _ H'). f_equiv.
  assert (delete i (<[i := (bl, ib)]> L) = delete i L) as ->; [|done].
  clear. revert i. induction L as [|e L IH]; intros [|i]; cbn; [done..|]. by f_equal.
Qed.

(** Different files have different blocks. *)
Lemma rep_disjoint L i j bl ib bl' ib' x :
  NoDup (all_blocks L) -> L !! i = Some (bl, ib) -> L !! j = Some (bl', ib') -> i <> j ->
  x ∈ blocks_of bl ib -> x ∈ blocks_of bl' ib' -> False.
Proof.
  intros Hnd Hi Hj Hne H1 H2. rewrite (all_blocks_delete _ _ _ _ Hi) in Hnd. apply NoDup_app in Hnd as (_ & Hd & _).
  apply (Hd x H1). apply list_elem_of_In, in_flat_map. exists (bl', ib'). split; [|by apply list_elem_of_In].
  apply list_elem_of_In. apply list_elem_of_lookup. destruct (decide (j < i)%nat).
  - exists j. by rewrite list_lookup_delete_lt.
  - exists (pred j). rewrite list_lookup_delete_ge by lia. by replace (S (pred j)) with j by lia.
Qed.

Lemma rep_holds s fs L i t b bl ib :
  rep s fs L -> fs !! i = Some (t, b) -> L !! i = Some (bl, ib) -> holds s b bl ib.
Proof.
  intros HR Hf HL. destruct (rp_file _ _ _ HR _ _ _ _ _ Hf HL) as [_ _ _ Hd]. split; [done| |].
  - pose proof (rp_range _ _ _ HR) as Hr. rewrite (all_blocks_delete _ _ _ _ HL), Forall_app in Hr. by destruct Hr.
  - pose proof (rp_nodup _ _ _ HR) as Hr. rewrite (all_blocks_delete _ _ _ _ HL), NoDup_app in Hr. by destruct Hr.
Qed.

(** A file whose sectors are unchanged is unchanged. *)
Lemma data_rep_frame img img' b bl ib :
  data_rep img b bl ib -> (forall x, x ∈ blocks_of bl ib -> sect img' x = sect img x) -> data_rep img' b bl ib.
Proof.
  intros [Hn Hi Hd] Hs. split; [done| |].
  - intros Hl. rewrite Hs; [by apply Hi|]. unfold blocks_of. rewrite decide_True by done. apply elem_of_app. right. by left.
  - intros k x Hx. rewrite Hs; [by apply Hd|]. apply elem_of_app. left. by eapply list_elem_of_lookup_2.
Qed.

(** Blocks that files use. *)
Definition weight (e : Z * list Z) : Z := Z.of_nat (used (nblk (length e.2))).
Definition total (fs : list (Z * list Z)) : Z := zsum weight fs.

Lemma length_all_blocks fs L s :
  length L = length fs ->
  (forall i t b bl ib, fs !! i = Some (t, b) -> L !! i = Some (bl, ib) -> file_rep s i t b bl ib) ->
  Z.of_nat (length (all_blocks L)) = total fs.
Proof.
  unfold total. intros Hl H.
  assert (forall i t b bl ib, fs !! i = Some (t, b) -> L !! i = Some (bl, ib) -> length bl = nblk (length b)) as H'
    by (intros i t b bl ib H1 H2; destruct (H _ _ _ _ _ H1 H2) as [_ [E _] _ _]; exact E).
  clear H. revert fs Hl H'. induction L as [|[bl ib] L IH]; intros [|[t b] fs] Hl H'; try done.
  cbn [all_blocks flat_map zsum fst snd]. rewrite length_app, length_blocks_of. injection Hl as Hl.
  rewrite (H' O t b bl ib eq_refl eq_refl). rewrite Nat2Z.inj_add. f_equal.
  apply IH; [done|]. intros i. apply (H' (S i)).
Qed.

Lemma rep_total s fs L : rep s fs L -> m_freeblock s = nmeta + total fs.
Proof. intros HR. rewrite (rp_count _ _ _ HR). f_equal. eapply length_all_blocks; apply HR. Qed.

Lemma dinode_of_file_ok t n bl ib :
  - 2 ^ 15 <= t < 2 ^ 15 -> (n <= 268 * B)%nat -> Forall (fun x => 0 <= x < 2 ^ 32) bl -> 0 <= ib < 2 ^ 32 ->
  dinode_ok (mkDinode t 0 0 1 (Z.of_nat n) (addrs_of bl ib)).
Proof.
  intros Ht Hn Hbl Hib. split; cbn [di_type di_major di_minor di_nlink di_size di_addrs]; try lia.
  split; [apply length_addrs_of|]. unfold addrs_of. rewrite !Forall_app. split_and!.
  - by apply Forall_take.
  - apply Forall_replicate. lia.
  - by constructor.
Qed.

Lemma holds_dinode_ok s b bl ib t n :
  good s -> holds s b bl ib -> - 2 ^ 15 <= t < 2 ^ 15 -> (n <= 268 * B)%nat ->
  dinode_ok (mkDinode t 0 0 1 (Z.of_nat n) (addrs_of bl ib)).
Proof.
  intros Hg Hh Ht Hn. apply dinode_of_file_ok; [done|done|by eapply range_u32, Hh|].
  destruct (decide (12 < length bl)%nat).
  - pose proof (holds_ib _ _ _ _ Hh ltac:(done)). pose proof (gd_fb _ Hg). rewrite nmeta_val in *. unfold FSSIZE in *. lia.
  - rewrite (dr_none _ _ _ _ (ho_data _ _ _ _ Hh)) by lia. lia.
Qed.

(** Storing a dinode keeps everything but that dinode. *)
Lemma good_put_dinode inum d s : good s -> 0 <= inum < 208 -> dinode_ok d -> good (put_dinode inum d s).
Proof.
  intros [Hi Hb Hf] Hin Hd. destruct (winode_ok inum d s Hi Hin Hd) as (_ & Hi' & _ & _ & Hs). split; [done|done|].
  intros n Hn. cbn [m_freeblock put_dinode put_sect set_img] in Hn. rewrite nmeta_val in *.
  rewrite Hs by lia. by apply Hf.
Qed.

Lemma file_rep_put_dinode s i j t b bl ib d :
  good s -> file_rep s i t b bl ib -> Forall (fun x => nmeta <= x < m_freeblock s) (blocks_of bl ib) ->
  (i < 207)%nat -> 0 <= j < 208 -> dinode_ok d -> inum_of i <> j -> file_rep (put_dinode j d s) i t b bl ib.
Proof.
  intros Hg [Hd Hs Ht Hr] Hrange Hi Hj Hok Hne.
  destruct (winode_ok j d s (gd_img _ Hg) Hj Hok) as (_ & _ & _ & Hother & Hsec).
  split; [|done|done|].
  - rewrite Hother by (done || unfold inum_of; lia). done.
  - apply (data_rep_frame (m_img s)); [done|]. intros x Hx. rewrite Forall_forall in Hrange. apply Hrange in Hx.
    pose proof (gd_fb _ Hg). rewrite nmeta_val in *. apply Hsec; lia.
Qed.

(** *** ialloc() *)
Lemma rep_blocks s fs L i t b bl ib :
  rep s fs L -> fs !! i = Some (t, b) -> L !! i = Some (bl, ib) ->
  Forall (fun x => nmeta <= x < m_freeblock s) (blocks_of bl ib).
Proof. intros HR Hf HL. apply (ho_range _ _ _ _ (rep_holds _ _ _ _ _ _ _ _ HR Hf HL)). Qed.

Lemma ialloc_ok s fs L t :
  rep s fs L -> (length fs < 207)%nat -> - 2 ^ 15 <= t < 2 ^ 15 ->
  exists s', ialloc t s = Some (inum_of (length fs), s') /\ rep s' (fs ++ [(t, [])]) (L ++ [([], 0)]).
Proof.
  intros HR Hn Ht. set (s0 := mkMk (m_img s) (m_freeinode s + 1) (m_freeblock s)).
  set (d := mkDinode t 0 0 1 0 (replicate 13 0)).
  assert (dinode_ok d) as Hok by (apply (dinode_of_file_ok t 0 [] 0); [done|lia|done|lia]).
  assert (good s0) as Hg0 by (destruct (rp_good _ _ _ HR); by split).
  assert (0 <= inum_of (length fs) < 208) as Hin by (unfold inum_of; lia).
  destruct (winode_ok (inum_of (length fs)) d s0 (gd_img _ Hg0) Hin Hok) as (Ew & _ & Hself & _ & Hsec).
  exists (put_dinode (inum_of (length fs)) d s0). split.
  { unfold ialloc. erewrite bind_M by reflexivity. fold s0. rewrite (rp_free _ _ _ HR).
    fold d. erewrite bind_M by exact Ew. done. }
  assert (all_blocks (L ++ [([], 0)]) = all_blocks L) as EL
    by (unfold all_blocks; rewrite flat_map_app; cbn; apply app_nil_r).
  split; rewrite ?EL; try apply HR.
  - by apply good_put_dinode.
  - rewrite Hsec by (unfold FSSIZE; lia). apply (rp_sb _ _ _ HR).
  - cbn. rewrite (rp_free _ _ _ HR), length_app. unfold inum_of. cbn. lia.
  - rewrite !length_app, (rp_len _ _ _ HR). done.
  - intros i t' b bl ib [Hf|[Hf1 Hf2]]%lookup_app_Some [HL|[HL1 HL2]]%lookup_app_Some.
    + pose proof (lookup_lt_Some _ _ _ Hf). apply file_rep_put_dinode; [done| |exact (rep_blocks _ _ _ _ _ _ _ _ HR Hf HL)|lia|done|done|unfold inum_of; lia].
      destruct (rp_file _ _ _ HR _ _ _ _ _ Hf HL). by split.
    + apply lookup_lt_Some in Hf. rewrite (rp_len _ _ _ HR) in HL1. lia.
    + apply lookup_lt_Some in HL. rewrite (rp_len _ _ _ HR) in HL. lia.
    + apply list_lookup_singleton_Some in Hf2 as [Ef [= <- <-]]. apply list_lookup_singleton_Some in HL2 as [El [= <- <-]].
      assert (i = length fs) as -> by lia. split; [exact Hself|split; [done|apply Nat.le_0_l]|done|]. split; [done|cbn; lia|done].
Qed.

(** *** iappend() *)
Section extend.
Context (s s1 : mkst) (fs : list (Z * list Z)) (L : list (list Z * Z)) (i : nat).
Context (t : Z) (b bl : list Z) (ib : Z) (bl1 : list Z) (ib1 : Z).
Context (HR : rep s fs L) (Hf : fs !! i = Some (t, b)) (HL : L !! i = Some (bl, ib)).
Context (Hg1 : good s1) (He : ext s bl ib s1 bl1 ib1).

(** The blocks of the image are the old ones and the next free ones. *)
Lemma extend_blocks :
  all_blocks (<[i := (bl1, ib1)]> L)
  ≡ₚ all_blocks L ++ seqZ (m_freeblock s) (m_freeblock s1 - m_freeblock s).
Proof using HL He.
  rewrite (all_blocks_insert _ _ _ _ _ HL), (ex_perm _ _ _ _ _ _ He), (all_blocks_delete _ _ _ _ HL).
  rewrite <- !app_assoc. f_equiv. apply Permutation_app_comm.
Qed.

Lemma extend_range : Forall (fun x => nmeta <= x < m_freeblock s1) (all_blocks (<[i := (bl1, ib1)]> L)).
Proof using HR HL He.
  rewrite extend_blocks. apply Forall_app. pose proof (ex_mono _ _ _ _ _ _ He). split.
  - eapply Forall_impl; [apply (rp_range _ _ _ HR)|]. cbn. lia.
  - rewrite Forall_forall. intros x Hx%elem_of_seqZ. pose proof (gd_fb _ (rp_good _ _ _ HR)). lia.
Qed.

Lemma extend_nodup : NoDup (all_blocks (<[i := (bl1, ib1)]> L)).
Proof using HR HL He.
  rewrite extend_blocks. apply NoDup_app. split_and!; [apply HR| |apply NoDup_seqZ].
  intros x Hx1 Hx2%elem_of_seqZ. pose proof (rp_range _ _ _ HR) as Hr. rewrite Forall_forall in Hr.
  apply Hr in Hx1. lia.
Qed.

Lemma extend_count : m_freeblock s1 = nmeta + Z.of_nat (length (all_blocks (<[i := (bl1, ib1)]> L))).
Proof using HR HL He.
  pose proof (Permutation_length extend_blocks) as E. rewrite E, length_app, length_seqZ.
  pose proof (ex_mono _ _ _ _ _ _ He). pose proof (rp_count _ _ _ HR). lia.
Qed.

(** What lies before the data blocks is as it was. *)
Lemma extend_meta n : 0 <= n < nmeta -> sect (m_img s1) n = sect (m_img s) n.
Proof using HR Hf HL He.
  intros Hn. pose proof (gd_fb _ (rp_good _ _ _ HR)). apply (ex_frame _ _ _ _ _ _ He); [lia|]. intros Hx.
  pose proof (rep_blocks _ _ _ _ _ _ _ _ HR Hf HL) as Hr. rewrite Forall_forall in Hr. apply Hr in Hx. lia.
Qed.

(** The other files are as they were. *)
Lemma extend_other j t' b' bl' ib' :
  j <> i -> (j < 207)%nat -> fs !! j = Some (t', b') -> L !! j = Some (bl', ib') -> file_rep s1 j t' b' bl' ib'.
Proof using HR Hf HL He.
  intros Hne Hj Hf' HL'. destruct (rp_file _ _ _ HR _ _ _ _ _ Hf' HL') as [Hd Hs Ht Hr].
  assert (0 <= inum_of j < 208) as Hin by (unfold inum_of; lia).
  split; [|done|done|].
  - unfold dinode_at in *. destruct (IBLOCK_range _ Hin) as [_ Hb]. rewrite extend_meta by (rewrite nmeta_val; lia). done.
  - apply (data_rep_frame (m_img s)); [done|]. intros x Hx.
    pose proof (rep_blocks _ _ _ _ _ _ _ _ HR Hf' HL') as Hrange. rewrite Forall_forall in Hrange.
    pose proof (Hrange _ Hx). rewrite nmeta_val in *. apply (ex_frame _ _ _ _ _ _ He); [lia|]. intros Hx'.
    eapply (rep_disjoint L j i); [apply HR|exact HL'|exact HL|done|exact Hx|exact Hx'].
Qed.
End extend.

Lemma iappend_ok s fs L i t b p :
  rep s fs L -> fs !! i = Some (t, b) -> (length fs <= 207)%nat -> (length (b ++ p) <= 268 * B)%nat ->
  nmeta + total (<[i := (t, b ++ p)]> fs) <= FSSIZE ->
  exists s' L', iappend (inum_of i) p s = Some (tt, s') /\ rep s' (<[i := (t, b ++ p)]> fs) L'.
Proof.
  intros HR Hf Hn Hmax Hcap. pose proof (lookup_lt_Some _ _ _ Hf) as Hi.
  destruct (lookup_lt_is_Some_2 L i) as [[bl ib] HL].
  { rewrite (rp_len _ _ _ HR). by eapply lookup_lt_Some. }
  pose proof (rp_file _ _ _ HR _ _ _ _ _ Hf HL) as [Hd [Hlen Hb] Ht _].
  pose proof (rep_holds _ _ _ _ _ _ _ _ HR Hf HL) as Hh. pose proof (rp_good _ _ _ HR) as Hg.
  assert (0 <= inum_of i < 208) as Hin by (unfold inum_of; lia).
  destruct (iappend_loop_ok t (Z.of_nat (length b)) (S (length p)) s b bl ib p) as (s1 & bl1 & ib1 & E1 & Hg1 & Hh1 & Hl1 & He1);
    try done; [lia| |].
  { rewrite (rep_total _ _ _ HR). unfold total in *. rewrite (zsum_insert _ _ _ _ _ Hf) in Hcap.
    unfold weight in Hcap at 2 3. cbn [snd] in Hcap. rewrite Hlen. lia. }
  set (d := mkDinode t 0 0 1 (Z.of_nat (length (b ++ p))) (addrs_of bl1 ib1)).
  assert (dinode_ok d) as Hok by (by eapply holds_dinode_ok).
  destruct (winode_ok (inum_of i) d s1 (gd_img _ Hg1) Hin Hok) as (Ew & _ & Hself & _ & Hsec).
  exists (put_dinode (inum_of i) d s1), (<[i := (bl1, ib1)]> L). split.
  { unfold iappend. erewrite bind_M by (apply rinode_ok; [apply Hg|done]). rewrite Hd. cbn [di_size].
    erewrite bind_M by exact E1. cbv beta iota. exact Ew. }
  split.
  - by apply good_put_dinode.
  - rewrite Hsec by (unfold FSSIZE; lia). erewrite extend_meta by (done || rewrite nmeta_val; lia). apply (rp_sb _ _ _ HR).
  - cbn. rewrite (ex_inode _ _ _ _ _ _ He1), (rp_free _ _ _ HR), length_insert. done.
  - rewrite !length_insert. apply HR.
  - exact (extend_range _ _ _ _ _ _ _ _ _ HR HL He1).
  - exact (extend_nodup _ _ _ _ _ _ _ _ _ HR HL He1).
  - exact (extend_count _ _ _ _ _ _ _ _ _ HR HL He1).
  - intros j t' b' bl' ib' Hfj HLj. destruct (decide (j = i)) as [->|Hne].
    + rewrite list_lookup_insert_eq in Hfj by (by eapply lookup_lt_Some).
      rewrite list_lookup_insert_eq in HLj by (by eapply lookup_lt_Some). simplify_eq.
      split; [exact Hself|done|done|]. apply (data_rep_frame (m_img s1)); [apply Hh1|]. intros x Hx.
      pose proof (ho_range _ _ _ _ Hh1) as Hr. rewrite Forall_forall in Hr. apply Hr in Hx.
      pose proof (gd_fb _ Hg1). rewrite nmeta_val in *. apply Hsec; lia.
    + rewrite list_lookup_insert_ne in Hfj by done. rewrite list_lookup_insert_ne in HLj by done. pose proof (lookup_lt_Some _ _ _ Hfj) as Hj.
      apply file_rep_put_dinode; [done| | |lia|done|done|unfold inum_of; lia].
      * eapply extend_other; [exact HR|exact Hf|exact HL|exact He1|done|lia|done|done].
      * eapply Forall_impl; [exact (rep_blocks _ _ _ _ _ _ _ _ HR Hfj HLj)|]. cbn. pose proof (ex_mono _ _ _ _ _ _ He1). lia.
Qed.

(** ** main() *)

Lemma weight_mono t t' b b' : (length b <= length b')%nat -> weight (t, b) <= weight (t', b').
Proof. intros H. unfold weight. cbn [snd]. apply inj_le, used_mono, nblk_mono, H. Qed.

Lemma weight_nonneg e : 0 <= weight e.
Proof. unfold weight. lia. Qed.

Lemma total_nonneg fs : 0 <= total fs.
Proof. apply zsum_nonneg. intros e _. apply weight_nonneg. Qed.

Lemma total_cons e fs : total (e :: fs) = weight e + total fs.
Proof. reflexivity. Qed.

Lemma total_app fs fs' : total (fs ++ fs') = total fs + total fs'.
Proof. induction fs as [|e fs IH]; [done|]. cbn [app]. rewrite !total_cons, IH. lia. Qed.

Lemma total_insert fs i e e' : fs !! i = Some e -> total (<[i := e']> fs) = total fs - weight e + weight e'.
Proof. apply zsum_insert. Qed.

(** The pieces of a file. *)
Lemma add_pieces_ok s fs L i t b pieces :
  rep s fs L -> fs !! i = Some (t, b) -> (length fs <= 207)%nat ->
  (length (b ++ concat pieces) <= 268 * B)%nat ->
  nmeta + total (<[i := (t, b ++ concat pieces)]> fs) <= FSSIZE ->
  exists s' L', add_pieces (inum_of i) pieces s = Some (tt, s') /\ rep s' (<[i := (t, b ++ concat pieces)]> fs) L'.
Proof.
  revert s fs L b. induction pieces as [|p pieces IH]; intros s fs L b HR Hf Hn Hmax Hcap; cbn [concat] in *.
  { rewrite app_nil_r in *. exists s, L. split; [done|]. by rewrite list_insert_id. }
  rewrite app_assoc in *. rewrite (total_insert _ _ _ _ Hf) in Hcap.
  destruct (iappend_ok s fs L i t b p HR Hf Hn) as (s1 & L1 & E1 & HR1).
  { rewrite length_app in Hmax. lia. }
  { rewrite (total_insert _ _ _ _ Hf).
    pose proof (weight_mono t t (b ++ p) ((b ++ p) ++ concat pieces) ltac:(rewrite (length_app (b ++ p)); lia)). lia. }
  assert (<[i := (t, b ++ p)]> fs !! i = Some (t, b ++ p)) as Hf1
    by (apply list_lookup_insert_eq; by eapply lookup_lt_Some).
  destruct (IH s1 _ L1 (b ++ p) HR1 Hf1) as (s2 & L2 & E2 & HR2).
  { by rewrite length_insert. }
  { done. }
  { rewrite list_insert_insert_eq, (total_insert _ _ _ _ Hf). lia. }
  rewrite list_insert_insert_eq in HR2. exists s2, L2. split; [|done]. cbn [add_pieces]. erewrite bind_M by exact E1. done.
Qed.

(** A file of the command line that mkfs accepts. *)
Definition name_of (arg : list Z) : list Z := skip_underscore (short_name arg).
Definition file_ok (f : list Z * list (list Z)) : Prop :=
  (SLASH ∉ short_name f.1) /\ (length (name_of f.1) <= 14)%nat /\ (length (concat f.2) <= 268 * B)%nat.

Definition contents (f : list Z * list (list Z)) : Z * list Z := (T_FILE, concat f.2).

(** The entries of the files, the first of which gets inode number [n]. *)
Fixpoint dirents (n : Z) (files : list (list Z * list (list Z))) : list Z :=
  match files with
  | [] => []
  | f :: r => dirent n (name_of f.1) ++ dirents (n + 1) r
  end.

Lemma length_dirent n name : length (dirent n name) = 16%nat.
Proof.
  unfold dirent. rewrite length_app, length_take, length_app, length_replicate.
  change (Z.to_nat DIRSIZ) with 14%nat. cbn [xshort length]. lia.
Qed.

Lemma length_dirents n files : length (dirents n files) = (16 * length files)%nat.
Proof.
  revert n. induction files as [|f files IH]; intros n; [done|]. cbn [dirents length].
  rewrite length_app, length_dirent, IH. lia.
Qed.

Lemma add_file_ok s r rest L arg pieces :
  rep s ((T_DIR, r) :: rest) L -> (length rest < 200)%nat -> (length r < 4096)%nat -> file_ok (arg, pieces) ->
  let n := Z.of_nat (length rest) + 2 in
  let fs' := (T_DIR, r ++ dirent n (name_of arg)) :: rest ++ [contents (arg, pieces)] in
  nmeta + total fs' <= FSSIZE ->
  exists s' L', add_file 1 arg pieces s = Some (tt, s') /\ rep s' fs' L'.
Proof.
  intros HR Hn Hr (Hslash & Hlen & Hmax) n fs' Hcap. cbn [fst snd] in *.
  unfold fs' in Hcap. rewrite total_cons, total_app, total_cons in Hcap. change (total []) with 0 in Hcap.
  destruct (ialloc_ok _ _ _ T_FILE HR ltac:(cbn; lia) ltac:(unfold T_FILE; lia)) as (s1 & E1 & HR1).
  assert (inum_of (length ((T_DIR, r) :: rest)) = n) as En by (unfold inum_of, n; cbn; lia). rewrite En in E1.
  change (((T_DIR, r) :: rest) ++ [(T_FILE, [])]) with ((T_DIR, r) :: rest ++ [(T_FILE, [])]) in HR1.
  pose proof (weight_mono T_FILE T_FILE [] (concat pieces) ltac:(cbn; lia)) as Hw. unfold contents in Hcap. cbn [snd] in Hcap.
  destruct (iappend_ok s1 _ _ O T_DIR r (dirent n (name_of arg)) HR1 eq_refl) as (s2 & L2 & E2 & HR2).
  { cbn. rewrite length_app. cbn. lia. }
  { rewrite length_app, length_dirent. lia. }
  { cbn [insert list_insert]. rewrite total_cons, total_app, total_cons. change (total []) with 0. lia. }
  cbn [insert list_insert] in HR2.
  set (i := S (length rest)).
  assert (((T_DIR, r ++ dirent n (name_of arg)) :: rest ++ [(T_FILE, [])]) !! i = Some (T_FILE, [])) as Hi
    by exact (list_lookup_middle rest [] _ _ eq_refl).
  assert (<[i := (T_FILE, [] ++ concat pieces)]> ((T_DIR, r ++ dirent n (name_of arg)) :: rest ++ [(T_FILE, [])]) = fs') as Ei.
  { change (<[i := ?y]> (?x :: ?l)) with (x :: <[length rest := y]> l). unfold fs'. f_equal.
    by rewrite insert_app_r_alt, Nat.sub_diag by lia. }
  destruct (add_pieces_ok s2 _ _ i T_FILE [] pieces HR2 Hi) as (s3 & L3 & E3 & HR3).
  { cbn. rewrite length_app. cbn. lia. }
  { done. }
  { rewrite Ei. unfold fs', contents. cbn [snd]. rewrite total_cons, total_app, total_cons. change (total []) with 0. lia. }
  rewrite Ei in HR3. exists s3, L3. split; [|done].
  unfold add_file. cbn zeta. erewrite bind_M by (unfold assert_; rewrite bool_decide_eq_false_2 by done; reflexivity).
  erewrite bind_M by (unfold assert_; fold (name_of arg); rewrite (proj2 (Z.leb_le _ _)) by (unfold DIRSIZ; lia); reflexivity).
  erewrite bind_M by exact E1. erewrite bind_M by exact E2.
  replace n with (inum_of i) by (unfold inum_of, i, n; lia). exact E3.
Qed.

Lemma add_files_ok files : forall s r rest L,
  rep s ((T_DIR, r) :: rest) L -> Forall file_ok files ->
  (length rest + length files <= 198)%nat -> (length r + 16 * length files < 4096)%nat ->
  let fs' := (T_DIR, r ++ dirents (Z.of_nat (length rest) + 2) files) :: rest ++ (contents <$> files) in
  nmeta + total fs' <= FSSIZE ->
  exists s' L', add_files 1 files s = Some (tt, s') /\ rep s' fs' L'.
Proof.
  induction files as [|[arg pieces] files IH]; intros s r rest L HR Hok Hn Hr fs' Hcap.
  { exists s, L. split; [done|]. unfold fs'. cbn [dirents fmap list_fmap]. by rewrite !app_nil_r. }
  inversion Hok as [|? ? Hf Hok']. subst. cbn [length] in *.
  set (de := dirent (Z.of_nat (length rest) + 2) (name_of arg)).
  assert (fs' = (T_DIR, (r ++ de) ++ dirents (Z.of_nat (length (rest ++ [contents (arg, pieces)])) + 2) files)
    :: (rest ++ [contents (arg, pieces)]) ++ (contents <$> files)) as Efs.
  { unfold fs'. cbn [dirents fmap list_fmap fst]. rewrite length_app, <- !app_assoc. cbn [length app].
    replace (Z.of_nat (length rest + 1) + 2) with (Z.of_nat (length rest) + 2 + 1) by lia. done. }
  pose proof (total_nonneg (contents <$> files)).
  destruct (add_file_ok s r rest L arg pieces HR) as (s1 & L1 & E1 & HR1); [lia|lia|done| |].
  { rewrite Efs, total_cons, !total_app in Hcap. rewrite total_cons, total_app. fold de.
    pose proof (weight_mono T_DIR T_DIR (r ++ de) ((r ++ de) ++ dirents (Z.of_nat (length (rest ++ [contents (arg, pieces)])) + 2) files)
      ltac:(rewrite (length_app (r ++ de)); lia)). lia. }
  fold de in HR1. destruct (IH s1 (r ++ de) (rest ++ [contents (arg, pieces)]) L1 HR1 Hok') as (s2 & L2 & E2 & HR2).
  { rewrite length_app. cbn. lia. }
  { rewrite length_app. unfold de. rewrite length_dirent. lia. }
  { by rewrite <- Efs. }
  rewrite <- Efs in HR2. exists s2, L2. split; [|done]. cbn [add_files]. by erewrite bind_M by exact E1.
Qed.

(** The empty image. *)
Lemma zero_loop_ok n k fi fb :
  zero_loop n (Z.of_nat k) (mkMk (replicate k zeroes) fi fb) = Some (tt, mkMk (replicate (k + n) zeroes) fi fb).
Proof.
  revert k. induction n as [|n IH]; intros k; cbn [zero_loop]; [by rewrite Nat.add_0_r|].
  assert (wsect (Z.of_nat k) zeroes (mkMk (replicate k zeroes) fi fb) = Some (tt, mkMk (replicate (S k) zeroes) fi fb)) as E.
  { unfold wsect. cbn [m_img m_freeinode m_freeblock]. rewrite Nat2Z.id, length_replicate, Nat.ltb_irrefl, Nat.sub_diag.
    cbn [replicate app]. by rewrite replicate_cons_app. }
  erewrite bind_M by exact E. replace (Z.of_nat k + 1) with (Z.of_nat (S k)) by lia. rewrite IH. by rewrite Nat.add_succ_r.
Qed.

Definition blank_image : mkst := put_sect 1 (put_bytes zeroes 0 sb_bytes) (mkMk (replicate (Z.to_nat FSSIZE) zeroes) 1 nmeta).

Lemma rep_blank : rep blank_image [] [].
Proof.
  assert (img_ok (replicate (Z.to_nat FSSIZE) zeroes)) as Hi
    by (split; [apply length_replicate|by apply Forall_replicate; apply length_replicate]).
  split.
  - apply good_put; [|rewrite nmeta_val; cbn [m_freeblock]; lia|reflexivity]. split; [done|by rewrite nmeta_val|]. intros n Hn.
    unfold sect. cbn [m_img]. apply lookup_total_replicate_2. rewrite nmeta_val in Hn. cbn [m_freeblock] in Hn. lia.
  - unfold blank_image. rewrite sect_put by (done || unfold FSSIZE; lia). by rewrite decide_True.
  - done.
  - done.
  - constructor.
  - constructor.
  - done.
  - done.
Qed.

(** ** The bitmap *)
Lemma length_mark_used n i buf : length (mark_used n i buf) = length buf.
Proof. revert i buf. induction n as [|n IH]; intros i buf; [done|]. cbn [mark_used]. rewrite IH. apply length_alter. Qed.

Lemma mark_used_bit n i buf j :
  length buf = B -> 0 <= i -> i + Z.of_nat n <= 8192 -> 0 <= j ->
  bit_set (mark_used n i buf) j = (i <=? j) && (j <? i + Z.of_nat n) || bit_set buf j.
Proof.
  revert i buf. induction n as [|n IH]; intros i buf Hl Hi Hn Hj; cbn [mark_used].
  { destruct (Z.leb_spec i j), (Z.ltb_spec j (i + Z.of_nat 0)); try lia; done. }
  rewrite IH by (done || unfold set_bit; rewrite ?length_alter; lia). rewrite bit_set_set by lia.
  destruct (Z.eqb_spec i j); destruct (Z.leb_spec (i + 1) j), (Z.leb_spec i j), (Z.ltb_spec j (i + 1 + Z.of_nat n)),
    (Z.ltb_spec j (i + Z.of_nat (S n))); try lia; cbn; try done; by rewrite ?orb_true_r.
Qed.

Lemma bit_set_zeroes j : 0 <= j < 8192 -> bit_set zeroes j = false.
Proof.
  intros Hj. unfold bit_set, zeroes. rewrite lookup_total_replicate_2; [done|].
  assert (0 <= j / 8 < 1024) by (split; [apply Z.div_pos|apply Z.div_lt_upper_bound]; lia). change BSIZE with 1024. lia.
Qed.

(** ** What the kernel sees *)

(** The image in an empty cache, and the inode that ilock() loads. *)
Definition kview (img : list (list Z)) : cview := mkCview (sect img) (sect img) [] ∅ ∅.
Definition loaded (img : list (list Z)) (inum : Z) : inode :=
  let d := dinode_at img inum in
  mkInode ROOTDEV inum 1 1 (di_type d) (di_major d) (di_minor d) (di_nlink d) (di_size d) (di_addrs d).

(** A file of the image, read with the kernel's block map: [b], and zeroes up
    to its size. *)
Record stored (img : list (list Z)) (inum t : Z) (b : list Z) (size : Z) : Prop := {
  st_itype : i_type (loaded img inum) = t;
  st_nlink : i_nlink (loaded img inum) = 1;
  st_isize : i_size (loaded img inum) = size;
  st_bytes x : 0 <= x < Z.of_nat (length b) ->
    mapped (kview img) (loaded img inum) (x / BSIZE) /\ file (kview img) (loaded img inum) x = b !!! Z.to_nat x;
  st_zero x : Z.of_nat (length b) <= x -> mapped (kview img) (loaded img inum) (x / BSIZE) ->
    file (kview img) (loaded img inum) x = 0
}.

(** A block of the kernel's map is one of the file's blocks. *)
Lemma fblock_rep img inum t size b bl ib bn :
  dinode_at img inum = mkDinode t 0 0 1 size (addrs_of bl ib) -> data_rep img b bl ib ->
  Forall (fun x => 0 <= x < 2 ^ 32) bl -> (bn < 268)%nat -> (12 <= bn -> 12 < length bl)%nat ->
  fblock (kview img) (loaded img inum) (Z.of_nat bn) = if decide (bn < length bl)%nat then bl !!! bn else 0.
Proof.
  intros Hd [Hn Hi Hdat] Hr Hbn H12. unfold fblock, loaded, addr_at. rewrite Hd. cbn [i_addrs di_addrs kview cv_data].
  change NDIRECT with 12. destruct (Z.ltb_spec (Z.of_nat bn) 12).
  - rewrite Nat2Z.id. apply addrs_of_direct. lia.
  - rewrite addrs_of_ind, Hi by lia. replace (Z.to_nat (Z.of_nat bn - 12)) with (bn - 12)%nat by lia.
    apply ind_block_at; [lia|done].
Qed.

Lemma block_byte k b j :
  (j < B)%nat -> block k b !!! j = if decide (B * k + j < length b)%nat then b !!! (B * k + j)%nat else 0.
Proof.
  intros Hj. unfold block. set (c := take B (drop (B * k) b)).
  assert (length c = Nat.min B (length b - B * k)) as Hc by (unfold c; rewrite length_take, length_drop; done).
  case_decide.
  - rewrite list_lookup_total_alt, lookup_app_l by lia. unfold c. rewrite lookup_take_lt, lookup_drop by done.
    by rewrite <- list_lookup_total_alt.
  - apply list_lookup_total_correct. rewrite lookup_app_r by lia. apply lookup_replicate. lia.
Qed.

Section seen.
Context (img : list (list Z)) (inum t size : Z) (b bl : list Z) (ib : Z).
Context (Himg : img_ok img).
Context (Hd : dinode_at img inum = mkDinode t 0 0 1 size (addrs_of bl ib)) (Hdat : data_rep img b bl ib).
Context (Hr : Forall (fun x => nmeta <= x < FSSIZE) (blocks_of bl ib)).
Context (Hlen : length bl = nblk (length b)) (Hmax : (length b <= 268 * B)%nat).

Lemma seen_blocks k : (k < length bl)%nat -> nmeta <= bl !!! k < FSSIZE.
Proof using Hr.
  intros Hk. destruct (lookup_lt_is_Some_2 bl k Hk) as [x Hx]. rewrite (list_lookup_total_correct _ _ _ Hx).
  apply (Forall_lookup_1 _ _ k x Hr). by apply lookup_app_l_Some.
Qed.

Lemma seen_u32 : Forall (fun x => 0 <= x < 2 ^ 32) bl.
Proof using Hr.
  clear Hlen Hmax. apply Forall_app in Hr as [Hr' _]. eapply Forall_impl; [exact Hr'|]. cbn. intros x.
  rewrite nmeta_val. unfold FSSIZE. lia.
Qed.

Lemma seen_length : (length bl <= 268)%nat.
Proof using Hlen Hmax. pose proof (nblk_spec (length b)). lia. Qed.

Lemma seen_fblock bn : (bn < length bl)%nat -> fblock (kview img) (loaded img inum) (Z.of_nat bn) = bl !!! bn.
Proof using Hd Hdat Hr Hlen Hmax.
  intros Hbn. pose proof seen_length. erewrite fblock_rep by (done || apply seen_u32 || lia).
  by rewrite decide_True.
Qed.

Lemma seen_ib : (12 < length bl)%nat -> addr_at (loaded img inum) IND <> 0.
Proof using Hd Hr.
  clear Hlen Hmax. intros H. unfold addr_at, loaded. rewrite Hd. cbn [i_addrs di_addrs]. rewrite addrs_of_ind.
  unfold blocks_of in Hr. rewrite decide_True in Hr by done. apply Forall_app in Hr as [_ Hib].
  inversion Hib as [|? ? Hx]. rewrite nmeta_val in Hx. lia.
Qed.

(** The kernel's map ends where the file's blocks do. *)
Lemma seen_mapped bn : mapped (kview img) (loaded img inum) (Z.of_nat bn) <-> (bn < length bl)%nat.
Proof using Himg Hd Hdat Hr Hlen Hmax.
  pose proof seen_length as Hl. split.
  - intros ([_ Hb] & H12 & Hnz & _). change MAXFILE with 268 in Hb. change NDIRECT with 12 in H12.
    destruct (decide (bn < length bl)%nat) as [|Hge]; [done|]. exfalso.
    destruct (decide (12 <= bn)%nat) as [Hi|Hi].
    + assert (12 < length bl)%nat as Hgt.
      { destruct (decide (12 < length bl)%nat); [done|]. exfalso. apply H12; [lia|].
        unfold addr_at, loaded. rewrite Hd. cbn [i_addrs di_addrs]. rewrite addrs_of_ind.
        apply (dr_none _ _ _ _ Hdat). lia. }
      erewrite fblock_rep in Hnz by (done || apply seen_u32 || lia). by rewrite decide_False in Hnz.
    + erewrite fblock_rep in Hnz by (done || apply seen_u32 || lia). by rewrite decide_False in Hnz.
  - intros Hb. pose proof (seen_blocks bn Hb) as Hx. rewrite nmeta_val in Hx. unfold mapped.
    rewrite seen_fblock by done. change MAXFILE with 268. change NDIRECT with 12. change BSIZE with 1024.
    split_and!; try lia; [intros; apply seen_ib; lia|]. cbn [kview cv_data].
    rewrite sect_length by (done || lia). done.
Qed.

Lemma seen_byte x : (x / B < length bl)%nat ->
  file (kview img) (loaded img inum) (Z.of_nat x) = if decide (x < length b)%nat then b !!! x else 0.
Proof using Hd Hdat Hr Hlen Hmax.
  intros Hx. unfold file. change BSIZE with (Z.of_nat B).
  rewrite <- Nat2Z.inj_div, <- Nat2Z.inj_mod, Nat2Z.id, seen_fblock by done. cbn [kview cv_data].
  rewrite (dr_data _ _ _ _ Hdat (x / B)) by (by apply list_lookup_lookup_total_lt).
  rewrite block_byte by (apply Nat.mod_upper_bound; lia). by rewrite <- Nat.div_mod_eq.
Qed.

Lemma seen_stored : stored img inum t b size.
Proof using Himg Hd Hdat Hr Hlen Hmax.
  pose proof (nblk_spec (length b)) as Hnb. split; try (unfold loaded; by rewrite Hd).
  - intros x Hx. assert (exists n, x = Z.of_nat n) as [n ->] by (exists (Z.to_nat x); lia).
    assert (n / B < length bl)%nat as Hn by (apply Nat.Div0.div_lt_upper_bound; lia).
    change BSIZE with (Z.of_nat B). rewrite <- Nat2Z.inj_div, Nat2Z.id, seen_byte, decide_True by (done || lia).
    split; [by apply seen_mapped|done].
  - intros x Hx Hm. assert (exists n, x = Z.of_nat n) as [n ->] by (exists (Z.to_nat x); lia).
    change BSIZE with (Z.of_nat B) in Hm. rewrite <- Nat2Z.inj_div in Hm. apply seen_mapped in Hm.
    rewrite seen_byte by done. by rewrite decide_False by lia.
Qed.

End seen.

(** ** The image of a command line *)
Definition root_dir (files : list (list Z * list (list Z))) : list Z :=
  dirent 1 (str ".") ++ dirent 1 (str "..") ++ dirents 2 files.

Definition final_fs (files : list (list Z * list (list Z))) : list (Z * list Z) :=
  (T_DIR, root_dir files) :: (contents <$> files).

(** The first block that is not in use. *)
Definition first_free (files : list (list Z * list (list Z))) : Z := nmeta + total (final_fs files).

(** The files have names and sizes that mkfs accepts, and fit the disk. *)
Definition fits (files : list (list Z * list (list Z))) : Prop :=
  Forall file_ok files /\ (length files <= 198)%nat /\ first_free files <= FSSIZE.

Record image_of (files : list (list Z * list (list Z))) (img : list (list Z)) : Prop := {
  io_sectors : img_ok img;
  io_sb : read_superblock (sect img 1) = sb;
  io_root : stored img ROOTINO T_DIR (root_dir files) ((Z.of_nat (length (root_dir files)) / BSIZE + 1) * BSIZE);
  io_file i f : files !! i = Some f ->
    stored img (Z.of_nat i + 2) T_FILE (concat f.2) (Z.of_nat (length (concat f.2)));
  io_bitmap n : 0 <= n < FSSIZE -> bit_set (sect img (BBLOCK n sb)) (n mod BPB) = (n <? first_free files);
  io_used i bn : (i <= length files)%nat -> mapped (kview img) (loaded img (inum_of i)) (Z.of_nat bn) ->
    nmeta <= fblock (kview img) (loaded img (inum_of i)) (Z.of_nat bn) < first_free files;
  io_apart i j bn bm : (i <= length files)%nat -> (j <= length files)%nat ->
    mapped (kview img) (loaded img (inum_of i)) (Z.of_nat bn) ->
    mapped (kview img) (loaded img (inum_of j)) (Z.of_nat bm) ->
    fblock (kview img) (loaded img (inum_of i)) (Z.of_nat bn)
    = fblock (kview img) (loaded img (inum_of j)) (Z.of_nat bm) -> i = j /\ bn = bm
}.

(** The files once the root's size has been rounded and the bitmap written. *)
Definition final_size (i : nat) (b : list Z) : Z :=
  let n := Z.of_nat (length b) in if decide (i = 0)%nat then (n / BSIZE + 1) * BSIZE else n.

Section finish.
Context (s : mkst) (fs : list (Z * list Z)) (L : list (list Z * Z)) (r : list Z).
Context (HR : rep s fs L) (H0 : fs !! 0%nat = Some (T_DIR, r)) (Hn : (length fs <= 207)%nat).

(** The last two steps of main(). *)
Lemma finish_ok :
  exists s', (fix_root_size 1 ;; s0 ← (fun s => Some (s, s)); balloc (m_freeblock s0)) s = Some (tt, s')
    /\ img_ok (m_img s')
    /\ sect (m_img s') 1 = sect (m_img s) 1
    /\ sect (m_img s') 46 = mark_used (Z.to_nat (m_freeblock s)) 0 zeroes
    /\ (forall n, nmeta <= n < FSSIZE -> sect (m_img s') n = sect (m_img s) n)
    /\ (forall i t b bl ib, fs !! i = Some (t, b) -> L !! i = Some (bl, ib) ->
          dinode_at (m_img s') (inum_of i) = mkDinode t 0 0 1 (final_size i b) (addrs_of bl ib)).
Proof using HR H0 Hn.
  destruct (lookup_lt_is_Some_2 L 0%nat) as [[bl ib] HL0].
  { rewrite (rp_len _ _ _ HR). by eapply lookup_lt_Some. }
  pose proof (rp_file _ _ _ HR _ _ _ _ _ H0 HL0) as [Hd [Hlen Hmax] Ht _].
  pose proof (rp_good _ _ _ HR) as Hg. pose proof (rep_holds _ _ _ _ _ _ _ _ HR H0 HL0) as Hh.
  change (inum_of 0) with 1 in Hd.
  set (d := mkDinode T_DIR 0 0 1 ((Z.of_nat (length r) / BSIZE + 1) * BSIZE) (addrs_of bl ib)).
  assert (dinode_ok d) as Hok.
  { destruct (holds_dinode_ok s r bl ib T_DIR (length r) Hg Hh Ht Hmax) as [? ? ? ? Hs ?]. split; try done.
    cbn [di_size d] in *. change BSIZE with 1024. pose proof (Z.div_mod (Z.of_nat (length r)) 1024).
    pose proof (Z.mod_pos_bound (Z.of_nat (length r)) 1024). unfold d. cbn [di_size]. lia. }
  destruct (winode_ok 1 d s (gd_img _ Hg) ltac:(lia) Hok) as (Ew & Hi1 & Hself & Hother & Hsec).
  set (s1 := put_dinode 1 d s) in *. pose proof (gd_fb _ Hg) as Hfb. rewrite nmeta_val in *. unfold FSSIZE in *.
  assert (forall n, 0 <= n -> sect (m_img (put_sect 46 (mark_used (Z.to_nat (m_freeblock s)) 0 zeroes) s1)) n
    = if decide (n = 46) then mark_used (Z.to_nat (m_freeblock s)) 0 zeroes else sect (m_img s1) n) as Hs
    by (intros; apply sect_put; [done|unfold FSSIZE; lia|done]).
  exists (put_sect 46 (mark_used (Z.to_nat (m_freeblock s)) 0 zeroes) s1). split_and!.
  - assert (fix_root_size 1 s = Some (tt, s1)) as E
      by (unfold fix_root_size; erewrite bind_M by (apply rinode_ok; [apply Hg|lia]); rewrite Hd; exact Ew).
    erewrite bind_M by exact E. erewrite bind_M by reflexivity. unfold balloc.
    erewrite bind_M by (unfold assert_; rewrite (proj2 (Z.ltb_lt _ _)) by (change BPB with 8192; cbn; lia); reflexivity).
    apply wsect_ok; [done|]. change (sb_bmapstart sb) with 46. unfold FSSIZE. lia.
  - apply img_ok_put; [done|]. by rewrite length_mark_used.
  - rewrite Hs, decide_False by lia. apply Hsec; unfold FSSIZE; lia.
  - by rewrite Hs, decide_True by lia.
  - intros n Hr. rewrite Hs, decide_False by lia. apply Hsec; unfold FSSIZE; lia.
  - intros i t b bl' ib' Hf HL. pose proof (lookup_lt_Some _ _ _ Hf) as Hlt.
    assert (0 <= inum_of i < 208) as Hin by (unfold inum_of; lia). destruct (IBLOCK_range _ Hin) as [_ Hb].
    unfold dinode_at at 1. rewrite Hs, decide_False by lia. fold (dinode_at (m_img s1) (inum_of i)). unfold final_size.
    case_decide as Hi; [subst i; rewrite H0 in Hf; rewrite HL0 in HL; simplify_eq; exact Hself|].
    rewrite Hother by (unfold inum_of; lia). apply (rp_file _ _ _ HR _ _ _ _ _ Hf HL).
Qed.

End finish.

Lemma read_superblock_ok : read_superblock (put_bytes zeroes 0 sb_bytes) = sb.
Proof. vm_compute. reflexivity. Qed.

(** main() up to the rounding of the root's size. *)
Lemma mkfs_files_ok files :
  fits files -> exists s L, rep s (final_fs files) L /\
    mkfs files mk_start = (fix_root_size 1 ;; s0 ← (fun s => Some (s, s)); balloc (m_freeblock s0)) s.
Proof.
  intros (Hok & Hn & Hcap). unfold first_free, final_fs, root_dir in Hcap. rewrite app_assoc, total_cons in Hcap.
  pose proof (total_nonneg (contents <$> files)) as Hnn.
  destruct (ialloc_ok blank_image [] [] T_DIR rep_blank ltac:(cbn; lia) ltac:(unfold T_DIR; lia)) as (s1 & E1 & HR1).
  cbn [app] in HR1.
  set (d1 := dirent 1 (str ".")) in *. set (d2 := dirent 1 (str "..")) in *.
  assert (length d1 = 16%nat /\ length d2 = 16%nat) as [Hl1 Hl2] by (split; apply length_dirent).
  assert (forall b, (length b <= length ((d1 ++ d2) ++ dirents 2 files))%nat -> nmeta + total [(T_DIR, b)] <= FSSIZE) as Hfit.
  { intros b Hb. rewrite total_cons. change (total []) with 0. pose proof (weight_mono T_DIR T_DIR _ _ Hb). lia. }
  destruct (iappend_ok s1 _ _ 0%nat T_DIR [] d1 HR1 eq_refl) as (s2 & L2 & E2 & HR2);
    [cbn; lia|cbn [app]; rewrite Hl1; lia|apply Hfit; cbn [app]; rewrite !length_app; lia|].
  cbn [insert list_insert app] in HR2.
  destruct (iappend_ok s2 _ _ 0%nat T_DIR d1 d2 HR2 eq_refl) as (s3 & L3 & E3 & HR3);
    [cbn; lia|rewrite length_app, Hl1, Hl2; lia|apply Hfit; rewrite !length_app; lia|].
  cbn [insert list_insert] in HR3.
  destruct (add_files_ok files s3 (d1 ++ d2) [] L3 HR3 Hok) as (s4 & L4 & E4 & HR4);
    [cbn; lia|rewrite length_app, Hl1, Hl2; lia|cbn [length app]; rewrite total_cons; exact Hcap|].
  exists s4, L4. split; [unfold final_fs, root_dir; rewrite app_assoc; exact HR4|].
  unfold mkfs. erewrite bind_M by (apply (zero_loop_ok _ 0)). cbn [Nat.add].
  erewrite bind_M by (apply wsect_ok; [split; [apply length_replicate|by apply Forall_replicate; apply length_replicate]|unfold FSSIZE; lia]).
  fold blank_image. erewrite bind_M by exact E1. change (inum_of (length (@nil (Z * list Z)))) with 1.
  erewrite bind_M by reflexivity. erewrite bind_M by exact E2. erewrite bind_M by exact E3.
  erewrite bind_M by exact E4. reflexivity.
Qed.

(** *** The kernel's view of the final image *)
Section image.
Context (s s' : mkst) (files : list (list Z * list (list Z))) (L : list (list Z * Z)).
Context (HR : rep s (final_fs files) L) (Himg : img_ok (m_img s')).
Context (Hsec : forall n, nmeta <= n < FSSIZE -> sect (m_img s') n = sect (m_img s) n).
Context (Hdin : forall i t b bl ib, final_fs files !! i = Some (t, b) -> L !! i = Some (bl, ib) ->
  dinode_at (m_img s') (inum_of i) = mkDinode t 0 0 1 (final_size i b) (addrs_of bl ib)).

Lemma image_file i t b :
  final_fs files !! i = Some (t, b) -> exists bl ib, L !! i = Some (bl, ib) /\
    data_rep (m_img s') b bl ib /\ Forall (fun x => nmeta <= x < FSSIZE) (blocks_of bl ib) /\
    length bl = nblk (length b) /\ (length b <= 268 * B)%nat.
Proof using HR Hsec.
  intros Hf. destruct (lookup_lt_is_Some_2 L i) as [[bl ib] HL].
  { rewrite (rp_len _ _ _ HR). by eapply lookup_lt_Some. }
  exists bl, ib. pose proof (rep_blocks _ _ _ _ _ _ _ _ HR Hf HL) as Hr. pose proof (gd_fb _ (rp_good _ _ _ HR)).
  destruct (rp_file _ _ _ HR _ _ _ _ _ Hf HL) as [_ [Hl Hm] _ Hdat]. split_and!; try done.
  - apply (data_rep_frame (m_img s)); [done|]. intros x Hx. rewrite Forall_forall in Hr. apply Hr in Hx. apply Hsec. lia.
  - eapply Forall_impl; [exact Hr|]. cbn. lia.
Qed.

Lemma image_stored i t b :
  final_fs files !! i = Some (t, b) -> stored (m_img s') (inum_of i) t b (final_size i b).
Proof using HR Himg Hsec Hdin.
  intros Hf. destruct (image_file _ _ _ Hf) as (bl & ib & HL & Hdat & Hr & Hl & Hm). by eapply seen_stored; eauto.
Qed.

(** A mapped block is one of the file's, and none of another file's. *)
Lemma image_block i bn :
  (i <= length files)%nat -> mapped (kview (m_img s')) (loaded (m_img s') (inum_of i)) (Z.of_nat bn) ->
  exists bl ib x, L !! i = Some (bl, ib) /\ bl !! bn = Some x /\ nmeta <= x < first_free files /\
    fblock (kview (m_img s')) (loaded (m_img s') (inum_of i)) (Z.of_nat bn) = x.
Proof using HR Himg Hsec Hdin.
  intros Hi Hm. destruct (lookup_lt_is_Some_2 (final_fs files) i) as [[t b] Hf].
  { unfold final_fs. cbn [length]. rewrite length_fmap. lia. }
  destruct (image_file _ _ _ Hf) as (bl & ib & HL & Hdat & Hr & Hl & Hmax).
  pose proof (Hdin _ _ _ _ _ Hf HL) as Hd. erewrite (seen_mapped _ _ _ _ b bl ib) in Hm by done.
  destruct (lookup_lt_is_Some_2 bl bn Hm) as [x Hx]. exists bl, ib, x. split_and!; try done.
  1, 2: pose proof (rep_blocks _ _ _ _ _ _ _ _ HR Hf HL) as Hr'; rewrite (rep_total _ _ _ HR) in Hr';
    apply (Forall_lookup_1 _ _ bn x Hr'); by apply lookup_app_l_Some.
  erewrite (seen_fblock _ _ _ _ b bl ib) by done. by apply list_lookup_total_correct.
Qed.

Lemma image_apart i j bn bm bl ib bl' ib' x :
  L !! i = Some (bl, ib) -> L !! j = Some (bl', ib') -> bl !! bn = Some x -> bl' !! bm = Some x -> i = j /\ bn = bm.
Proof using HR.
  intros HL HL' Hx Hy. destruct (decide (i = j)) as [->|Hne].
  - simplify_eq. split; [done|]. pose proof (rp_nodup _ _ _ HR) as Hnd.
    rewrite (all_blocks_delete _ _ _ _ HL) in Hnd. apply NoDup_app in Hnd as (Hnd & _).
    apply NoDup_app in Hnd as (Hnd & _). by eapply NoDup_lookup.
  - exfalso. eapply (rep_disjoint L i j); [apply HR|exact HL|exact HL'|done| |];
      apply elem_of_app; left; by eapply list_elem_of_lookup_2.
Qed.

Lemma image_ok :
  sect (m_img s') 1 = sect (m_img s) 1 ->
  sect (m_img s') 46 = mark_used (Z.to_nat (m_freeblock s)) 0 zeroes ->
  image_of files (m_img s').
Proof using HR Himg Hsec Hdin.
  intros H1 H46. pose proof (rep_total _ _ _ HR) as Hfree. fold (first_free files) in Hfree.
  pose proof (gd_fb _ (rp_good _ _ _ HR)) as Hfb.
  split; [done|by rewrite H1, (rp_sb _ _ _ HR), read_superblock_ok|exact (image_stored 0%nat _ _ eq_refl)| | | |].
  - intros i f Hf. replace (Z.of_nat i + 2) with (inum_of (S i)) by (unfold inum_of; lia).
    apply (image_stored (S i) T_FILE). change ((contents <$> files) !! i = Some (T_FILE, concat f.2)).
    by rewrite list_lookup_fmap, Hf.
  - intros n Hnr. unfold FSSIZE in *. assert (BBLOCK n sb = 46) as ->.
    { unfold BBLOCK. change BPB with 8192. rewrite Z.div_small by lia. reflexivity. }
    change BPB with 8192. rewrite Z.mod_small, H46, mark_used_bit, bit_set_zeroes, orb_false_r by (lia || done).
    rewrite Z2Nat.id by (rewrite nmeta_val in *; lia). rewrite Hfree. destruct (Z.leb_spec 0 n); [done|lia].
  - intros i bn Hi Hm. by destruct (image_block i bn Hi Hm) as (bl & ib & x & _ & _ & Hx & ->).
  - intros i j bn bm Hi Hj Hmi Hmj E. destruct (image_block i bn Hi Hmi) as (bl & ib & x & HL & Hx & _ & E1).
    destruct (image_block j bm Hj Hmj) as (bl' & ib' & y & HL' & Hy & _ & E2). rewrite E1, E2 in E. subst y.
    by eapply image_apart.
Qed.
End image.

(** C15: mkfs builds the file system it was asked for.  For every list of files
    whose names and sizes are acceptable and that fit the disk, however read()
    cuts them into pieces, mkfs completes, and in the image: the super block
    read by the kernel's readsb() is the intended layout; the kernel's inode 1
    is a directory with the entries ".", ".." and one for each file, in
    order, and inode [i + 2] is the file [i] with exactly its size; each byte
    of their contents is what the kernel's block map finds at its offset,
    through the direct addresses and the indirect block; no two of these
    blocks are the same, and the bitmap the kernel allocates from marks as
    used exactly the blocks below the first free one. *)
Theorem mkfs_builds_image files :
  fits files -> exists s, mkfs files mk_start = Some (tt, s) /\ image_of files (m_img s).
Proof.
  intros Hfit. destruct (mkfs_files_ok files Hfit) as (s & L & HR & E). destruct Hfit as (_ & Hn & _).
  destruct (finish_ok s (final_fs files) L (root_dir files) HR eq_refl) as (s' & E' & Hi & H1 & H46 & Hsec & Hdin).
  { unfold final_fs. cbn [length]. rewrite length_fmap. lia. }
  exists s'. rewrite E. split; [exact E'|]. by eapply image_ok.
Qed.

(** A file in two pieces and one that needs its indirect block. *)
Definition demo_files : list (list Z * list (list Z)) :=
  [(str "user/_cat", [replicate 1024 65; replicate 100 66]); (str "README", replicate 14 (replicate 1024 67))].

Lemma demo_fits : fits demo_files.
Proof.
  split_and!; [|cbn; lia|vm_compute; discriminate].
  unfold demo_files. apply Forall_cons_2; [|apply Forall_cons_2; [|apply Forall_nil_2]].
  all: split_and!; [refine (proj1 (bool_decide_eq_true (_ ∉ _)) _); vm_compute; reflexivity|apply Nat.leb_le; vm_compute; reflexivity..].
Qed.

Lemma mkfs_builds_image_witness :
  exists s, mkfs demo_files mk_start = Some (tt, s) /\
    stored (m_img s) 3 T_FILE (concat (replicate 14 (replicate 1024 67)))
      (Z.of_nat (length (concat (replicate 14 (replicate 1024 67))))) /\ m_freeblock s = 65.
Proof.
  destruct (mkfs_builds_image demo_files demo_fits) as (s & E & H). exists s. split; [exact E|]. split.
  - exact (io_file _ _ H 1%nat (str "README", replicate 14 (replicate 1024 67)) eq_refl).
  - assert ((fun r => match r with Some (_, s) => m_freeblock s | None => 0 end) (mkfs demo_files mk_start) = 65) as E'
      by (vm_compute; reflexivity).
    rewrite E in E'. exact E'.
Defined.
